(* ===== verification/_CoqProject ===== *)
-Q . S2P
Prelude.v
Machine.v
Alloc.v
PageTable.v
AddrSpace.v
UserMem.v
Pipe.v
FdTable.v
Fs.v
Dirs.v
Loader.v
Net.v
NetSpec.v
Kernel.v
Access.v
Devices.v
Proc.v
Progress.v
Boot.v
Sched.v
SysFile.v
SysProc.v
SysSpec.v
StdinSpec.v
MemSpec.v
Dispatch.v
EpollSpec.v
KernelInv.v
SysInv.v
TrapSpec.v
