(* ===== verification/Prelude.v ===== *)
(** * RVOS: verification of a RISC-V kernel written in Rust

    RVOS is a single-hart kernel for the QEMU machine [virt]. It boots into a
    busybox shell and runs unmodified Linux programs: SV39 address spaces, an
    ELF loader, processes with [fork]/[execve]/[wait4], a round-robin scheduler,
    an in-memory file system, pipes, a serial console and TCP sockets over a
    VirtIO card. This library translates the Rust sources into functions and
    proves what they do.

    ** The program and the files that model it

    - [mm.rs]: [Alloc] (the kernel heap and the frame allocator), [PageTable]
      ([PageTable], [map], [unmap], [translate]), [AddrSpace] (the kernel's
      identity map, [clone_user_space], [init_kernel_page_table]), [UserMem]
      (address spaces as the loader and [fork] see them).
    - [fs.rs]: [Fs] (files, inodes, [read_inode], [write_inode], [fs::init]) and
      [Dirs] ([read_dir] and its records).
    - [proc.rs]: [Loader] ([load_elf_into], [build_stack]), [Proc] ([Process],
      [exec_process], [fork_process], [exit_process], [run_user]), [Progress]
      (the loader ends).
    - [syscall.rs]: [Pipe] and [FdTable] (its data structures), [SysFile],
      [SysProc] and [Dispatch] (every system call and the table of numbers).
    - [trap.rs]: [Sched] ([trap_vector] and [do_schedule]) and [Dispatch]
      ([rust_trap_handler], and [trap], which runs all of it).
    - [net.rs], [virtio.rs], [sbi.rs]: [Net] (descriptors and sockets) and
      [Devices] (the memory lent to the driver, the search for the card, the
      device under the TCP/IP stack, [net::init], firmware calls).
    - [console.rs] and [main.rs]: [Kernel] (console, logger) and [Boot]
      ([rust_main]).

    [Prelude] has the integers, the monad and the program logic, [Machine] byte
    memory and ordered maps, [Kernel] the state of the whole kernel as one record and
    the supervisor's loads and stores. [Access], [NetSpec], [SysSpec],
    [StdinSpec], [MemSpec], [EpollSpec], [KernelInv], [SysInv] and [TrapSpec] add
    no code of the kernel; they specify it.

    ** How the code is represented

    A [usize] is a [Z] with its wrap-around written out ([+w], [-w], [*w], as in
    the release profile). Kernel code is a function [M S A] from the state to an
    outcome: it returns, panics, loops for ever or switches the machine off. A
    system call works on the record [kernel], one field for each static; the
    lenses [on_mm], [on_fs], [on_fdt] and [on_net] lift the components. Physical
    memory is a finite map from addresses to bytes: page tables, user pages,
    trap frames and DMA pages all live in it, and a user pointer is followed
    byte by byte through the table that [satp] selects. A [BTreeMap] is a [gmap]
    read in key order. A fault in supervisor mode ends in the handler's endless
    loop.

    Code outside the repository is a parameter: the ELF parser is the function
    [elf_new]; [smoltcp] is the class [NetStack] with the laws [NetLaws];
    [virtio_drivers] is the class [VirtIONet] with [VirtIOLaws] and
    [driver_starts]; [NetBoot] joins the two. Each has a small instance, over
    which the examples run. The embedded binaries are lists of bytes.

    ** What is proved

    - The machine from power-on: [Boot] shows that [rust_main] reaches the
      shell's first instruction with its image in place; [SysInv] that from
      there on, whatever user code does and whichever traps it takes, the
      kernel's tables stay consistent.
    - Traps: [TrapSpec] and [Sched] give the registers with which a process
      continues after a system call, after [execve] and after a context switch;
      the scheduler is fair, marks one process as running and powers off when
      none is left.
    - Memory: frames and heap blocks are disjoint and zeroed ([Alloc]); page
      tables implement a partial map ([PageTable]); the kernel sees RAM and
      devices at their physical addresses ([Kernel]); [fork] copies the address
      space ([Proc]); [brk] and [mmap] back the pages they should ([MemSpec]);
      the driver gets memory that it and the card agree on ([Devices]).
    - Data: the pipe refines a bounded queue ([Pipe]); descriptor and inode
      tables are partial maps with the expected updates ([FdTable], [Fs]);
      [getdents64] lists a directory completely and exactly ([Dirs]); [read] and
      [write] move the bytes they say through user memory ([SysSpec]); the line
      editor of the console edits a list ([StdinSpec]).
    - Network: no stale socket handle is used ([NetSpec]), no receive buffer is
      lost ([Devices]), and waiting for events with a timeout ends
      ([EpollSpec]).
    - Where the code fails, a theorem or lemma says how: overlapping ranges of heap and
      frames, panics by [lseek] and [dup2], the endless loop of a read-only
      [mmap], the retried [wait4] that forgets its argument.

    ** Bounds

    [mloop] bounds a [loop] by 2^64 turns and treats more as an endless loop;
    [epoll_pwait] is shown to end far earlier, and the line editor uses one turn
    for each byte of input. Fuel elsewhere is the bound the code itself has: 4097
    bytes of a string, 129 arguments, the number of vectors or of poll
    descriptors. The page loop of the loader has as much fuel as frames are
    left, plus two; [Progress] shows that it never runs out. The counters for
    inodes, pipes, descriptors and pids are assumed not to reach 2^64.

    ** What is not modelled

    - [entry.asm] and [linker.ld]: the code before [rust_main]; the end of the
      kernel image is a parameter. [libnss_files.c] is a user-space library.
    - [console::init] is empty; [trap::init] sets [stvec], a register outside the
      model. [dump_pte], [load_elf] and [sys_getsid] have no caller.
    - Floating-point registers, which [trap_vector] does not save either.
    - The heap blocks of the kernel's own containers: a request above the 16 MiB
      of the heap panics, otherwise a container is a value. User stores to
      addresses the kernel maps for itself change memory, not these values.
    - Locks: there is one hart, no interrupt is enabled, and no modelled path takes
      a lock twice.
    - The floating-point registers: no code of the kernel saves or restores them.
    - The text of log messages below level [Warn], of panics, and of the report
      before the endless loop of an unexpected trap.
    - Sockets before [net::init] has run: without a card the socket set is
      never initialised, and the model gives it the value in [k_net]. *)

From stdpp Require Export base numbers list list_numbers gmap sorting strings fin_maps.
From Stdlib Require Export ZArith Lia.

Global Open Scope Z_scope.

(** ** Machine integers

    A [usize]/[u64] is a [Z] between 0 and 2^64; the release profile wraps. *)

Definition wrap64 (z : Z) : Z := z mod 2 ^ 64.
Definition u32 (z : Z) : Z := z mod 2 ^ 32.
Definition u16 (z : Z) : Z := z mod 2 ^ 16.
Definition u8 (z : Z) : Z := z mod 2 ^ 8.

(** [!x] on a [usize]. *)
Definition not64 (z : Z) : Z := 2 ^ 64 - 1 - z.

(** [x << n] and [x >> n] on a [usize]. *)
Definition shl64 (z n : Z) : Z := wrap64 (Z.shiftl z n).
Definition shr64 (z n : Z) : Z := Z.shiftr z n.

(** [x as isize] and [x as usize]. *)
Definition as_isize (z : Z) : Z := if z <? 2 ^ 63 then z else z - 2 ^ 64.
Definition as_usize (z : Z) : Z := wrap64 z.

(** [usize::saturating_add] and [usize::saturating_sub]. *)
Definition saturating_add (a b : Z) : Z := Z.min (a + b) (2 ^ 64 - 1).
Definition saturating_sub (a b : Z) : Z := Z.max (a - b) 0.

Declare Scope rvos_scope.
Delimit Scope rvos_scope with rvos.
Notation "a +w b" := (wrap64 (a + b)) (at level 50, left associativity) : rvos_scope.
Notation "a -w b" := (wrap64 (a - b)) (at level 50, left associativity) : rvos_scope.
Notation "a *w b" := (wrap64 (a * b)) (at level 40, left associativity) : rvos_scope.
Global Open Scope rvos_scope.

Definition in_usize (z : Z) : Prop := 0 ≤ z < 2 ^ 64.

(** ** Outcomes and the kernel monad

    A run of kernel code returns, panics (the panic handler prints and loops),
    hangs (a [loop {}], or a fault taken in supervisor mode) or powers off. *)

Inductive outcome (A : Type) : Type :=
  | Ret (a : A)
  | Panic
  | Hang
  | Shutdown.
Arguments Ret {A} _.
Arguments Panic {A}.
Arguments Hang {A}.
Arguments Shutdown {A}.

Definition M (S A : Type) : Type := S → outcome (A * S).

Definition ret {S A} (a : A) : M S A := λ s, Ret (a, s).
Definition bind {S A B} (m : M S A) (f : A → M S B) : M S B := λ s,
  match m s with
  | Ret (a, s') => f a s'
  | Panic => Panic
  | Hang => Hang
  | Shutdown => Shutdown
  end.
Definition panic {S A} : M S A := λ _, Panic.
Definition hang {S A} : M S A := λ _, Hang.
Definition shutdown {S A} : M S A := λ _, Shutdown.
Definition gets {S A} (f : S → A) : M S A := λ s, Ret (f s, s).
Definition modify {S} (f : S → S) : M S unit := λ s, Ret (tt, f s).

(** Run a computation on a part of a larger state. *)
Definition zoom {S T A} (get : S → T) (set : T → S → S) (m : M T A) : M S A := λ s,
  match m (get s) with
  | Ret (a, t) => Ret (a, set t s)
  | Panic => Panic
  | Hang => Hang
  | Shutdown => Shutdown
  end.

Notation "'let!' x := m 'in' k" := (bind m (λ x, k))
  (at level 10, x pattern, m at level 200, k at level 200) : rvos_scope.
Notation "'do!' m 'in' k" := (bind m (λ _, k))
  (at level 10, m at level 200, k at level 200) : rvos_scope.

(** The [?] operator on an [Option]. *)
Definition try_opt {S A B} (m : M S (option A)) (f : A → M S (option B)) : M S (option B) :=
  bind m (λ o, match o with Some a => f a | None => ret None end).
Notation "'let?' x := m 'in' k" := (try_opt m (λ x, k))
  (at level 10, x pattern, m at level 200, k at level 200) : rvos_scope.

(** [.expect(..)] and [.unwrap()] on an [Option]. *)
Definition expect {S A} (m : M S (option A)) : M S A :=
  bind m (λ o, match o with Some a => ret a | None => panic end).

(** [for x in l { f(x) }], and the same loop whose body may leave the
    enclosing function with [?]. *)
Fixpoint mfor {S X} (l : list X) (f : X → M S unit) : M S unit :=
  match l with
  | [] => ret tt
  | x :: l' => do! f x in mfor l' f
  end.
Fixpoint mfor_opt {S X} (l : list X) (f : X → M S (option unit)) : M S (option unit) :=
  match l with
  | [] => ret (Some tt)
  | x :: l' => let? _ := f x in mfor_opt l' f
  end.

(** [loop { .. }]: the body asks for another turn ([inl]) or leaves the loop
    ([inr]). At most [p] turns are taken, [p] in binary, so that a bound like
    2^64 costs nothing. *)
Fixpoint turns {S A B} (p : positive) (f : A → M S (A + B)) (a : A) : M S (A + B) :=
  let half q a k :=
    let! r := turns q f a in match r with inl a' => k a' | inr b => ret (inr b) end in
  match p with
  | xH => f a
  | xO q => half q a (λ a, turns q f a)
  | xI q => half q a (λ a, half q a f)
  end.
Definition mloop {S A B} (bound : positive) (f : A → M S (A + B)) (a : A) : M S B :=
  let! r := turns bound f a in match r with inl _ => hang | inr b => ret b end.

(** [(lo..hi).step_by(step)]. *)
Definition range_step (lo hi step : Z) : list Z :=
  (λ k, lo + k * step) <$> seqZ 0 ((hi - lo + step - 1) / step).

(** ** Iteration order of [BTreeMap]: ascending keys *)

(** The total order of a key type ([Ord] in Rust). *)
Class KeyOrd (K : Type) := {
  ko_le : relation K;
  ko_dec :: RelDecision ko_le;
  ko_trans :: Transitive ko_le;
  ko_total :: Total ko_le;
  ko_antisym :: AntiSymm (=) ko_le
}.

#[export] Instance Z_ord : KeyOrd Z := { ko_le := Z.le }.

(** Strings are ordered by their bytes. *)
Fixpoint str_leb (s t : string) : bool :=
  match s, t with
  | EmptyString, _ => true
  | String _ _, EmptyString => false
  | String a s', String b t' =>
      match (Ascii.N_of_ascii a ?= Ascii.N_of_ascii b)%N with
      | Lt => true
      | Eq => str_leb s' t'
      | Gt => false
      end
  end.
Definition str_le (s t : string) : Prop := str_leb s t = true.

#[export] Instance str_le_dec : RelDecision str_le.
Proof. intros s t. unfold str_le. apply _. Defined.
#[export] Instance str_le_trans : Transitive str_le.
Proof.
  unfold str_le. intros s. induction s as [|a s IH]; intros [|b t] [|c u]; cbn; try done.
  destruct (N.compare_spec (Ascii.N_of_ascii a) (Ascii.N_of_ascii b)),
    (N.compare_spec (Ascii.N_of_ascii b) (Ascii.N_of_ascii c)),
    (N.compare_spec (Ascii.N_of_ascii a) (Ascii.N_of_ascii c)); done || lia || eauto.
Qed.
#[export] Instance str_le_total : Total str_le.
Proof.
  unfold str_le. intros s. induction s as [|a s IH]; intros [|b t]; cbn; auto.
  rewrite (N.compare_antisym (Ascii.N_of_ascii b)).
  destruct (Ascii.N_of_ascii b ?= Ascii.N_of_ascii a)%N; cbn; auto.
Qed.
#[export] Instance str_le_antisym : AntiSymm (=) str_le.
Proof.
  unfold str_le. intros s. induction s as [|a s IH]; intros [|b t]; cbn; try done.
  rewrite (N.compare_antisym (Ascii.N_of_ascii b)).
  destruct (N.compare_spec (Ascii.N_of_ascii b) (Ascii.N_of_ascii a)) as [E| |]; cbn; try done.
  intros H1 H2. f_equal; [|by apply IH].
  rewrite <-(Ascii.ascii_N_embedding a), <-(Ascii.ascii_N_embedding b). congruence.
Qed.
#[export] Instance string_ord : KeyOrd string := { ko_le := str_le }.

Section BTreeMap.
Context {K : Type} `{Countable K, KeyOrd K}.

Definition key_le {V} (p q : K * V) : Prop := ko_le p.1 q.1.
#[global] Instance key_le_dec {V} : RelDecision (@key_le V).
Proof. intros p q. unfold key_le. apply _. Defined.
Definition bt_iter {V} (m : gmap K V) : list (K * V) := merge_sort key_le (map_to_list m).

(** Searching in iteration order. *)
Definition bt_find {V} (P : K → V → bool) (m : gmap K V) : option (K * V) :=
  snd <$> list_find (λ kv, P kv.1 kv.2 = true) (bt_iter m).
End BTreeMap.

(** ** Postconditions: [wp m s Q] says that [m] returns from [s], with [Q] *)

Definition wp {S A} (m : M S A) (s : S) (Q : A → S → Prop) : Prop :=
  match m s with Ret (a, s') => Q a s' | _ => False end.

Create HintDb rvos.

Section Wp.
Context {S : Type}.

Lemma wp_ret {A} (a : A) (s : S) (Q : A → S → Prop) : Q a s → wp (ret a) s Q.
Proof. done. Qed.

Lemma wp_bind {A B} (m : M S A) (f : A → M S B) s Q :
  wp m s (λ a s', wp (f a) s' Q) → wp (bind m f) s Q.
Proof. unfold wp, bind. by destruct (m s) as [[a s']| | |]. Qed.

Lemma wp_try_opt {A B} (m : M S (option A)) (f : A → M S (option B)) s Q :
  wp m s (λ o s', match o with Some a => wp (f a) s' Q | None => Q None s' end) →
  wp (try_opt m f) s Q.
Proof.
  intros H. unfold try_opt. apply wp_bind. revert H. unfold wp.
  destruct (m s) as [[[a|] s']| | |]; done.
Qed.

Lemma wp_expect {A} (m : M S (option A)) s Q :
  wp m s (λ o s', match o with Some a => Q a s' | None => False end) → wp (expect m) s Q.
Proof.
  intros H. apply wp_bind. revert H. unfold wp. destruct (m s) as [[[a|] s']| | |]; done.
Qed.

Lemma wp_mono {A} (m : M S A) s (P Q : A → S → Prop) :
  wp m s P → (∀ a s', P a s' → Q a s') → wp m s Q.
Proof. unfold wp. destruct (m s) as [[a s']| | |]; naive_solver. Qed.

Lemma wp_gets {A} (f : S → A) s Q : Q (f s) s → wp (gets f) s Q.
Proof. done. Qed.

Lemma wp_modify (f : S → S) s Q : Q tt (f s) → wp (modify f) s Q.
Proof. done. Qed.

Lemma wp_run {A} (m : M S A) s Q : wp m s Q → ∃ a s', m s = Ret (a, s') ∧ Q a s'.
Proof. unfold wp. destruct (m s) as [[a s']| | |]; naive_solver. Qed.

Lemma wp_of_run {A} (m : M S A) s a s' (Q : A → S → Prop) :
  m s = Ret (a, s') → Q a s' → wp m s Q.
Proof. unfold wp. by intros ->. Qed.

(** The loop rule: [I] holds of the iterations already made. *)
Lemma wp_mfor_from {X} (I : list X → S → Prop) (l pre : list X) f s :
  I pre s →
  (∀ pr x rest s', pre ++ l = pr ++ x :: rest → I pr s' →
     wp (f x) s' (λ _ s'', I (pr ++ [x]) s'')) →
  wp (mfor l f) s (λ _ s', I (pre ++ l) s').
Proof.
  revert pre s. induction l as [|x l IH]; intros pre s HI Hstep; simpl.
  - rewrite app_nil_r. by apply wp_ret.
  - apply wp_bind. eapply wp_mono; [by eapply (Hstep pre x l)|].
    intros [] s' HI'. specialize (IH (pre ++ [x]) s' HI').
    rewrite <-app_assoc in IH. apply IH. intros pr y rest s'' Heq.
    apply (Hstep pr y rest s''). rewrite <-Heq. done.
Qed.

Lemma wp_mfor {X} (I : list X → S → Prop) (l : list X) f s :
  I [] s →
  (∀ pr x rest s', l = pr ++ x :: rest → I pr s' →
     wp (f x) s' (λ _ s'', I (pr ++ [x]) s'')) →
  wp (mfor l f) s (λ _ s', I l s').
Proof. intros H Hs. by apply (wp_mfor_from I l []). Qed.

(** The rule for an invariant of the state alone. *)
Lemma wp_mfor_inv {X} (I : S → Prop) (l : list X) f s : I s →
  (∀ x s', x ∈ l → I s' → wp (f x) s' (λ _ s'', I s'')) → wp (mfor l f) s (λ _ s', I s').
Proof.
  intros HI Hf. apply (wp_mfor (λ _, I)); [done|]. intros pr x rest s' -> HI'. apply Hf; [|done].
  apply elem_of_app. right. left.
Qed.

(** Loops over integer ranges, with an invariant indexed by the counter. *)
Lemma wp_mfor_opt_seqZ (I : Z → S → Prop) (E : S → Prop) lo n f s : 0 ≤ n →
  I lo s →
  (∀ x s', lo ≤ x < lo + n → I x s' →
     wp (f x) s' (λ o s'', match o with Some _ => I (x + 1) s'' | None => E s'' end)) →
  wp (mfor_opt (seqZ lo n) f) s (λ o s', match o with Some _ => I (lo + n) s' | None => E s' end).
Proof.
  intros Hn. revert lo s. pattern n. apply natlike_ind; [| |done].
  - intros lo s HI _. rewrite seqZ_nil by lia. apply wp_ret. by rewrite Z.add_0_r.
  - intros k Hk IH lo s HI Hstep. rewrite seqZ_cons by lia. cbn [mfor_opt].
    apply wp_try_opt. eapply wp_mono; [apply Hstep; [lia|done]|].
    intros [[]|] s'; [|done]. intros HI'. rewrite Z.pred_succ.
    replace (lo + Z.succ k) with (Z.succ lo + k) by lia. apply IH; [done|].
    intros x s'' Hx. apply Hstep. lia.
Qed.

Lemma wp_mfor_seqZ_map {X} (g : Z → X) (I : Z → S → Prop) lo n f s : 0 ≤ n →
  I lo s →
  (∀ x s', lo ≤ x < lo + n → I x s' → wp (f (g x)) s' (λ _ s'', I (x + 1) s'')) →
  wp (mfor (g <$> seqZ lo n) f) s (λ _ s', I (lo + n) s').
Proof.
  intros Hn. revert lo s. pattern n. apply natlike_ind; [| |done].
  - intros lo s HI _. rewrite seqZ_nil by lia. apply wp_ret. by rewrite Z.add_0_r.
  - intros k Hk IH lo s HI Hstep. rewrite seqZ_cons by lia. rewrite fmap_cons. cbn [mfor].
    apply wp_bind. eapply wp_mono; [apply Hstep; [lia|done]|].
    intros [] s' HI'. rewrite Z.pred_succ.
    replace (lo + Z.succ k) with (Z.succ lo + k) by lia. apply IH; [done|].
    intros x s'' Hx. apply Hstep. lia.
Qed.

Lemma wp_mfor_range (I : Z → S → Prop) lo hi step f s : 0 < step → lo ≤ hi → (hi - lo) mod step = 0 →
  I lo s →
  (∀ a s', lo ≤ a < hi → (a - lo) mod step = 0 → I a s' → wp (f a) s' (λ _ s'', I (a + step) s'')) →
  wp (mfor (range_step lo hi step) f) s (λ _ s', I hi s').
Proof.
  intros Hs Hle Hm HI Hstep. apply Z.mod_divide in Hm as [n Hn]; [|lia].
  assert (0 ≤ n) by nia. unfold range_step.
  replace (hi - lo + step - 1) with (n * step + (step - 1)) by lia.
  rewrite Z.div_add_l, (Z.div_small (step - 1)), Z.add_0_r by lia.
  replace hi with (lo + (0 + n) * step) by lia.
  apply (wp_mfor_seqZ_map (λ k, lo + k * step) (λ k, I (lo + k * step))); [done| |].
  - by rewrite Z.mul_0_l, Z.add_0_r.
  - intros k s' Hk HIk. replace (lo + (k + 1) * step) with (lo + k * step + step) by lia.
    apply Hstep; [nia| |done]. replace (lo + k * step - lo) with (k * step) by lia.
    apply Z.mod_mul. lia.
Qed.
End Wp.

(** The turns of a loop one by one. *)
Fixpoint nturns {S A B} (n : nat) (f : A → M S (A + B)) (a : A) : M S (A + B) :=
  match n with
  | O => ret (inl a)
  | S n' => let! r := f a in match r with inl a' => nturns n' f a' | inr b => ret (inr b) end
  end.

Lemma nturns_add {S A B} (f : A → M S (A + B)) n n' : ∀ a s, nturns (n + n') f a s =
  (let! r := nturns n f a in match r with inl a' => nturns n' f a' | inr b => ret (inr b) end) s.
Proof.
  induction n as [|n IH]; intros a s; cbn [nturns Nat.add]; [done|]. unfold bind in *.
  by destruct (f a s) as [[[a1|b] s1]| | |].
Qed.

Lemma turns_nturns {S A B} (f : A → M S (A + B)) p : ∀ a s, turns p f a s = nturns (Pos.to_nat p) f a s.
Proof.
  assert (∀ a s, f a s = nturns 1 f a s) as H1.
  { intros a s. cbn [nturns]. unfold bind, ret. by destruct (f a s) as [[[a1|b] s1]| | |]. }
  induction p as [q IH|q IH|]; intros a s; cbn [turns]; [| |apply H1].
  - replace (Pos.to_nat q~1) with (Pos.to_nat q + (Pos.to_nat q + 1))%nat by lia. rewrite nturns_add. unfold bind. rewrite IH.
    destruct (nturns _ f a s) as [[[a1|b] s1]| | |]; try done. rewrite nturns_add, IH. unfold bind.
    by destruct (nturns _ f a1 s1) as [[[a2|b] s2]| | |].
  - replace (Pos.to_nat q~0) with (Pos.to_nat q + Pos.to_nat q)%nat by lia. rewrite nturns_add. unfold bind. rewrite IH.
    by destruct (nturns _ f a s) as [[[a1|b] s1]| | |].
Qed.

(** [loop] with a variant: at most as many turns as its value. *)
Section Variant.
Context {S A B : Type} (I : A → S → Prop) (V : A → S → Z) (Q : B → S → Prop) (f : A → M S (A + B)).
Hypothesis Hf : ∀ a s, I a s →
  wp (f a) s (λ r s', match r with inl a' => I a' s' ∧ 0 ≤ V a' s' < V a s | inr b => Q b s' end).

Lemma wp_turns p : ∀ a s, I a s → wp (turns p f a) s (λ r s',
  match r with inl a' => I a' s' ∧ 0 ≤ V a' s' ≤ V a s - Zpos p | inr b => Q b s' end).
Proof.
  induction p as [q IH|q IH|]; intros a s HI; cbn [turns].
  - apply wp_bind. eapply wp_mono; [by apply IH|]. intros [a1|b] s1 H1; [|by apply wp_ret]. destruct H1 as [HI1 HV1].
    apply wp_bind. eapply wp_mono; [by apply IH|]. intros [a2|b] s2 H2; [|by apply wp_ret]. destruct H2 as [HI2 HV2].
    eapply wp_mono; [by apply Hf|]. intros [a3|b] s3 H3; [|done]. destruct H3. split; [done|lia].
  - apply wp_bind. eapply wp_mono; [by apply IH|]. intros [a1|b] s1 H1; [|by apply wp_ret]. destruct H1 as [HI1 HV1].
    eapply wp_mono; [by apply IH|]. intros [a2|b] s2 H2; [|done]. destruct H2. split; [done|lia].
  - eapply wp_mono; [by apply Hf|]. intros [a1|b] s1 H1; [|done]. destruct H1. split; [done|lia].
Qed.

Lemma wp_mloop p a s : I a s → V a s < Zpos p → wp (mloop p f a) s Q.
Proof.
  intros HI HV. apply wp_bind. eapply wp_mono; [by apply wp_turns|].
  intros [a1|b] s1 H1; [destruct H1; lia|by apply wp_ret].
Qed.
End Variant.

(** ** Partial postconditions: if [m] returns from [s], then with [Q] *)

Definition pwp {S A} (m : M S A) (s : S) (Q : A → S → Prop) : Prop :=
  match m s with Ret (a, s') => Q a s' | _ => True end.

Section Pwp.
Context {S : Type}.

Lemma pwp_bind {A B} (m : M S A) (f : A → M S B) s Q :
  pwp m s (λ a s', pwp (f a) s' Q) → pwp (bind m f) s Q.
Proof. unfold pwp, bind. by destruct (m s) as [[a s']| | |]. Qed.

Lemma pwp_try_opt {A B} (m : M S (option A)) (f : A → M S (option B)) s Q :
  pwp m s (λ o s', match o with Some a => pwp (f a) s' Q | None => Q None s' end) → pwp (try_opt m f) s Q.
Proof. intros H. apply pwp_bind. revert H. unfold pwp. destruct (m s) as [[[a|] s']| | |]; done. Qed.

Lemma pwp_mono {A} (m : M S A) s (P Q : A → S → Prop) :
  pwp m s P → (∀ a s', P a s' → Q a s') → pwp m s Q.
Proof. unfold pwp. destruct (m s) as [[a s']| | |]; naive_solver. Qed.

Lemma pwp_ret {A} (a : A) (s : S) (Q : A → S → Prop) : Q a s → pwp (ret a) s Q.
Proof. done. Qed.
Lemma pwp_gets {A} (f : S → A) s (Q : A → S → Prop) : Q (f s) s → pwp (gets f) s Q.
Proof. done. Qed.
Lemma pwp_modify (f : S → S) s (Q : unit → S → Prop) : Q tt (f s) → pwp (modify f) s Q.
Proof. done. Qed.

Lemma pwp_True {A} (m : M S A) s : pwp m s (λ _ _, True).
Proof. unfold pwp. by destruct (m s) as [[a s']| | |]. Qed.
Lemma pwp_run {A} (m : M S A) s a s' (Q : A → S → Prop) : pwp m s Q → m s = Ret (a, s') → Q a s'.
Proof. unfold pwp. intros H E. by rewrite E in H. Qed.

(** The rule for [loop]. *)
Lemma pwp_turns {A B} (I : S → Prop) (f : A → M S (A + B)) : (∀ a s, I s → pwp (f a) s (λ _ s', I s')) →
  ∀ p a s, I s → pwp (turns p f a) s (λ _ s', I s').
Proof.
  intros Hf p. induction p as [q IH|q IH|]; intros a s HI; cbn [turns]; [| |by apply Hf].
  all: apply pwp_bind; eapply pwp_mono; [by apply IH|]; cbn beta; intros [a1|b] s1 H1; [|done].
  - apply pwp_bind. eapply pwp_mono; [by apply IH|]. cbn beta. intros [a2|b] s2 H2; [by apply Hf|done].
  - by apply IH.
Qed.
Lemma pwp_mloop {A B} (I : S → Prop) (f : A → M S (A + B)) p a s : (∀ a s, I s → pwp (f a) s (λ _ s', I s')) →
  I s → pwp (mloop p f a) s (λ _ s', I s').
Proof.
  intros Hf HI. apply pwp_bind. eapply pwp_mono; [by apply pwp_turns|]. cbn beta. intros [a1|b] s1 H1; done.
Qed.
End Pwp.

#[export] Hint Resolve wp_ret wp_gets wp_modify : rvos.

Ltac wp_step :=
  first [ apply wp_bind | apply wp_try_opt | apply wp_expect | apply wp_ret
        | apply wp_gets | apply wp_modify ].

(** Take a monadic run apart: [H : m s = Ret r], one bind at a time. *)
Lemma bind_Ret {S A B} (m : M S A) (f : A → M S B) s r :
  bind m f s = Ret r → ∃ a s', m s = Ret (a, s') ∧ f a s' = Ret r.
Proof. unfold bind. destruct (m s) as [[a s']| | |]; naive_solver. Qed.

Lemma bind_run {S A B} (m : M S A) (f : A → M S B) s a s' :
  m s = Ret (a, s') → bind m f s = f a s'.
Proof. unfold bind. by intros ->. Qed.

Lemma try_opt_Ret {S A B} (m : M S (option A)) (f : A → M S (option B)) s r :
  try_opt m f s = Ret r →
  (∃ s', m s = Ret (None, s') ∧ r = (None, s')) ∨
  (∃ a s', m s = Ret (Some a, s') ∧ f a s' = Ret r).
Proof. unfold try_opt, bind, ret. destruct (m s) as [[[a|] s']| | |]; naive_solver. Qed.

(** ** Arithmetic on machine words *)

(** [lia] with division and remainder by constants. *)
Ltac dlia := Z.to_euclidean_division_equations; lia.

Lemma wrap64_small z : in_usize z → wrap64 z = z.
Proof. intros H. by apply Z.mod_small. Qed.

(** Remove the wraps of arithmetic that stays in range, innermost first. *)
Ltac unwrap :=
  repeat match goal with
  | |- context [wrap64 ?z] =>
      lazymatch z with
      | context [wrap64 _] => fail
      | _ => rewrite (wrap64_small z) by (unfold in_usize; dlia)
      end
  end.

Lemma wrap64_range z : in_usize (wrap64 z).
Proof. by apply Z.mod_pos_bound. Qed.

Lemma u8_range z : 0 ≤ u8 z < 256.
Proof. by apply Z.mod_pos_bound. Qed.

Lemma u8_small z : 0 ≤ z < 256 → u8 z = z.
Proof. intros. by apply Z.mod_small. Qed.

Lemma u8_idem z : u8 (u8 z) = u8 z.
Proof. apply u8_small, u8_range. Qed.

#[export] Hint Resolve wrap64_range u8_range : rvos.

Lemma shr64_div z n : 0 ≤ n → shr64 z n = z / 2 ^ n.
Proof. intros. unfold shr64. by apply Z.shiftr_div_pow2. Qed.

Lemma shl64_small z n : 0 ≤ n → 0 ≤ z → z * 2 ^ n < 2 ^ 64 → shl64 z n = z * 2 ^ n.
Proof.
  intros. unfold shl64. rewrite Z.shiftl_mul_pow2 by done.
  apply wrap64_small. unfold in_usize. nia.
Qed.

(** Testing a bit with a mask. *)
Lemma land_bit a i : 0 ≤ i → (Z.land a (2 ^ i) =? 0) = negb (Z.testbit a i).
Proof.
  intros Hi. assert (Z.land a (2 ^ i) = if Z.testbit a i then 2 ^ i else 0) as ->.
  { apply Z.bits_inj'. intros n Hn. rewrite Z.land_spec, Z.pow2_bits_eqb by done.
    destruct (Z.eqb_spec i n) as [->|Hne].
    - rewrite andb_true_r. destruct (Z.testbit a n); [by rewrite Z.pow2_bits_true|by rewrite Z.bits_0].
    - rewrite andb_false_r. destruct (Z.testbit a i); [by rewrite Z.pow2_bits_false by done|by rewrite Z.bits_0]. }
  destruct (Z.testbit a i); [|done]. apply Z.eqb_neq. lia.
Qed.

(** Masking with [!(2^n - 1)] rounds down to a multiple of [2^n]. *)
Lemma land_not64 z n : 0 ≤ n ≤ 64 → in_usize z →
  Z.land z (not64 (2 ^ n - 1)) = z - z mod 2 ^ n.
Proof.
  intros Hn [Hz0 Hz]. unfold not64.
  replace (2 ^ 64 - 1 - (2 ^ n - 1)) with (Z.ldiff (Z.ones 64) (Z.ones n)).
  2:{ rewrite !Z.ones_equiv. symmetry.
      replace (2 ^ 64 - 1 - (2 ^ n - 1)) with (Z.pred (2 ^ 64) - Z.pred (2 ^ n)) by lia.
      rewrite <- !Z.ones_equiv. apply Z.sub_nocarry_ldiff.
      apply Z.bits_inj'. intros i Hi. rewrite Z.ldiff_spec, Z.bits_0.
      destruct (decide (i < n)).
      - rewrite (Z.ones_spec_low 64) by lia. by rewrite andb_false_r.
      - rewrite (Z.ones_spec_high n) by lia. done. }
  rewrite Z.ldiff_land, Z.land_assoc, Z.land_ones, (Z.mod_small z) by lia.
  rewrite <-Z.ldiff_land, Z.ldiff_ones_r by lia.
  rewrite Z.shiftr_div_pow2, Z.shiftl_mul_pow2 by lia.
  pose proof (Z.div_mod z (2 ^ n)). lia.
Qed.

(** Rounding up: [(z + 2^n - 1) & !(2^n - 1)]. *)
Definition align_up (z n : Z) : Z := (z + 2 ^ n - 1) - (z + 2 ^ n - 1) mod 2 ^ n.

Lemma align_up_spec z n : 0 ≤ n →
  z ≤ align_up z n < z + 2 ^ n ∧ align_up z n mod 2 ^ n = 0.
Proof.
  intros Hn. unfold align_up. assert (0 < 2 ^ n) by lia.
  pose proof (Z.mod_pos_bound (z + 2 ^ n - 1) (2 ^ n)). split; [lia|].
  rewrite Zminus_mod_idemp_r, Z.sub_diag. apply Z.mod_0_l. lia.
Qed.

Lemma align_up_id z n : 0 ≤ n → z mod 2 ^ n = 0 → align_up z n = z.
Proof.
  intros Hn Hz. pose proof (align_up_spec z n Hn) as [Hb Hm].
  assert (0 < 2 ^ n) by lia.
  apply Z.mod_divide in Hz as [a ->]; [|lia]. apply Z.mod_divide in Hm as [b Hb']; [|lia].
  rewrite Hb' in *. clear Hb'.
  assert (a ≤ b) by (apply (Z.mul_le_mono_pos_r _ _ (2 ^ n)); lia).
  assert (b < a + 1) by (apply (Z.mul_lt_mono_pos_r (2 ^ n)); lia).
  by replace b with a by lia.
Qed.

Lemma elem_of_range_step a lo hi step : 0 < step →
  a ∈ range_step lo hi step ↔ lo ≤ a < hi ∧ (a - lo) mod step = 0.
Proof.
  intros Hs. unfold range_step. rewrite list_elem_of_fmap. setoid_rewrite elem_of_seqZ.
  split.
  - intros (k & -> & Hk0 & Hk). split.
    + assert (k * step < hi - lo); [|lia].
      assert (k ≤ (hi - lo + step - 1) / step - 1) by lia.
      pose proof (Z.mul_div_le (hi - lo + step - 1) step Hs). nia.
    + replace (lo + k * step - lo) with (k * step) by lia. apply Z.mod_mul. lia.
  - intros [[Hlo Hhi] Hm]. apply Z.mod_divide in Hm as [k Hk]; [|lia].
    exists k. split; [lia|]. split; [nia|].
    apply Z.lt_le_trans with (k + 1); [lia|].
    apply Z.div_le_lower_bound; nia.
Qed.

Lemma NoDup_range_step lo hi step : 0 < step → NoDup (range_step lo hi step).
Proof.
  intros. unfold range_step. apply NoDup_fmap_2; [|apply NoDup_seqZ].
  intros x y Hxy. nia.
Qed.

(** The number of elements of a list below a bound. *)
Definition count_below (l : list Z) (n : Z) : Z := Z.of_nat (length (filter (λ u : Z, u < n) l)).

Lemma count_below_mono l n n' : n ≤ n' → count_below l n ≤ count_below l n'.
Proof.
  intros H. unfold count_below. induction l as [|u l IH]; [done|].
  rewrite !filter_cons. repeat case_decide; cbn [length]; lia.
Qed.

Lemma count_below_step l n : n ∈ l → count_below l n + 1 ≤ count_below l (n + 1).
Proof.
  induction l as [|u l IH]; [by intros ?%not_elem_of_nil|].
  pose proof (count_below_mono l n (n + 1) ltac:(lia)) as Hm. unfold count_below in *.
  rewrite elem_of_cons, !filter_cons. intros [->|Hin%IH]; repeat case_decide; cbn [length]; lia.
Qed.

Lemma count_below_le l n : count_below l n ≤ Z.of_nat (length l).
Proof. unfold count_below. pose proof (length_filter (λ u : Z, u < n) l). lia. Qed.

(** ** [BTreeMap] iteration *)

Section BTreeMapLemmas.
Context {K : Type} `{Countable K, !KeyOrd K}.

#[local] Instance key_le_total {V} : Total (key_le (K:=K) (V:=V)).
Proof. intros p q. unfold key_le. apply total, _. Qed.
#[local] Instance key_le_trans {V} : Transitive (key_le (K:=K) (V:=V)).
Proof. intros p q r. unfold key_le. apply transitivity. Qed.

Lemma elem_of_bt_iter {V} (m : gmap K V) k v : (k, v) ∈ bt_iter m ↔ m !! k = Some v.
Proof. unfold bt_iter. rewrite merge_sort_Permutation. apply elem_of_map_to_list. Qed.

Lemma bt_iter_sorted {V} (m : gmap K V) : StronglySorted key_le (bt_iter m).
Proof. apply (StronglySorted_merge_sort key_le). Qed.

Lemma bt_iter_NoDup {V} (m : gmap K V) : NoDup (bt_iter m).*1.
Proof. unfold bt_iter. rewrite merge_sort_Permutation. apply NoDup_fst_map_to_list. Qed.

(** Two positions of the iteration hold their keys in order. *)
Lemma bt_iter_lookup_le {V} (m : gmap K V) i j k v k' v' :
  bt_iter m !! i = Some (k, v) → bt_iter m !! j = Some (k', v') → (i < j)%nat → ko_le k k'.
Proof.
  intros Hi Hj Hij. pose proof (bt_iter_sorted m) as Hs.
  rewrite <-(take_drop_middle _ _ _ Hi) in Hs, Hj.
  assert (length (take i (bt_iter m)) = i) as Hl.
  { apply lookup_lt_Some in Hi. rewrite length_take. lia. }
  rewrite lookup_app_r in Hj by lia. rewrite Hl in Hj.
  apply StronglySorted_app_1_r in Hs. apply StronglySorted_inv in Hs as [_ Hs].
  rewrite Forall_forall in Hs. apply (Hs (k', v')).
  destruct (j - i)%nat as [|d] eqn:Hd; [lia|]. simpl in Hj.
  by apply (list_elem_of_lookup_2 _ d).
Qed.

(** Searching in iteration order finds the least key that satisfies the test. *)
Lemma bt_find_Some {V} (P : K → V → bool) (m : gmap K V) k v :
  bt_find P m = Some (k, v) ↔
  m !! k = Some v ∧ P k v = true ∧ ∀ k' v', m !! k' = Some v' → P k' v' = true → ko_le k k'.
Proof.
  unfold bt_find. split.
  - intros Hf%fmap_Some. destruct Hf as ([i kv] & Hf & Heq). simpl in Heq. subst kv.
    apply list_find_Some in Hf as (Hl & HP & Hmin). simpl in HP.
    split; [by apply elem_of_bt_iter, (list_elem_of_lookup_2 _ i)|]. split; [done|].
    intros k' v' Hk' HP'. apply elem_of_bt_iter in Hk'.
    apply list_elem_of_lookup in Hk' as [j Hj].
    destruct (decide (j < i)%nat) as [Hji|]; [by destruct (Hmin j _ Hj Hji)|].
    destruct (decide (j = i)) as [->|]; [|eapply (bt_iter_lookup_le m i j); eauto; lia].
    assert ((k', v') = (k, v)) as [= -> ->] by congruence. destruct (total ko_le k k); done.
  - intros (Hk & HP & Hmin).
    destruct (list_find (λ kv, P kv.1 kv.2 = true) (bt_iter m)) as [[i [k' v']]|] eqn:Hf.
    + simpl. apply list_find_Some in Hf as (Hl & HP' & Hfirst).
      assert (m !! k' = Some v') as Hk' by by apply elem_of_bt_iter, (list_elem_of_lookup_2 _ i).
      apply elem_of_bt_iter in Hk as Hin. apply list_elem_of_lookup in Hin as [j Hj].
      assert (¬ (j < i)%nat) by (intros Hji; by destruct (Hfirst j _ Hj Hji)).
      assert (ko_le k k') by (by eapply Hmin).
      destruct (decide (i = j)) as [->|]; [naive_solver|].
      assert (ko_le k' k) by (eapply (bt_iter_lookup_le m i j); eauto; lia).
      assert (k = k') as -> by by apply (anti_symm ko_le). naive_solver.
    + apply list_find_None in Hf. rewrite Forall_forall in Hf.
      by destruct (Hf (k, v) ltac:(by apply elem_of_bt_iter)).
Qed.

Lemma bt_find_None {V} (P : K → V → bool) (m : gmap K V) :
  bt_find P m = None ↔ ∀ k v, m !! k = Some v → P k v = false.
Proof.
  unfold bt_find. rewrite fmap_None, list_find_None, Forall_forall. split.
  - intros HP k v Hk. apply elem_of_bt_iter in Hk. specialize (HP _ Hk). simpl in HP.
    by destruct (P k v).
  - intros HP [k v] Hkv%elem_of_bt_iter. simpl. rewrite (HP k v Hkv). done.
Qed.
End BTreeMapLemmas.
