(* ===== verification/Machine.v ===== *)
(** * Physical memory

    Byte-addressed memory with the little-endian accesses the kernel makes
    through raw pointers: byte, 16-, 32- and 64-bit reads and writes,
    [core::ptr::write_bytes] and [core::ptr::copy_nonoverlapping].  A cell that
    was never written reads as zero. *)

From S2P Require Import Prelude.

Abbreviation mem := (gmap Z Z).

Definition rd8 (m : mem) (a : Z) : Z := u8 (default 0 (m !! a)).
Definition wr8 (m : mem) (a v : Z) : mem := <[a := u8 v]> m.

(** The [n] bytes from [a] on, and storing a list of bytes from [a] on. *)
Definition rd_bytes (m : mem) (a n : Z) : list Z := (λ i, rd8 m (a + i)) <$> seqZ 0 n.
Fixpoint wr_bytes (m : mem) (a : Z) (l : list Z) : mem :=
  match l with
  | [] => m
  | b :: l' => wr_bytes (wr8 m a b) (a + 1) l'
  end.

(** [write_bytes(a, v, n)] and [copy_nonoverlapping(src, dst, n)]. *)
Definition fill (m : mem) (a v n : Z) : mem := wr_bytes m a (replicate (Z.to_nat n) v).
Definition copy (m : mem) (src dst n : Z) : mem := wr_bytes m dst (rd_bytes m src n).

(** Little-endian encoding of a word in [n] bytes. *)
Fixpoint le_bytes (n : nat) (v : Z) : list Z :=
  match n with
  | O => []
  | S n' => u8 v :: le_bytes n' (v / 256)
  end.
Fixpoint le_val (l : list Z) : Z :=
  match l with
  | [] => 0
  | b :: l' => b + 256 * le_val l'
  end.

Definition rd64 (m : mem) (a : Z) : Z := le_val (rd_bytes m a 8).
Definition wr64 (m : mem) (a v : Z) : mem := wr_bytes m a (le_bytes 8 v).
Definition rd32 (m : mem) (a : Z) : Z := le_val (rd_bytes m a 4).
Definition wr32 (m : mem) (a v : Z) : mem := wr_bytes m a (le_bytes 4 v).
Definition rd16 (m : mem) (a : Z) : Z := le_val (rd_bytes m a 2).
Definition wr16 (m : mem) (a v : Z) : mem := wr_bytes m a (le_bytes 2 v).

(** ** Encoding *)

Lemma length_le_bytes n v : length (le_bytes n v) = n.
Proof. revert v. induction n; intros; simpl; auto. Qed.

Lemma le_val_le_bytes n v : le_val (le_bytes n v) = v mod 256 ^ Z.of_nat n.
Proof.
  revert v. induction n as [|n IH]; intros v; simpl le_val.
  - by rewrite Z.mod_1_r.
  - rewrite IH. replace (Z.of_nat (S n)) with (Z.succ (Z.of_nat n)) by lia.
    rewrite Z.pow_succ_r by lia. unfold u8. change (2 ^ 8) with 256.
    assert (0 < 256 ^ Z.of_nat n) by (apply Z.pow_pos_nonneg; lia).
    by rewrite Z.rem_mul_r by lia.
Qed.

Lemma le_val_range l : Forall (λ b, 0 ≤ b < 256) l → 0 ≤ le_val l < 256 ^ Z.of_nat (length l).
Proof.
  induction 1 as [|b l Hb Hl IH]; simpl length; simpl le_val; [done|].
  replace (Z.of_nat (S (length l))) with (Z.succ (Z.of_nat (length l))) by lia.
  rewrite Z.pow_succ_r by lia. lia.
Qed.

(** ** Bytes *)

Lemma rd8_range m a : 0 ≤ rd8 m a < 256.
Proof. apply u8_range. Qed.
#[export] Hint Resolve rd8_range : rvos.

Lemma rd8_wr8 m a v x : rd8 (wr8 m a v) x = if decide (x = a) then u8 v else rd8 m x.
Proof.
  unfold rd8, wr8. rewrite lookup_insert. case_decide; case_decide; try congruence.
  simpl. apply u8_idem.
Qed.

Lemma length_rd_bytes m a n : length (rd_bytes m a n) = Z.to_nat n.
Proof. unfold rd_bytes. by rewrite length_fmap, length_seqZ. Qed.

Lemma lookup_rd_bytes m a n i :
  (Z.of_nat i < n) → rd_bytes m a n !! i = Some (rd8 m (a + Z.of_nat i)).
Proof. intros. unfold rd_bytes. rewrite list_lookup_fmap, lookup_seqZ_lt by done. done. Qed.

Lemma Forall_rd_bytes m a n : Forall (λ b, 0 ≤ b < 256) (rd_bytes m a n).
Proof. unfold rd_bytes. apply Forall_fmap, Forall_true. intros i. apply rd8_range. Qed.

(** Reading a byte back from a block write. *)
Lemma rd8_wr_bytes m a l x :
  rd8 (wr_bytes m a l) x =
  match (if decide (a ≤ x) then l !! Z.to_nat (x - a) else None) with
  | Some b => u8 b
  | None => rd8 m x
  end.
Proof.
  revert m a. induction l as [|b l IH]; intros m a; simpl.
  - by case_decide.
  - rewrite IH, rd8_wr8.
    destruct (decide (a + 1 ≤ x)), (decide (a ≤ x)); try lia.
    + replace (Z.to_nat (x - a)) with (S (Z.to_nat (x - (a + 1)))) by lia.
      rewrite lookup_cons. rewrite decide_False by lia. done.
    + assert (x = a) as -> by lia. rewrite decide_True by done.
      by replace (Z.to_nat (a - a)) with 0%nat by lia.
    + by rewrite decide_False by lia.
Qed.

Lemma rd8_wr_bytes_in m a l x b :
  a ≤ x → l !! Z.to_nat (x - a) = Some b → rd8 (wr_bytes m a l) x = u8 b.
Proof. intros H Hl. rewrite rd8_wr_bytes. case_decide; [|lia]. by rewrite Hl. Qed.

Lemma rd8_wr_bytes_out m a l x :
  x < a ∨ a + Z.of_nat (length l) ≤ x → rd8 (wr_bytes m a l) x = rd8 m x.
Proof.
  intros H. rewrite rd8_wr_bytes. case_decide; [|done].
  rewrite lookup_ge_None_2 by lia. done.
Qed.

Lemma rd8_fill m a v n x :
  rd8 (fill m a v n) x = if decide (a ≤ x < a + n) then u8 v else rd8 m x.
Proof.
  unfold fill. case_decide as H.
  - apply rd8_wr_bytes_in; [lia|]. apply lookup_replicate. split; [done|lia].
  - apply rd8_wr_bytes_out. rewrite length_replicate. lia.
Qed.

Lemma rd8_copy m src dst n x :
  rd8 (copy m src dst n) x = if decide (dst ≤ x < dst + n) then rd8 m (src + (x - dst)) else rd8 m x.
Proof.
  unfold copy. case_decide as H.
  - erewrite rd8_wr_bytes_in; [|lia|apply lookup_rd_bytes; lia].
    rewrite Z2Nat.id by lia. apply u8_idem.
  - apply rd8_wr_bytes_out. rewrite length_rd_bytes. lia.
Qed.

(** ** Blocks *)

Lemma rd_bytes_ext m m' a n :
  (∀ x, a ≤ x < a + n → rd8 m x = rd8 m' x) → rd_bytes m a n = rd_bytes m' a n.
Proof.
  intros H. unfold rd_bytes. apply list_fmap_ext. intros i x Hx.
  apply lookup_seqZ in Hx as [-> ?]. apply H. lia.
Qed.

Lemma rd_bytes_wr_bytes_same m a l :
  Forall (λ b, 0 ≤ b < 256) l → rd_bytes (wr_bytes m a l) a (Z.of_nat (length l)) = l.
Proof.
  intros Hl. apply list_eq. intros i. destruct (decide (i < length l)%nat) as [Hi|Hi].
  - rewrite lookup_rd_bytes by lia. destruct (lookup_lt_is_Some_2 l i Hi) as [b Hb].
    rewrite (rd8_wr_bytes_in _ _ _ _ b), Hb; [|lia|].
    + f_equal. apply u8_small. by eapply (Forall_lookup_1 _ _ _ _ Hl).
    + by replace (Z.to_nat (a + Z.of_nat i - a)) with i by lia.
  - rewrite !lookup_ge_None_2; [done|lia|]. rewrite length_rd_bytes. lia.
Qed.

Lemma rd_bytes_wr_bytes_disj m a l b n :
  b + n ≤ a ∨ a + Z.of_nat (length l) ≤ b → rd_bytes (wr_bytes m a l) b n = rd_bytes m b n.
Proof. intros H. apply rd_bytes_ext. intros x Hx. apply rd8_wr_bytes_out. lia. Qed.

Lemma Forall_le_bytes n v : Forall (λ b, 0 ≤ b < 256) (le_bytes n v).
Proof. revert v. induction n; intros; simpl; constructor; auto using u8_range. Qed.

(** ** Words *)

Lemma rd64_range m a : in_usize (rd64 m a).
Proof.
  unfold rd64. pose proof (le_val_range _ (Forall_rd_bytes m a 8)) as H.
  rewrite length_rd_bytes in H. exact H.
Qed.
#[export] Hint Resolve rd64_range : rvos.

Lemma rd64_ext m m' a : (∀ x, a ≤ x < a + 8 → rd8 m x = rd8 m' x) → rd64 m a = rd64 m' a.
Proof. intros H. unfold rd64. by rewrite (rd_bytes_ext m m'). Qed.

Lemma rd64_wr64_same m a v : in_usize v → rd64 (wr64 m a v) a = v.
Proof.
  intros Hv. unfold rd64, wr64.
  pose proof (rd_bytes_wr_bytes_same m a (le_bytes 8 v) (Forall_le_bytes 8 v)) as E.
  rewrite length_le_bytes in E. change (Z.of_nat 8) with 8 in E. rewrite E, le_val_le_bytes.
  by apply Z.mod_small.
Qed.

Lemma rd8_wr64_out m a v x : x < a ∨ a + 8 ≤ x → rd8 (wr64 m a v) x = rd8 m x.
Proof. intros. apply rd8_wr_bytes_out. by rewrite length_le_bytes. Qed.

Lemma rd64_wr64_disj m a v b : b + 8 ≤ a ∨ a + 8 ≤ b → rd64 (wr64 m a v) b = rd64 m b.
Proof. intros. apply rd64_ext. intros. apply rd8_wr64_out. lia. Qed.

Lemma rd64_fill_zero m a n b : a ≤ b → b + 8 ≤ a + n → rd64 (fill m a 0 n) b = 0.
Proof.
  intros. rewrite (rd64_ext _ ∅); [done|].
  intros x Hx. rewrite rd8_fill. case_decide; [done|lia].
Qed.

Lemma rd8_empty a : rd8 ∅ a = 0.
Proof. reflexivity. Qed.
Lemma rd64_empty a : rd64 ∅ a = 0.
Proof. reflexivity. Qed.
Lemma rd64_fill_out m a v n b : b + 8 ≤ a ∨ a + n ≤ b → rd64 (fill m a v n) b = rd64 m b.
Proof. intros. apply rd64_ext. intros. rewrite rd8_fill. case_decide; [lia|done]. Qed.

Lemma rd64_copy_out m src dst n b : b + 8 ≤ dst ∨ dst + n ≤ b → rd64 (copy m src dst n) b = rd64 m b.
Proof. intros. apply rd64_ext. intros. rewrite rd8_copy. case_decide; [lia|done]. Qed.

(** Clients reason with the equations above. *)
#[global] Opaque rd8 wr8 rd_bytes wr_bytes fill copy rd64 wr64 rd32 wr32 rd16 wr16.
