(* ===== verification/Alloc.v ===== *)
(** * Allocators of [mm.rs]: the kernel heap and the page frames

    Both are bump allocators that never free.  [BumpAlloc.alloc] serves the
    Rust heap, [alloc_page] and [alloc_pages] hand out zeroed page frames. *)

From S2P Require Import Prelude Machine.

(** ** State *)

Record HeapAllocator := { heap_current : Z; heap_end : Z }.
Record PageAllocator := { page_current : Z; page_end : Z }.

(** The memory-management state: physical memory and the two allocators. *)
Record mm := Mm {
  mm_mem : mem;
  mm_heap : HeapAllocator;
  mm_pages : PageAllocator
}.

Definition set_mem (m : mem) (s : mm) : mm := Mm m (mm_heap s) (mm_pages s).
Definition set_heap (h : HeapAllocator) (s : mm) : mm := Mm (mm_mem s) h (mm_pages s).
Definition set_pages (p : PageAllocator) (s : mm) : mm := Mm (mm_mem s) (mm_heap s) p.

Lemma mm_pages_set_mem m s : mm_pages (set_mem m s) = mm_pages s.
Proof. reflexivity. Qed.
Lemma mm_mem_set_mem m s : mm_mem (set_mem m s) = m.
Proof. reflexivity. Qed.

(** ** The kernel heap *)

Definition HeapAllocator_new : HeapAllocator := {| heap_current := 0; heap_end := 0 |}.

Definition init_heap : M mm unit :=
  let start := 0x86000000 in
  let end_ := 0x87000000 in
  modify (set_heap {| heap_current := start; heap_end := end_ |}).

(** [core::alloc::Layout]. *)
Record Layout := { layout_size : Z; layout_align : Z }.

(** [BumpAlloc::alloc]; 0 is the null pointer. *)
Definition heap_alloc (layout : Layout) : M mm Z :=
  let! alloc := gets mm_heap in
  let addr := Z.land (heap_current alloc +w layout_align layout -w 1)
                     (not64 (layout_align layout -w 1)) in
  if addr +w layout_size layout <=? heap_end alloc then
    do! modify (set_heap {| heap_current := addr +w layout_size layout;
                            heap_end := heap_end alloc |}) in
    ret addr
  else ret 0.

Definition heap_dealloc (_ptr : Z) (_layout : Layout) : M mm unit := ret tt.

(** ** Page frames *)

Definition PAGE_SIZE : Z := 4096.
Definition PAGE_SIZE_BITS : Z := 12.

Definition PageAllocator_new : PageAllocator := {| page_current := 0; page_end := 0 |}.

(** [mm::init]; [kernel_end] is the linker symbol. *)
Definition init (kernel_end : Z) : M mm unit :=
  let start := Z.land (kernel_end +w PAGE_SIZE -w 1) (not64 (PAGE_SIZE - 1)) in
  let end_ := 0x88000000 in
  modify (set_pages {| page_current := start; page_end := end_ |}).

Definition write_bytes (a v n : Z) : M mm unit :=
  modify (λ s, set_mem (fill (mm_mem s) a v n) s).
Definition copy_nonoverlapping (src dst n : Z) : M mm unit :=
  modify (λ s, set_mem (copy (mm_mem s) src dst n) s).

Definition alloc_page : M mm (option Z) :=
  let! alloc := gets mm_pages in
  if page_current alloc +w PAGE_SIZE <=? page_end alloc then
    let page := page_current alloc in
    do! modify (set_pages {| page_current := page_current alloc +w PAGE_SIZE;
                             page_end := page_end alloc |}) in
    do! write_bytes page 0 PAGE_SIZE in
    ret (Some page)
  else ret None.

Definition alloc_pages (n : Z) : M mm (option Z) :=
  let! alloc := gets mm_pages in
  let size := n *w PAGE_SIZE in
  if page_current alloc +w size <=? page_end alloc then
    let page := page_current alloc in
    do! modify (set_pages {| page_current := page_current alloc +w size;
                             page_end := page_end alloc |}) in
    do! write_bytes page 0 size in
    ret (Some page)
  else ret None.

Definition dealloc_page (_addr : Z) : M mm unit := ret tt.

(** ** Specifications *)

(** Bounds the boot code establishes; they exclude wrap-around. *)
Definition heap_ok (h : HeapAllocator) : Prop :=
  0 < heap_current h ≤ heap_end h ∧ heap_end h < 2 ^ 62.
Definition pages_ok (p : PageAllocator) : Prop :=
  0 < page_current p ≤ page_end p ∧ page_end p < 2 ^ 56 ∧ page_current p mod 4096 = 0.

(** What [Layout] guarantees of its fields: the alignment is a power of two and
    the size rounded up to it does not exceed [isize::MAX]. *)
Definition layout_ok (l : Layout) : Prop :=
  0 ≤ layout_size l ∧
  (∃ k, 0 ≤ k ≤ 62 ∧ layout_align l = 2 ^ k) ∧
  layout_size l + layout_align l ≤ 2 ^ 63.

(** A run of heap allocations, with the blocks it returned (nulls left out). *)
Fixpoint heap_allocs (ls : list Layout) : M mm (list (Layout * Z)) :=
  match ls with
  | [] => ret []
  | l :: ls' =>
      let! a := heap_alloc l in
      let! bs := heap_allocs ls' in
      ret (if a =? 0 then bs else (l, a) :: bs)
  end.

(** A run of frame allocations: [n = 1] stands for [alloc_page], other counts
    for [alloc_pages]; with the regions returned. *)
Fixpoint frame_allocs (ns : list Z) : M mm (list (Z * Z)) :=
  match ns with
  | [] => ret []
  | n :: ns' =>
      let! o := (if n =? 1 then alloc_page else alloc_pages n) in
      let! bs := frame_allocs ns' in
      ret (match o with Some a => (n, a) :: bs | None => bs end)
  end.

(** *** The heap *)

Lemma heap_alloc_addr h l : heap_ok h → layout_ok l →
  ∃ k, 0 ≤ k ≤ 62 ∧ layout_align l = 2 ^ k ∧
    Z.land (heap_current h +w layout_align l -w 1) (not64 (layout_align l -w 1)) =
      align_up (heap_current h) k ∧
    align_up (heap_current h) k +w layout_size l = align_up (heap_current h) k + layout_size l.
Proof.
  intros [Hc He] (Hs & (k & Hk & Ha) & Hmax). exists k. split; [done|]. split; [done|].
  rewrite Ha in *. assert (0 < 2 ^ k ≤ 2 ^ 62) by (split; [lia|apply Z.pow_le_mono_r; lia]).
  destruct (align_up_spec (heap_current h) k ltac:(lia)) as [Hb _].
  split.
  - rewrite !wrap64_small; unfold in_usize; try lia.
    + apply land_not64; unfold in_usize; lia.
    + rewrite wrap64_small; unfold in_usize; lia.
  - apply wrap64_small. unfold in_usize. lia.
Qed.

Lemma heap_alloc_cases s l : heap_ok (mm_heap s) → layout_ok l →
  ∃ k, layout_align l = 2 ^ k ∧ 0 ≤ k ∧
  let a := align_up (heap_current (mm_heap s)) k in
  (a + layout_size l ≤ heap_end (mm_heap s) ∧
   heap_alloc l s = Ret (a, set_heap {| heap_current := a + layout_size l;
                                        heap_end := heap_end (mm_heap s) |} s)) ∨
  (heap_end (mm_heap s) < a + layout_size l ∧ heap_alloc l s = Ret (0, s)).
Proof.
  intros Hok Hl. destruct (heap_alloc_addr _ _ Hok Hl) as (k & Hk & Ha & Haddr & Hsum).
  exists k. split; [done|]. split; [lia|]. simpl. unfold heap_alloc, gets, bind, modify, ret.
  rewrite Haddr, Hsum. destruct (Z.leb_spec (align_up (heap_current (mm_heap s)) k + layout_size l)
    (heap_end (mm_heap s))); [left|right]; auto.
Qed.

(** Every block of a run lies past the start, is aligned, and the blocks are in
    increasing order without overlap. *)
Definition blocks_from (lo hi : Z) (bs : list (Layout * Z)) : Prop :=
  (∀ i l a, bs !! i = Some (l, a) →
     lo ≤ a ∧ a + layout_size l ≤ hi ∧ a mod layout_align l = 0) ∧
  (∀ i j l a l' a', (i < j)%nat → bs !! i = Some (l, a) → bs !! j = Some (l', a') →
     a + layout_size l ≤ a').

Lemma blocks_from_weaken lo lo' hi bs : lo' ≤ lo → blocks_from lo hi bs → blocks_from lo' hi bs.
Proof.
  intros Hlo [H1 H2]. split; [|done]. intros i l a Hi. destruct (H1 _ _ _ Hi) as (? & ? & ?).
  repeat split; [lia|done..].
Qed.

Lemma blocks_from_cons lo hi l a bs :
  lo ≤ a → 0 ≤ layout_size l → a mod layout_align l = 0 → a + layout_size l ≤ hi →
  blocks_from (a + layout_size l) hi bs → blocks_from lo hi ((l, a) :: bs).
Proof.
  intros Hlo Hs Hm Hhi [H1 H2]. split.
  - intros [|i] l' a' Hi; simpl in Hi; [naive_solver|].
    destruct (H1 _ _ _ Hi) as (? & ? & ?). repeat split; [lia|done..].
  - intros [|i] [|j] l1 a1 l2 a2 Hij Hi Hj; simpl in *; [lia| |lia|].
    + simplify_eq. by destruct (H1 _ _ _ Hj).
    + eapply (H2 i j); eauto. lia.
Qed.

(** C32: the kernel heap never hands out overlapping blocks. For every sequence
    of requests with valid layouts, the blocks returned lie inside the heap,
    have the alignment asked for and are pairwise disjoint in allocation
    order; no request panics, and memory and the frame allocator are left
    alone. *)
Theorem heap_blocks_disjoint ls s :
  heap_ok (mm_heap s) → Forall layout_ok ls →
  wp (heap_allocs ls) s (λ bs s',
    blocks_from (heap_current (mm_heap s)) (heap_end (mm_heap s)) bs ∧
    mm_mem s' = mm_mem s ∧ mm_pages s' = mm_pages s).
Proof.
  intros Hok Hls. revert s Hok. induction Hls as [|l ls Hl Hls IH]; intros s Hok; simpl.
  - apply wp_ret. split; [|done]. split; intros; naive_solver.
  - apply wp_bind. destruct (heap_alloc_cases s l Hok Hl) as (k & Ha & Hk & [[Hfit E]|[Hfull E]]).
    + destruct (align_up_spec (heap_current (mm_heap s)) k Hk) as [Hb Hm].
      destruct Hok as [Hc He]. destruct Hl as (Hs & _ & _).
      eapply wp_of_run; [exact E|]. apply wp_bind. eapply wp_mono; [apply IH|].
      { unfold heap_ok; simpl. lia. }
      intros bs s' (Hbs & Hmem & Hp). apply wp_ret. rewrite Hmem, Hp. split; [|done].
      rewrite (proj2 (Z.eqb_neq _ _)) by lia. simpl in Hbs.
      apply blocks_from_cons; try done; [lia|]. by rewrite Ha.
    + eapply wp_of_run; [exact E|]. apply wp_bind. eapply wp_mono; [by apply IH|].
      intros bs s' H. by apply wp_ret.
Qed.

(** *** Frames *)

Definition take_frames (n : Z) (s : mm) : mm :=
  set_mem (fill (mm_mem s) (page_current (mm_pages s)) 0 (n * 4096))
    (set_pages {| page_current := page_current (mm_pages s) + n * 4096;
                  page_end := page_end (mm_pages s) |} s).

Definition take_page (s : mm) : mm :=
  set_mem (fill (mm_mem s) (page_current (mm_pages s)) 0 4096)
    (set_pages {| page_current := page_current (mm_pages s) + 4096;
                  page_end := page_end (mm_pages s) |} s).

Lemma take_page_frames s : take_page s = take_frames 1 s.
Proof. unfold take_page, take_frames. by rewrite Z.mul_1_l. Qed.

Lemma alloc_pages_cases s n : pages_ok (mm_pages s) → 0 ≤ n < 2 ^ 51 →
  (page_current (mm_pages s) + n * 4096 ≤ page_end (mm_pages s) ∧
   alloc_pages n s = Ret (Some (page_current (mm_pages s)), take_frames n s)) ∨
  (page_end (mm_pages s) < page_current (mm_pages s) + n * 4096 ∧ alloc_pages n s = Ret (None, s)).
Proof.
  intros (Hc & He & Ha) Hn. unfold alloc_pages, gets, bind, modify, ret, PAGE_SIZE.
  rewrite !(wrap64_small (n * 4096)), (wrap64_small (_ + n * 4096)) by (unfold in_usize; lia).
  destruct (Z.leb_spec (page_current (mm_pages s) + n * 4096) (page_end (mm_pages s)));
    [left|right]; auto.
Qed.

Lemma alloc_page_cases s : pages_ok (mm_pages s) →
  (page_current (mm_pages s) + 4096 ≤ page_end (mm_pages s) ∧
   alloc_page s = Ret (Some (page_current (mm_pages s)), take_page s)) ∨
  (page_end (mm_pages s) < page_current (mm_pages s) + 4096 ∧ alloc_page s = Ret (None, s)).
Proof.
  intros (Hc & He & Ha). unfold alloc_page, gets, bind, modify, ret, PAGE_SIZE.
  rewrite (wrap64_small (_ + 4096)) by (unfold in_usize; lia).
  destruct (Z.leb_spec (page_current (mm_pages s) + 4096) (page_end (mm_pages s)));
    [left|right]; auto.
Qed.

Lemma take_page_ok s : pages_ok (mm_pages s) →
  page_current (mm_pages s) + 4096 ≤ page_end (mm_pages s) → pages_ok (mm_pages (take_page s)).
Proof.
  intros (Hc & He & Ha) Hfit. unfold pages_ok; simpl. repeat split; try lia.
  replace (page_current (mm_pages s) + 4096) with (page_current (mm_pages s) + 1 * 4096) by lia.
  rewrite Z.mod_add by lia. done.
Qed.

Lemma take_frames_ok n s : pages_ok (mm_pages s) → 0 ≤ n →
  page_current (mm_pages s) + n * 4096 ≤ page_end (mm_pages s) → pages_ok (mm_pages (take_frames n s)).
Proof.
  intros (Hc & He & Ha) Hn Hfit. unfold pages_ok; simpl. repeat split; try lia.
  rewrite Z.mod_add by lia. done.
Qed.

(** A region handed out starts at or after [lo], ends by [hi], is page aligned,
    and regions are handed out in increasing order without overlap. *)
Definition frames_from (lo hi : Z) (bs : list (Z * Z)) : Prop :=
  (∀ i n a, bs !! i = Some (n, a) → lo ≤ a ∧ a + n * 4096 ≤ hi ∧ a mod 4096 = 0) ∧
  (∀ i j n a n' a', (i < j)%nat → bs !! i = Some (n, a) → bs !! j = Some (n', a') →
     a + n * 4096 ≤ a').

Lemma frames_from_cons lo hi n bs :
  0 ≤ n → lo mod 4096 = 0 → lo + n * 4096 ≤ hi →
  frames_from (lo + n * 4096) hi bs → frames_from lo hi ((n, lo) :: bs).
Proof.
  intros Hn Hm Hhi [H1 H2]. split.
  - intros [|i] n' a' Hi; simpl in Hi; [naive_solver|].
    destruct (H1 _ _ _ Hi) as (? & ? & ?). repeat split; [lia|done..].
  - intros [|i] [|j] n1 a1 n2 a2 Hij Hi Hj; simpl in *; [lia| |lia|].
    + simplify_eq. by destruct (H1 _ _ _ Hj).
    + eapply (H2 i j); eauto. lia.
Qed.

Lemma frame_step_cases s n : pages_ok (mm_pages s) → 0 ≤ n < 2 ^ 51 →
  (page_current (mm_pages s) + n * 4096 ≤ page_end (mm_pages s) ∧
   (if n =? 1 then alloc_page else alloc_pages n) s =
     Ret (Some (page_current (mm_pages s)), take_frames n s)) ∨
  (page_end (mm_pages s) < page_current (mm_pages s) + n * 4096 ∧
   (if n =? 1 then alloc_page else alloc_pages n) s = Ret (None, s)).
Proof.
  intros Hok Hn. destruct (Z.eqb_spec n 1) as [->|].
  - rewrite Z.mul_1_l, <-take_page_frames. by apply alloc_page_cases.
  - by apply alloc_pages_cases.
Qed.


(** [n] single frames are available when the space is there, and they are
    consecutive. *)
Lemma frame_allocs_all n s : pages_ok (mm_pages s) →
  page_current (mm_pages s) + Z.of_nat n * 4096 ≤ page_end (mm_pages s) →
  wp (frame_allocs (replicate n 1)) s (λ bs s',
    pages_ok (mm_pages s') ∧
    page_current (mm_pages s') = page_current (mm_pages s) + Z.of_nat n * 4096 ∧
    page_end (mm_pages s') = page_end (mm_pages s) ∧ mm_heap s' = mm_heap s).
Proof.
  revert s. induction n as [|n IH]; intros s Hok Hfit; simpl.
  - apply wp_ret. repeat split; try done; try apply Hok. lia.
  - apply wp_bind. destruct (alloc_page_cases s Hok) as [[Hfit' E]|[Hfull E]]; [|lia].
    eapply wp_of_run; [exact E|]. apply wp_bind. eapply wp_mono.
    { apply IH; [by apply take_page_ok|]. simpl. lia. }
    intros bs s' (Hok' & Hcur & Hend & Hh). apply wp_ret. simpl in *. repeat split; try done; try apply Hok'.
    lia.
Qed.

(** ** Properties *)

(** The state after [mm::init] and [mm::init_heap]. *)
Definition boot_mm (kernel_end : Z) (s : mm) : outcome (unit * mm) :=
  (do! init kernel_end in init_heap) s.

Lemma init_start kernel_end : 0 ≤ kernel_end < 2 ^ 63 →
  Z.land (kernel_end +w PAGE_SIZE -w 1) (not64 (PAGE_SIZE - 1)) = align_up kernel_end 12.
Proof.
  intros H. unfold PAGE_SIZE. rewrite !wrap64_small; unfold in_usize; try lia.
  - change (4096 - 1) with (2 ^ 12 - 1). rewrite land_not64; unfold in_usize; [done|lia..].
  - rewrite wrap64_small; unfold in_usize; lia.
Qed.

Lemma boot_mm_run kernel_end s : 0 < kernel_end < 2 ^ 63 →
  boot_mm kernel_end s = Ret (tt, Mm (mm_mem s)
    {| heap_current := 0x86000000; heap_end := 0x87000000 |}
    {| page_current := align_up kernel_end 12; page_end := 0x88000000 |}).
Proof.
  intros H. unfold boot_mm, bind, init, modify. rewrite init_start by lia. done.
Qed.

Lemma boot_mm_ok kernel_end s : 0 < kernel_end ≤ 0x88000000 →
  wp (boot_mm kernel_end) s (λ _ s', pages_ok (mm_pages s') ∧ heap_ok (mm_heap s')).
Proof.
  intros H. eapply wp_of_run; [apply boot_mm_run; lia|]. simpl.
  destruct (align_up_spec kernel_end 12 ltac:(lia)) as [Hb Hm].
  unfold pages_ok, heap_ok; simpl. repeat split; try lia; [|exact Hm].
  apply Z.mod_divide in Hm as [q Hq]; lia.
Qed.

(** The heap after [init_heap]. *)
Definition boot_heap : mm := Mm ∅ {| heap_current := 0x86000000; heap_end := 0x87000000 |} PageAllocator_new.

Lemma heap_blocks_disjoint_witness :
  let ls := [{| layout_size := 24; layout_align := 8 |}; {| layout_size := 100; layout_align := 64 |}] in
  wp (heap_allocs ls) boot_heap (λ bs s',
    blocks_from 0x86000000 0x87000000 bs ∧ mm_mem s' = ∅ ∧ mm_pages s' = PageAllocator_new).
Proof.
  apply (heap_blocks_disjoint _ boot_heap).
  - unfold heap_ok; simpl; lia.
  - repeat constructor; simpl; try lia; [exists 3|exists 6]; lia.
Defined.

Definition boot_pages : mm := Mm ∅ HeapAllocator_new {| page_current := 0x80400000; page_end := 0x88000000 |}.


(** C40: the frame allocator and the heap share memory. From a boot with the
    kernel image below 0x8600_0000, enough single-frame requests lead to a
    page at 0x8600_0000, the first byte of the heap, and the next heap request
    returns the same address: a page table or a user page and a kernel object
    then occupy the same memory. *)
Theorem frames_reach_heap kernel_end s : 0 < kernel_end ≤ 0x86000000 →
  ∃ n, wp (do! boot_mm kernel_end in
           do! frame_allocs (replicate n 1) in
           let! page := alloc_page in
           let! block := heap_alloc {| layout_size := 8; layout_align := 8 |} in
           ret (page, block)) s
    (λ r _, r = (Some 0x86000000, 0x86000000)).
Proof.
  intros Hk. destruct (align_up_spec kernel_end 12 ltac:(lia)) as [Hb Hm].
  assert (Hle : align_up kernel_end 12 ≤ 0x86000000) by (apply Z.mod_divide in Hm as [q Hq]; lia).
  exists (Z.to_nat ((0x86000000 - align_up kernel_end 12) / 4096)).
  apply wp_bind. eapply wp_of_run; [apply boot_mm_run; lia|]. apply wp_bind. eapply wp_mono.
  { apply frame_allocs_all; simpl; [unfold pages_ok; simpl; repeat split; [lia..|exact Hm]|]. dlia. }
  simpl. intros bs s' (Hok & Hcur & Hend & Hh).
  assert (Hc : page_current (mm_pages s') = 0x86000000) by dlia.
  apply wp_bind. destruct (alloc_page_cases s' Hok) as [[Hfit E]|[Hfull E]]; [|rewrite Hend, Hc in Hfull; lia].
  eapply wp_of_run; [exact E|]. apply wp_bind. rewrite Hc. unfold wp, heap_alloc, bind, gets.
  simpl. rewrite Hh. reflexivity.
Qed.

Lemma frames_reach_heap_witness :
  ∃ n, wp (do! boot_mm 0x80412345 in
           do! frame_allocs (replicate n 1) in
           let! page := alloc_page in
           let! block := heap_alloc {| layout_size := 8; layout_align := 8 |} in
           ret (page, block)) boot_pages
    (λ r _, r = (Some 0x86000000, 0x86000000)).
Proof. apply (frames_reach_heap 0x80412345 boot_pages). lia. Defined.

(** The size computation of [alloc_pages] wraps. A request of 2^52 pages
    is 2^64 bytes, which is 0 in a 64-bit register: it succeeds and reserves
    nothing, so the next request returns the same frame. *)
Lemma alloc_pages_wraps s : pages_ok (mm_pages s) →
  alloc_pages (2 ^ 52) s = Ret (Some (page_current (mm_pages s)), s).
Proof.
  intros ((Hlo & Hhi) & Hend & _). unfold alloc_pages, bind, gets, PAGE_SIZE.
  change (wrap64 (2 ^ 52 * 4096)) with 0. rewrite Z.add_0_r, wrap64_small by (unfold in_usize; lia).
  rewrite (proj2 (Z.leb_le _ _)) by lia. unfold modify, write_bytes, modify, ret.
  change (fill _ _ 0 0) with (mm_mem s). by destruct s as [m h [c e]].
Qed.

Lemma alloc_pages_wraps_witness : alloc_pages (2 ^ 52) boot_pages = Ret (Some 0x80400000, boot_pages).
Proof. apply (alloc_pages_wraps boot_pages). by repeat split. Defined.
