(* ===== verification/PageTable.v ===== *)
(** * SV39 page tables of [mm.rs]

    Page-table entries, the three-level walk and [map], [unmap], [find_pte],
    [translate], working on tables that live in physical memory. *)

From S2P Require Import Prelude Machine Alloc.

(** ** Entries *)

Abbreviation PTEFlags := Z (only parsing).
Definition PTE_V : PTEFlags := Z.shiftl 1 0.
Definition PTE_R : PTEFlags := Z.shiftl 1 1.
Definition PTE_W : PTEFlags := Z.shiftl 1 2.
Definition PTE_X : PTEFlags := Z.shiftl 1 3.
Definition PTE_U : PTEFlags := Z.shiftl 1 4.
Definition PTE_G : PTEFlags := Z.shiftl 1 5.
Definition PTE_A : PTEFlags := Z.shiftl 1 6.
Definition PTE_D : PTEFlags := Z.shiftl 1 7.

(** [from_bits_truncate], [contains] and [|] of the [bitflags] type. *)
Definition from_bits_truncate (b : Z) : PTEFlags := Z.land b 0xff.
Definition contains (fl sub : PTEFlags) : bool := Z.land fl sub =? sub.
Infix "|f" := Z.lor (at level 50, left associativity) : rvos_scope.

Record PageTableEntry := PTE { bits : Z }.

Definition pte_new (ppn : Z) (flags : PTEFlags) : PageTableEntry :=
  PTE (Z.lor (shl64 ppn 10) flags).
Definition pte_empty : PageTableEntry := PTE 0.
Definition pte_ppn (e : PageTableEntry) : Z := shr64 (bits e) 10.
Definition pte_flags (e : PageTableEntry) : PTEFlags := from_bits_truncate (bits e).
Definition is_valid (e : PageTableEntry) : bool := contains (pte_flags e) PTE_V.

#[global] Arguments pte_new : simpl never.
#[global] Arguments pte_ppn : simpl never.
#[global] Arguments is_valid : simpl never.

(** Access to the entry at a physical address. *)
Definition read_pte (a : Z) : M mm PageTableEntry := gets (λ s, PTE (rd64 (mm_mem s) a)).
Definition write_pte (a : Z) (e : PageTableEntry) : M mm unit :=
  modify (λ s, set_mem (wr64 (mm_mem s) a (bits e)) s).

(** ** Tables *)

Record PageTable := { root_ppn : Z }.

Definition PageTable_new : M mm (option PageTable) :=
  let? root := alloc_page in
  do! write_bytes root 0 PAGE_SIZE in
  ret (Some {| root_ppn := shr64 root PAGE_SIZE_BITS |}).

Definition from_ppn (ppn : Z) : PageTable := {| root_ppn := ppn |}.

Definition vpn_idx (vpn : Z) : list Z :=
  [Z.land (shr64 vpn 18) 0x1ff; Z.land (shr64 vpn 9) 0x1ff; Z.land vpn 0x1ff].

(** The loop of [find_pte_create]: [idx] holds the indices still to follow. *)
Fixpoint walk_create (ppn : Z) (idx : list Z) : M mm (option Z) :=
  match idx with
  | [] => ret None
  | k :: rest =>
      let pte := shl64 ppn PAGE_SIZE_BITS + k * 8 in
      match rest with
      | [] => ret (Some pte)
      | _ :: _ =>
          let! e := read_pte pte in
          let? _ :=
            (if is_valid e then ret (Some tt)
             else
               let? page := alloc_page in
               do! write_bytes page 0 PAGE_SIZE in
               do! write_pte pte (pte_new (shr64 page PAGE_SIZE_BITS) PTE_V) in
               ret (Some tt)) in
          let! e' := read_pte pte in
          walk_create (pte_ppn e') rest
      end
  end.

Definition find_pte_create (pt : PageTable) (vpn : Z) : M mm (option Z) :=
  walk_create (root_ppn pt) (vpn_idx vpn).

Definition map (pt : PageTable) (va pa : Z) (flags : PTEFlags) : M mm unit :=
  let vpn := shr64 va PAGE_SIZE_BITS in
  let ppn := shr64 pa PAGE_SIZE_BITS in
  let! pte := expect (find_pte_create pt vpn) in
  let! e := read_pte pte in
  if is_valid e then panic
  else write_pte pte (pte_new ppn (flags |f PTE_V |f PTE_A |f PTE_D)).

(** The loop of [find_pte]. *)
Fixpoint walk (ppn : Z) (idx : list Z) : M mm (option Z) :=
  match idx with
  | [] => ret None
  | k :: rest =>
      let pte := shl64 ppn PAGE_SIZE_BITS + k * 8 in
      let! e := read_pte pte in
      match rest with
      | [] => ret (if is_valid e then Some pte else None)
      | _ :: _ => if is_valid e then walk (pte_ppn e) rest else ret None
      end
  end.

Definition find_pte (pt : PageTable) (vpn : Z) : M mm (option Z) :=
  walk (root_ppn pt) (vpn_idx vpn).

Definition unmap (pt : PageTable) (va : Z) : M mm unit :=
  let vpn := shr64 va PAGE_SIZE_BITS in
  let! o := find_pte pt vpn in
  match o with
  | Some pte => write_pte pte pte_empty
  | None => ret tt
  end.

Definition translate (pt : PageTable) (va : Z) : M mm (option Z) :=
  let vpn := shr64 va PAGE_SIZE_BITS in
  let offset := Z.land va (PAGE_SIZE - 1) in
  let? pte := find_pte pt vpn in
  let! e := read_pte pte in
  ret (Some (Z.lor (shl64 (pte_ppn e) PAGE_SIZE_BITS) offset)).

(** ** The abstract view: a finite function from page numbers to entries *)

(** The table that entry [k] of table [t] points to. *)
Definition next (m : mem) (t k : Z) : option Z :=
  let e := PTE (rd64 m (t * 4096 + k * 8)) in
  if is_valid e then Some (pte_ppn e) else None.

Fixpoint node (m : mem) (t : Z) (path : list Z) : option Z :=
  match path with
  | [] => Some t
  | k :: p => match next m t k with Some t' => node m t' p | None => None end
  end.

(** The valid leaf entry that a path of three indices reaches. *)
Definition leaf (m : mem) (root : Z) (idx : list Z) : option PageTableEntry :=
  match idx with
  | [i; j; k] =>
      match node m root [i; j] with
      | Some t => let e := PTE (rd64 m (t * 4096 + k * 8)) in
                  if is_valid e then Some e else None
      | None => None
      end
  | _ => None
  end.

Definition view (m : mem) (root vpn : Z) : option PageTableEntry := leaf m root (vpn_idx vpn).

Definition idx_ok (k : Z) : Prop := 0 ≤ k < 512.
Definition path_ok (p : list Z) : Prop := (length p ≤ 2)%nat ∧ Forall idx_ok p.

Definition is_table (m : mem) (root t : Z) : Prop := ∃ p, path_ok p ∧ node m root p = Some t.

(** The tables form a tree of page frames below [hi]. *)
Record pt_wf (m : mem) (root hi : Z) : Prop := {
  wf_range : ∀ p t, path_ok p → node m root p = Some t → 0 ≤ t ∧ (t + 1) * 4096 ≤ hi;
  wf_inj : ∀ p q t, path_ok p → path_ok q → node m root p = Some t → node m root q = Some t → p = q
}.

(** The number of tables a walk from [t] along [idx] still has to create. *)
Fixpoint missing_from (m : mem) (t : Z) (idx : list Z) : Z :=
  match idx with
  | [] => 0
  | k :: rest =>
      match rest with
      | [] => 0
      | _ :: _ =>
          match next m t k with
          | Some t' => missing_from m t' rest
          | None => Z.of_nat (length rest)
          end
      end
  end.
Definition missing (m : mem) (root vpn : Z) : Z := missing_from m root (vpn_idx vpn).

(** ** Entries: encoding *)

Lemma lor_disjoint a b n : 0 ≤ n → 0 ≤ b < 2 ^ n → Z.lor (a * 2 ^ n) b = a * 2 ^ n + b.
Proof.
  intros Hn Hb. symmetry. apply Z.add_nocarry_lor. apply Z.bits_inj'. intros i Hi.
  rewrite Z.land_spec, Z.bits_0. destruct (decide (i < n)).
  - rewrite Z.mul_pow2_bits_low by lia. done.
  - rewrite <-(Z.mod_small b (2 ^ n)) by lia. rewrite Z.mod_pow2_bits_high by lia. apply andb_false_r.
Qed.

Definition flags_ok (fl : PTEFlags) : Prop := 0 ≤ fl < 256.

Lemma pte_new_bits ppn fl : 0 ≤ ppn < 2 ^ 52 → flags_ok fl → bits (pte_new ppn fl) = ppn * 1024 + fl.
Proof.
  intros Hp Hf. unfold pte_new, flags_ok in *. simpl. rewrite shl64_small by lia.
  rewrite lor_disjoint by lia. done.
Qed.

Lemma pte_eta e : PTE (bits e) = e.
Proof. by destruct e. Qed.

Lemma is_valid_odd e : is_valid e = Z.odd (bits e).
Proof.
  unfold is_valid, contains, pte_flags, from_bits_truncate, PTE_V.
  rewrite <-Z.land_assoc. change (Z.land 255 (Z.shiftl 1 0)) with (Z.ones 1).
  rewrite Z.land_ones by lia. change (Z.shiftl 1 0) with 1. change (2 ^ 1) with 2.
  rewrite Zmod_odd. by destruct (Z.odd (bits e)).
Qed.

Lemma pte_new_ppn ppn fl : 0 ≤ ppn < 2 ^ 52 → flags_ok fl → pte_ppn (pte_new ppn fl) = ppn.
Proof.
  intros Hp Hf. unfold pte_ppn. rewrite shr64_div by lia. rewrite pte_new_bits by done.
  unfold flags_ok in Hf. change (2 ^ 10) with 1024. rewrite Z.div_add_l by lia.
  rewrite Z.div_small; lia.
Qed.

Lemma pte_new_flags ppn fl : 0 ≤ ppn < 2 ^ 52 → flags_ok fl → pte_flags (pte_new ppn fl) = fl.
Proof.
  intros Hp Hf. unfold pte_flags, from_bits_truncate. rewrite pte_new_bits by done.
  change 0xff with (Z.ones 8). rewrite Z.land_ones by lia. unfold flags_ok in Hf.
  replace (ppn * 1024 + fl) with (fl + (ppn * 4) * 2 ^ 8) by lia.
  rewrite Z.mod_add by lia. apply Z.mod_small. lia.
Qed.

Lemma pte_new_valid ppn fl : 0 ≤ ppn < 2 ^ 52 → flags_ok fl → is_valid (pte_new ppn fl) = Z.odd fl.
Proof.
  intros Hp Hf. rewrite is_valid_odd, pte_new_bits by done.
  rewrite Z.add_comm. replace (ppn * 1024) with (2 * (ppn * 512)) by lia. apply Z.odd_add_mul_2.
Qed.

Lemma pte_new_range ppn fl : 0 ≤ ppn < 2 ^ 52 → flags_ok fl → in_usize (bits (pte_new ppn fl)).
Proof. intros Hp Hf. rewrite pte_new_bits by done. unfold flags_ok, in_usize in *. lia. Qed.

Lemma lor_flags_ok a b : flags_ok a → flags_ok b → flags_ok (a |f b).
Proof.
  unfold flags_ok. intros Ha Hb. split; [apply Z.lor_nonneg; lia|].
  assert (Z.lor a b = Z.lor a b mod 2 ^ 8) as ->; [|apply Z.mod_pos_bound; lia].
  rewrite <-Z.land_ones, Z.land_lor_distr_l, !Z.land_ones, !Z.mod_small by lia. done.
Qed.

Lemma map_flags_odd fl : Z.odd (fl |f PTE_V |f PTE_A |f PTE_D) = true.
Proof. rewrite <-!Z.bit0_odd, !Z.lor_spec. by rewrite orb_true_r. Qed.

Lemma map_flags_ok fl : flags_ok fl → flags_ok (fl |f PTE_V |f PTE_A |f PTE_D).
Proof. intros. repeat apply lor_flags_ok; done. Qed.
#[export] Hint Resolve map_flags_ok lor_flags_ok : rvos.

(** ** Indices *)

Ltac forall_idx := repeat (apply Forall_cons_2; [done|]); apply Forall_nil_2.

Lemma vpn_idx_mod vpn :
  vpn_idx vpn = [(vpn / 2 ^ 18) mod 512; (vpn / 2 ^ 9) mod 512; vpn mod 512].
Proof.
  unfold vpn_idx. change 0x1ff with (Z.ones 9). rewrite !Z.land_ones by lia.
  by rewrite !shr64_div by lia.
Qed.

Lemma vpn_idx_shape vpn : ∃ i j k, vpn_idx vpn = [i; j; k] ∧ idx_ok i ∧ idx_ok j ∧ idx_ok k.
Proof. rewrite vpn_idx_mod. eexists _, _, _. split; [done|]. repeat split; by apply Z.mod_pos_bound. Qed.

Lemma vpn_idx_ok vpn : Forall idx_ok (vpn_idx vpn).
Proof. destruct (vpn_idx_shape vpn) as (i & j & k & -> & ? & ? & ?). forall_idx. Qed.

Lemma vpn_digits a :
  a mod 2 ^ 27 = a mod 512 + 512 * ((a / 2 ^ 9) mod 512 + 512 * ((a / 2 ^ 18) mod 512)).
Proof.
  change (2 ^ 27) with (512 * (512 * 512)). rewrite !Z.rem_mul_r by lia.
  rewrite Z.div_div by lia. done.
Qed.

Lemma vpn_idx_inj a b : vpn_idx a = vpn_idx b ↔ a mod 2 ^ 27 = b mod 2 ^ 27.
Proof.
  rewrite !vpn_idx_mod, !vpn_digits.
  pose proof (λ x, Z.mod_pos_bound x 512 ltac:(lia)) as Hb.
  pose proof (Hb a). pose proof (Hb b). pose proof (Hb (a / 2 ^ 9)). pose proof (Hb (b / 2 ^ 9)).
  pose proof (Hb (a / 2 ^ 18)). pose proof (Hb (b / 2 ^ 18)). clear Hb.
  generalize dependent ((a / 2 ^ 18) mod 512). generalize dependent ((b / 2 ^ 18) mod 512).
  generalize dependent ((a / 2 ^ 9) mod 512). generalize dependent ((b / 2 ^ 9) mod 512).
  generalize dependent (a mod 512). generalize dependent (b mod 512). intros. split.
  - intros H'. by injection H' as -> -> ->.
  - intros. repeat f_equal; lia.
Qed.

(** ** Paths *)

Lemma node_app m t p q :
  node m t (p ++ q) = match node m t p with Some t' => node m t' q | None => None end.
Proof.
  revert t. induction p as [|k p IH]; intros t; simpl; [done|]. by destruct (next m t k).
Qed.

Lemma node_snoc m t p k :
  node m t (p ++ [k]) = match node m t p with Some t' => next m t' k | None => None end.
Proof. rewrite node_app. destruct (node m t p); [|done]. simpl. by destruct (next m z k). Qed.

Lemma path_ok_snoc p k : path_ok (p ++ [k]) ↔ (length p ≤ 1)%nat ∧ path_ok p ∧ idx_ok k.
Proof.
  unfold path_ok. rewrite length_app, Forall_app, Forall_singleton. simpl.
  naive_solver lia.
Qed.

Lemma path_ok_nil : path_ok [].
Proof. split; [simpl; lia|constructor]. Qed.
#[export] Hint Resolve path_ok_nil : rvos.

(** The tables reached in [m] are reached in [m'] when their links are kept. *)
Lemma node_mono m m' root :
  (∀ p t i t', path_ok (p ++ [i]) → node m root p = Some t → next m t i = Some t' →
     next m' t i = Some t') →
  ∀ p t, path_ok p → node m root p = Some t → node m' root p = Some t.
Proof.
  intros H p. induction p as [|k p IH] using rev_ind; intros t Hp; [done|].
  rewrite !node_snoc. destruct (node m root p) as [t'|] eqn:E; [|done]. intros Hn.
  pose proof (proj1 (path_ok_snoc _ _) Hp) as (_ & Hp' & _).
  rewrite (IH t') by done. by eapply H.
Qed.

(** Entries of a memory that agrees on a table's page. *)
Lemma next_ext m m' t k :
  rd64 m' (t * 4096 + k * 8) = rd64 m (t * 4096 + k * 8) → next m' t k = next m t k.
Proof. intros H. unfold next. by rewrite H. Qed.

Lemma next_zero m t k : rd64 m (t * 4096 + k * 8) = 0 → next m t k = None.
Proof. intros H. unfold next. by rewrite H. Qed.

(** ** Writing one entry *)

Section Slot.
Context (m : mem) (root hi : Z) (Hwf : pt_wf m root hi).

Lemma wf_root : 0 ≤ root ∧ (root + 1) * 4096 ≤ hi.
Proof. by apply (wf_range _ _ _ Hwf []); auto with rvos. Qed.

Lemma slots_disjoint t i t' i' : idx_ok i → idx_ok i' → (t, i) ≠ (t', i') →
  t * 4096 + i * 8 + 8 ≤ t' * 4096 + i' * 8 ∨ t' * 4096 + i' * 8 + 8 ≤ t * 4096 + i * 8.
Proof.
  unfold idx_ok. intros Hi Hi' Hne. destruct (decide (t = t')) as [->|]; [|lia].
  assert (i ≠ i') by congruence. lia.
Qed.

(** Storing a leaf entry keeps every table and changes that leaf only. *)
Section LeafWrite.
Context (i j k t e : Z).
Hypothesis Hi : idx_ok i.
Hypothesis Hj : idx_ok j.
Hypothesis Hk : idx_ok k.
Hypothesis Ht : node m root [i; j] = Some t.
Hypothesis He : in_usize e.
Local Abbreviation m' := (wr64 m (t * 4096 + k * 8) e).

Lemma path_ij : path_ok [i; j].
Proof. split; [simpl; lia|]. forall_idx. Qed.

Lemma leaf_write_next p t' i' : path_ok (p ++ [i']) → node m root p = Some t' →
  next m' t' i' = next m t' i'.
Proof.
  intros (Hl & Hp & Hi')%path_ok_snoc Hn. apply next_ext, rd64_wr64_disj.
  apply slots_disjoint; [done..|]. intros [= -> ->].
  pose proof (wf_inj _ _ _ Hwf p [i; j] t Hp path_ij Hn Ht) as ->. simpl in Hl. lia.
Qed.

Lemma leaf_write_node p : path_ok p → node m' root p = node m root p.
Proof.
  induction p as [|i' p IH] using rev_ind; intros Hp; [done|].
  rewrite !node_snoc. pose proof (proj1 (path_ok_snoc _ _) Hp) as (_ & Hp' & _).
  rewrite IH by done. destruct (node m root p) eqn:E; [|done]. by eapply leaf_write_next.
Qed.

Lemma leaf_write_leaf idx : Forall idx_ok idx →
  leaf m' root idx =
    if decide (idx = [i; j; k]) then (if is_valid (PTE e) then Some (PTE e) else None)
    else leaf m root idx.
Proof.
  intros Hidx. destruct idx as [|i1 [|j1 [|k1 [|]]]]; try (by rewrite decide_False).
  rewrite !Forall_cons in Hidx. destruct Hidx as (Hi1 & Hj1 & Hk1 & _).
  assert (path_ok [i1; j1]) as Hp1 by (split; [simpl; lia|forall_idx]).
  unfold leaf. rewrite leaf_write_node by done.
  destruct (node m root [i1; j1]) as [t1|] eqn:E1.
  - case_decide as Heq.
    + simplify_eq. by rewrite rd64_wr64_same.
    + rewrite rd64_wr64_disj; [done|]. apply slots_disjoint; [done..|]. intros [= -> ->].
      apply Heq. pose proof (wf_inj _ _ _ Hwf [i1; j1] [i; j] t Hp1 path_ij E1 Ht). by simplify_eq.
  - case_decide; [simplify_eq|done].
Qed.

Lemma leaf_write_wf : pt_wf m' root hi.
Proof.
  split.
  - intros p t' Hp. rewrite leaf_write_node by done. by apply Hwf.
  - intros p q t' Hp Hq. rewrite !leaf_write_node by done. by apply Hwf.
Qed.

Lemma leaf_write_frame x :
  (∀ t', is_table m root t' → ¬ (t' * 4096 ≤ x < t' * 4096 + 4096)) → rd8 m' x = rd8 m x.
Proof.
  intros Hx. apply rd8_wr64_out. specialize (Hx t (ex_intro _ [i; j] (conj path_ij Ht))).
  unfold idx_ok in Hk. lia.
Qed.
End LeafWrite.

(** Linking a fresh zeroed frame [hi] as a new table. *)
Section Link.
Context (p0 : list Z) (t0 k0 : Z).
Hypothesis Hhi : 0 ≤ hi < 2 ^ 56 ∧ hi mod 4096 = 0.
Hypothesis Hp0 : path_ok (p0 ++ [k0]).
Hypothesis Ht0 : node m root p0 = Some t0.
Hypothesis Hfree : next m t0 k0 = None.
Local Abbreviation n := (hi / 4096).
Local Abbreviation m1 := (fill (fill m hi 0 4096) hi 0 4096).
Local Abbreviation m' := (wr64 m1 (t0 * 4096 + k0 * 8) (bits (pte_new n PTE_V))).

Lemma link_n : hi = n * 4096 ∧ 0 ≤ n < 2 ^ 52.
Proof. dlia. Qed.

Lemma link_t0 : 0 ≤ t0 ∧ (t0 + 1) * 4096 ≤ hi ∧ idx_ok k0.
Proof.
  apply path_ok_snoc in Hp0 as (_ & Hp & Hk). destruct (wf_range _ _ _ Hwf p0 t0 Hp Ht0). by split_and!.
Qed.

Lemma link_rd_slot : rd64 m' (t0 * 4096 + k0 * 8) = bits (pte_new n PTE_V).
Proof. apply rd64_wr64_same, pte_new_range; [apply link_n|done]. Qed.

Lemma link_rd_new i : idx_ok i → rd64 m' (n * 4096 + i * 8) = 0.
Proof.
  intros Hi. pose proof link_t0 as (? & ? & Hk). pose proof link_n as [E _].
  unfold idx_ok in *. rewrite rd64_wr64_disj by lia. apply rd64_fill_zero; lia.
Qed.

Lemma link_rd_old t i : (t + 1) * 4096 ≤ hi → idx_ok i → (t, i) ≠ (t0, k0) →
  rd64 m' (t * 4096 + i * 8) = rd64 m (t * 4096 + i * 8).
Proof.
  intros Ht Hi Hne. pose proof link_t0 as (? & ? & Hk).
  rewrite rd64_wr64_disj by (apply slots_disjoint; done).
  unfold idx_ok in *. rewrite !rd64_fill_out by lia. done.
Qed.

Lemma link_next : next m' t0 k0 = Some n.
Proof.
  unfold next. cbv zeta. pose proof link_n as [_ Hn].
  by rewrite link_rd_slot, pte_eta, pte_new_valid, pte_new_ppn.
Qed.

Lemma link_next_old p t i t' : path_ok (p ++ [i]) → node m root p = Some t →
  next m t i = Some t' → next m' t i = Some t'.
Proof.
  intros (_ & Hp & Hi)%path_ok_snoc Hn Hnext. destruct (decide ((t, i) = (t0, k0))) as [Heq|Hne].
  { simplify_eq. }
  rewrite (next_ext m); [done|]. apply link_rd_old; [|done..]. by apply (wf_range _ _ _ Hwf p).
Qed.

Lemma link_mono p t : path_ok p → node m root p = Some t → node m' root p = Some t.
Proof. apply node_mono. apply link_next_old. Qed.

Lemma link_inv p t : path_ok p → node m' root p = Some t →
  node m root p = Some t ∨ (p = p0 ++ [k0] ∧ t = n).
Proof.
  revert t. induction p as [|i p IH] using rev_ind; intros t Hp; [by left|].
  rewrite !node_snoc. pose proof (proj1 (path_ok_snoc _ _) Hp) as (Hl & Hp' & Hi).
  destruct (node m' root p) as [t1|] eqn:E; [|done]. intros Hnext.
  destruct (IH t1 Hp' eq_refl) as [Hold|[Heq Hnew]].
  - rewrite Hold. destruct (decide ((t1, i) = (t0, k0))) as [Heq|Hne].
    + injection Heq as -> ->. right. rewrite link_next in Hnext. injection Hnext as <-.
      split; [|done].
      f_equal. apply (wf_inj _ _ _ Hwf p p0 t0); try done. by apply path_ok_snoc in Hp0 as (_ & ? & _).
    + left. rewrite <-Hnext. symmetry. apply next_ext, link_rd_old; [|done..].
      by apply (wf_range _ _ _ Hwf p).
  - subst. rewrite next_zero in Hnext; [done|]. by apply link_rd_new.
Qed.

Lemma link_wf : pt_wf m' root (hi + 4096).
Proof.
  pose proof link_n as [E Hn]. split.
  - intros p t Hp Ht. destruct (link_inv p t Hp Ht) as [Hold|[-> ->]]; [|lia].
    destruct (wf_range _ _ _ Hwf p t Hp Hold). lia.
  - intros p q t Hp Hq Hpt Hqt.
    destruct (link_inv p t Hp Hpt) as [Hold|[-> Et]], (link_inv q t Hq Hqt) as [Hold'|[-> Et']]; try done.
    + by apply (wf_inj _ _ _ Hwf p q t).
    + destruct (wf_range _ _ _ Hwf p t Hp Hold). lia.
    + destruct (wf_range _ _ _ Hwf q t Hq Hold'). lia.
Qed.

Lemma link_leaf idx : Forall idx_ok idx → leaf m' root idx = leaf m root idx.
Proof.
  intros Hidx. destruct idx as [|i [|j [|k [|]]]]; try done.
  rewrite !Forall_cons in Hidx. destruct Hidx as (Hi & Hj & Hk & _).
  assert (path_ok [i; j]) as Hp by (split; [simpl; lia|forall_idx]).
  unfold leaf. destruct (node m root [i; j]) as [t|] eqn:E.
  - rewrite (link_mono _ _ Hp E). rewrite link_rd_old; [done| |done|].
    + by apply (wf_range _ _ _ Hwf [i; j]).
    + intros [= -> ->]. apply path_ok_snoc in Hp0 as (Hl & Hp0' & _).
      pose proof (wf_inj _ _ _ Hwf [i; j] p0 t0 Hp Hp0' E Ht0) as <-. simpl in Hl. lia.
  - destruct (node m' root [i; j]) as [t|] eqn:E'; [|done].
    destruct (link_inv _ _ Hp E') as [Hold|[_ ->]]; [congruence|].
    by rewrite link_rd_new.
Qed.

Lemma link_frame x : x < hi →
  (∀ t, is_table m root t → ¬ (t * 4096 ≤ x < t * 4096 + 4096)) → rd8 m' x = rd8 m x.
Proof.
  intros Hx Hout. pose proof link_t0 as (? & ? & Hk). unfold idx_ok in Hk.
  assert (¬ (t0 * 4096 ≤ x < t0 * 4096 + 4096)).
  { apply Hout. exists p0. split; [|done]. by apply path_ok_snoc in Hp0 as (_ & ? & _). }
  rewrite rd8_wr64_out by lia. rewrite !rd8_fill, !decide_False by lia. done.
Qed.
End Link.
End Slot.

(** ** Growing a table: what every operation keeps *)

Abbreviation cur s := (page_current (mm_pages s)).

(** The tables under [root] are well formed in [s], all below the next free
    frame. *)
Definition pt_inv (root : Z) (s : mm) : Prop :=
  pt_wf (mm_mem s) root (cur s) ∧ pages_ok (mm_pages s).

(** From [s] to [s'] frames were only taken, the tables under [root] only
    grew by fresh frames, and nothing outside them was written. *)
Record pt_grow (root : Z) (s s' : mm) : Prop := {
  grow_inv : pt_inv root s';
  grow_cur : cur s ≤ cur s';
  grow_end : page_end (mm_pages s') = page_end (mm_pages s);
  grow_heap : mm_heap s' = mm_heap s;
  grow_node : ∀ p t, path_ok p → node (mm_mem s) root p = Some t → node (mm_mem s') root p = Some t;
  grow_new : ∀ t, is_table (mm_mem s') root t → is_table (mm_mem s) root t ∨ cur s ≤ t * 4096;
  grow_frame : ∀ x, x < cur s →
    (∀ t, is_table (mm_mem s) root t → ¬ (t * 4096 ≤ x < t * 4096 + 4096)) →
    rd8 (mm_mem s') x = rd8 (mm_mem s) x;
  grow_above : ∀ x, cur s' ≤ x → rd8 (mm_mem s') x = rd8 (mm_mem s) x
}.

Lemma pt_grow_refl root s : pt_inv root s → pt_grow root s s.
Proof. intros H. split; auto; lia. Qed.

Lemma pt_grow_trans root s1 s2 s3 : pt_grow root s1 s2 → pt_grow root s2 s3 → pt_grow root s1 s3.
Proof.
  intros H1 H2. pose proof (grow_cur _ _ _ H1). pose proof (grow_cur _ _ _ H2). split.
  - apply H2.
  - lia.
  - by rewrite (grow_end _ _ _ H2), (grow_end _ _ _ H1).
  - by rewrite (grow_heap _ _ _ H2), (grow_heap _ _ _ H1).
  - intros p t Hp Ht. eapply grow_node; eauto. eapply grow_node; eauto.
  - intros t Ht. destruct (grow_new _ _ _ H2 t Ht) as [Hold|]; [|right; lia].
    by apply (grow_new _ _ _ H1).
  - intros x Hx Hout. rewrite (grow_frame _ _ _ H2); [by apply (grow_frame _ _ _ H1)|lia|].
    intros t Ht. destruct (grow_new _ _ _ H1 t Ht); [by apply Hout|lia].
  - intros x Hx. rewrite (grow_above _ _ _ H2), (grow_above _ _ _ H1) by lia. done.
Qed.

Lemma table_addr root s p t : pt_inv root s → path_ok p → node (mm_mem s) root p = Some t →
  shl64 t PAGE_SIZE_BITS = t * 4096.
Proof.
  intros [Hwf (Hc & He & _)] Hp Ht. destruct (wf_range _ _ _ Hwf p t Hp Ht).
  unfold PAGE_SIZE_BITS. rewrite shl64_small by lia. done.
Qed.

(** The mapping depends on the bytes of the tables only. *)
Lemma pt_tables_frame m m' root hi : pt_wf m root hi →
  (∀ t x, is_table m root t → t * 4096 ≤ x < t * 4096 + 4096 → rd8 m' x = rd8 m x) →
  (∀ p, path_ok p → node m' root p = node m root p) ∧
  (∀ v, view m' root v = view m root v) ∧ pt_wf m' root hi.
Proof.
  intros Hwf Hmem.
  assert (∀ p t k, path_ok p → idx_ok k → node m root p = Some t →
    rd64 m' (t * 4096 + k * 8) = rd64 m (t * 4096 + k * 8)) as Hrd.
  { intros p t k Hp Hk Ht. unfold idx_ok in Hk.
    apply rd64_ext. intros x Hx. apply (Hmem t); [by exists p|lia]. }
  assert (∀ p, path_ok p → node m' root p = node m root p) as Hnode.
  { intros p. induction p as [|k p IH] using rev_ind; intros Hp; [done|].
    pose proof (proj1 (path_ok_snoc _ _) Hp) as (_ & Hp' & Hk).
    rewrite !node_snoc, IH by done. destruct (node m root p) eqn:E; [|done].
    by apply next_ext, (Hrd p). }
  split; [done|]. split.
  - intros v. unfold view. destruct (vpn_idx_shape v) as (i & j & k & -> & Hi & Hj & Hk).
    assert (path_ok [i; j]) by (split; [simpl; lia|forall_idx]).
    unfold leaf. rewrite Hnode by done. destruct (node m root [i; j]) eqn:E; [|done].
    by rewrite (Hrd [i; j]).
  - split.
    + intros p t Hp. rewrite Hnode by done. by apply Hwf.
    + intros p q t Hp Hq. rewrite !Hnode by done. by apply Hwf.
Qed.

(** Tables see only the memory below the next free frame. *)
Lemma pt_frame m m' root hi : pt_wf m root hi → (∀ x, x < hi → rd8 m' x = rd8 m x) →
  (∀ p, path_ok p → node m' root p = node m root p) ∧
  (∀ v, view m' root v = view m root v) ∧ pt_wf m' root hi.
Proof.
  intros Hwf Hmem. apply pt_tables_frame; [done|]. intros t x (p & Hp & Ht) Hx.
  destruct (wf_range _ _ _ Hwf p t Hp Ht). apply Hmem. lia.
Qed.

Lemma is_table_frame m m' root hi t : pt_wf m root hi → (∀ x, x < hi → rd8 m' x = rd8 m x) →
  is_table m' root t ↔ is_table m root t.
Proof.
  intros Hwf Hmem. destruct (pt_frame _ _ _ _ Hwf Hmem) as [Hn _].
  split; intros (p & Hp & Ht); exists p; (split; [done|]); by rewrite Hn in * by done.
Qed.

(** *** Linking a fresh table, as [find_pte_create] does *)

Definition link_state (s : mm) (t0 k0 : Z) : mm :=
  set_mem (wr64 (fill (mm_mem (take_page s)) (cur s) 0 4096) (t0 * 4096 + k0 * 8)
             (bits (pte_new (cur s / 4096) PTE_V))) (take_page s).

Lemma link_hi s : pages_ok (mm_pages s) → 0 ≤ cur s < 2 ^ 56 ∧ cur s mod 4096 = 0.
Proof. unfold pages_ok. intros (? & ? & ?). split; [lia|done]. Qed.

Lemma link_grow root s p0 t0 k0 : pt_inv root s → cur s + 4096 ≤ page_end (mm_pages s) →
  path_ok (p0 ++ [k0]) → node (mm_mem s) root p0 = Some t0 → next (mm_mem s) t0 k0 = None →
  pt_grow root s (link_state s t0 k0).
Proof.
  intros [Hwf Hok] Hfit Hp0 Ht0 Hfree. pose proof (link_hi s Hok) as Hhi.
  pose proof (link_n _ Hhi) as [En _].
  unfold link_state, take_page. constructor;
    cbn [mm_mem mm_pages mm_heap set_mem set_pages page_current page_end].
  - split; cbn [mm_mem mm_pages set_mem set_pages page_current].
    + by apply (link_wf _ _ _ Hwf p0).
    + by apply take_page_ok.
  - lia.
  - reflexivity.
  - reflexivity.
  - by apply (link_mono _ _ _ Hwf p0).
  - intros t (p & Hp & Ht). destruct (link_inv _ _ _ Hwf p0 t0 k0 Hhi Hp0 Ht0 p t Hp Ht)
      as [Hold|[_ ->]]; [left; by exists p|right; lia].
  - intros x Hx Hout. by apply (link_frame _ _ _ Hwf p0).
  - intros x Hx. destruct (link_t0 _ _ _ Hwf p0 t0 k0 Hp0 Ht0) as (? & ? & Hk). unfold idx_ok in Hk.
    rewrite rd8_wr64_out by lia. rewrite !rd8_fill, !decide_False by lia. done.
Qed.

Lemma missing_from_zero m t idx : (∀ i, idx_ok i → next m t i = None) → Forall idx_ok idx → idx ≠ [] →
  missing_from m t idx = Z.of_nat (length idx) - 1.
Proof.
  intros Hz Hidx Hne. destruct idx as [|k [|k' rest]]; [done|done|].
  simpl. rewrite Hz by (by inversion Hidx). lia.
Qed.

Lemma missing_from_nonneg m t idx : 0 ≤ missing_from m t idx.
Proof.
  revert t. induction idx as [|k idx IH]; intros t; simpl; [done|].
  destruct idx; [done|]. destruct (next m t k); [apply IH|lia].
Qed.

(** *** [find_pte_create] *)

Lemma path_ok_prefix (p q : list Z) : q ≠ [] → length (p ++ q) = 3%nat → Forall idx_ok (p ++ q) → path_ok p.
Proof.
  intros Hq Hl Hok. rewrite length_app in Hl. rewrite Forall_app in Hok. destruct Hok.
  split; [|done]. destruct q; [done|simpl in Hl; lia].
Qed.

Lemma create_run s t k : pages_ok (mm_pages s) →
  (let? page := alloc_page in
   do! write_bytes page 0 PAGE_SIZE in
   do! write_pte (t * 4096 + k * 8) (pte_new (shr64 page PAGE_SIZE_BITS) PTE_V) in
   ret (Some tt)) s =
  if decide (cur s + 4096 ≤ page_end (mm_pages s)) then Ret (Some tt, link_state s t k)
  else Ret (None, s).
Proof.
  intros Hok. unfold try_opt, bind. destruct (alloc_page_cases s Hok) as [[Hfit E]|[Hfull E]]; rewrite E.
  - rewrite decide_True by done. unfold write_bytes, write_pte, modify, ret, PAGE_SIZE_BITS, PAGE_SIZE.
    rewrite shr64_div by lia. change (2 ^ 12) with 4096. reflexivity.
  - by rewrite decide_False by lia.
Qed.

Lemma link_reread s t k : pages_ok (mm_pages s) →
  pte_ppn (PTE (rd64 (mm_mem (link_state s t k)) (t * 4096 + k * 8))) = cur s / 4096.
Proof.
  intros Hok%link_hi. simpl. rewrite link_rd_slot, pte_eta by done.
  apply pte_new_ppn; [by apply link_n|done].
Qed.

Lemma walk_create_spec root idx : ∀ pre t s,
  pt_inv root s → node (mm_mem s) root pre = Some t → idx ≠ [] →
  length (pre ++ idx) = 3%nat → Forall idx_ok (pre ++ idx) →
  wp (walk_create t idx) s (λ o s',
    pt_grow root s s' ∧
    (∀ idx', Forall idx_ok idx' → leaf (mm_mem s') root idx' = leaf (mm_mem s) root idx') ∧
    if decide (cur s + missing_from (mm_mem s) t idx * 4096 ≤ page_end (mm_pages s)) then
      cur s' = cur s + missing_from (mm_mem s) t idx * 4096 ∧
      ∃ q t' k, pre ++ idx = q ++ [k] ∧ node (mm_mem s') root q = Some t' ∧ o = Some (t' * 4096 + k * 8)
    else o = None).
Proof.
  induction idx as [|k idx IH]; intros pre t s Hinv Ht Hne Hlen Hok; [done|].
  pose proof (path_ok_prefix pre (k :: idx) ltac:(done) Hlen Hok) as Hpre.
  assert (idx_ok k) as Hk by (rewrite Forall_app, Forall_cons in Hok; tauto).
  cbn [walk_create]. cbv zeta. rewrite (table_addr root s pre t) by done.
  destruct idx as [|k2 rest].
  { apply wp_ret. split; [by apply pt_grow_refl|]. split; [done|]. cbn [missing_from].
    case_decide; [|destruct Hinv as [_ (? & _)]; lia]. split; [lia|]. eauto 10. }
  assert (path_ok (pre ++ [k])) as Hpk.
  { apply (path_ok_prefix _ (k2 :: rest)); [done|..]; by rewrite <-app_assoc. }
  cbn [missing_from]. apply wp_bind, wp_gets, wp_try_opt.
  destruct (next (mm_mem s) t k) as [t'|] eqn:Hnext; pose proof Hnext as Hv; unfold next in Hv;
    cbv zeta in Hv; destruct (is_valid (PTE (rd64 (mm_mem s) (t * 4096 + k * 8)))); simplify_eq.
  - apply wp_ret, wp_bind, wp_gets. eapply wp_mono.
    { eapply (IH (pre ++ [k])); try done; [|by rewrite <-app_assoc..]. by rewrite node_snoc, Ht. }
    intros o s'. by rewrite <-app_assoc.
  - destruct Hinv as [Hwf Hpg]. destruct (decide (cur s + 4096 ≤ page_end (mm_pages s))) as [Hfit|Hfull].
    2:{ eapply wp_of_run; [rewrite create_run by done; by rewrite decide_False|]. cbv beta iota.
        split; [by apply pt_grow_refl|]. split; [done|]. rewrite decide_False; [done|]. cbn [length]. lia. }
    eapply wp_of_run; [rewrite create_run by done; by rewrite decide_True|]. cbv beta iota.
    pose proof (link_grow root s pre t k (conj Hwf Hpg) Hfit Hpk Ht Hnext) as Hg.
    pose proof (link_hi s Hpg) as Hhi.
    apply wp_bind, wp_gets. rewrite link_reread by done. eapply wp_mono.
    { apply (IH (pre ++ [k])); try done; [apply Hg| |by rewrite <-app_assoc..].
      rewrite node_snoc, (grow_node _ _ _ Hg pre t) by done. by apply link_next. }
    intros o s' (Hg' & Hleaf & Ho). rewrite <-app_assoc in Ho.
    split; [by eapply pt_grow_trans|]. split.
    + intros idx' Hidx'. rewrite Hleaf by done. by apply (link_leaf _ _ _ Hwf pre).
    + rewrite missing_from_zero in Ho; [| | |discriminate].
      * cbn [length] in *. change (cur (link_state s t k)) with (cur s + 4096) in Ho.
        change (page_end (mm_pages (link_state s t k))) with (page_end (mm_pages s)) in Ho.
        case_decide; case_decide; try lia; [|done]. destruct Ho as [Hc Ho]. split; [lia|done].
      * intros i Hi. apply next_zero. by apply (link_rd_new _ _ _ Hwf pre).
      * rewrite Forall_app, !Forall_cons in Hok. rewrite Forall_cons. tauto.
Qed.

(** *** [find_pte] and [translate] *)

Lemma walk_step root s p t k rest : pt_inv root s → path_ok p → node (mm_mem s) root p = Some t →
  walk t (k :: rest) s =
    match rest with
    | [] => Ret (if is_valid (PTE (rd64 (mm_mem s) (t * 4096 + k * 8)))
                 then Some (t * 4096 + k * 8) else None, s)
    | _ :: _ => match next (mm_mem s) t k with
                | Some t' => walk t' rest s
                | None => Ret (None, s)
                end
    end.
Proof.
  intros Hinv Hp Ht. cbn [walk]. cbv zeta. rewrite (table_addr root s p t) by done.
  unfold bind, read_pte, gets, ret, next. cbv zeta.
  destruct rest; [done|]. by destruct (is_valid (PTE (rd64 (mm_mem s) (t * 4096 + k * 8)))).
Qed.

Lemma find_pte_spec pt vpn s : pt_inv (root_ppn pt) s →
  ∃ o, find_pte pt vpn s = Ret (o, s) ∧
  match o with
  | Some a => ∃ i j k t, vpn_idx vpn = [i; j; k] ∧ node (mm_mem s) (root_ppn pt) [i; j] = Some t ∧
      a = t * 4096 + k * 8 ∧ view (mm_mem s) (root_ppn pt) vpn = Some (PTE (rd64 (mm_mem s) a))
  | None => view (mm_mem s) (root_ppn pt) vpn = None
  end.
Proof.
  intros Hinv. unfold find_pte, view.
  destruct (vpn_idx_shape vpn) as (i & j & k & -> & Hi & Hj & Hk).
  rewrite (walk_step (root_ppn pt) s []) by (done || apply path_ok_nil).
  cbn [leaf node]. destruct (next (mm_mem s) (root_ppn pt) i) as [t1|] eqn:E1; [|by eexists].
  assert (path_ok [i]) by (split; [simpl; lia|forall_idx]).
  assert (path_ok [i; j]) by (split; [simpl; lia|forall_idx]).
  rewrite (walk_step (root_ppn pt) s [i]) by (try done; simpl; by rewrite E1).
  destruct (next (mm_mem s) t1 j) as [t2|] eqn:E2; [|by eexists].
  rewrite (walk_step (root_ppn pt) s [i; j]) by (try done; simpl; by rewrite E1, E2).
  eexists; split; [done|].
  destruct (is_valid (PTE (rd64 (mm_mem s) (t2 * 4096 + k * 8)))) eqn:Hv; [|done].
  exists i, j, k, t2. split_and!; try done. cbn [node]. by rewrite E1, E2.
Qed.

(** [translate] reads the abstract view. *)
Lemma translate_run pt va s : pt_inv (root_ppn pt) s →
  translate pt va s =
    Ret (match view (mm_mem s) (root_ppn pt) (va / 4096) with
         | Some e => Some (Z.lor (shl64 (pte_ppn e) 12) (va mod 4096))
         | None => None
         end, s).
Proof.
  intros Hinv. unfold translate, PAGE_SIZE_BITS, PAGE_SIZE. cbv zeta. rewrite shr64_div by lia.
  change (2 ^ 12) with 4096. change (4096 - 1) with (Z.ones 12). rewrite Z.land_ones by lia.
  change (2 ^ 12) with 4096.
  destruct (find_pte_spec pt (va / 4096) s Hinv) as (o & E & Ho).
  unfold try_opt. rewrite (bind_run _ _ _ _ _ E).
  destruct o as [a|]; [|by rewrite Ho].
  destruct Ho as (i & j & k & t & _ & _ & _ & ->). done.
Qed.

(** *** [map] *)

Lemma pt_grow_leaf_write root s i j k t e : pt_inv root s → idx_ok i → idx_ok j → idx_ok k →
  node (mm_mem s) root [i; j] = Some t → in_usize e →
  pt_grow root s (set_mem (wr64 (mm_mem s) (t * 4096 + k * 8) e) s).
Proof.
  intros [Hwf Hpg] Hi Hj Hk Ht He. constructor;
    cbn [mm_mem mm_pages mm_heap set_mem]; try reflexivity.
  - split; cbn [mm_mem mm_pages set_mem]; [|done]. by apply (leaf_write_wf _ _ _ Hwf i j k).
  - intros p t' Hp Hn. by rewrite (leaf_write_node _ _ _ Hwf i j k).
  - intros t' (p & Hp & Hn). left. exists p. split; [done|]. by rewrite (leaf_write_node _ _ _ Hwf i j k) in Hn.
  - intros x _ Hx. by apply (leaf_write_frame _ root i j k).
  - intros x Hx. assert (path_ok [i; j]) as Hp by (split; [simpl; lia|forall_idx]).
    destruct (wf_range _ _ _ Hwf [i; j] t Hp Ht). unfold idx_ok in Hk. apply rd8_wr64_out. lia.
Qed.

Lemma find_pte_create_spec pt vpn s : pt_inv (root_ppn pt) s →
  wp (find_pte_create pt vpn) s (λ o s',
    pt_grow (root_ppn pt) s s' ∧
    (∀ v, view (mm_mem s') (root_ppn pt) v = view (mm_mem s) (root_ppn pt) v) ∧
    if decide (cur s + missing (mm_mem s) (root_ppn pt) vpn * 4096 ≤ page_end (mm_pages s)) then
      cur s' = cur s + missing (mm_mem s) (root_ppn pt) vpn * 4096 ∧
      ∃ i j k t, vpn_idx vpn = [i; j; k] ∧ node (mm_mem s') (root_ppn pt) [i; j] = Some t ∧
        o = Some (t * 4096 + k * 8)
    else o = None).
Proof.
  intros Hinv. unfold find_pte_create, missing. eapply wp_mono.
  { apply (walk_create_spec (root_ppn pt) (vpn_idx vpn) [] (root_ppn pt)); try done.
    apply vpn_idx_ok. }
  intros o s' (Hg & Hleaf & Ho). split; [done|]. split; [intros; apply Hleaf, vpn_idx_ok|].
  case_decide; [|done]. destruct Ho as (Hc & q & t & k & Heq & Hn & ->). split; [done|].
  destruct (vpn_idx_shape vpn) as (i & j & k' & E & _). rewrite E in *. simpl in Heq.
  change [i; j; k'] with ([i; j] ++ [k']) in Heq.
  apply app_inj_tail in Heq as [<- <-]. by exists i, j, k', t.
Qed.

Definition mapped_pte (pa : Z) (fl : PTEFlags) : PageTableEntry :=
  pte_new (pa / 4096) (fl |f PTE_V |f PTE_A |f PTE_D).

Lemma mapped_pte_ok pa fl : in_usize pa → flags_ok fl →
  is_valid (mapped_pte pa fl) = true ∧ in_usize (bits (mapped_pte pa fl)) ∧
  pte_ppn (mapped_pte pa fl) = pa / 4096 ∧
  pte_flags (mapped_pte pa fl) = fl |f PTE_V |f PTE_A |f PTE_D.
Proof.
  unfold in_usize, mapped_pte. intros Hpa Hfl. assert (0 ≤ pa / 4096 < 2 ^ 52) by dlia.
  pose proof (map_flags_ok fl Hfl). split_and!.
  - rewrite pte_new_valid by done. apply map_flags_odd.
  - apply pte_new_range; [dlia|done].
  - apply pte_new_range; [dlia|done].
  - by apply pte_new_ppn.
  - by apply pte_new_flags.
Qed.

(** The view of an address space with one page more. *)
Definition view_insert (vpn : Z) (e : PageTableEntry) (f : Z → option PageTableEntry) : Z → option PageTableEntry :=
  λ v, if decide (v mod 2 ^ 27 = vpn mod 2 ^ 27) then Some e else f v.

(** [map] on a page not mapped yet, with frames left for the missing tables. *)
Lemma map_spec pt va pa fl s : pt_inv (root_ppn pt) s → in_usize pa → flags_ok fl →
  view (mm_mem s) (root_ppn pt) (va / 4096) = None →
  cur s + missing (mm_mem s) (root_ppn pt) (va / 4096) * 4096 ≤ page_end (mm_pages s) →
  wp (map pt va pa fl) s (λ _ s',
    pt_grow (root_ppn pt) s s' ∧
    cur s' = cur s + missing (mm_mem s) (root_ppn pt) (va / 4096) * 4096 ∧
    (∀ v, view (mm_mem s') (root_ppn pt) v =
       view_insert (va / 4096) (mapped_pte pa fl) (view (mm_mem s) (root_ppn pt)) v) ∧
    (∀ i j k, vpn_idx (va / 4096) = [i; j; k] → is_Some (node (mm_mem s') (root_ppn pt) [i; j]))).
Proof.
  intros Hinv Hpa Hfl Hnone Hfit. unfold map, PAGE_SIZE_BITS. cbv zeta.
  rewrite !shr64_div by lia. change (2 ^ 12) with 4096.
  destruct (mapped_pte_ok pa fl Hpa Hfl) as (Hval & Hbits & _).
  apply wp_bind, wp_expect. eapply wp_mono; [by apply find_pte_create_spec|].
  intros o s1 (Hg & Hview & Ho). rewrite decide_True in Ho by done.
  destruct Ho as (Hc & i & j & k & t & Eidx & Hn & ->).
  pose proof (vpn_idx_ok (va / 4096)) as Hok. rewrite Eidx, !Forall_cons in Hok.
  destruct Hok as (Hi & Hj & Hk & _).
  apply wp_bind, wp_gets.
  destruct (is_valid (PTE (rd64 (mm_mem s1) (t * 4096 + k * 8)))) eqn:Hv.
  { rewrite <-Hview in Hnone. unfold view in Hnone. rewrite Eidx in Hnone. unfold leaf in Hnone.
    rewrite Hn in Hnone. cbv zeta in Hnone. by rewrite Hv in Hnone. }
  apply wp_modify. fold (mapped_pte pa fl).
  pose proof (grow_inv _ _ _ Hg) as Hinv1.
  pose proof (pt_grow_leaf_write _ s1 i j k t _ Hinv1 Hi Hj Hk Hn Hbits) as Hg2.
  split; [by eapply pt_grow_trans|]. split; [exact Hc|]. split.
  - intros v. unfold view_insert, view. cbn [mm_mem set_mem].
    rewrite (leaf_write_leaf _ _ _ (proj1 Hinv1) i j k t) by (done || apply vpn_idx_ok).
    rewrite pte_eta, Hval, <-Eidx. fold (view (mm_mem s1) (root_ppn pt) v). rewrite Hview.
    destruct (decide (vpn_idx v = vpn_idx (va / 4096))) as [Heq|Hne].
    + rewrite decide_True; [done|]. by apply vpn_idx_inj.
    + rewrite decide_False; [done|]. intros Heq. by apply Hne, vpn_idx_inj.
  - intros i' j' k' E. rewrite Eidx in E. injection E as <- <- <-.
    exists t. eapply grow_node; [exact Hg2| |done]. split; [simpl; lia|forall_idx].
Qed.

(** [map] panics on a page that is mapped already, and when no frame is left
    for a table. *)
Lemma map_panic pt va pa fl s : pt_inv (root_ppn pt) s →
  is_Some (view (mm_mem s) (root_ppn pt) (va / 4096)) ∨
  page_end (mm_pages s) < cur s + missing (mm_mem s) (root_ppn pt) (va / 4096) * 4096 →
  map pt va pa fl s = Panic.
Proof.
  intros Hinv Hbad. unfold map, PAGE_SIZE_BITS. cbv zeta.
  rewrite !shr64_div by lia. change (2 ^ 12) with 4096.
  destruct (wp_run _ _ _ (find_pte_create_spec pt (va / 4096) s Hinv)) as (o & s1 & E & Hg & Hview & Ho).
  unfold expect at 1. unfold bind at 1 2. rewrite E. case_decide as Hfit; [|by subst o].
  destruct Ho as (Hc & i & j & k & t & Eidx & Hn & ->). destruct Hbad as [[e He]|]; [|lia].
  rewrite <-Hview in He. unfold view in He. rewrite Eidx in He. unfold leaf in He. rewrite Hn in He.
  cbv zeta in He. unfold ret, bind, read_pte, gets.
  by destruct (is_valid (PTE (rd64 (mm_mem s1) (t * 4096 + k * 8)))).
Qed.

(** *** [unmap] *)

Definition view_delete (vpn : Z) (f : Z → option PageTableEntry) : Z → option PageTableEntry :=
  λ v, if decide (v mod 2 ^ 27 = vpn mod 2 ^ 27) then None else f v.

Lemma unmap_spec pt va s : pt_inv (root_ppn pt) s →
  wp (unmap pt va) s (λ _ s',
    pt_grow (root_ppn pt) s s' ∧ cur s' = cur s ∧
    ∀ v, view (mm_mem s') (root_ppn pt) v = view_delete (va / 4096) (view (mm_mem s) (root_ppn pt)) v).
Proof.
  intros Hinv. unfold unmap, PAGE_SIZE_BITS. cbv zeta. rewrite shr64_div by lia. change (2 ^ 12) with 4096.
  apply wp_bind. destruct (find_pte_spec pt (va / 4096) s Hinv) as (o & E & Ho).
  eapply wp_of_run; [exact E|]. destruct o as [a|].
  - destruct Ho as (i & j & k & t & Eidx & Hn & -> & _).
    pose proof (vpn_idx_ok (va / 4096)) as Hok. rewrite Eidx, !Forall_cons in Hok.
    destruct Hok as (Hi & Hj & Hk & _). apply wp_modify. cbn [bits pte_empty].
    split; [by apply (pt_grow_leaf_write _ s i j)|]. split; [done|]. intros v.
    unfold view_delete, view. cbn [mm_mem set_mem].
    rewrite (leaf_write_leaf _ _ _ (proj1 Hinv) i j k t) by (done || apply vpn_idx_ok).
    change (is_valid (PTE 0)) with false. rewrite <-Eidx.
    destruct (decide (vpn_idx v = vpn_idx (va / 4096))) as [Heq|Hne].
    + rewrite decide_True; [done|]. by apply vpn_idx_inj.
    + rewrite decide_False; [done|]. intros Heq. by apply Hne, vpn_idx_inj.
  - apply wp_ret. split; [by apply pt_grow_refl|]. split; [done|]. intros v. unfold view_delete.
    case_decide as Heq; [|done]. apply vpn_idx_inj in Heq. unfold view in *. by rewrite Heq.
Qed.

(** *** [PageTable::new] *)

Lemma PageTable_new_run s : pages_ok (mm_pages s) →
  PageTable_new s =
    if decide (cur s + 4096 ≤ page_end (mm_pages s)) then
      Ret (Some {| root_ppn := cur s / 4096 |},
           set_mem (fill (mm_mem (take_page s)) (cur s) 0 4096) (take_page s))
    else Ret (None, s).
Proof.
  intros Hok. unfold PageTable_new, try_opt, bind.
  destruct (alloc_page_cases s Hok) as [[Hfit E]|[Hfull E]]; rewrite E.
  - rewrite decide_True by done. unfold write_bytes, modify, ret, PAGE_SIZE_BITS, PAGE_SIZE.
    rewrite shr64_div by lia. change (2 ^ 12) with 4096. reflexivity.
  - by rewrite decide_False by lia.
Qed.

Lemma PageTable_new_spec s : pages_ok (mm_pages s) → cur s + 4096 ≤ page_end (mm_pages s) →
  wp PageTable_new s (λ o s', ∃ pt, o = Some pt ∧ root_ppn pt = cur s / 4096 ∧
    pt_inv (root_ppn pt) s' ∧ cur s' = cur s + 4096 ∧
    page_end (mm_pages s') = page_end (mm_pages s) ∧ mm_heap s' = mm_heap s ∧
    (∀ v, view (mm_mem s') (root_ppn pt) v = None) ∧
    (∀ p, p ≠ [] → Forall idx_ok p → node (mm_mem s') (root_ppn pt) p = None) ∧
    (∀ x, x < cur s → rd8 (mm_mem s') x = rd8 (mm_mem s) x)).
Proof.
  intros Hok Hfit. eapply wp_of_run; [rewrite PageTable_new_run by done; by rewrite decide_True|].
  eexists; split; [done|]. cbn [root_ppn]. split; [done|].
  pose proof (link_hi s Hok) as Hhi. pose proof (link_n _ Hhi) as [En Hn].
  unfold take_page. cbn [mm_mem mm_pages mm_heap set_mem set_pages page_current page_end].
  set (m := fill (fill (mm_mem s) (cur s) 0 4096) (cur s) 0 4096).
  assert (∀ k, idx_ok k → next m (cur s / 4096) k = None) as Hz.
  { intros k Hk. unfold idx_ok in Hk. apply next_zero. unfold m. rewrite <-En. apply rd64_fill_zero; lia. }
  assert (∀ x, x < cur s → rd8 m x = rd8 (mm_mem s) x) as Hframe.
  { intros x Hx. unfold m. rewrite !rd8_fill, !decide_False by lia. done. }
  clearbody m. set (r := cur s / 4096) in *. clearbody r.
  assert (∀ p, p ≠ [] → Forall idx_ok p → node m r p = None) as Hnode.
  { intros [|k p] Hne Hp; [done|]. cbn [node]. rewrite Hz; [done|]. by inversion Hp. }
  split_and!; [|reflexivity..| |exact Hnode|exact Hframe].
  - split; [|by apply take_page_ok]. cbn [mm_mem mm_pages set_mem set_pages page_current]. split.
    + intros [|k p] t [_ Hp] Ht; [cbn in Ht; simplify_eq; lia|]. by rewrite Hnode in Ht.
    + intros p q t [_ Hp] [_ Hq] Ht Ht'.
      destruct p; [|by rewrite Hnode in Ht]. destruct q; [done|by rewrite Hnode in Ht'].
  - intros v. unfold view. destruct (vpn_idx_shape v) as (i & j & k & -> & Hi & Hj & Hk).
    unfold leaf. by rewrite Hnode by (done || forall_idx).
Qed.

(** ** Properties *)

(** A table without entries. *)
Lemma empty_table pt s : pages_ok (mm_pages s) → 0 ≤ root_ppn pt → (root_ppn pt + 1) * 4096 ≤ cur s →
  (∀ k, idx_ok k → next (mm_mem s) (root_ppn pt) k = None) →
  pt_inv (root_ppn pt) s ∧ ∀ v, view (mm_mem s) (root_ppn pt) v = None.
Proof.
  intros Hok Hr Hlt Hz.
  assert (∀ p, p ≠ [] → Forall idx_ok p → node (mm_mem s) (root_ppn pt) p = None) as Hnode.
  { intros [|k p] Hne Hp; [done|]. cbn [node]. rewrite Hz; [done|]. by inversion Hp. }
  split; [split; [split|done]|].
  - intros [|k p] t [_ Hp] Ht; [cbn in Ht; simplify_eq; lia|]. by rewrite Hnode in Ht.
  - intros p q t [_ Hp] [_ Hq] Ht Ht'.
    destruct p; [|by rewrite Hnode in Ht]. destruct q; [done|by rewrite Hnode in Ht'].
  - intros v. unfold view. destruct (vpn_idx_shape v) as (i & j & k & -> & Hi & Hj & Hk).
    unfold leaf. by rewrite Hnode by (done || forall_idx).
Qed.

(** An empty table at 0x8040_0000, with the allocator after it. *)
Definition table0 : PageTable := {| root_ppn := 0x80400 |}.
Definition table0_mm : mm := Mm ∅ HeapAllocator_new {| page_current := 0x80401000; page_end := 0x88000000 |}.

Lemma table0_ok : pt_inv (root_ppn table0) table0_mm ∧ ∀ v, view (mm_mem table0_mm) (root_ppn table0) v = None.
Proof.
  apply empty_table; [by repeat split|done..|].
  intros k _. apply next_zero, rd64_empty.
Qed.

Lemma translate_mapped pt va e ppn s : pt_inv (root_ppn pt) s →
  view (mm_mem s) (root_ppn pt) (va / 4096) = Some e → pte_ppn e = ppn → 0 ≤ ppn < 2 ^ 52 →
  translate pt va s = Ret (Some (ppn * 4096 + va mod 4096), s).
Proof.
  intros Hinv Hv <- Hp. rewrite translate_run, Hv by done.
  rewrite shl64_small by lia. change 4096 with (2 ^ 12).
  rewrite lor_disjoint; [done|lia|]. apply Z.mod_pos_bound. lia.
Qed.

Lemma translate_view pt pt' va va' s s' : pt_inv (root_ppn pt) s → pt_inv (root_ppn pt') s' →
  view (mm_mem s') (root_ppn pt') (va' / 4096) = view (mm_mem s) (root_ppn pt) (va / 4096) →
  va' mod 4096 = va mod 4096 →
  ∃ o, translate pt va s = Ret (o, s) ∧ translate pt' va' s' = Ret (o, s').
Proof. intros H H' Hv Ho. rewrite !translate_run by done. rewrite Hv, Ho. eauto. Qed.

(** C7: [map] inserts one page into the address space. On a well-formed table
    whose page is free, with frames left for the missing intermediate tables,
    [map] does not panic and keeps the table well formed; [translate] then
    sends every address of the page to the frame at the same offset and every
    other address where it went before; memory outside the tables is not
    written. *)
Theorem map_inserts pt va pa fl s : pt_inv (root_ppn pt) s → in_usize pa → flags_ok fl →
  view (mm_mem s) (root_ppn pt) (va / 4096) = None →
  cur s + missing (mm_mem s) (root_ppn pt) (va / 4096) * 4096 ≤ page_end (mm_pages s) →
  wp (map pt va pa fl) s (λ _ s',
    pt_grow (root_ppn pt) s s' ∧
    (∀ v, view (mm_mem s') (root_ppn pt) v =
       view_insert (va / 4096) (mapped_pte pa fl) (view (mm_mem s) (root_ppn pt)) v) ∧
    (∀ va', (va' / 4096) mod 2 ^ 27 = (va / 4096) mod 2 ^ 27 →
       translate pt va' s' = Ret (Some (pa / 4096 * 4096 + va' mod 4096), s')) ∧
    (∀ va', (va' / 4096) mod 2 ^ 27 ≠ (va / 4096) mod 2 ^ 27 →
       ∃ o, translate pt va' s = Ret (o, s) ∧ translate pt va' s' = Ret (o, s'))).
Proof.
  intros Hinv Hpa Hfl Hfree Hfit. eapply wp_mono; [by apply map_spec|].
  intros _ s' (Hg & _ & Hview & _). split; [done|]. split; [done|].
  destruct (mapped_pte_ok pa fl Hpa Hfl) as (_ & _ & Hppn & _). split; intros va' Hva.
  - eapply translate_mapped; [apply Hg| |exact Hppn|].
    + rewrite Hview. unfold view_insert. by rewrite decide_True.
    + unfold in_usize in Hpa. dlia.
  - apply translate_view; [done|apply Hg| |done].
    rewrite Hview. unfold view_insert. by rewrite decide_False.
Qed.

Lemma map_inserts_witness :
  let pt := table0 in let s := table0_mm in let va := 0x10000 in let pa := 0x80500000 in
  wp (map pt va pa (PTE_U |f PTE_R)) s (λ _ s',
    pt_grow (root_ppn pt) s s' ∧
    (∀ v, view (mm_mem s') (root_ppn pt) v =
       view_insert (va / 4096) (mapped_pte pa (PTE_U |f PTE_R)) (view (mm_mem s) (root_ppn pt)) v) ∧
    (∀ va', (va' / 4096) mod 2 ^ 27 = (va / 4096) mod 2 ^ 27 →
       translate pt va' s' = Ret (Some (pa / 4096 * 4096 + va' mod 4096), s')) ∧
    (∀ va', (va' / 4096) mod 2 ^ 27 ≠ (va / 4096) mod 2 ^ 27 →
       ∃ o, translate pt va' s = Ret (o, s) ∧ translate pt va' s' = Ret (o, s'))).
Proof.
  apply (map_inserts table0 0x10000 0x80500000 (PTE_U |f PTE_R) table0_mm).
  - apply table0_ok.
  - done.
  - done.
  - apply table0_ok.
  - vm_compute. discriminate.
Defined.

(** C30: [unmap] removes exactly one page. It never panics, uses no frame and
    keeps the table well formed; the page no longer translates and every other
    address translates as before. *)
Theorem unmap_deletes pt va s : pt_inv (root_ppn pt) s →
  wp (unmap pt va) s (λ _ s',
    pt_grow (root_ppn pt) s s' ∧ cur s' = cur s ∧
    (∀ v, view (mm_mem s') (root_ppn pt) v = view_delete (va / 4096) (view (mm_mem s) (root_ppn pt)) v) ∧
    (∀ va', (va' / 4096) mod 2 ^ 27 = (va / 4096) mod 2 ^ 27 → translate pt va' s' = Ret (None, s')) ∧
    (∀ va', (va' / 4096) mod 2 ^ 27 ≠ (va / 4096) mod 2 ^ 27 →
       ∃ o, translate pt va' s = Ret (o, s) ∧ translate pt va' s' = Ret (o, s'))).
Proof.
  intros Hinv. eapply wp_mono; [by apply unmap_spec|].
  intros _ s' (Hg & Hc & Hview). split; [done|]. split; [done|]. split; [done|]. split; intros va' Hva.
  - rewrite translate_run by apply Hg. rewrite Hview. unfold view_delete. by rewrite decide_True.
  - apply translate_view; [done|apply Hg| |done].
    rewrite Hview. unfold view_delete. by rewrite decide_False.
Qed.

Lemma unmap_deletes_witness :
  let pt := table0 in let s := table0_mm in let va := 0x10000 in
  wp (unmap pt va) s (λ _ s',
    pt_grow (root_ppn pt) s s' ∧ cur s' = cur s ∧
    (∀ v, view (mm_mem s') (root_ppn pt) v = view_delete (va / 4096) (view (mm_mem s) (root_ppn pt)) v) ∧
    (∀ va', (va' / 4096) mod 2 ^ 27 = (va / 4096) mod 2 ^ 27 → translate pt va' s' = Ret (None, s')) ∧
    (∀ va', (va' / 4096) mod 2 ^ 27 ≠ (va / 4096) mod 2 ^ 27 →
       ∃ o, translate pt va' s = Ret (o, s) ∧ translate pt va' s' = Ret (o, s'))).
Proof. apply (unmap_deletes table0 0x10000 table0_mm). apply table0_ok. Defined.

(** C31: [map] panics exactly when the page is mapped already or when the
    frames that the missing intermediate tables need are not there. *)
Theorem map_panics_iff pt va pa fl s : pt_inv (root_ppn pt) s → in_usize pa → flags_ok fl →
  map pt va pa fl s = Panic ↔
  is_Some (view (mm_mem s) (root_ppn pt) (va / 4096)) ∨
  page_end (mm_pages s) < cur s + missing (mm_mem s) (root_ppn pt) (va / 4096) * 4096.
Proof.
  intros Hinv Hpa Hfl. split; [|by apply map_panic]. intros Hp.
  destruct (view (mm_mem s) (root_ppn pt) (va / 4096)) eqn:Hv; [by left|right].
  apply Z.nle_gt. intros Hfit.
  destruct (wp_run _ _ _ (map_spec pt va pa fl s Hinv Hpa Hfl Hv Hfit)) as (? & ? & E & _).
  by rewrite E in Hp.
Qed.

Lemma map_panics_iff_witness :
  map table0 0 0 PTE_R (set_pages {| page_current := 0x87fff000; page_end := 0x88000000 |} table0_mm) = Panic ↔
  is_Some (view ∅ 0x80400 0) ∨ 0x88000000 < 0x87fff000 + missing ∅ 0x80400 0 * 4096.
Proof.
  apply (map_panics_iff table0 0 0 PTE_R (set_pages {| page_current := 0x87fff000; page_end := 0x88000000 |} table0_mm)).
  - apply empty_table; [by repeat split|done..|]. intros k _. apply next_zero, rd64_empty.
  - done.
  - done.
Defined.

(** A table sees only bits 12..38 of an address: [translate] gives the same
    answer for addresses that differ by multiples of 2^39, canonical or not. *)
Lemma translate_aliases pt va k s : pt_inv (root_ppn pt) s →
  ∃ o, translate pt va s = Ret (o, s) ∧ translate pt (va + k * 2 ^ 39) s = Ret (o, s).
Proof.
  intros Hinv. apply translate_view; [done|done| |].
  - unfold view. f_equal. apply vpn_idx_inj.
    replace (va + k * 2 ^ 39) with (va + k * 2 ^ 27 * 4096) by lia.
    rewrite Z.div_add by lia. by rewrite Z.mod_add by lia.
  - replace (va + k * 2 ^ 39) with (va + k * 2 ^ 27 * 4096) by lia. by rewrite Z.mod_add by lia.
Qed.

Lemma translate_aliases_witness :
  ∃ o, translate table0 0x10000 table0_mm = Ret (o, table0_mm) ∧
       translate table0 (0x10000 + 1 * 2 ^ 39) table0_mm = Ret (o, table0_mm).
Proof. apply (translate_aliases table0 0x10000 1 table0_mm). apply table0_ok. Defined.
