(* ===== verification/AddrSpace.v ===== *)
(** * Address spaces of [mm.rs] and [proc.rs]

    The identity map of kernel and device memory that every page table gets,
    the kernel's own page table, and [clone_user_space], which copies the user
    pages of a parent for [fork]. *)

From S2P Require Import Prelude Machine Alloc PageTable.

(** ** Operations *)

(** [for addr in (lo..hi).step_by(PAGE_SIZE) { pt.map(addr, addr, flags) }]. *)
Definition map_identity (pt : PageTable) (lo hi : Z) (flags : PTEFlags) : M mm unit :=
  mfor (range_step lo hi PAGE_SIZE) (λ addr, map pt addr addr flags).

(** The identity maps that [Process::new], [exec_process],
    [clone_user_space] and [init_kernel_page_table] all start with. *)
Definition map_kernel_regions (pt : PageTable) : M mm unit :=
  do! map_identity pt 0x80000000 0x88000000 (PTE_R |f PTE_W |f PTE_X) in
  do! map pt 0x10000000 0x10000000 (PTE_R |f PTE_W) in
  do! map_identity pt 0x10001000 0x10009000 (PTE_R |f PTE_W) in
  map_identity pt 0x0c000000 0x0c200000 (PTE_R |f PTE_W).

(** The body of the innermost loop of [clone_user_space]: entry [k] of the
    last-level table at [addr1]. *)
Definition clone_entry (new_pt : PageTable) (i j addr1 k : Z) : M mm (option unit) :=
  let! pte2 := read_pte (addr1 + k * 8) in
  if negb (is_valid pte2) then ret (Some tt) else
  let flags := pte_flags pte2 in
  if negb (contains flags PTE_U) then ret (Some tt) else
  let vpn := Z.lor (Z.lor (shl64 i 18) (shl64 j 9)) k in
  let va := shl64 vpn PAGE_SIZE_BITS in
  let old_pa := shl64 (pte_ppn pte2) PAGE_SIZE_BITS in
  let? new_pa := alloc_page in
  do! copy_nonoverlapping old_pa new_pa PAGE_SIZE in
  do! map new_pt va new_pa flags in
  ret (Some tt).

Definition clone_level1 (new_pt : PageTable) (i addr0 j : Z) : M mm (option unit) :=
  let! pte1 := read_pte (addr0 + j * 8) in
  if negb (is_valid pte1) then ret (Some tt) else
  let addr1 := shl64 (pte_ppn pte1) PAGE_SIZE_BITS in
  mfor_opt (seqZ 0 512) (clone_entry new_pt i j addr1).

Definition clone_level0 (new_pt : PageTable) (root i : Z) : M mm (option unit) :=
  let! pte0 := read_pte (root + i * 8) in
  if negb (is_valid pte0) then ret (Some tt) else
  let addr0 := shl64 (pte_ppn pte0) PAGE_SIZE_BITS in
  mfor_opt (seqZ 0 512) (clone_level1 new_pt i addr0).

Definition clone_user_space (pt : PageTable) : M mm (option PageTable) :=
  let? new_pt := PageTable_new in
  do! map_kernel_regions new_pt in
  let root := shl64 (root_ppn pt) PAGE_SIZE_BITS in
  let? _ := mfor_opt (seqZ 0 512) (clone_level0 new_pt root) in
  ret (Some new_pt).

(** The page table that [init_kernel_page_table] builds. *)
Definition build_kernel_page_table : M mm PageTable :=
  let! pt := expect PageTable_new in
  do! map_kernel_regions pt in
  do! map pt 0x100000 0x100000 (PTE_R |f PTE_W) in
  ret pt.

(** [(8usize << 60) | root_ppn]: the SV39 value of the [satp] register. *)
Definition satp_of (pt : PageTable) : Z := Z.lor (shl64 8 60) (root_ppn pt).

(** ** Identity maps *)

(** The entries a page number has after the identity map of the kernel. *)
Definition kernel_view (v : Z) : option PageTableEntry :=
  if decide (0x80000 ≤ v < 0x88000) then Some (mapped_pte (v * 4096) (PTE_R |f PTE_W |f PTE_X))
  else if decide (0x10000 ≤ v < 0x10009 ∨ 0xc000 ≤ v < 0xc200) then
    Some (mapped_pte (v * 4096) (PTE_R |f PTE_W))
  else None.

Definition vpn_ok (v : Z) : Prop := 0 ≤ v < 2 ^ 27.

Lemma missing_le m root v : 0 ≤ missing m root v ≤ 2.
Proof.
  unfold missing. destruct (vpn_idx_shape v) as (i & j & k & -> & _).
  simpl. destruct (next m root i); simpl; [|lia]. destruct (next m z j); simpl; lia.
Qed.

Lemma missing_present m root v i j k : vpn_idx v = [i; j; k] → is_Some (node m root [i; j]) → missing m root v = 0.
Proof.
  intros E [t Ht]. unfold missing. rewrite E. simpl in *. destruct (next m root i) as [t1|]; [|done].
  by destruct (next m t1 j).
Qed.

(** Consecutive pages of one 2 MiB block share their last-level table. *)
Lemma vpn_idx_next v : (v + 1) mod 512 ≠ 0 →
  ∃ i j k k', vpn_idx v = [i; j; k] ∧ vpn_idx (v + 1) = [i; j; k'].
Proof.
  intros H. rewrite !vpn_idx_mod. change (2 ^ 18) with (512 * 512). change (2 ^ 9) with 512.
  assert ((v + 1) / 512 = v / 512) as E by dlia.
  rewrite <-!Z.div_div by lia. rewrite E. by eexists _, _, _, _.
Qed.

(** The number of 2 MiB blocks that the pages of [lo, a) touch. *)
Definition blocks (lo a : Z) : Z := if decide (a ≤ lo) then 0 else (a - 4096) / 2 ^ 21 - lo / 2 ^ 21 + 1.

(** One page more: new tables are needed at most once for each block. *)
Lemma blocks_step m root lo a : 0 ≤ lo ≤ a → a mod 4096 = 0 → lo mod 4096 = 0 →
  (lo < a → ∀ i j k, vpn_idx (a / 4096 - 1) = [i; j; k] → is_Some (node m root [i; j])) →
  missing m root (a / 4096) * 4096 + blocks lo a * 8192 ≤ blocks lo (a + 4096) * 8192.
Proof.
  intros Ha Hma Hml Hlast. pose proof (missing_le m root (a / 4096)) as Hmiss.
  unfold blocks. rewrite (decide_False (P := a + 4096 ≤ lo)) by lia.
  replace (a + 4096 - 4096) with a by lia. case_decide; [dlia|].
  destruct (decide ((a / 4096) mod 512 = 0)) as [H0|H0]; [dlia|].
  destruct (vpn_idx_next (a / 4096 - 1)) as (i & j & k & k' & E & E').
  { by replace (a / 4096 - 1 + 1) with (a / 4096) by lia. }
  replace (a / 4096 - 1 + 1) with (a / 4096) in E' by lia.
  rewrite (missing_present _ _ _ i j k' E') by (by eapply Hlast; [lia|]). dlia.
Qed.

Lemma map_identity_spec pt lo hi fl s : pt_inv (root_ppn pt) s → flags_ok fl →
  0 ≤ lo ≤ hi → hi ≤ 2 ^ 39 → lo mod 4096 = 0 → hi mod 4096 = 0 →
  (∀ v, lo / 4096 ≤ v < hi / 4096 → view (mm_mem s) (root_ppn pt) v = None) →
  cur s + blocks lo hi * 8192 ≤ page_end (mm_pages s) →
  wp (map_identity pt lo hi fl) s (λ _ s',
    pt_grow (root_ppn pt) s s' ∧ cur s' ≤ cur s + blocks lo hi * 8192 ∧
    ∀ v, vpn_ok v → view (mm_mem s') (root_ppn pt) v =
      if decide (lo / 4096 ≤ v < hi / 4096) then Some (mapped_pte (v * 4096) fl)
      else view (mm_mem s) (root_ppn pt) v).
Proof.
  intros Hinv Hfl Hlo Hhi Hml Hmh Hnone Hfit. unfold map_identity, PAGE_SIZE.
  set (I := λ a s', pt_grow (root_ppn pt) s s' ∧ cur s' ≤ cur s + blocks lo a * 8192 ∧
    (∀ v, vpn_ok v → view (mm_mem s') (root_ppn pt) v =
      if decide (lo / 4096 ≤ v < a / 4096) then Some (mapped_pte (v * 4096) fl)
      else view (mm_mem s) (root_ppn pt) v) ∧
    (lo < a → ∀ i j k, vpn_idx (a / 4096 - 1) = [i; j; k] →
       is_Some (node (mm_mem s') (root_ppn pt) [i; j]))).
  eapply wp_mono; [apply (wp_mfor_range I)|]; [lia|lia|dlia|..].
  - split; [by apply pt_grow_refl|]. unfold blocks. rewrite decide_True by lia. split; [lia|].
    split; [|lia]. intros v _. by rewrite decide_False by lia.
  - intros a s' Ha Hma (Hg & Hc & Hv & Hlast).
    assert (a mod 4096 = 0) as Hma' by dlia.
    assert (vpn_ok (a / 4096)) as Hvok by (unfold vpn_ok; dlia).
    pose proof (missing_le (mm_mem s') (root_ppn pt) (a / 4096)) as Hmiss.
    assert (missing (mm_mem s') (root_ppn pt) (a / 4096) * 4096 + blocks lo a * 8192 ≤
            blocks lo (a + 4096) * 8192) as Hcost.
    { apply blocks_step; [lia|done|done|exact Hlast]. }
    assert (blocks lo (a + 4096) ≤ blocks lo hi) as Hmono.
    { unfold blocks. rewrite !decide_False by lia.
      assert (a + 4096 ≤ hi) by dlia.
      pose proof (Z.div_le_mono (a + 4096 - 4096) (hi - 4096) (2 ^ 21)). lia. }
    eapply wp_mono.
    { apply map_spec; [apply Hg|unfold in_usize; lia|done| |].
      - rewrite Hv by done. rewrite decide_False by lia. apply Hnone. dlia.
      - rewrite (grow_end _ _ _ Hg). lia. }
    intros [] s'' (Hg' & Hc' & Hv' & Hl'). split; [by eapply pt_grow_trans|]. split; [lia|].
    replace ((a + 4096) / 4096) with (a / 4096 + 1) by dlia. split.
    + intros v Hvv. rewrite Hv'. unfold view_insert. rewrite Hv by done.
      unfold vpn_ok in *. rewrite !(Z.mod_small _ (2 ^ 27)) by lia.
      destruct (decide (v = a / 4096)) as [->|].
      * rewrite decide_True by dlia. do 2 f_equal. dlia.
      * destruct (decide (lo / 4096 ≤ v < a / 4096)); [by rewrite decide_True by lia|].
        by rewrite decide_False by lia.
    + intros _ i j k E. apply (Hl' i j k). by replace (a / 4096 + 1 - 1) with (a / 4096) in E by lia.
  - intros [] s' (Hg & Hc & Hv & _). done.
Qed.

Lemma kernel_flags_ok : flags_ok (PTE_R |f PTE_W |f PTE_X) ∧ flags_ok (PTE_R |f PTE_W).
Proof. by vm_compute. Qed.

(** Building the kernel regions in an empty table takes at most 134 frames. *)
Lemma map_kernel_regions_spec pt s : pt_inv (root_ppn pt) s →
  (∀ v, view (mm_mem s) (root_ppn pt) v = None) →
  cur s + 134 * 4096 ≤ page_end (mm_pages s) →
  wp (map_kernel_regions pt) s (λ _ s',
    pt_grow (root_ppn pt) s s' ∧ cur s' ≤ cur s + 134 * 4096 ∧
    ∀ v, vpn_ok v → view (mm_mem s') (root_ppn pt) v = kernel_view v).
Proof.
  intros Hinv Hnone Hfit. destruct kernel_flags_ok as [Hf1 Hf2]. unfold map_kernel_regions.
  apply wp_bind. eapply wp_mono; [apply map_identity_spec; [done|done|done|done|done|done|by intros|]|].
  { change (blocks 0x80000000 0x88000000) with 64. lia. }
  intros [] s1 (Hg1 & Hc1 & Hv1). change (blocks 0x80000000 0x88000000) with 64 in Hc1.
  change (0x80000000 / 4096) with 0x80000 in Hv1. change (0x88000000 / 4096) with 0x88000 in Hv1.
  pose proof (missing_le (mm_mem s1) (root_ppn pt) (0x10000000 / 4096)).
  apply wp_bind. eapply wp_mono.
  { apply map_spec; [apply Hg1|done|done| |].
    - rewrite Hv1 by done. rewrite decide_False by (change (0x10000000 / 4096) with 0x10000; lia). apply Hnone.
    - rewrite (grow_end _ _ _ Hg1). lia. }
  intros [] s2 (Hg2 & Hc2 & Hv2 & _). change (0x10000000 / 4096) with 0x10000 in *.
  pose proof (pt_grow_trans _ _ _ _ Hg1 Hg2) as Hg12.
  assert (∀ v, vpn_ok v → view (mm_mem s2) (root_ppn pt) v =
    if decide (v = 0x10000) then Some (mapped_pte (0x10000 * 4096) (PTE_R |f PTE_W))
    else if decide (0x80000 ≤ v < 0x88000) then Some (mapped_pte (v * 4096) (PTE_R |f PTE_W |f PTE_X))
    else None) as Hv2'.
  { intros v Hv. rewrite Hv2. unfold view_insert. rewrite Hv1, Hnone by done.
    unfold vpn_ok in Hv. rewrite !Z.mod_small by lia. done. }
  clear Hv2. apply wp_bind. eapply wp_mono; [apply map_identity_spec; [apply Hg2|done|done|done|done|done| |]|].
  { change (0x10001000 / 4096) with 0x10001. change (0x10009000 / 4096) with 0x10009.
    intros v Hv. rewrite Hv2' by (unfold vpn_ok; lia). by rewrite !decide_False by lia. }
  { change (blocks 0x10001000 0x10009000) with 1. rewrite (grow_end _ _ _ Hg12). lia. }
  intros [] s3 (Hg3 & Hc3 & Hv3). change (blocks 0x10001000 0x10009000) with 1 in Hc3.
  change (0x10001000 / 4096) with 0x10001 in Hv3. change (0x10009000 / 4096) with 0x10009 in Hv3.
  pose proof (pt_grow_trans _ _ _ _ Hg12 Hg3) as Hg13.
  eapply wp_mono; [apply map_identity_spec; [apply Hg3|done|done|done|done|done| |]|].
  { change (0x0c000000 / 4096) with 0xc000. change (0x0c200000 / 4096) with 0xc200.
    intros v Hv. rewrite Hv3, Hv2' by (unfold vpn_ok; lia). by rewrite !decide_False by lia. }
  { change (blocks 0x0c000000 0x0c200000) with 1. rewrite (grow_end _ _ _ Hg13). lia. }
  intros [] s4 (Hg4 & Hc4 & Hv4). change (blocks 0x0c000000 0x0c200000) with 1 in Hc4.
  change (0x0c000000 / 4096) with 0xc000 in Hv4. change (0x0c200000 / 4096) with 0xc200 in Hv4.
  split; [by eapply pt_grow_trans|]. split; [lia|].
  intros v Hv. rewrite Hv4, Hv3, Hv2' by done. unfold kernel_view.
  repeat case_decide; try lia; try done. subst v. done.
Qed.

(** ** [clone_user_space] *)

(** The entry of a page that user mode can reach. *)
Definition user_entry (m : mem) (root v : Z) : option PageTableEntry :=
  match view m root v with
  | Some e => if contains (pte_flags e) PTE_U then Some e else None
  | None => None
  end.

(** User pages are frames already handed out, away from the kernel regions. *)
Definition user_pages_ok (m : mem) (root hi : Z) : Prop :=
  ∀ v e, vpn_ok v → user_entry m root v = Some e →
    kernel_view v = None ∧ (pte_ppn e + 1) * 4096 ≤ hi.

Lemma vpn_of_idx i j k : idx_ok i → idx_ok j → idx_ok k →
  Z.lor (Z.lor (shl64 i 18) (shl64 j 9)) k = i * 2 ^ 18 + j * 2 ^ 9 + k ∧
  vpn_idx (i * 2 ^ 18 + j * 2 ^ 9 + k) = [i; j; k] ∧ vpn_ok (i * 2 ^ 18 + j * 2 ^ 9 + k).
Proof.
  unfold idx_ok, vpn_ok. intros Hi Hj Hk. split; [|split; [|lia]].
  - rewrite !shl64_small by lia. rewrite lor_disjoint by lia.
    replace (i * 2 ^ 18 + j * 2 ^ 9) with ((i * 2 ^ 9 + j) * 2 ^ 9) by lia.
    by rewrite lor_disjoint by lia.
  - rewrite vpn_idx_mod. change (2 ^ 18) with 262144. change (2 ^ 9) with 512.
    repeat f_equal; dlia.
Qed.

Lemma rd64_pte_ppn m a : 0 ≤ pte_ppn (PTE (rd64 m a)) < 2 ^ 54.
Proof.
  unfold pte_ppn. rewrite shr64_div by lia. cbn [bits]. pose proof (rd64_range m a) as H.
  unfold in_usize in H. dlia.
Qed.

Lemma pte_flags_ok e : flags_ok (pte_flags e).
Proof.
  unfold flags_ok, pte_flags, from_bits_truncate. change 0xff with (Z.ones 8).
  rewrite Z.land_ones by lia. by apply Z.mod_pos_bound.
Qed.

Section Clone.
Context (s0 : mm) (pt : PageTable) (us : list Z).
Local Abbreviation c0 := (cur s0).
Local Abbreviation user v := (user_entry (mm_mem s0) (root_ppn pt) v).
Hypothesis Hinv0 : pt_inv (root_ppn pt) s0.
Hypothesis Huser : user_pages_ok (mm_mem s0) (root_ppn pt) c0.
Hypothesis Hnodup : NoDup us.
Hypothesis Hus : ∀ v, v ∈ us ↔ vpn_ok v ∧ is_Some (user v).

(** Page [v] of the child is a private copy of the parent's page [e]. *)
Definition cloned (r : Z) (s : mm) (v : Z) (e : PageTableEntry) : Prop :=
  ∃ pa, view (mm_mem s) r v = Some (mapped_pte pa (pte_flags e)) ∧ pa mod 4096 = 0 ∧
    c0 ≤ pa ∧ pa + 4096 ≤ cur s ∧ (∀ t, is_table (mm_mem s) r t → t * 4096 ≠ pa) ∧
    (∀ x, 0 ≤ x < 4096 → rd8 (mm_mem s) (pa + x) = rd8 (mm_mem s0) (pte_ppn e * 4096 + x)).

Definition done_count (n : Z) : Z := count_below us n.

(** The user pages below [n] have been copied. *)
Record clone_inv (r c1 n : Z) (s : mm) : Prop := {
  ci_inv : pt_inv r s;
  ci_end : page_end (mm_pages s) = page_end (mm_pages s0);
  ci_heap : mm_heap s = mm_heap s0;
  ci_cur : c0 ≤ cur s;
  ci_tables : ∀ t, is_table (mm_mem s) r t → c0 ≤ t * 4096;
  ci_mem : ∀ x, x < c0 → rd8 (mm_mem s) x = rd8 (mm_mem s0) x;
  ci_kernel : ∀ v, vpn_ok v → user v = None → view (mm_mem s) r v = kernel_view v;
  ci_todo : ∀ v, vpn_ok v → is_Some (user v) → n ≤ v → view (mm_mem s) r v = None;
  ci_done : ∀ v e, vpn_ok v → user v = Some e → v < n → cloned r s v e;
  ci_inj : ∀ v v' p p', v ≠ v' → v ∈ us → v' ∈ us →
    view (mm_mem s) r v = Some p → view (mm_mem s) r v' = Some p' → pte_ppn p ≠ pte_ppn p';
  ci_cost : cur s ≤ c1 + done_count n * 12288
}.

Lemma done_count_mono n n' : n ≤ n' → done_count n ≤ done_count n'.
Proof. apply count_below_mono. Qed.

Lemma done_count_le n : done_count n ≤ Z.of_nat (length us).
Proof. apply count_below_le. Qed.

Lemma done_count_step n : n ∈ us → done_count n + 1 ≤ done_count (n + 1).
Proof. apply count_below_step. Qed.

Lemma clone_skip r c1 n n' s : clone_inv r c1 n s → n ≤ n' →
  (∀ v, n ≤ v < n' → vpn_ok v → user v = None) → clone_inv r c1 n' s.
Proof.
  intros H Hn Hno. destruct H. split; try done.
  - intros v Hv Hs Hle. apply ci_todo0; [done..|lia].
  - intros v e Hv He Hlt. apply ci_done0; [done..|].
    destruct (decide (v < n)); [done|]. rewrite Hno in He; [done|lia|done].
  - pose proof (done_count_mono n n' Hn). lia.
Qed.
(** The state after taking a frame and copying a page of the parent into it. *)
Definition copied (s : mm) (old_pa : Z) : mm :=
  set_mem (copy (mm_mem (take_page s)) old_pa (cur s) 4096) (take_page s).

Lemma copied_mem s old_pa x : old_pa + 4096 ≤ cur s →
  rd8 (mm_mem (copied s old_pa)) x =
    if decide (cur s ≤ x < cur s + 4096) then rd8 (mm_mem s) (old_pa + (x - cur s))
    else rd8 (mm_mem s) x.
Proof.
  intros H. unfold copied, take_page. cbn [mm_mem set_mem]. rewrite rd8_copy, !rd8_fill.
  case_decide; [|done]. by rewrite decide_False by lia.
Qed.

Lemma copied_grow r s old_pa : pt_inv r s → old_pa + 4096 ≤ cur s →
  cur s + 4096 ≤ page_end (mm_pages s) →
  pt_inv r (copied s old_pa) ∧
  (∀ v, view (mm_mem (copied s old_pa)) r v = view (mm_mem s) r v) ∧
  (∀ t, is_table (mm_mem (copied s old_pa)) r t ↔ is_table (mm_mem s) r t).
Proof.
  intros [Hwf Hpg] Hold Hfit.
  assert (∀ x, x < cur s → rd8 (mm_mem (copied s old_pa)) x = rd8 (mm_mem s) x) as Hmem.
  { intros x Hx. rewrite copied_mem by done. by rewrite decide_False by lia. }
  destruct (pt_frame _ _ _ _ Hwf Hmem) as (_ & Hv & Hwf').
  split; [|split; [done|intros t; by eapply is_table_frame]].
  split; [|unfold copied; rewrite mm_pages_set_mem; by apply take_page_ok].
  change (cur (copied s old_pa)) with (cur s + 4096). split.
  - intros p t Hp Ht. destruct (wf_range _ _ _ Hwf' p t Hp Ht). lia.
  - apply Hwf'.
Qed.

(** From [s] to [s'] page [v] was mapped to a fresh copy of the parent's [e]. *)
Record page_cloned (r v : Z) (e : PageTableEntry) (s s' : mm) : Prop := {
  pc_inv : pt_inv r s';
  pc_end : page_end (mm_pages s') = page_end (mm_pages s);
  pc_heap : mm_heap s' = mm_heap s;
  pc_cur : cur s + 4096 ≤ cur s' ≤ cur s + 12288;
  pc_view : ∀ v', vpn_ok v' → view (mm_mem s') r v' =
    if decide (v' = v) then Some (mapped_pte (cur s) (pte_flags e)) else view (mm_mem s) r v';
  pc_new : ∀ t, is_table (mm_mem s') r t → is_table (mm_mem s) r t ∨ cur s + 4096 ≤ t * 4096;
  pc_copy : ∀ x, 0 ≤ x < 4096 → rd8 (mm_mem s') (cur s + x) = rd8 (mm_mem s) (pte_ppn e * 4096 + x);
  pc_mem : ∀ x, x < cur s → (∀ t, is_table (mm_mem s) r t → ¬ (t * 4096 ≤ x < t * 4096 + 4096)) →
    rd8 (mm_mem s') x = rd8 (mm_mem s) x
}.

Lemma tables_below r s t : pt_inv r s → is_table (mm_mem s) r t → (t + 1) * 4096 ≤ cur s.
Proof. intros [Hwf _] (p & Hp & Ht). by apply (wf_range _ _ _ Hwf p). Qed.

Lemma clone_page_run npt v e s : pt_inv (root_ppn npt) s → vpn_ok v → pte_ppn e * 4096 + 4096 ≤ cur s →
  view (mm_mem s) (root_ppn npt) v = None → cur s + 12288 ≤ page_end (mm_pages s) →
  wp (let? new_pa := alloc_page in
      do! copy_nonoverlapping (pte_ppn e * 4096) new_pa PAGE_SIZE in
      do! map npt (v * 4096) new_pa (pte_flags e) in
      ret (Some tt)) s
    (λ o s', o = Some tt ∧ page_cloned (root_ppn npt) v e s s').
Proof.
  intros Hinv Hv Hold Hnone Hfit. pose proof (proj2 Hinv) as Hpg.
  destruct (alloc_page_cases s Hpg) as [[Hfit1 E]|[]]; [|lia].
  apply wp_try_opt. eapply wp_of_run; [exact E|]. apply wp_bind, wp_modify.
  change (set_mem _ (take_page s)) with (copied s (pte_ppn e * 4096)).
  destruct (copied_grow (root_ppn npt) s (pte_ppn e * 4096) Hinv) as (Hinv2 & Hv2 & Ht2); [lia|done|].
  pose proof (λ x, copied_mem s (pte_ppn e * 4096) x ltac:(lia)) as Hmem2.
  set (s2 := copied s (pte_ppn e * 4096)) in *.
  assert (cur s2 = cur s + 4096) as Hc2 by reflexivity.
  assert (page_end (mm_pages s2) = page_end (mm_pages s)) as He2 by reflexivity.
  assert (mm_heap s2 = mm_heap s) as Hh2 by reflexivity. clearbody s2.
  assert (v * 4096 / 4096 = v) as Ev by (apply Z.div_mul; lia).
  destruct Hpg as (Hpos & Hend & _). pose proof (missing_le (mm_mem s2) (root_ppn npt) v) as Hmiss.
  apply wp_bind. eapply wp_mono.
  { apply map_spec; [done|unfold in_usize; lia|apply pte_flags_ok|..]; rewrite Ev; [by rewrite Hv2|lia]. }
  intros [] s3 (Hg & Hc3 & Hv3 & _). rewrite Ev in Hc3, Hv3. apply wp_ret. split; [done|].
  assert (∀ x, x < cur s2 → (∀ t, is_table (mm_mem s) (root_ppn npt) t → ¬ (t * 4096 ≤ x < t * 4096 + 4096)) →
    rd8 (mm_mem s3) x = rd8 (mm_mem s2) x) as Hfr.
  { intros x Hx Ho. apply (grow_frame _ _ _ Hg); [done|]. intros t Ht. by apply Ho, Ht2. }
  pose proof (grow_cur _ _ _ Hg) as Hgc. split.
  - apply Hg.
  - by rewrite (grow_end _ _ _ Hg), He2.
  - by rewrite (grow_heap _ _ _ Hg), Hh2.
  - lia.
  - intros v' Hv'. rewrite Hv3. unfold view_insert. rewrite Hv2, (Z.mod_small v'), (Z.mod_small v) by done. done.
  - intros t Ht. destruct (grow_new _ _ _ Hg t Ht) as [Hi|]; [left; by apply Ht2|right; lia].
  - intros x Hx. rewrite Hfr; [|lia|intros t Ht; pose proof (tables_below _ _ t Hinv Ht); lia].
    rewrite Hmem2, decide_True by lia. f_equal. lia.
  - intros x Hx Ho. rewrite Hfr by (done || lia). by rewrite Hmem2, decide_False by lia.
Qed.

(** The pages copied before stay copied. *)
Lemma cloned_step r v e s s' v' e' : pt_inv r s → page_cloned r v e s s' → cur s mod 4096 = 0 → vpn_ok v' → v' ≠ v →
  cloned r s v' e' → cloned r s' v' e'.
Proof.
  intros Hinv Hp Hal Hv' Hne (pa & Hpv & Hpm & Hp0 & Hp1 & Hpt & Hpc). pose proof (pc_cur _ _ _ _ _ Hp) as Hc.
  exists pa. split_and!; [|done|done|lia|..].
  - by rewrite (pc_view _ _ _ _ _ Hp), decide_False.
  - intros t Ht. destruct (pc_new _ _ _ _ _ Hp t Ht) as [Hi|]; [by apply Hpt|lia].
  - intros x Hx. rewrite (pc_mem _ _ _ _ _ Hp); [by apply Hpc|lia|]. intros t Hi Hr. apply (Hpt t Hi). dlia.
Qed.

Lemma cloned_new r c1 v e s s' : clone_inv r c1 v s → page_cloned r v e s s' → vpn_ok v →
  pte_ppn e * 4096 + 4096 ≤ c0 → cloned r s' v e.
Proof.
  intros H Hp Hv Hold. pose proof (ci_inv _ _ _ _ H) as Hinv. pose proof (proj2 Hinv) as (_ & _ & Hal).
  pose proof (pc_cur _ _ _ _ _ Hp). pose proof (ci_cur _ _ _ _ H). exists (cur s). split_and!; [|done|done|lia|..].
  - by rewrite (pc_view _ _ _ _ _ Hp), decide_True.
  - intros t Ht. destruct (pc_new _ _ _ _ _ Hp t Ht) as [Hi|]; [|lia]. pose proof (tables_below _ _ t Hinv Hi). lia.
  - intros x Hx. rewrite (pc_copy _ _ _ _ _ Hp) by done. apply (ci_mem _ _ _ _ H). lia.
Qed.

(** The fresh frame differs from the frames of the other pages. *)
Lemma cloned_apart r c1 v fl s w p : clone_inv r c1 v s → w ∈ us → w ≠ v → flags_ok fl →
  view (mm_mem s) r w = Some p → pte_ppn p ≠ pte_ppn (mapped_pte (cur s) fl).
Proof.
  intros H [Hw [ew Hew]]%Hus Hwv Hfl Hvw. pose proof (proj2 (ci_inv _ _ _ _ H)) as (Hpos & Hend & Hal).
  pose proof (proj2 Hinv0) as (Hpos0 & _).
  destruct (decide (w < v)); [|rewrite (ci_todo _ _ _ _ H) in Hvw by (eauto; lia); done].
  destruct (ci_done _ _ _ _ H w ew Hw Hew ltac:(lia)) as (pa & Hpv & Hpm & Hp0 & Hp1 & _).
  rewrite Hpv in Hvw. injection Hvw as <-.
  destruct (mapped_pte_ok pa (pte_flags ew)) as (_ & _ & -> & _); [unfold in_usize; lia|apply pte_flags_ok|].
  destruct (mapped_pte_ok (cur s) fl) as (_ & _ & -> & _); [unfold in_usize; lia|done|]. dlia.
Qed.

Lemma clone_inv_step r c1 v e s s' : clone_inv r c1 v s → vpn_ok v → user v = Some e →
  page_cloned r v e s s' → clone_inv r c1 (v + 1) s'.
Proof.
  intros H Hv He Hp. pose proof (ci_inv _ _ _ _ H) as Hinv. destruct (Huser v e Hv He) as [Hnk Hold].
  pose proof (proj2 Hinv) as (_ & _ & Hal). pose proof (pc_view _ _ _ _ _ Hp) as Hview.
  pose proof (pc_cur _ _ _ _ _ Hp) as Hc. pose proof (ci_cur _ _ _ _ H) as Hc0.
  assert (v ∈ us) as Hin by (apply Hus; eauto). constructor.
  - apply Hp.
  - by rewrite (pc_end _ _ _ _ _ Hp), (ci_end _ _ _ _ H).
  - by rewrite (pc_heap _ _ _ _ _ Hp), (ci_heap _ _ _ _ H).
  - lia.
  - intros t Ht. destruct (pc_new _ _ _ _ _ Hp t Ht) as [Hi|]; [by apply (ci_tables _ _ _ _ H)|lia].
  - intros x Hx. rewrite (pc_mem _ _ _ _ _ Hp); [by apply (ci_mem _ _ _ _ H)|lia|].
    intros t Ht. pose proof (ci_tables _ _ _ _ H t Ht). lia.
  - intros v' Hv' Hn. rewrite Hview by done. case_decide; [congruence|]. by apply (ci_kernel _ _ _ _ H).
  - intros v' Hv' Hs Hle. rewrite Hview by done. rewrite decide_False by lia. apply (ci_todo _ _ _ _ H); [done..|lia].
  - intros v' e' Hv' He' Hlt. destruct (decide (v' = v)) as [->|Hne].
    + assert (e' = e) as -> by congruence. eapply cloned_new; [done..|lia].
    + eapply cloned_step; [done..|]. apply (ci_done _ _ _ _ H); [done..|lia].
  - intros v1 v2 p1 p2 Hne H1 H2. rewrite !Hview by (by apply Hus). repeat case_decide; subst; try done.
    + intros [= <-] Hp2. apply not_eq_sym. eapply (cloned_apart _ _ _ _ _ v2); [exact H|done|by apply not_eq_sym|apply pte_flags_ok|done].
    + intros Hp1 [= <-]. eapply (cloned_apart _ _ _ _ _ v1); [exact H|done|done|apply pte_flags_ok|done].
    + by apply (ci_inj _ _ _ _ H).
  - pose proof (done_count_step v Hin). pose proof (ci_cost _ _ _ _ H). lia.
Qed.

Lemma clone_page_step npt c1 v e s :
  clone_inv (root_ppn npt) c1 v s → vpn_ok v → user v = Some e →
  cur s + 12288 ≤ page_end (mm_pages s) →
  wp (let? new_pa := alloc_page in
      do! copy_nonoverlapping (pte_ppn e * 4096) new_pa PAGE_SIZE in
      do! map npt (v * 4096) new_pa (pte_flags e) in
      ret (Some tt)) s
    (λ o s', o = Some tt ∧ clone_inv (root_ppn npt) c1 (v + 1) s').
Proof.
  intros H Hv He Hfit. destruct (Huser v e Hv He) as [Hnk Hold]. pose proof (ci_cur _ _ _ _ H).
  eapply wp_mono; [apply clone_page_run; [apply H|done|lia| |done]|].
  - apply (ci_todo _ _ _ _ H); [done|by eexists|lia].
  - intros o s' [-> Hp]. split; [done|]. by eapply clone_inv_step.
Qed.

(** The parent's entries read the same in every state of the loop. *)
Lemma clone_read r c1 n s p t k : clone_inv r c1 n s → path_ok p → idx_ok k →
  node (mm_mem s0) (root_ppn pt) p = Some t →
  shl64 t PAGE_SIZE_BITS = t * 4096 ∧
  read_pte (t * 4096 + k * 8) s = Ret (PTE (rd64 (mm_mem s0) (t * 4096 + k * 8)), s).
Proof.
  intros H Hp Hk Ht. split; [by eapply table_addr|].
  unfold read_pte, gets. do 3 f_equal.
  destruct (wf_range _ _ _ (proj1 Hinv0) p t Hp Ht). unfold idx_ok in Hk.
  apply rd64_ext. intros x Hx. apply (ci_mem _ _ _ _ H). lia.
Qed.

Context (c1 : Z).
Hypothesis Hfit : c1 + Z.of_nat (length us) * 12288 ≤ page_end (mm_pages s0).

Lemma clone_entry_spec npt i j k t s : idx_ok i → idx_ok j → idx_ok k →
  node (mm_mem s0) (root_ppn pt) [i; j] = Some t →
  clone_inv (root_ppn npt) c1 (i * 2 ^ 18 + j * 2 ^ 9 + k) s →
  wp (clone_entry npt i j (t * 4096) k) s (λ o s',
    match o with
    | Some _ => clone_inv (root_ppn npt) c1 (i * 2 ^ 18 + j * 2 ^ 9 + k + 1) s'
    | None => False
    end).
Proof.
  intros Hi Hj Hk Ht H. assert (path_ok [i; j]) as Hp by (split; [simpl; lia|forall_idx]).
  destruct (vpn_of_idx i j k Hi Hj Hk) as (Evpn & Eidx & Hvok).
  set (v := i * 2 ^ 18 + j * 2 ^ 9 + k) in *.
  destruct (clone_read _ _ _ s [i; j] t k H Hp Hk Ht) as [_ Erd].
  unfold clone_entry. rewrite Evpn. apply wp_bind. eapply wp_of_run; [exact Erd|].
  set (e := PTE (rd64 (mm_mem s0) (t * 4096 + k * 8))) in *.
  assert (user v = if is_valid e then if contains (pte_flags e) PTE_U then Some e else None else None) as Eu.
  { unfold user_entry, view. rewrite Eidx. unfold leaf. rewrite Ht. cbv zeta. fold e. by destruct (is_valid e). }
  assert (user v = None → clone_inv (root_ppn npt) c1 (v + 1) s) as Hskip.
  { intros Hn. apply (clone_skip _ _ v); [done|lia|]. intros w Hw. by replace w with v by lia. }
  destruct (is_valid e); cbn [negb]; [|by apply wp_ret, Hskip].
  destruct (contains (pte_flags e) PTE_U); cbn [negb]; [|by apply wp_ret, Hskip].
  assert (v ∈ us) as Hin by (apply Hus; rewrite Eu; eauto).
  destruct (Huser v e Hvok Eu) as [_ Hold]. pose proof (rd64_pte_ppn (mm_mem s0) (t * 4096 + k * 8)) as Hppn.
  fold e in Hppn. destruct (proj2 Hinv0) as (_ & Hend & _). pose proof (proj2 Hinv0) as (Hpos & _).
  unfold PAGE_SIZE_BITS. rewrite (shl64_small v) by (unfold vpn_ok in Hvok; lia).
  rewrite (shl64_small (pte_ppn e)) by lia. change (2 ^ 12) with 4096.
  eapply wp_mono; [apply (clone_page_step npt c1 v e s); try done|by intros ? s' [-> ?]].
  pose proof (ci_cost _ _ _ _ H). pose proof (done_count_step v Hin). pose proof (done_count_le (v + 1)).
  rewrite (ci_end _ _ _ _ H). lia.
Qed.

(** No user page lies under an entry that is not valid. *)
Lemma no_user_below_root i v : idx_ok i → next (mm_mem s0) (root_ppn pt) i = None →
  i * 2 ^ 18 ≤ v < (i + 1) * 2 ^ 18 → user v = None.
Proof.
  intros Hi Hn Hv. unfold user_entry, view.
  assert (vpn_idx v = [i; (v / 2 ^ 9) mod 512; v mod 512]) as ->.
  { rewrite vpn_idx_mod. unfold idx_ok in Hi. do 2 f_equal.
    change (2 ^ 18) with 262144 in *. dlia. }
  unfold leaf. cbn [node]. by rewrite Hn.
Qed.

Lemma no_user_below_level1 i j t v : idx_ok i → idx_ok j → next (mm_mem s0) (root_ppn pt) i = Some t →
  next (mm_mem s0) t j = None →
  i * 2 ^ 18 + j * 2 ^ 9 ≤ v < i * 2 ^ 18 + (j + 1) * 2 ^ 9 → user v = None.
Proof.
  intros Hi Hj Ht Hn Hv. unfold user_entry, view.
  assert (vpn_idx v = [i; j; v mod 512]) as ->.
  { rewrite vpn_idx_mod. unfold idx_ok in *. change (2 ^ 18) with 262144 in *. change (2 ^ 9) with 512 in *.
    repeat f_equal; dlia. }
  unfold leaf. cbn [node]. by rewrite Ht, Hn.
Qed.

Lemma clone_level1_spec npt i j t s : idx_ok i → idx_ok j →
  next (mm_mem s0) (root_ppn pt) i = Some t →
  clone_inv (root_ppn npt) c1 (i * 2 ^ 18 + j * 2 ^ 9) s →
  wp (clone_level1 npt i (t * 4096) j) s (λ o s',
    match o with
    | Some _ => clone_inv (root_ppn npt) c1 (i * 2 ^ 18 + (j + 1) * 2 ^ 9) s'
    | None => False
    end).
Proof.
  intros Hi Hj Ht H. assert (path_ok [i]) as Hp by (split; [simpl; lia|forall_idx]).
  assert (path_ok [i; j]) as Hp2 by (split; [simpl; lia|forall_idx]).
  assert (node (mm_mem s0) (root_ppn pt) [i] = Some t) as Hn by (cbn [node]; by rewrite Ht).
  destruct (clone_read _ _ _ s [i] t j H Hp Hj Hn) as [_ Erd].
  unfold clone_level1. apply wp_bind. eapply wp_of_run; [exact Erd|].
  destruct (next (mm_mem s0) t j) as [t'|] eqn:E; pose proof E as Ev; unfold next in Ev; cbv zeta in Ev;
    destruct (is_valid (PTE (rd64 (mm_mem s0) (t * 4096 + j * 8)))); simplify_eq; cbn [negb].
  - set (t' := pte_ppn (PTE (rd64 (mm_mem s0) (t * 4096 + j * 8)))) in *.
    assert (node (mm_mem s0) (root_ppn pt) [i; j] = Some t') as Hn2 by (cbn [node]; by rewrite Ht, E).
    rewrite (table_addr (root_ppn pt) s0 [i; j] t') by done.
    replace (i * 2 ^ 18 + (j + 1) * 2 ^ 9) with (i * 2 ^ 18 + j * 2 ^ 9 + (0 + 512)) by lia.
    apply (wp_mfor_opt_seqZ (λ k, clone_inv (root_ppn npt) c1 (i * 2 ^ 18 + j * 2 ^ 9 + k)) (λ _, False));
      [lia|by rewrite Z.add_0_r|].
    intros k s' Hk H'. rewrite Z.add_assoc. by apply clone_entry_spec.
  - apply wp_ret. apply (clone_skip _ _ _ _ _ H); [lia|]. intros v Hv _. by apply (no_user_below_level1 i j t).
Qed.

Lemma clone_level0_spec npt i s : idx_ok i → clone_inv (root_ppn npt) c1 (i * 2 ^ 18) s →
  wp (clone_level0 npt (root_ppn pt * 4096) i) s (λ o s',
    match o with
    | Some _ => clone_inv (root_ppn npt) c1 ((i + 1) * 2 ^ 18) s'
    | None => False
    end).
Proof.
  intros Hi H. destruct (clone_read _ _ _ s [] (root_ppn pt) i H path_ok_nil Hi eq_refl) as [_ Erd].
  assert (path_ok [i]) as Hp by (split; [simpl; lia|forall_idx]).
  unfold clone_level0. apply wp_bind. eapply wp_of_run; [exact Erd|].
  destruct (next (mm_mem s0) (root_ppn pt) i) as [t|] eqn:E; pose proof E as Ev; unfold next in Ev; cbv zeta in Ev;
    destruct (is_valid (PTE (rd64 (mm_mem s0) (root_ppn pt * 4096 + i * 8)))); simplify_eq; cbn [negb].
  - set (t := pte_ppn (PTE (rd64 (mm_mem s0) (root_ppn pt * 4096 + i * 8)))) in *.
    rewrite (table_addr (root_ppn pt) s0 [i] t) by (try done; cbn [node]; by rewrite E).
    replace ((i + 1) * 2 ^ 18) with (i * 2 ^ 18 + (0 + 512) * 2 ^ 9) by lia.
    apply (wp_mfor_opt_seqZ (λ j, clone_inv (root_ppn npt) c1 (i * 2 ^ 18 + j * 2 ^ 9)) (λ _, False));
      [lia|by rewrite Z.mul_0_l, Z.add_0_r|].
    intros j s' Hj H'. by apply clone_level1_spec.
  - apply wp_ret. apply (clone_skip _ _ _ _ _ H); [lia|]. intros v Hv _. by apply (no_user_below_root i).
Qed.
End Clone.

(** A fresh table with the kernel regions: the common start of a new address
    space. *)
Lemma fresh_space_spec s : pages_ok (mm_pages s) → cur s + 135 * 4096 ≤ page_end (mm_pages s) →
  wp (let? pt := PageTable_new in do! map_kernel_regions pt in ret (Some pt)) s (λ o s',
    ∃ pt, o = Some pt ∧ root_ppn pt = cur s / 4096 ∧ pt_inv (root_ppn pt) s' ∧
      cur s ≤ cur s' ≤ cur s + 135 * 4096 ∧
      page_end (mm_pages s') = page_end (mm_pages s) ∧ mm_heap s' = mm_heap s ∧
      (∀ t, is_table (mm_mem s') (root_ppn pt) t → cur s ≤ t * 4096) ∧
      (∀ x, x < cur s → rd8 (mm_mem s') x = rd8 (mm_mem s) x) ∧
      (∀ v, vpn_ok v → view (mm_mem s') (root_ppn pt) v = kernel_view v)).
Proof.
  intros Hok Hfit. apply wp_try_opt. eapply wp_mono; [apply PageTable_new_spec; [done|lia]|].
  intros o s1 (pt & -> & Hroot & Hinv & Hc & He & Hh & Hnone & Hnode & Hmem).
  apply wp_bind. eapply wp_mono; [apply map_kernel_regions_spec; [done|done|lia]|].
  intros [] s2 (Hg & Hc2 & Hv). apply wp_ret. exists pt.
  pose proof (grow_cur _ _ _ Hg). pose proof (link_n _ (link_hi s Hok)) as [En _].
  assert (∀ t, is_table (mm_mem s1) (root_ppn pt) t → t = cur s / 4096) as Hone.
  { intros t ([|k p] & [_ Hp] & Ht); [cbn in Ht; congruence|]. by rewrite Hnode in Ht. }
  split_and!; try done; try lia.
  - apply Hg.
  - by rewrite (grow_end _ _ _ Hg).
  - by rewrite (grow_heap _ _ _ Hg).
  - intros t Ht. destruct (grow_new _ _ _ Hg t Ht) as [->%Hone|]; lia.
  - intros x Hx. rewrite (grow_frame _ _ _ Hg); [by apply Hmem|lia|]. intros t ->%Hone. lia.
Qed.

Lemma try_opt_assoc {S A B C} (m : M S (option A)) (f : A → M S (option B)) (g : B → M S (option C)) s :
  try_opt m (λ a, try_opt (f a) g) s = try_opt (try_opt m f) g s.
Proof. unfold try_opt, bind, ret. by destruct (m s) as [[[a|] s']| | |]. Qed.

Lemma clone_user_space_spec s0 pt us : pt_inv (root_ppn pt) s0 →
  user_pages_ok (mm_mem s0) (root_ppn pt) (cur s0) → NoDup us →
  (∀ v, v ∈ us ↔ vpn_ok v ∧ is_Some (user_entry (mm_mem s0) (root_ppn pt) v)) →
  cur s0 + (135 + 3 * Z.of_nat (length us)) * 4096 ≤ page_end (mm_pages s0) →
  wp (clone_user_space pt) s0 (λ o s', ∃ npt c1,
    o = Some npt ∧ c1 ≤ cur s0 + 135 * 4096 ∧ root_ppn npt = cur s0 / 4096 ∧
    clone_inv s0 pt us (root_ppn npt) c1 (2 ^ 27) s').
Proof.
  intros Hinv Huser Hnd Hus Hfit.
  assert (clone_user_space pt s0 =
    (let? npt := (let? npt := PageTable_new in do! map_kernel_regions npt in ret (Some npt)) in
     let? _ := mfor_opt (seqZ 0 512) (clone_level0 npt (shl64 (root_ppn pt) PAGE_SIZE_BITS)) in
     ret (Some npt)) s0) as E.
  { rewrite <-try_opt_assoc. unfold clone_user_space, try_opt, bind, ret.
    destruct (PageTable_new s0) as [[[npt|] s1]| | |]; try done.
    by destruct (map_kernel_regions npt s1) as [[[] s2]| | |]. }
  unfold wp. rewrite E. apply wp_try_opt. eapply wp_mono; [apply fresh_space_spec; [apply Hinv|lia]|].
  intros o s1 (npt & -> & Hroot & Hinv1 & Hc & He & Hh & Ht & Hmem & Hv).
  rewrite (table_addr (root_ppn pt) s0 []) by (done || apply path_ok_nil).
  assert (∀ v, vpn_ok v → is_Some (user_entry (mm_mem s0) (root_ppn pt) v) →
    view (mm_mem s1) (root_ppn npt) v = None) as Hnone.
  { intros v Hvk [e Hu]. rewrite Hv by done. by destruct (Huser v e Hvk Hu). }
  apply wp_try_opt. eapply wp_mono.
  - apply (wp_mfor_opt_seqZ (λ i, clone_inv s0 pt us (root_ppn npt) (cur s1) (i * 2 ^ 18)) (λ _, False)); [lia| |].
    + constructor; try done; try lia.
      * intros v Hvk _. by apply Hv.
      * intros v Hvk Hu _. by apply Hnone.
      * intros v e Hvk Hu Hlt. unfold vpn_ok in Hvk. lia.
      * intros v v' p p' _ [Hvk Hu]%Hus _ Hp. by rewrite Hnone in Hp.
      * unfold done_count, count_below. lia.
    + intros i s' Hi H. apply (clone_level0_spec s0 pt us); try done. lia.
  - intros [[]|] s2 H; [|done]. apply wp_ret. exists npt, (cur s1). split_and!; try done. lia.
Qed.

(** ** The kernel's page table *)

Lemma build_kernel_page_table_spec s : pages_ok (mm_pages s) →
  cur s + 137 * 4096 ≤ page_end (mm_pages s) →
  wp build_kernel_page_table s (λ pt s', pt_inv (root_ppn pt) s' ∧
    (∀ v, vpn_ok v → view (mm_mem s') (root_ppn pt) v =
       if decide (v = 0x100) then Some (mapped_pte 0x100000 (PTE_R |f PTE_W)) else kernel_view v) ∧
    cur s ≤ cur s' ≤ cur s + 137 * 4096 ∧ page_end (mm_pages s') = page_end (mm_pages s) ∧ mm_heap s' = mm_heap s).
Proof.
  intros Hok Hfit. pose proof (fresh_space_spec s Hok ltac:(lia)) as Hf.
  apply wp_run in Hf as (o & s1 & E & pt & -> & Hroot & Hinv & Hc & He & Hh & Ht & Hmem & Hv).
  assert (build_kernel_page_table s =
    (do! map pt 0x100000 0x100000 (PTE_R |f PTE_W) in ret pt) s1) as E2.
  { revert E. unfold build_kernel_page_table, expect, try_opt, bind, ret.
    destruct (PageTable_new s) as [[[npt|] s2]| | |]; try done.
    destruct (map_kernel_regions npt s2) as [[[] s3]| | |]; try done. by intros [= -> ->]. }
  unfold wp. rewrite E2. pose proof (missing_le (mm_mem s1) (root_ppn pt) (0x100000 / 4096)).
  apply wp_bind. eapply wp_mono.
  { apply map_spec; [done|done|apply kernel_flags_ok|by rewrite Hv|lia]. }
  intros [] s2 (Hg & Hc2 & Hv2 & _). change (0x100000 / 4096) with 0x100 in Hv2. apply wp_ret.
  split; [apply Hg|]. split; [|rewrite (grow_end _ _ _ Hg), (grow_heap _ _ _ Hg); split_and!; [lia..|done|done]].
  intros v Hvk. rewrite Hv2. unfold view_insert.
  rewrite (Z.mod_small v), (Z.mod_small 0x100) by done. case_decide; [done|]. by apply Hv.
Qed.
