(* ===== verification/UserMem.v ===== *)
(** * User address spaces

    The invariant of a process's page table ([as_inv]): every user page is a
    frame of its own, below the allocator's cursor and away from the tables.
    [as_ext] relates an address space to a later one in which pages were only
    added; [alloc_map], the allocate-and-map step that the program loader, the
    stack set-up, [brk] and [mmap] share, is such an extension. *)

From S2P Require Import Prelude Machine Alloc PageTable AddrSpace.

(** [let page = alloc_page()?; pt.map(va, page, flags)]. *)
Definition alloc_map (pt : PageTable) (va : Z) (flags : PTEFlags) : M mm (option Z) :=
  let? page := alloc_page in
  do! map pt va page flags in
  ret (Some page).

(** The byte at a virtual address. *)
Definition umem (m : mem) (root va : Z) : option Z :=
  match view m root (va / 4096) with
  | Some e => Some (rd8 m (pte_ppn e * 4096 + va mod 4096))
  | None => None
  end.

Record as_inv (root : Z) (s : mm) : Prop := {
  as_pt : pt_inv root s;
  as_user : ∀ v e, vpn_ok v → user_entry (mm_mem s) root v = Some e →
    kernel_view v = None ∧ 0 ≤ pte_ppn e ∧ (pte_ppn e + 1) * 4096 ≤ cur s ∧
    ¬ is_table (mm_mem s) root (pte_ppn e);
  as_inj : ∀ v v' e e', vpn_ok v → vpn_ok v' → user_entry (mm_mem s) root v = Some e →
    user_entry (mm_mem s) root v' = Some e' → pte_ppn e = pte_ppn e' → v = v'
}.

Record as_ext (root : Z) (s s' : mm) : Prop := {
  ext_inv : as_inv root s';
  ext_cur : cur s ≤ cur s';
  ext_end : page_end (mm_pages s') = page_end (mm_pages s);
  ext_heap : mm_heap s' = mm_heap s;
  ext_new : ∀ t, is_table (mm_mem s') root t → is_table (mm_mem s) root t ∨ cur s ≤ t * 4096;
  ext_frame : ∀ x, x < cur s →
    (∀ t, is_table (mm_mem s) root t → ¬ (t * 4096 ≤ x < t * 4096 + 4096)) →
    rd8 (mm_mem s') x = rd8 (mm_mem s) x;
  ext_above : ∀ x, cur s' ≤ x → rd8 (mm_mem s') x = rd8 (mm_mem s) x;
  ext_view : ∀ v e, vpn_ok v → view (mm_mem s) root v = Some e → view (mm_mem s') root v = Some e
}.

Lemma as_ext_refl root s : as_inv root s → as_ext root s s.
Proof. intros H. split; auto; lia. Qed.

Lemma as_ext_trans root s1 s2 s3 : as_ext root s1 s2 → as_ext root s2 s3 → as_ext root s1 s3.
Proof.
  intros [I1 C1 E1 H1 N1 F1 A1 V1] [I2 C2 E2 H2 N2 F2 A2 V2]. split; [done|lia|congruence|congruence|..].
  - intros t [Ht|]%N2; [|lia]. by apply N1.
  - intros x Hx Ht. rewrite F2, F1; [done|done|done|lia|].
    intros t [Ht'|]%N1; [by apply Ht|lia].
  - intros x Hx. rewrite A2, A1 by lia. done.
  - auto.
Qed.

(** The bytes of a user page are kept. *)
Lemma as_ext_page root s s' v e x : as_inv root s → as_ext root s s' → vpn_ok v →
  user_entry (mm_mem s) root v = Some e → 0 ≤ x < 4096 →
  rd8 (mm_mem s') (pte_ppn e * 4096 + x) = rd8 (mm_mem s) (pte_ppn e * 4096 + x).
Proof.
  intros Hs He Hv Hu Hx. destruct (as_user _ _ Hs v e Hv Hu) as (_ & H0 & H1 & H2).
  apply (ext_frame _ _ _ He); [lia|]. intros t Ht Hin. apply H2.
  assert (pte_ppn e = t) as -> by lia. done.
Qed.

Lemma user_entry_view m root v e : user_entry m root v = Some e → view m root v = Some e.
Proof. unfold user_entry. destruct (view m root v); [|done]. by case_match. Qed.

Lemma as_ext_user root s s' v e : as_ext root s s' → vpn_ok v →
  user_entry (mm_mem s) root v = Some e → user_entry (mm_mem s') root v = Some e.
Proof.
  intros He Hv Hu. pose proof (user_entry_view _ _ _ _ Hu) as Hview.
  unfold user_entry in *. rewrite Hview in Hu. by rewrite (ext_view _ _ _ He v e).
Qed.

(** Writes that leave the tables alone leave the address space alone. *)
Lemma as_inv_write root s m' : as_inv root s →
  (∀ t x, is_table (mm_mem s) root t → t * 4096 ≤ x < t * 4096 + 4096 → rd8 m' x = rd8 (mm_mem s) x) →
  as_inv root (set_mem m' s) ∧ (∀ v, view m' root v = view (mm_mem s) root v) ∧
  (∀ t, is_table m' root t ↔ is_table (mm_mem s) root t).
Proof.
  intros Hs Hm. destruct (pt_tables_frame _ m' root (cur s) (proj1 (as_pt _ _ Hs)) Hm) as (Hn & Hv & Hwf).
  assert (∀ t, is_table m' root t ↔ is_table (mm_mem s) root t) as Ht.
  { intros t. split; intros (p & Hp & Ht); exists p; (split; [done|]); by rewrite Hn in * by done. }
  assert (∀ v, user_entry m' root v = user_entry (mm_mem s) root v) as Hu.
  { intros v. unfold user_entry. by rewrite Hv. }
  split; [|done]. split.
  - split; [done|apply Hs].
  - cbn [mm_mem set_mem]. intros v e Hvk. rewrite Hu, Ht. by apply Hs.
  - cbn [mm_mem set_mem]. intros v v' e e'. rewrite !Hu. apply Hs.
Qed.

(** Taking a frame keeps the address space. *)
Lemma as_take_page root s : as_inv root s → cur s + 4096 ≤ page_end (mm_pages s) →
  as_ext root s (take_page s) ∧ (∀ v, view (mm_mem (take_page s)) root v = view (mm_mem s) root v) ∧
  (∀ t, is_table (mm_mem (take_page s)) root t ↔ is_table (mm_mem s) root t) ∧
  (∀ x, 0 ≤ x < 4096 → rd8 (mm_mem (take_page s)) (cur s + x) = 0) ∧
  cur (take_page s) = cur s + 4096 ∧ page_end (mm_pages (take_page s)) = page_end (mm_pages s).
Proof.
  intros Hs Hfit. destruct Hs as [[Hwf Hok] Hu Hi].
  assert (∀ x, x < cur s → rd8 (mm_mem (take_page s)) x = rd8 (mm_mem s) x) as Hm.
  { intros x Hx. unfold take_page. rewrite mm_mem_set_mem, rd8_fill, decide_False by lia. done. }
  destruct (pt_frame _ _ root (cur s) Hwf Hm) as (Hn & Hv & Hwf').
  assert (∀ t, is_table (mm_mem (take_page s)) root t ↔ is_table (mm_mem s) root t) as Ht.
  { intros t. by apply (is_table_frame _ _ _ (cur s)). }
  assert (cur (take_page s) = cur s + 4096) as Hc by done.
  assert (∀ v, user_entry (mm_mem (take_page s)) root v = user_entry (mm_mem s) root v) as Huv.
  { intros v. unfold user_entry. by rewrite Hv. }
  split_and!; [|done|done| |done|done].
  - split; [split; [split|..]|lia|done|done|..].
    + split; [|apply Hwf']. intros p t Hp Hpt. destruct (wf_range _ _ _ Hwf' p t Hp Hpt). rewrite Hc. lia.
    + by apply take_page_ok.
    + intros v e Hvk. rewrite Huv, Ht, Hc. intros H. destruct (Hu v e Hvk H) as (? & ? & ? & ?).
      split_and!; [done|done|lia|done].
    + intros v v' e e'. rewrite !Huv. apply Hi.
    + intros t. rewrite Ht. by left.
    + intros x Hx _. by apply Hm.
    + intros x Hx. rewrite Hc in Hx. unfold take_page. rewrite mm_mem_set_mem, rd8_fill.
      by rewrite decide_False by lia.
    + intros v e _. by rewrite Hv.
  - intros x Hx. unfold take_page. rewrite mm_mem_set_mem, rd8_fill.
    change (page_current (mm_pages s)) with (cur s). by rewrite decide_True by lia.
Qed.

Definition user_flags (fl : PTEFlags) : Prop :=
  flags_ok fl ∧ contains (fl |f PTE_V |f PTE_A |f PTE_D) PTE_U = true.

(** A fresh page at [v]: its entry, its frame and that it is a user page. *)
Record fresh_page (root : Z) (s s' : mm) (v : Z) (fl : PTEFlags) : Prop := {
  fp_ext : as_ext root s s';
  fp_cur : cur s + 4096 ≤ cur s' ≤ cur s + 3 * 4096;
  fp_view : ∀ v', vpn_ok v' → view (mm_mem s') root v' =
    if decide (v' = v) then Some (mapped_pte (cur s) fl) else view (mm_mem s) root v';
  fp_table : ¬ is_table (mm_mem s') root (cur s / 4096)
}.

Lemma fresh_page_user root s s' v fl : fresh_page root s s' v fl → vpn_ok v → user_flags fl → as_inv root s →
  user_entry (mm_mem s') root v = Some (mapped_pte (cur s) fl) ∧
  pte_ppn (mapped_pte (cur s) fl) * 4096 = cur s ∧
  pte_flags (mapped_pte (cur s) fl) = fl |f PTE_V |f PTE_A |f PTE_D.
Proof.
  intros [_ _ Hv _] Hvk [Hf Hu] Hs. destruct (as_pt _ _ Hs) as [_ (Hc & He & Hm)].
  destruct (mapped_pte_ok (cur s) fl) as (_ & _ & Hp & Hfl); [unfold in_usize; lia|done|].
  unfold user_entry. rewrite Hv, decide_True, Hfl, Hu by done. rewrite Hp. split; [done|]. split; [dlia|done].
Qed.

(** An address space with one more user page, on the frame at [cur s]. *)
Lemma as_inv_add root s s' v fl : as_inv root s → user_flags fl → kernel_view v = None → pt_inv root s' →
  cur s + 4096 ≤ cur s' →
  (∀ v', vpn_ok v' → view (mm_mem s') root v' =
    if decide (v' = v) then Some (mapped_pte (cur s) fl) else view (mm_mem s) root v') →
  (∀ t, is_table (mm_mem s') root t → is_table (mm_mem s) root t ∨ cur s + 4096 ≤ t * 4096) →
  as_inv root s' ∧ ¬ is_table (mm_mem s') root (cur s / 4096).
Proof.
  intros Hs [Hf Hu] Hk Hinv Hc Hview Hnew. destruct (as_pt _ _ Hs) as [Hwf (Hpos & Hend & Hal)].
  destruct (mapped_pte_ok (cur s) fl) as (_ & _ & Hp & Hfl); [unfold in_usize; lia|done|].
  assert (¬ is_table (mm_mem s') root (cur s / 4096)) as Hnt.
  { intros [(p & Hpp & Ht)|?]%Hnew; [destruct (wf_range _ _ _ Hwf p _ Hpp Ht)|]; dlia. }
  assert (∀ v' e, vpn_ok v' → v' ≠ v → user_entry (mm_mem s') root v' = Some e →
    user_entry (mm_mem s) root v' = Some e) as Huold.
  { intros v' e Hv' Hne. unfold user_entry. by rewrite Hview, decide_False by done. }
  assert (∀ e, vpn_ok v → user_entry (mm_mem s') root v = Some e → e = mapped_pte (cur s) fl) as Hunew.
  { intros e Hv Hue%user_entry_view. rewrite Hview, decide_True in Hue by done. congruence. }
  split; [|done]. split; [done|..].
  - intros v' e Hv' Hue. destruct (decide (v' = v)) as [->|Hne].
    + apply Hunew in Hue as ->; [|done]. rewrite Hp. split_and!; [done|dlia|dlia|done].
    + apply Huold in Hue; [|done..]. destruct (as_user _ _ Hs v' e Hv' Hue) as (? & ? & ? & ?).
      split_and!; [done|done|lia|]. intros [?|?]%Hnew; [done|lia].
  - intros v1 v2 e1 e2 Hk1 Hk2 Hu1 Hu2 Heq.
    destruct (decide (v1 = v)) as [E1|E1], (decide (v2 = v)) as [E2|E2]; [congruence|..].
    + subst v1. apply Hunew in Hu1 as ->; [|done]. apply Huold in Hu2; [|done..].
      destruct (as_user _ _ Hs v2 e2 Hk2 Hu2) as (_ & _ & ? & _). rewrite Hp in Heq. dlia.
    + subst v2. apply Hunew in Hu2 as ->; [|done]. apply Huold in Hu1; [|done..].
      destruct (as_user _ _ Hs v1 e1 Hk1 Hu1) as (_ & _ & ? & _). rewrite Hp in Heq. dlia.
    + apply (as_inj _ _ Hs v1 v2 e1 e2); auto.
Qed.

Lemma alloc_map_spec pt va fl s : let root := root_ppn pt in
  as_inv root s → vpn_ok (va / 4096) → user_flags fl →
  kernel_view (va / 4096) = None → view (mm_mem s) root (va / 4096) = None →
  cur s + 3 * 4096 ≤ page_end (mm_pages s) →
  wp (alloc_map pt va fl) s (λ o s', o = Some (cur s) ∧ fresh_page root s s' (va / 4096) fl ∧
    ∀ x, 0 ≤ x < 4096 → rd8 (mm_mem s') (cur s + x) = 0).
Proof.
  intros root Hs Hv Hf Hk Hnone Hfit. unfold alloc_map.
  destruct (as_pt _ _ Hs) as [Hwf Hok]. pose proof Hok as (Hc & He & Hm).
  destruct (alloc_page_cases s Hok) as [[_ E]|[? _]]; [|lia].
  apply wp_try_opt. eapply wp_of_run; [exact E|].
  destruct (as_take_page root s Hs) as (Hext & Hview & Htab & Hzero & Hcur & Hend); [lia|].
  set (s1 := take_page s) in *. clearbody s1.
  pose proof (missing_le (mm_mem s1) root (va / 4096)) as Hmiss.
  apply wp_bind. eapply wp_mono.
  { apply (map_spec pt va (cur s) fl s1); [apply Hext|unfold in_usize; lia|apply Hf|by rewrite Hview|].
    fold root. rewrite Hend, Hcur. lia. }
  intros [] s2 (Hg & Hc2 & Hv2 & _). fold root in Hg, Hc2, Hv2. apply wp_ret. split; [done|].
  assert (∀ v', vpn_ok v' → view (mm_mem s2) root v' =
    if decide (v' = va / 4096) then Some (mapped_pte (cur s) fl) else view (mm_mem s) root v') as Hv2'.
  { intros v' Hv'. rewrite Hv2, <-Hview. unfold view_insert.
    unfold vpn_ok in *. rewrite (Z.mod_small v'), (Z.mod_small (va / 4096)) by lia. done. }
  assert (∀ t, is_table (mm_mem s2) root t → is_table (mm_mem s) root t ∨ cur s + 4096 ≤ t * 4096) as Hnew.
  { intros t [Ht|Ht]%(grow_new _ _ _ Hg); [left; by apply Htab|right; lia]. }
  pose proof (grow_cur _ _ _ Hg) as Hgc.
  destruct (as_inv_add root s s2 (va / 4096) fl Hs Hf Hk) as [Hinv Hnt]; [apply Hg|lia|done|done|].
  split; [split; [|lia|done|done]|].
  - split; [done|lia| | |..].
    + rewrite (grow_end _ _ _ Hg). done.
    + rewrite (grow_heap _ _ _ Hg). apply Hext.
    + intros t [?|?]%Hnew; [by left|right; lia].
    + intros x Hx Htx. rewrite (grow_frame _ _ _ Hg); [by apply Hext|lia|].
      intros t Ht. apply Htx. by apply Htab.
    + intros x Hx. rewrite (grow_above _ _ _ Hg) by done. apply (ext_above _ _ _ Hext). lia.
    + intros v' e Hv' He'. rewrite Hv2' by done. rewrite decide_False; [done|]. intros ->. congruence.
  - intros x Hx. rewrite (grow_frame _ _ _ Hg); [by apply Hzero|lia|].
    intros t Ht%Htab. pose proof (tables_below root s t (as_pt _ _ Hs) Ht). lia.
Qed.

(** Filling a fresh page. *)
Lemma fresh_page_write root s s' v fl m' : pages_ok (mm_pages s) → fresh_page root s s' v fl →
  (∀ x, ¬ (cur s ≤ x < cur s + 4096) → rd8 m' x = rd8 (mm_mem s') x) →
  fresh_page root s (set_mem m' s') v fl.
Proof.
  intros (Hc & _ & Hm) [[Hi Hcu He Hh Hn Hf Ha Hv] Hcur Hview Htab] Hw.
  destruct (as_inv_write root s' m' Hi) as (Hi' & Hv' & Ht').
  { intros t x Ht Hx. apply Hw. intros Hin. apply Htab.
    assert (cur s / 4096 = t) as -> by dlia. done. }
  split; [split|..]; [done|done|done|done|..].
  - intros t. cbn [mm_mem set_mem]. rewrite Ht'. apply Hn.
  - intros x Hx Ht. cbn [mm_mem set_mem]. rewrite Hw by lia. by apply Hf.
  - intros x Hx. cbn [mm_mem set_mem mm_pages] in *. rewrite Hw by lia. by apply Ha.
  - intros w e. cbn [mm_mem set_mem]. rewrite Hv'. apply Hv.
  - done.
  - intros w Hw'. cbn [mm_mem set_mem]. rewrite Hv'. by apply Hview.
  - cbn [mm_mem set_mem]. by rewrite Ht'.
Qed.

(** The contents of one user page, as a function of the virtual address. *)
Definition page_is (root : Z) (s : mm) (v : Z) (fl : PTEFlags) (content : Z → Z) : Prop :=
  ∃ e, user_entry (mm_mem s) root v = Some e ∧ pte_flags e = fl |f PTE_V |f PTE_A |f PTE_D ∧
    ∀ x, 0 ≤ x < 4096 → rd8 (mm_mem s) (pte_ppn e * 4096 + x) = content (v * 4096 + x).

Lemma page_is_ext root s s' v fl content : as_inv root s → as_ext root s s' → vpn_ok v →
  page_is root s v fl content → page_is root s' v fl content.
Proof.
  intros Hs He Hv (e & Hu & Hfl & Hx). exists e. split; [by apply (as_ext_user root s)|]. split; [done|].
  intros x Hxr. rewrite (as_ext_page root s s' v e) by done. by apply Hx.
Qed.

Lemma page_is_umem root s v fl content va : page_is root s v fl content → va / 4096 = v →
  umem (mm_mem s) root va = Some (content va).
Proof.
  intros (e & Hu%user_entry_view & _ & Hx) Hv. unfold umem. rewrite Hv, Hu. f_equal.
  rewrite Hx by (apply Z.mod_pos_bound; lia). f_equal. subst v. rewrite (Z.div_mod va 4096) at 3 by lia. lia.
Qed.

(** Taking frames, without writing below the cursor. *)
Lemma as_inv_grow root s s' : as_inv root s → pages_ok (mm_pages s') → cur s ≤ cur s' →
  (∀ x, x < cur s → rd8 (mm_mem s') x = rd8 (mm_mem s) x) →
  as_inv root s' ∧ (∀ v, view (mm_mem s') root v = view (mm_mem s) root v) ∧
  (∀ v fl c, vpn_ok v → page_is root s v fl c → page_is root s' v fl c).
Proof.
  intros [[Hwf Hok] Hu Hi] Hpg Hc Hm. destruct (pt_frame _ _ root (cur s) Hwf Hm) as (Hn & Hv & Hwf').
  assert (∀ t, is_table (mm_mem s') root t ↔ is_table (mm_mem s) root t) as Ht.
  { intros t. by apply (is_table_frame _ _ _ (cur s)). }
  assert (∀ v, user_entry (mm_mem s') root v = user_entry (mm_mem s) root v) as Huv.
  { intros v. unfold user_entry. by rewrite Hv. }
  split; [|split; [done|]].
  - split; [split|..]; [split; [|apply Hwf']|done|..].
    + intros p t Hp Hpt. destruct (wf_range _ _ _ Hwf' p t Hp Hpt). lia.
    + intros v e Hvk. rewrite Huv, Ht. intros H. destruct (Hu v e Hvk H) as (? & ? & ? & ?).
      split_and!; [done|done|lia|done].
    + intros v v' e e'. rewrite !Huv. apply Hi.
  - intros v fl c Hvk (e & Hue & Hf & Hx). destruct (Hu v e Hvk Hue) as (_ & ? & ? & _).
    exists e. rewrite Huv. split_and!; [done|done|]. intros x Hxr. rewrite Hm by lia. by apply Hx.
Qed.
