(* ===== verification/Pipe.v ===== *)
(** * The pipe ring buffer of [syscall.rs]

    [PipeInner] is a ring of 4096 bytes with one slot kept free; it implements
    a bounded FIFO queue. *)

From S2P Require Import Prelude.

(** ** The queue a pipe promises to be *)

Module Queue.
Definition push (cap : nat) (data q : list Z) : list Z := q ++ take (cap - length q) data.
Definition accepted (cap : nat) (data q : list Z) : list Z := take (cap - length q) data.
Definition pop (n : nat) (q : list Z) : list Z * list Z := (take n q, drop n q).
End Queue.

(** ** The ring *)

Record PipeInner := {
  pi_buf : list Z;
  pi_head : Z;
  pi_tail : Z;
  write_closed : bool;
  read_closed : bool
}.

Definition PipeInner_new : PipeInner := {|
  pi_buf := replicate 4096 0; pi_head := 0; pi_tail := 0;
  write_closed := false; read_closed := false
|}.

Definition pipe_len (p : PipeInner) : Z := Z.of_nat (length (pi_buf p)).

(** [self.buf[self.tail] = b; self.tail = next]. *)
Definition pipe_put (b next : Z) (p : PipeInner) : PipeInner := {|
  pi_buf := <[Z.to_nat (pi_tail p) := b]> (pi_buf p);
  pi_head := pi_head p; pi_tail := next;
  write_closed := write_closed p; read_closed := read_closed p
|}.
Definition pipe_set_head (h : Z) (p : PipeInner) : PipeInner := {|
  pi_buf := pi_buf p; pi_head := h; pi_tail := pi_tail p;
  write_closed := write_closed p; read_closed := read_closed p
|}.

(** The [for &b in data] loop of [PipeInner::write]; the remainder panics on an
    empty buffer and the index on a position outside it. *)
Fixpoint write_loop (data : list Z) (written : Z) : M PipeInner Z :=
  match data with
  | [] => ret written
  | b :: data' =>
      let! p := gets id in
      if pipe_len p =? 0 then panic else
      let next := (pi_tail p + 1) mod pipe_len p in
      if next =? pi_head p then ret written
      else if pi_tail p <? pipe_len p then
        do! modify (pipe_put b next) in
        write_loop data' (written + 1)
      else panic
  end.

Definition pipe_write (data : list Z) : M PipeInner Z :=
  let! p := gets id in
  if read_closed p then ret 0 else write_loop data 0.

(** The [while] loop of [PipeInner::read] on an output of [n] more bytes; the
    result lists the bytes stored in [out]. *)
Fixpoint read_loop (n : nat) : M PipeInner (list Z) :=
  match n with
  | O => ret []
  | S n' =>
      let! p := gets id in
      if pi_head p =? pi_tail p then ret []
      else
        match pi_buf p !! Z.to_nat (pi_head p) with
        | None => panic
        | Some b =>
            do! modify (pipe_set_head ((pi_head p + 1) mod pipe_len p)) in
            let! rest := read_loop n' in
            ret (b :: rest)
        end
  end.

Definition pipe_read (out_len : Z) : M PipeInner (list Z) := read_loop (Z.to_nat out_len).

(** ** Representation *)

Record pipe_ok (p : PipeInner) : Prop := {
  pk_len : 0 < pipe_len p;
  pk_head : 0 ≤ pi_head p < pipe_len p;
  pk_tail : 0 ≤ pi_tail p < pipe_len p
}.

Definition pipe_count (p : PipeInner) : Z := (pi_tail p - pi_head p) mod pipe_len p.

(** The queued bytes, oldest first. *)
Definition contents (p : PipeInner) : list Z :=
  (λ i, pi_buf p !!! Z.to_nat ((pi_head p + i) mod pipe_len p)) <$> seqZ 0 (pipe_count p).

Definition capacity (p : PipeInner) : nat := (length (pi_buf p) - 1)%nat.

Lemma mod_wrap x n : 0 < n → - n ≤ x < 2 * n →
  x mod n = if decide (x < 0) then x + n else if decide (x < n) then x else x - n.
Proof.
  intros Hn Hx. repeat case_decide.
  - rewrite <-(Z.mod_add x 1 n), Z.mul_1_l by lia. apply Z.mod_small. lia.
  - apply Z.mod_small. lia.
  - rewrite <-(Z.mod_add x (-1) n) by lia. rewrite Z.mod_small; lia.
Qed.

Ltac ring_solve := repeat (rewrite mod_wrap by lia); repeat case_decide; lia.

Lemma pipe_ok_new : pipe_ok PipeInner_new.
Proof. by split. Qed.

Lemma length_contents p : pipe_ok p → Z.of_nat (length (contents p)) = pipe_count p ∧ 0 ≤ pipe_count p < pipe_len p.
Proof.
  intros [Hl Hh Ht]. unfold contents. rewrite length_fmap, length_seqZ.
  unfold pipe_count. pose proof (Z.mod_pos_bound (pi_tail p - pi_head p) (pipe_len p) Hl). lia.
Qed.

Lemma pipe_full p : pipe_ok p →
  (pi_tail p + 1) mod pipe_len p = pi_head p ↔ pipe_count p = pipe_len p - 1.
Proof.
  intros [Hl Hh Ht]. unfold pipe_count. rewrite !mod_wrap by lia. repeat case_decide; lia.
Qed.

Lemma pipe_empty p : pipe_ok p → pi_head p = pi_tail p ↔ pipe_count p = 0.
Proof. intros [Hl Hh Ht]. unfold pipe_count. rewrite !mod_wrap by lia. repeat case_decide; lia. Qed.

(** One byte in. *)
Lemma pipe_put_ok p b : pipe_ok p → (pi_tail p + 1) mod pipe_len p ≠ pi_head p →
  let p' := pipe_put b ((pi_tail p + 1) mod pipe_len p) p in
  pipe_ok p' ∧ contents p' = contents p ++ [b] ∧ capacity p' = capacity p ∧ read_closed p' = read_closed p.
Proof.
  intros Hok Hne p'. pose proof Hok as [Hl Hh Ht]. subst p'.
  assert (pipe_len (pipe_put b ((pi_tail p + 1) mod pipe_len p) p) = pipe_len p) as El.
  { unfold pipe_len, pipe_put. cbn. by rewrite length_insert. }
  split_and!; [|..].
  - split; rewrite El; cbn; [done|done|]. apply Z.mod_pos_bound. lia.
  - unfold contents. rewrite El. cbn.
    assert (pipe_count (pipe_put b ((pi_tail p + 1) mod pipe_len p) p) = pipe_count p + 1) as ->.
    { unfold pipe_count. rewrite El. cbn. revert Hne. rewrite (mod_wrap (pi_tail p + 1)) by lia.
      rewrite decide_False by lia. case_decide; intros Hne; ring_solve. }
    destruct (length_contents p Hok) as [_ Hc].
    rewrite seqZ_app by lia. rewrite fmap_app. f_equal.
    + apply list_fmap_ext. intros i x Hx. apply lookup_seqZ in Hx as [-> Hi].
      rewrite list_lookup_total_insert_ne; [done|]. intros E. apply Z2Nat.inj in E; [|lia|].
      2:{ apply Z.mod_pos_bound. lia. }
      revert E. unfold pipe_count in Hi, Hc. rewrite (mod_wrap (pi_tail p - _)) in Hi, Hc by lia.
      rewrite mod_wrap by (repeat case_decide; lia). repeat case_decide; lia.
    + rewrite Z.add_0_l, seqZ_cons, seqZ_nil by lia. cbn [fmap list_fmap]. f_equal.
      assert ((pi_head p + pipe_count p) mod pipe_len p = pi_tail p) as ->.
      { unfold pipe_count. rewrite (mod_wrap (pi_tail p - pi_head p)) by lia.
        case_decide; [|rewrite decide_True by lia]; ring_solve. }
      apply list_lookup_total_insert_eq. unfold pipe_len in Ht. lia.
  - unfold capacity. cbn. by rewrite length_insert.
  - done.
Qed.

(** One byte out. *)
Lemma pipe_take_ok p : pipe_ok p → pi_head p ≠ pi_tail p →
  let p' := pipe_set_head ((pi_head p + 1) mod pipe_len p) p in
  ∃ b, pi_buf p !! Z.to_nat (pi_head p) = Some b ∧
    pipe_ok p' ∧ contents p = b :: contents p' ∧ capacity p' = capacity p ∧ read_closed p' = read_closed p.
Proof.
  intros Hok Hne p'. pose proof Hok as [Hl Hh Ht]. subst p'.
  destruct (lookup_lt_is_Some_2 (pi_buf p) (Z.to_nat (pi_head p))) as [b Hb].
  { unfold pipe_len in Hh. lia. }
  exists b. split; [done|]. split_and!; [|..|done|done].
  - split; cbn; [done|..|done]. by apply Z.mod_pos_bound.
  - unfold contents. cbn.
    assert (pipe_count p = 1 + pipe_count (pipe_set_head ((pi_head p + 1) mod pipe_len p) p)) as ->.
    { unfold pipe_count. cbn. change (pipe_len (pipe_set_head _ p)) with (pipe_len p).
      rewrite (mod_wrap (pi_head p + 1)) by lia.
      rewrite decide_False by lia. case_decide; ring_solve. }
    assert (0 ≤ pipe_count (pipe_set_head ((pi_head p + 1) mod pipe_len p) p)) as Hc
      by (apply Z.mod_pos_bound; done).
    rewrite seqZ_app by lia. rewrite fmap_app, (seqZ_cons 0 1), seqZ_nil by lia. cbn [fmap list_fmap app]. f_equal.
    { rewrite Z.add_0_r, Z.mod_small by lia. by apply list_lookup_total_correct. }
    change (0 + 1) with (1 + 0). rewrite <-fmap_add_seqZ, <-list_fmap_compose. apply list_fmap_ext. intros i x Hx.
    cbn. f_equal. f_equal. change (pipe_len (pipe_set_head _ p)) with (pipe_len p).
    rewrite Zplus_mod_idemp_l. f_equal. lia.
Qed.

Lemma contents_room p : pipe_ok p →
  pipe_count p = pipe_len p - 1 ↔ (capacity p - length (contents p))%nat = O.
Proof.
  intros Hok. destruct (length_contents p Hok) as [El Hc]. unfold capacity. unfold pipe_len in *. lia.
Qed.

Lemma write_loop_spec data : ∀ w p, pipe_ok p →
  wp (write_loop data w) p (λ n p',
    pipe_ok p' ∧ capacity p' = capacity p ∧ read_closed p' = read_closed p ∧
    contents p' = Queue.push (capacity p) data (contents p) ∧
    n = w + Z.of_nat (length (Queue.accepted (capacity p) data (contents p)))).
Proof.
  induction data as [|b data IH]; intros w p Hok; cbn [write_loop].
  { apply wp_ret. unfold Queue.push, Queue.accepted. rewrite take_nil, app_nil_r. cbn. split_and!; auto; lia. }
  apply wp_bind, wp_gets. cbn [id]. pose proof Hok as [Hl _ Ht].
  destruct (Z.eqb_spec (pipe_len p) 0); [lia|].
  destruct (Z.eqb_spec ((pi_tail p + 1) mod pipe_len p) (pi_head p)) as [E|E].
  - apply wp_ret. apply pipe_full, contents_room in E; [|done..]. unfold Queue.push, Queue.accepted.
    rewrite E. cbn [take length]. rewrite app_nil_r. split_and!; auto; lia.
  - destruct (Z.ltb_spec (pi_tail p) (pipe_len p)); [|lia].
    apply wp_bind, wp_modify.
    destruct (pipe_put_ok p b Hok E) as (Hok' & Ec & Ecap & Erc).
    eapply wp_mono; [by apply IH|]. cbn beta. intros w' p' (H1 & H2 & H3 & H4 & H5).
    rewrite Ecap, Ec in *. split_and!; [done|congruence|congruence|..].
    all: assert (capacity p - length (contents p) ≠ 0)%nat as Hr by (rewrite <-contents_room, <-pipe_full by done; done).
    all: destruct (capacity p - length (contents p))%nat as [|r] eqn:Er; [done|].
    all: unfold Queue.push, Queue.accepted in *; rewrite length_app in *; cbn [length] in *.
    all: replace (capacity p - (length (contents p) + 1))%nat with r in * by lia; rewrite Er; cbn [take length].
    + by rewrite H4, <-app_assoc.
    + lia.
Qed.

Lemma pipe_write_spec data p : pipe_ok p → read_closed p = false →
  wp (pipe_write data) p (λ n p',
    pipe_ok p' ∧ capacity p' = capacity p ∧ read_closed p' = false ∧
    contents p' = Queue.push (capacity p) data (contents p) ∧
    n = Z.of_nat (length (Queue.accepted (capacity p) data (contents p)))).
Proof.
  intros Hok Hr. unfold pipe_write. apply wp_bind, wp_gets. cbn [id]. rewrite Hr.
  eapply wp_mono; [by apply write_loop_spec|]. cbn beta. intros ?? (?&?&?&?&?). split_and!; congruence || auto.
Qed.

Lemma read_loop_spec n : ∀ p, pipe_ok p →
  wp (read_loop n) p (λ out p',
    pipe_ok p' ∧ capacity p' = capacity p ∧ read_closed p' = read_closed p ∧
    (out, contents p') = Queue.pop n (contents p)).
Proof.
  induction n as [|n IH]; intros p Hok; cbn [read_loop].
  { apply wp_ret. done. }
  apply wp_bind, wp_gets. cbn [id].
  destruct (Z.eqb_spec (pi_head p) (pi_tail p)) as [E|E].
  - apply wp_ret. split_and!; try done. apply pipe_empty in E; [|done].
    destruct (length_contents p Hok) as [El _]. destruct (contents p); [done|cbn in El; lia].
  - destruct (pipe_take_ok p Hok E) as (b & -> & Hok' & Ec & Ecap & Erc).
    apply wp_bind, wp_modify, wp_bind. eapply wp_mono; [by apply IH|]. cbn beta.
    intros out p' (H1 & H2 & H3 & H4). apply wp_ret. split_and!; [done|congruence|congruence|].
    rewrite Ec. unfold Queue.pop in *. cbn [take drop]. injection H4 as -> ->. done.
Qed.

Lemma pipe_read_spec n p : pipe_ok p →
  wp (pipe_read n) p (λ out p',
    pipe_ok p' ∧ capacity p' = capacity p ∧ read_closed p' = read_closed p ∧
    (out, contents p') = Queue.pop (Z.to_nat n) (contents p)).
Proof. apply read_loop_spec. Qed.

(** ** Interleavings of reads and writes *)

Inductive pipe_op := PWrite (data : list Z) | PRead (n : Z).

(** Run a sequence of operations; the result is the bytes the writes accepted
    and the bytes the reads returned. *)
Fixpoint pipe_ops (ops : list pipe_op) : M PipeInner (list Z * list Z) :=
  match ops with
  | [] => ret ([], [])
  | PWrite data :: ops' =>
      let! n := pipe_write data in
      let! r := pipe_ops ops' in
      ret (take (Z.to_nat n) data ++ r.1, r.2)
  | PRead n :: ops' =>
      let! out := pipe_read n in
      let! r := pipe_ops ops' in
      ret (r.1, out ++ r.2)
  end.

(** The same sequence on the abstract queue: the bytes accepted, the bytes
    read, and the queue at the end. *)
Fixpoint queue_ops (cap : nat) (ops : list pipe_op) (q : list Z) : list Z * list Z * list Z :=
  match ops with
  | [] => ([], [], q)
  | PWrite data :: ops' =>
      let '(acc, out, q') := queue_ops cap ops' (Queue.push cap data q) in
      (Queue.accepted cap data q ++ acc, out, q')
  | PRead n :: ops' =>
      let '(acc, out, q') := queue_ops cap ops' (Queue.pop (Z.to_nat n) q).2 in
      (acc, (Queue.pop (Z.to_nat n) q).1 ++ out, q')
  end.

Lemma take_length_take {A} n (l : list A) : take (length (take n l)) l = take n l.
Proof. revert n. induction l as [|a l IH]; intros [|n]; cbn; [done..|]. by rewrite IH. Qed.

(** The concrete operations simulate the abstract ones. *)
Lemma pipe_ops_sim ops : ∀ p, pipe_ok p → read_closed p = false →
  wp (pipe_ops ops) p (λ r p',
    pipe_ok p' ∧ capacity p' = capacity p ∧ read_closed p' = false ∧
    queue_ops (capacity p) ops (contents p) = (r.1, r.2, contents p')).
Proof.
  induction ops as [|[data|n] ops IH]; intros p Hok Hr; cbn [pipe_ops queue_ops].
  - by apply wp_ret.
  - apply wp_bind. eapply wp_mono; [by apply pipe_write_spec|]. cbn beta.
    intros w p1 (Hok1 & Hc1 & Hr1 & E1 & ->).
    apply wp_bind. eapply wp_mono; [by apply IH|]. cbn beta. intros r p2 (Hok2 & Hc2 & Hr2 & E2).
    apply wp_ret. cbn [fst snd]. split_and!; [done|congruence|done|]. rewrite <-E1, <-Hc1, E2.
    rewrite Nat2Z.id, Hc1. unfold Queue.accepted. by rewrite take_length_take.
  - apply wp_bind. eapply wp_mono; [by apply pipe_read_spec|]. cbn beta.
    intros out p1 (Hok1 & Hc1 & Hr1 & E1). rewrite <-E1. cbn [fst snd].
    apply wp_bind. eapply wp_mono; [apply IH; [done|congruence]|]. cbn beta. intros r p2 (Hok2 & Hc2 & Hr2 & E2).
    apply wp_ret. cbn [fst snd]. split_and!; [done|congruence|done|]. by rewrite <-Hc1, E2.
Qed.

(** The abstract queue keeps every byte, in order, and never grows beyond its
    capacity. *)
Lemma queue_ops_fifo cap ops : ∀ q acc out q', (length q ≤ cap)%nat →
  queue_ops cap ops q = (acc, out, q') → q ++ acc = out ++ q' ∧ (length q' ≤ cap)%nat.
Proof.
  induction ops as [|[data|n] ops IH]; intros q acc out q' Hlen; cbn [queue_ops].
  - intros [= <- <- <-]. by rewrite app_nil_r.
  - destruct (queue_ops _ _ _) as [[acc' out'] q1] eqn:E. intros [= <- <- <-].
    apply IH in E as [E Hl]; [|unfold Queue.push; rewrite length_app, length_take; lia].
    split; [|done]. unfold Queue.push in E. by rewrite app_assoc.
  - destruct (queue_ops _ _ _) as [[acc' out'] q1] eqn:E. intros [= <- <- <-].
    apply IH in E as [E Hl]; [|cbn; rewrite length_drop; lia].
    split; [|done]. cbn in *. by rewrite <-app_assoc, <-E, app_assoc, take_drop.
Qed.

(** ** Properties *)

(** C8: the ring buffer of a pipe implements a bounded queue. Every sequence of
    writes and reads, of any lengths, runs without a panic, accepts and
    returns exactly the bytes that the queue of capacity [len - 1] accepts and
    returns, and ends in a ring that represents the queue's final contents. *)
Theorem pipe_refines_queue ops p : pipe_ok p → read_closed p = false →
  wp (pipe_ops ops) p (λ r p',
    pipe_ok p' ∧ queue_ops (capacity p) ops (contents p) = (r.1, r.2, contents p')).
Proof. intros Hok Hr. eapply wp_mono; [by apply pipe_ops_sim|]. naive_solver. Qed.

Lemma pipe_refines_queue_witness :
  let ops := [PWrite [1; 2; 3]; PRead 2; PWrite [4]; PRead 4096] in
  wp (pipe_ops ops) PipeInner_new (λ r p',
    pipe_ok p' ∧ queue_ops 4095 ops [] = (r.1, r.2, contents p')).
Proof. apply (pipe_refines_queue _ PipeInner_new); [apply pipe_ok_new|reflexivity]. Defined.

(** A pipe is a byte stream. In every interleaving of writes and reads on
    a new pipe, the bytes read are a prefix of the bytes accepted, in order
    and without loss or duplication; what is missing is still in the buffer,
    at most 4095 bytes of it. *)
Lemma pipe_fifo ops :
  wp (pipe_ops ops) PipeInner_new (λ r p',
    r.1 = r.2 ++ contents p' ∧ (length (contents p') ≤ 4095)%nat).
Proof.
  eapply wp_mono; [apply pipe_ops_sim; [apply pipe_ok_new|reflexivity]|].
  intros r p' (Hok & Hc & _ & E). replace (capacity PipeInner_new) with 4095%nat in E by reflexivity.
  apply queue_ops_fifo in E; [exact E|vm_compute; lia].
Qed.
