(* ===== verification/FdTable.v ===== *)
(** * Open files and the descriptor table of [fs.rs] and [syscall.rs]

    [OpenFile], [FdTable] and its operations. A descriptor table is the vector
    of its slots; what it promises is a partial map from descriptors to open
    files ([fd_get]), and every operation is characterised by its effect on
    that map. *)

From S2P Require Import Prelude Alloc.

Record OpenFile := {
  of_inode : Z;
  of_offset : Z;
  of_readable : bool;
  of_writable : bool;
  of_pipe_id : option Z
}.

#[global] Instance OpenFile_eq_dec : EqDecision OpenFile.
Proof. solve_decision. Defined.

Definition of_set_offset (off : Z) (f : OpenFile) : OpenFile := {|
  of_inode := of_inode f; of_offset := off; of_readable := of_readable f;
  of_writable := of_writable f; of_pipe_id := of_pipe_id f
|}.

Record FdTable := FdT { files : list (option OpenFile) }.

Definition std_file : OpenFile := {|
  of_inode := 0; of_offset := 0; of_readable := true; of_writable := true; of_pipe_id := None
|}.

Definition FdTable_new : FdTable := FdT [Some std_file; Some std_file; Some std_file].

(** The slot [FdTable::alloc] fills: the first empty one, or the end. *)
Fixpoint first_free (l : list (option OpenFile)) : nat :=
  match l with
  | [] => O
  | None :: _ => O
  | Some _ :: l' => S (first_free l')
  end.

Definition fd_alloc (file : OpenFile) : M FdTable Z :=
  let! t := gets files in
  let i := first_free t in
  do! modify (λ _, FdT (if decide (i < length t)%nat then <[i := Some file]> t else t ++ [Some file])) in
  ret (Z.of_nat i).

(** [FdTable::get]: [get_mut(fd)?.as_mut()]. Descriptors are [usize]. *)
Definition fd_get (t : FdTable) (fd : Z) : option OpenFile :=
  if fd <? 0 then None else mjoin (files t !! Z.to_nat fd).

(** Assignment through the reference [get] returns. *)
Definition fd_update (fd : Z) (f : OpenFile) : M FdTable unit :=
  modify (λ t, FdT (<[Z.to_nat fd := Some f]> (files t))).

Definition fd_close (fd : Z) : M FdTable unit :=
  modify (λ t, if fd <? Z.of_nat (length (files t))
               then FdT (<[Z.to_nat fd := None]> (files t)) else t).

(** The 16 MiB of the kernel heap: a larger vector never fits. *)
Definition HEAP_SIZE : Z := 0x1000000.

(** [Vec::resize] to [n] elements of [size] bytes; allocation failure panics. *)
Definition vec_resize {S A} (size : Z) (v : list A) (n : Z) (d : A) : M S (list A) :=
  if HEAP_SIZE <? n * size then panic
  else ret (take (Z.to_nat n) v ++ replicate (Z.to_nat n - length v) d).

(** [size_of::<Option<OpenFile>>()], and how many of them the heap can hold. *)
Definition SLOT_SIZE : Z := 40.
Definition MAX_SLOTS : Z := 419430.

Definition fd_dup2 (oldfd newfd : Z) : M FdTable bool :=
  let! t := gets files in
  if (Z.of_nat (length t) <=? oldfd) || bool_decide (mjoin (t !! Z.to_nat oldfd) = None) then ret false
  else
    let! t' := (if Z.of_nat (length t) <=? newfd then vec_resize SLOT_SIZE t (newfd +w 1) None else ret t) in
    match t' !! Z.to_nat oldfd with
    | None => panic
    | Some o =>
        if newfd <? Z.of_nat (length t') then
          do! modify (λ _, FdT (<[Z.to_nat newfd := o]> t')) in ret true
        else panic
    end.

(** ** The map of open descriptors *)

Lemma fd_get_lookup t fd : 0 ≤ fd → fd_get t fd = mjoin (files t !! Z.to_nat fd).
Proof. intros. unfold fd_get. by destruct (Z.ltb_spec fd 0); [lia|]. Qed.

Lemma fd_get_range t fd f : fd_get t fd = Some f → 0 ≤ fd < Z.of_nat (length (files t)).
Proof.
  unfold fd_get. destruct (Z.ltb_spec fd 0); [done|].
  destruct (files t !! Z.to_nat fd) eqn:E; [|done]. apply lookup_lt_Some in E. lia.
Qed.

Lemma first_free_spec l :
  (first_free l ≤ length l)%nat ∧ mjoin (l !! first_free l) = None ∧
  (∀ j, (j < first_free l)%nat → is_Some (mjoin (l !! j))).
Proof.
  induction l as [|[f|] l (IH1 & IH2 & IH3)]; cbn; [split_and!; auto; lia|..].
  - split_and!; [lia|done|]. intros [|j] Hj; cbn; [eauto|]. apply IH3. lia.
  - split_and!; [lia|done|]. lia.
Qed.

(** C33: [alloc] returns the lowest free descriptor, as POSIX asks of [open]:
    the descriptor was free, every smaller one is in use, it now holds the
    file, and every other descriptor is unchanged. *)
Theorem fd_alloc_lowest file t :
  ∃ fd t', fd_alloc file t = Ret (fd, t') ∧ 0 ≤ fd ∧
    fd_get t fd = None ∧ (∀ j, 0 ≤ j < fd → is_Some (fd_get t j)) ∧
    fd_get t' fd = Some file ∧ (∀ j, j ≠ fd → fd_get t' j = fd_get t j).
Proof.
  destruct (first_free_spec (files t)) as (Hle & Hn & Hs). unfold fd_alloc, gets, modify, bind, ret.
  eexists _, _. split; [done|]. split; [lia|]. split_and!.
  - rewrite fd_get_lookup by lia. by rewrite Nat2Z.id.
  - intros j Hj. rewrite fd_get_lookup by lia. apply Hs. lia.
  - rewrite fd_get_lookup by lia. rewrite Nat2Z.id. cbn [files]. case_decide.
    + by rewrite list_lookup_insert_eq.
    + by rewrite lookup_app_r, (proj2 (Nat.sub_0_le _ _)) by lia.
  - intros j Hj. unfold fd_get. destruct (Z.ltb_spec j 0); [done|]. cbn [files]. case_decide.
    + rewrite list_lookup_insert_ne; [done|]. lia.
    + destruct (decide (Z.to_nat j < length (files t))%nat).
      * by rewrite lookup_app_l.
      * rewrite lookup_app_r, (lookup_ge_None_2 (files t)) by lia.
        rewrite (lookup_ge_None_2 [Some file]); [done|]. cbn. lia.
Qed.

Lemma fd_update_get t fd f f' : fd_get t fd = Some f →
  ∃ t', fd_update fd f' t = Ret (tt, t') ∧ fd_get t' fd = Some f' ∧ (∀ j, j ≠ fd → fd_get t' j = fd_get t j).
Proof.
  intros Hf. apply fd_get_range in Hf. eexists. split; [done|]. split.
  - rewrite fd_get_lookup by lia. cbn [files]. rewrite list_lookup_insert_eq; [done|lia].
  - intros j Hj. unfold fd_get. destruct (Z.ltb_spec j 0); [done|]. cbn [files].
    rewrite list_lookup_insert_ne; [done|lia].
Qed.

Lemma fd_close_get t fd : 0 ≤ fd →
  ∃ t', fd_close fd t = Ret (tt, t') ∧ fd_get t' fd = None ∧ (∀ j, j ≠ fd → fd_get t' j = fd_get t j).
Proof.
  intros Hfd. unfold fd_close, modify. eexists. split; [done|].
  destruct (Z.ltb_spec fd (Z.of_nat (length (files t)))).
  - split.
    + rewrite fd_get_lookup by lia. cbn [files]. rewrite list_lookup_insert_eq; [done|lia].
    + intros j Hj. unfold fd_get. destruct (Z.ltb_spec j 0); [done|]. cbn [files].
      rewrite list_lookup_insert_ne; [done|lia].
  - split; [|done]. rewrite fd_get_lookup, lookup_ge_None_2 by lia. done.
Qed.

Lemma fd_dup2_bad t oldfd newfd : 0 ≤ oldfd → fd_get t oldfd = None →
  fd_dup2 oldfd newfd t = Ret (false, t).
Proof.
  intros H Ho. rewrite fd_get_lookup in Ho by lia. unfold fd_dup2, gets, bind.
  rewrite bool_decide_eq_true_2 by done. by rewrite orb_true_r.
Qed.

Lemma fd_dup2_spec t oldfd newfd f : fd_get t oldfd = Some f → 0 ≤ newfd < MAX_SLOTS →
  ∃ t', fd_dup2 oldfd newfd t = Ret (true, t') ∧
    fd_get t' newfd = Some f ∧ (∀ j, j ≠ newfd → fd_get t' j = fd_get t j).
Proof.
  intros Ho Hn. pose proof (fd_get_range _ _ _ Ho) as Hr. rewrite fd_get_lookup in Ho by lia.
  unfold fd_dup2, gets, bind. destruct (Z.leb_spec (Z.of_nat (length (files t))) oldfd); [lia|].
  rewrite bool_decide_eq_false_2 by congruence. cbn [orb].
  assert (∃ t1, (if Z.of_nat (length (files t)) <=? newfd then vec_resize SLOT_SIZE (files t) (newfd +w 1) None
                 else ret (files t)) t = Ret (t1, t) ∧ newfd < Z.of_nat (length t1) ∧
                (length (files t) ≤ length t1)%nat ∧ (∀ j, mjoin (t1 !! j) = mjoin (files t !! j)))
    as (t1 & -> & Hl & Hl' & Hj).
  { destruct (Z.leb_spec (Z.of_nat (length (files t))) newfd); [|exists (files t); split_and!; done || lia].
    unfold vec_resize, HEAP_SIZE, SLOT_SIZE. unfold MAX_SLOTS in *. rewrite wrap64_small by (unfold in_usize; lia).
    destruct (Z.ltb_spec 0x1000000 ((newfd + 1) * 40)); [lia|]. eexists. split; [done|].
    rewrite take_ge by lia. rewrite length_app, length_replicate. split_and!; [lia|lia|].
    intros j. destruct (decide (j < length (files t))%nat); [by rewrite lookup_app_l|].
    rewrite lookup_app_r, (lookup_ge_None_2 (files t)) by lia. cbn.
    destruct (replicate _ None !! _) eqn:E; [|done]. by apply lookup_replicate in E as [-> _]. }
  destruct (lookup_lt_is_Some_2 t1 (Z.to_nat oldfd)) as [o Eo]; [lia|]. rewrite Eo.
  assert (o = Some f) as -> by (rewrite <-Hj, Eo in Ho; done).
  destruct (Z.ltb_spec newfd (Z.of_nat (length t1))); [|lia]. eexists. split; [done|]. split.
  - rewrite fd_get_lookup by lia. cbn [files]. rewrite list_lookup_insert_eq; [done|lia].
  - intros j Hne. unfold fd_get. destruct (Z.ltb_spec j 0); [done|]. cbn [files].
    rewrite list_lookup_insert_ne; [apply Hj|lia].
Qed.

(** A target beyond every vector the heap can hold, [(-1) as usize] included. *)
Lemma fd_dup2_huge t oldfd newfd f : fd_get t oldfd = Some f →
  Z.of_nat (length (files t)) ≤ MAX_SLOTS → MAX_SLOTS ≤ newfd < 2^64 → fd_dup2 oldfd newfd t = Panic.
Proof.
  intros Ho Hl Hn. pose proof (fd_get_range _ _ _ Ho) as Hr. rewrite fd_get_lookup in Ho by lia.
  unfold fd_dup2, gets, bind. destruct (Z.leb_spec (Z.of_nat (length (files t))) oldfd); [lia|].
  rewrite bool_decide_eq_false_2 by congruence. cbn [orb].
  destruct (Z.leb_spec (Z.of_nat (length (files t))) newfd); [|lia].
  unfold vec_resize, HEAP_SIZE, SLOT_SIZE. unfold MAX_SLOTS in *. destruct (decide (newfd = 2^64 - 1)) as [->|].
  - change ((2^64 - 1) +w 1) with 0. done.
  - rewrite wrap64_small by (unfold in_usize; lia).
    destruct (Z.ltb_spec 0x1000000 ((newfd + 1) * 40)); [done|lia].
Qed.


