(* ===== verification/Fs.v ===== *)
(** * The RAM file system of [fs.rs]

    [FS] maps paths to files, [INODE_MAP] inode numbers to paths and
    [NEXT_INODE] is the next number to hand out. The file holds every operation
    of [fs.rs], the invariant that ties the three together, the behaviour of
    reads, writes and look-ups on every branch, and the directory listing with
    the [linux_dirent64] records it encodes. *)

From S2P Require Import Prelude Machine FdTable.

Open Scope string_scope.
Open Scope list_scope.
Open Scope Z_scope.

(** The bytes of a string literal. *)
Definition bytes_of (s : string) : list Z :=
  (λ a, Z.of_N (Ascii.N_of_ascii a)) <$> String.list_ascii_of_string s.

(** The string that holds given bytes. *)
Definition string_of (l : list Z) : string :=
  String.string_of_list_ascii ((λ b, Ascii.ascii_of_N (Z.to_N b)) <$> l).

(** ** Files *)

Inductive FileContents :=
  | Static (s : list Z)
  | Dynamic (v : list Z).

Record File := MkFile { data : FileContents }.

Definition as_slice (f : File) : list Z :=
  match data f with Static s => s | Dynamic v => v end.
Definition file_len (f : File) : Z :=
  match data f with Static s => Z.of_nat (length s) | Dynamic v => Z.of_nat (length v) end.
Definition as_mut_vec (f : File) : option (list Z) :=
  match data f with Static _ => None | Dynamic v => Some v end.

Record Fs := MkFs {
  fs_files : gmap string File;
  next_inode : Z;
  inode_map : gmap Z string
}.

(** The statics before [init]. *)
Definition fs_empty : Fs := MkFs ∅ 1 ∅.

Definition set_file (path : string) (f : File) (s : Fs) : Fs :=
  MkFs (<[path := f]> (fs_files s)) (next_inode s) (inode_map s).

(** ** Operations *)

Definition add_file (path : string) (f : File) (s : Fs) : Fs :=
  MkFs (<[path := f]> (fs_files s)) (next_inode s +w 1) (<[next_inode s := path]> (inode_map s)).

Definition create_file_static (path : string) (d : list Z) : M Fs unit :=
  modify (add_file path (MkFile (Static d))).

Definition create_file_dynamic (path : string) (d : list Z) : M Fs unit :=
  modify (add_file path (MkFile (Dynamic d))).

Definition mkdir (path : string) : M Fs unit := create_file_static path [].

Definition lookup (path : string) : M Fs (option Z) :=
  gets (λ s, fst <$> bt_find (λ _ p, bool_decide (p = path)) (inode_map s)).

(** The file an inode number names. *)
Definition inode_file (s : Fs) (inode : Z) : option File :=
  path ← inode_map s !! inode; fs_files s !! path.

(** [&data[a..b]]. *)
Definition slice {S} (d : list Z) (a b : Z) : M S (list Z) :=
  if (a <=? b) && (b <=? Z.of_nat (length d))
  then ret (take (Z.to_nat (b - a)) (drop (Z.to_nat a) d)) else panic.

(** [v[a..b].copy_from_slice(buf)]. *)
Definition copy_from_slice {S} (v : list Z) (a b : Z) (buf : list Z) : M S (list Z) :=
  if (a <=? b) && (b <=? Z.of_nat (length v)) && (Z.of_nat (length buf) =? b - a)
  then ret (take (Z.to_nat a) v ++ buf ++ drop (Z.to_nat b) v) else panic.

(** [read_inode] with a buffer of [buf_len] bytes; the result lists the bytes
    stored at the start of the buffer, as many as the call returns. *)
Definition read_inode (inode buf_len offset : Z) : M Fs (list Z) :=
  let! s := gets id in
  match inode_map s !! inode with
  | Some path =>
      match fs_files s !! path with
      | Some file =>
          let d := as_slice file in
          let len := Z.of_nat (length d) in
          let to_read := Z.min (len - Z.min offset len) buf_len in
          slice d offset (offset +w to_read)
      | None => ret []
      end
  | None => ret []
  end.

Definition write_inode (inode : Z) (buf : list Z) (offset : Z) : M Fs Z :=
  let! s := gets id in
  match inode_map s !! inode with
  | Some path =>
      match fs_files s !! path with
      | Some file =>
          match as_mut_vec file with
          | Some vec =>
              let n := Z.of_nat (length buf) in
              let! vec1 := (if Z.of_nat (length vec) <? offset +w n
                            then vec_resize 1 vec (offset +w n) 0 else ret vec) in
              let! vec2 := copy_from_slice vec1 offset (offset +w n) buf in
              do! modify (set_file path (MkFile (Dynamic vec2))) in
              ret n
          | None => ret 0
          end
      | None => ret 0
      end
  | None => ret 0
  end.

Definition file_size (inode : Z) : M Fs Z :=
  gets (λ s,
    match inode_map s !! inode with
    | Some path => match fs_files s !! path with Some file => file_len file | None => 0 end
    | None => 0
    end).

Definition is_dir (path : string) : M Fs bool :=
  gets (λ s, match fs_files s !! path with Some f => file_len f =? 0 | None => false end).

Definition get_file_data (path : string) : M Fs (option (list Z)) :=
  gets (λ s,
    match fs_files s !! path with
    | Some f => match data f with Static d => Some d | Dynamic _ => None end
    | None => None
    end).

(** The texts [init] stores. *)
Definition config : list Z := bytes_of "
daemon off;
worker_processes 1;
error_log /tmp/nginx_install/logs/error.log;
pid /tmp/nginx_install/logs/nginx.pid;
events {
    worker_connections 1024;
}
http {
    server {
        listen 80;
        connection_pool_size 1024;
        server_name localhost;
        location / {
            root /tmp/nginx_install/html;
            index index.html;
        }
    }
}
".

Definition html : list Z := bytes_of "<html><body><h1>Hello from RVOS nginx!</h1></body></html>".

Definition local_config : list Z := bytes_of "
daemon off;
user root root;
worker_processes 1;
error_log /usr/local/nginx/logs/error.log;
pid /usr/local/nginx/logs/nginx.pid;
events {
    worker_connections 1024;
}
http {
    server {
        listen 80;
        connection_pool_size 1024;
        server_name localhost;
        location / {
            root /usr/local/nginx/html;
            index index.html;
        }
    }
}
".

(** [fs::init]; the embedded binaries are its arguments. *)
Definition fs_init (nginx_bin test_bin busybox nss_so : list Z) : M Fs unit :=
  do! mkdir "/" in
  do! mkdir "/etc" in
  do! mkdir "/etc/nginx" in
  do! mkdir "/var" in
  do! mkdir "/var/log" in
  do! mkdir "/var/log/nginx" in
  do! mkdir "/usr" in
  do! mkdir "/usr/share" in
  do! mkdir "/usr/share/nginx" in
  do! mkdir "/usr/share/nginx/html" in
  do! mkdir "/usr/lib" in
  do! mkdir "/usr/lib/riscv64-linux-gnu" in
  do! mkdir "/usr/lib/riscv64-linux-gnu/tls" in
  do! mkdir "/usr/lib/tls" in
  do! mkdir "/lib" in
  do! mkdir "/lib/riscv64-linux-gnu" in
  do! mkdir "/lib/riscv64-linux-gnu/tls" in
  do! mkdir "/lib/tls" in
  do! mkdir "/tmp" in
  do! mkdir "/tmp/nginx_install" in
  do! mkdir "/tmp/nginx_install/logs" in
  do! mkdir "/tmp/nginx_install/conf" in
  do! mkdir "/tmp/nginx_install/html" in
  do! mkdir "/sbin" in
  do! mkdir "/sys" in
  do! mkdir "/sys/devices" in
  do! mkdir "/sys/devices/system" in
  do! mkdir "/sys/devices/system/cpu" in
  do! mkdir "/proc" in
  do! create_file_static "/sbin/nginx" nginx_bin in
  do! create_file_static "/test_malloc" test_bin in
  do! mkdir "/bin" in
  do! create_file_static "/bin/busybox" busybox in
  do! create_file_static "/bin/sh" busybox in
  do! create_file_static "/bin/ls" busybox in
  do! create_file_static "/bin/cat" busybox in
  do! create_file_static "/bin/echo" busybox in
  do! create_file_static "/bin/pwd" busybox in
  do! create_file_static "/bin/mkdir" busybox in
  do! create_file_static "/bin/ps" busybox in
  do! create_file_static "/etc/nginx/nginx.conf" config in
  do! create_file_static "/tmp/nginx_install/conf/nginx.conf" config in
  do! create_file_static "/usr/share/nginx/html/index.html" html in
  do! create_file_static "/tmp/nginx_install/html/index.html" html in
  do! create_file_dynamic "/var/log/nginx/error.log" [] in
  do! create_file_dynamic "/var/log/nginx/access.log" [] in
  do! create_file_dynamic "/tmp/nginx_install/logs/error.log" [] in
  do! create_file_dynamic "/tmp/nginx_install/logs/access.log" [] in
  do! mkdir "/usr/local" in
  do! mkdir "/usr/local/nginx" in
  do! mkdir "/usr/local/nginx/conf" in
  do! mkdir "/usr/local/nginx/logs" in
  do! mkdir "/usr/local/nginx/html" in
  do! create_file_static "/usr/local/nginx/conf/nginx.conf" local_config in
  do! create_file_dynamic "/usr/local/nginx/logs/error.log" [] in
  do! create_file_dynamic "/usr/local/nginx/logs/access.log" [] in
  do! create_file_dynamic "/usr/local/nginx/logs/nginx.pid" [] in
  do! create_file_static "/usr/local/nginx/html/index.html" html in
  do! create_file_static "/sys/devices/system/cpu/online" (bytes_of "0-0
") in
  do! create_file_static "/proc/stat" (bytes_of "cpu  0 0 0 0 0 0 0 0 0 0
") in
  do! create_file_static "/proc/cpuinfo" (bytes_of "processor	: 0
") in
  do! create_file_static "/etc/localtime" [] in
  do! create_file_static "/etc/nsswitch.conf" (bytes_of "passwd: files
") in
  do! create_file_static "/etc/passwd" (bytes_of "root:x:0:0:root:/root:/bin/sh
") in
  do! create_file_static "/etc/group" (bytes_of "root:x:0:
") in
  do! create_file_static "/lib/riscv64-linux-gnu/libnss_files.so.2" nss_so in
  do! create_file_static "/lib/riscv64-linux-gnu/tls/libnss_files.so.2" nss_so in
  do! create_file_static "/usr/lib/riscv64-linux-gnu/libnss_files.so.2" nss_so in
  do! create_file_static "/usr/lib/riscv64-linux-gnu/tls/libnss_files.so.2" nss_so in
  do! create_file_static "/lib/libnss_files.so.2" nss_so in
  do! create_file_static "/lib/tls/libnss_files.so.2" nss_so in
  do! create_file_static "/usr/lib/libnss_files.so.2" nss_so in
  do! create_file_static "/usr/lib/tls/libnss_files.so.2" nss_so in
  ret tt.

(** ** Directories *)

Record dirent := Dirent { d_name : string; d_ino : Z; d_type : Z }.

(** [path_str.starts_with(prefix)] with the remainder of [path_str]. *)
Fixpoint strip_prefix (prefix s : string) : option string :=
  match prefix, s with
  | EmptyString, _ => Some s
  | String a p, String b t => if decide (a = b) then strip_prefix p t else None
  | String _ _, EmptyString => None
  end.

Definition slash : Ascii.ascii := Ascii.ascii_of_nat 47.

(** [&remainder[..pos]] up to the first slash, all of it without one. *)
Fixpoint first_component (s : string) : string :=
  match s with
  | EmptyString => EmptyString
  | String a t => if decide (a = slash) then EmptyString else String a (first_component t)
  end.

Definition dir_prefix (dir_path : string) : string :=
  if decide (dir_path = "/") then "/" else String.append dir_path "/".

(** The inode number recorded in an entry. *)
Definition entry_inode (im : gmap Z string) (path : string) : Z :=
  match bt_find (λ _ p, bool_decide (p = path)) im with Some (i, _) => i | None => 0 end.

(** The loop over [fs.iter()]. *)
Fixpoint scan (im : gmap Z string) (prefix : string) (seen : gset string)
    (l : list (string * File)) : list dirent :=
  match l with
  | [] => []
  | (path, file) :: l' =>
      match strip_prefix prefix path with
      | None | Some EmptyString => scan im prefix seen l'
      | Some remainder =>
          let name := first_component remainder in
          if decide (name ∈ seen) then scan im prefix seen l'
          else Dirent name (entry_inode im path) (if file_len file =? 0 then 4 else 8)
               :: scan im prefix ({[name]} ∪ seen) l'
      end
  end.

Definition dir_entries (s : Fs) (inode : Z) (dir_path : string) : list dirent :=
  Dirent "." inode 4 :: Dirent ".." inode 4 ::
  scan (inode_map s) (dir_prefix dir_path) {["."; ".."]} (bt_iter (fs_files s)).

Definition reclen_of (e : dirent) : Z :=
  Z.land (19 + (Z.of_nat (String.length (d_name e)) + 1) + 7) (not64 7).

(** One [linux_dirent64] record; [idx] is the position of the entry. *)
Definition encode_dirent (idx : Z) (e : dirent) : list Z :=
  let name_bytes := bytes_of (d_name e) in
  let name_len := Z.of_nat (length name_bytes) + 1 in
  le_bytes 8 (d_ino e) ++ le_bytes 8 (idx + 1) ++ le_bytes 2 (u16 (reclen_of e)) ++ [d_type e] ++
  name_bytes ++ [0] ++ replicate (Z.to_nat (reclen_of e - (19 + name_len))) 0.

(** The loop that fills the buffer: the bytes written and the entries. *)
Fixpoint emit (buf_len buf_off idx : Z) (l : list dirent) : list Z * Z :=
  match l with
  | [] => ([], 0)
  | e :: l' =>
      if buf_len <? buf_off +w reclen_of e then ([], 0)
      else
        let '(bs, n) := emit buf_len (buf_off + reclen_of e) (idx + 1) l' in
        (encode_dirent idx e ++ bs, n + 1)
  end.

(** [read_dir]: the bytes at the start of the buffer and the next offset. *)
Definition read_dir (s : Fs) (inode buf_len offset : Z) : list Z * Z :=
  match inode_map s !! inode with
  | None => ([], offset)
  | Some dir_path =>
      match fs_files s !! dir_path with
      | None => ([], offset)
      | Some f =>
          if negb (file_len f =? 0) then ([], offset)
          else
            let entries := dir_entries s inode dir_path in
            if Z.of_nat (length entries) <=? offset then ([], offset)
            else
              let '(bs, n) := emit buf_len 0 offset (drop (Z.to_nat offset) entries) in
              (bs, offset + n)
      end
  end.

(** ** The invariant of the three tables *)

Lemma length_bytes_of s : length (bytes_of s) = String.length s.
Proof. unfold bytes_of. rewrite length_fmap. induction s as [|a s IH]; cbn; [done|]. by rewrite IH. Qed.

Record fs_ok (s : Fs) : Prop := {
  fo_next : 1 ≤ next_inode s;
  fo_range : ∀ i p, inode_map s !! i = Some p → 1 ≤ i < next_inode s;
  fo_path : ∀ i p, inode_map s !! i = Some p → is_Some (fs_files s !! p);
  fo_inode : ∀ p, is_Some (fs_files s !! p) → ∃ i, inode_map s !! i = Some p
}.

Lemma fs_ok_empty : fs_ok fs_empty.
Proof. split; cbn; [lia|..]; intros *; rewrite lookup_empty; [done..|]. by intros [? ?]. Qed.

Lemma add_file_ok path f s : fs_ok s → next_inode s < 2^64 - 1 → fs_ok (add_file path f s).
Proof.
  intros [H1 H2 H3 H4] Hn. unfold add_file. rewrite wrap64_small by (unfold in_usize; lia).
  split; cbn; [lia|..].
  - intros i p. rewrite lookup_insert. case_decide; [intros [= <-]; lia|]. intros ?%H2. lia.
  - intros i p. rewrite !lookup_insert. case_decide; [intros [= <-]; rewrite decide_True; done|].
    case_decide; [done|]. apply H3.
  - intros p. rewrite lookup_insert. case_decide as E.
    + intros _. exists (next_inode s). subst. by rewrite lookup_insert, decide_True.
    + intros [i Hi]%H4. exists i. pose proof (H2 _ _ Hi). by rewrite lookup_insert_ne by lia.
Qed.

Lemma set_file_ok path f s : fs_ok s → is_Some (fs_files s !! path) → fs_ok (set_file path f s).
Proof.
  intros [H1 H2 H3 H4] Hp. split; cbn; [done|done|..].
  - intros i p Hi. rewrite lookup_insert. case_decide; [done|by eapply H3].
  - intros p. rewrite lookup_insert. case_decide; [subst; intros _; by apply H4|apply H4].
Qed.

(** ** Look-up *)

Lemma lookup_Some s path i : lookup path s = Ret (Some i, s) ↔
  inode_map s !! i = Some path ∧ ∀ j, inode_map s !! j = Some path → i ≤ j.
Proof.
  unfold lookup, gets. destruct (bt_find _ _) as [[k p]|] eqn:E; cbn.
  - apply bt_find_Some in E as (Hk & Hp%bool_decide_eq_true & Hmin). subst p. split.
    + intros [= <-]. split; [done|]. intros j Hj. apply (Hmin j path Hj). by rewrite bool_decide_eq_true.
    + intros [Hi Hle]. do 3 f_equal. apply Z.le_antisymm.
      * apply (Hmin i path Hi). by rewrite bool_decide_eq_true.
      * by apply Hle.
  - split; [done|]. intros [Hi _]. apply (proj1 (bt_find_None _ _) E) in Hi.
    by rewrite bool_decide_eq_false in Hi.
Qed.

Lemma lookup_None s path : fs_ok s → lookup path s = Ret (None, s) ↔ fs_files s !! path = None.
Proof.
  intros Hok. unfold lookup, gets. destruct (bt_find _ _) as [[k p]|] eqn:E; cbn.
  - apply bt_find_Some in E as (Hk & Hp%bool_decide_eq_true & _). subst p.
    destruct (fo_path s Hok _ _ Hk) as [f Hf]. split; [done|]. congruence.
  - split; [|done]. intros _. destruct (fs_files s !! path) eqn:Hf; [|done].
    destruct (fo_inode s Hok path) as [i Hi]; [eauto|].
    apply (proj1 (bt_find_None _ _) E) in Hi. by rewrite bool_decide_eq_false in Hi.
Qed.

Lemma inode_file_Some s i f : inode_file s i = Some f ↔
  ∃ path, inode_map s !! i = Some path ∧ fs_files s !! path = Some f.
Proof. apply bind_Some. Qed.

(** An inode number that [lookup] returns names a file. *)
Lemma lookup_file s path i : fs_ok s → lookup path s = Ret (Some i, s) →
  ∃ f, fs_files s !! path = Some f ∧ inode_file s i = Some f.
Proof.
  intros Hok [Hi _]%lookup_Some. destruct (fo_path s Hok _ _ Hi) as [f Hf].
  exists f. split; [done|]. apply inode_file_Some. eauto.
Qed.

(** ** Reading *)

Lemma file_len_slice f : file_len f = Z.of_nat (length (as_slice f)).
Proof. unfold file_len, as_slice. by destruct (data f). Qed.

Lemma slice_ok {S} d a n (s : S) : 0 ≤ a → 0 ≤ n → a + n ≤ Z.of_nat (length d) →
  slice d a (a + n) s = Ret (take (Z.to_nat n) (drop (Z.to_nat a) d), s).
Proof.
  intros. unfold slice. destruct (Z.leb_spec a (a + n)), (Z.leb_spec (a + n) (Z.of_nat (length d))); try lia.
  cbn [andb]. by rewrite Z.add_simpl_l.
Qed.

Lemma read_inode_run s inode f buf_len offset : inode_file s inode = Some f →
  file_len f < 2^64 → 0 ≤ buf_len → 0 ≤ offset ≤ file_len f →
  read_inode inode buf_len offset s = Ret (take (Z.to_nat buf_len) (drop (Z.to_nat offset) (as_slice f)), s).
Proof.
  intros (path & Hi & Hp)%inode_file_Some Hl Hb Ho. rewrite file_len_slice in *.
  unfold read_inode, gets, bind, id. rewrite Hi, Hp.
  rewrite (Z.min_l offset) by lia. rewrite wrap64_small by (unfold in_usize; lia).
  rewrite slice_ok by lia. do 2 f_equal.
  destruct (Z.le_ge_cases buf_len (Z.of_nat (length (as_slice f)) - offset)).
  - by rewrite Z.min_r.
  - rewrite Z.min_l, !take_ge; [done|..]; rewrite ?length_drop; lia.
Qed.

Lemma read_inode_past s inode f buf_len offset : inode_file s inode = Some f →
  0 ≤ buf_len → file_len f < offset < 2^64 → read_inode inode buf_len offset s = Panic.
Proof.
  intros (path & Hi & Hp)%inode_file_Some Hb Ho. rewrite file_len_slice in *.
  unfold read_inode, gets, bind, id. rewrite Hi, Hp.
  rewrite (Z.min_r offset) by lia. rewrite Z.sub_diag, Z.min_l by lia.
  rewrite Z.add_0_r, wrap64_small by (unfold in_usize; lia).
  unfold slice. destruct (Z.leb_spec offset (Z.of_nat (length (as_slice f)))); [lia|].
  by rewrite andb_false_r.
Qed.

Lemma read_inode_none s inode buf_len offset : inode_file s inode = None →
  read_inode inode buf_len offset s = Ret ([], s).
Proof.
  unfold inode_file, read_inode, gets, bind, id. destruct (inode_map s !! inode) as [p|]; [|done].
  cbn. by intros ->.
Qed.

(** ** Writing *)

(** The contents after [buf] is stored at [off]; a gap is filled with zeros. *)
Definition splice (d : list Z) (off : nat) (buf : list Z) : list Z :=
  take off (d ++ replicate (off - length d) 0) ++ buf ++ drop (off + length buf) d.

Lemma length_splice d off buf : length (splice d off buf) = Nat.max (length d) (off + length buf).
Proof.
  unfold splice. rewrite !length_app, length_take, length_app, length_replicate, length_drop. lia.
Qed.

Lemma splice_written d off buf : take (length buf) (drop off (splice d off buf)) = buf.
Proof.
  unfold splice.
  assert (length (take off (d ++ replicate (off - length d) 0)) = off) as Hl.
  { rewrite length_take, length_app, length_replicate. lia. }
  rewrite drop_app_length' by done. by rewrite take_app_length.
Qed.

Lemma splice_outside d off buf i : (i < off ∨ off + length buf ≤ i)%nat →
  splice d off buf !! i =
    if decide (i < length d)%nat then d !! i else if decide (i < off)%nat then Some 0 else None.
Proof.
  unfold splice. intros Hi.
  assert (length (take off (d ++ replicate (off - length d) 0)) = off) as Hl.
  { rewrite length_take, length_app, length_replicate. lia. }
  destruct (decide (i < off)%nat) as [Ho|Ho].
  - rewrite lookup_app_l by lia. rewrite lookup_take_lt by done. case_decide.
    + by rewrite lookup_app_l.
    + rewrite lookup_app_r by lia. rewrite lookup_replicate_2; [done|lia].
  - rewrite lookup_app_r by lia. rewrite Hl, lookup_app_r by lia. rewrite lookup_drop.
    replace (off + length buf + (i - off - length buf))%nat with i by lia.
    case_decide; [done|]. apply lookup_ge_None_2. lia.
Qed.

Lemma write_inode_run s inode path v buf offset :
  inode_map s !! inode = Some path → fs_files s !! path = Some (MkFile (Dynamic v)) →
  0 ≤ offset → offset + Z.of_nat (length buf) ≤ HEAP_SIZE →
  write_inode inode buf offset s =
    Ret (Z.of_nat (length buf), set_file path (MkFile (Dynamic (splice v (Z.to_nat offset) buf))) s).
Proof.
  intros Hi Hp Ho Hn. unfold write_inode, gets, bind, id. rewrite Hi, Hp. cbn [as_mut_vec data].
  unfold HEAP_SIZE in Hn. rewrite wrap64_small by (unfold in_usize; lia).
  set (n := Z.of_nat (length buf)) in *.
  assert (∃ v1, (if Z.of_nat (length v) <? offset + n then vec_resize 1 v (offset + n) 0 else ret v) s = Ret (v1, s) ∧
    offset + n ≤ Z.of_nat (length v1) ∧
    take (Z.to_nat offset) v1 ++ buf ++ drop (Z.to_nat (offset + n)) v1 = splice v (Z.to_nat offset) buf)
    as (v1 & -> & Hl & Hv).
  { unfold splice. destruct (Z.ltb_spec (Z.of_nat (length v)) (offset + n)).
    - unfold vec_resize. rewrite Z.mul_1_r. destruct (Z.ltb_spec HEAP_SIZE (offset + n)); [unfold HEAP_SIZE in *; lia|].
      eexists. split; [done|]. rewrite (take_ge v) by lia. rewrite length_app, length_replicate.
      split; [lia|]. f_equal; [|f_equal].
      + destruct (decide (length v ≤ Z.to_nat offset)%nat).
        * rewrite !take_app_ge by lia. f_equal. rewrite !take_replicate. f_equal. lia.
        * by rewrite !take_app_le by lia.
      + rewrite !drop_ge; [done|lia|]. rewrite length_app, length_replicate. lia.
    - exists v. split; [done|]. split; [lia|]. f_equal; [|f_equal].
      + by rewrite take_app_le by lia.
      + f_equal. lia. }
  unfold copy_from_slice. destruct (Z.leb_spec offset (offset + n)); [|lia].
  destruct (Z.leb_spec (offset + n) (Z.of_nat (length v1))); [|lia].
  rewrite (proj2 (Z.eqb_eq _ _)) by lia. cbn [andb]. unfold ret. by rewrite Hv.
Qed.

Lemma write_inode_static s inode f buf offset d :
  inode_file s inode = Some f → data f = Static d → write_inode inode buf offset s = Ret (0, s).
Proof.
  intros (path & Hi & Hp)%inode_file_Some Hd. unfold write_inode, gets, bind, id. rewrite Hi, Hp.
  unfold as_mut_vec. by rewrite Hd.
Qed.

Lemma write_inode_none s inode buf offset : inode_file s inode = None → write_inode inode buf offset s = Ret (0, s).
Proof.
  unfold inode_file, write_inode, gets, bind, id. destruct (inode_map s !! inode) as [p|]; [|done].
  cbn. by intros ->.
Qed.

(** A write that would end beyond the heap. *)
Lemma write_inode_huge s inode path v buf offset :
  inode_map s !! inode = Some path → fs_files s !! path = Some (MkFile (Dynamic v)) →
  Z.of_nat (length v) ≤ HEAP_SIZE → Z.of_nat (length buf) ≤ HEAP_SIZE → HEAP_SIZE < offset < 2^64 →
  write_inode inode buf offset s = Panic.
Proof.
  intros Hi Hp Hv Hb Ho. unfold HEAP_SIZE in Hv, Hb, Ho.
  unfold write_inode, gets, bind, id. rewrite Hi, Hp. cbn [as_mut_vec data].
  set (n := Z.of_nat (length buf)) in *. destruct (decide (offset + n < 2^64)).
  - rewrite wrap64_small by (unfold in_usize; lia). destruct (Z.ltb_spec (Z.of_nat (length v)) (offset + n)); [|lia].
    unfold vec_resize. rewrite Z.mul_1_r. destruct (Z.ltb_spec HEAP_SIZE (offset + n)); [done|unfold HEAP_SIZE in *; lia].
  - assert (offset +w n = offset + n - 2^64) as ->.
    { unfold wrap64. symmetry. apply (Z.mod_unique_pos _ _ 1); lia. }
    assert (∀ v1 : list Z, copy_from_slice v1 offset (offset + n - 2^64) buf s = Panic) as Hc.
    { intros v1. unfold copy_from_slice. destruct (Z.leb_spec offset (offset + n - 2^64)); [lia|done]. }
    destruct (_ <? _); [unfold vec_resize; destruct (_ <? _); [done|]|]; unfold ret; by rewrite Hc.
Qed.

Lemma write_inode_cases s inode buf offset :
  match write_inode inode buf offset s with
  | Ret (_, s') => s' = s ∨ ∃ path f, is_Some (fs_files s !! path) ∧ s' = set_file path f s
  | Panic => True
  | _ => False
  end.
Proof.
  unfold write_inode, gets, bind, id, copy_from_slice, vec_resize, ret, panic, modify.
  repeat case_match; simplify_eq; eauto 10.
Qed.

Lemma write_inode_ok s inode buf offset : fs_ok s →
  match write_inode inode buf offset s with Ret (_, s') => fs_ok s' | _ => True end.
Proof.
  intros Hok. pose proof (write_inode_cases s inode buf offset) as H.
  destruct (write_inode inode buf offset s) as [[n s']| | |]; try done.
  destruct H as [-> | (path & f & Hp & ->)]; [done|by apply set_file_ok].
Qed.

(** ** The file system after boot *)

(** [k] files have been created, from inode 1 on. *)
Definition created (k : Z) (s : Fs) : Prop := fs_ok s ∧ next_inode s = k.

Lemma wp_add_file path f k s : created k s → k < 2^64 - 1 →
  wp (modify (add_file path f)) s (λ _ s', created (k + 1) s').
Proof.
  intros [Hok Hk] Hlt. apply wp_modify. split; [apply add_file_ok; [done|lia]|].
  cbn [add_file next_inode]. apply fo_next in Hok. rewrite Hk, wrap64_small; [done|unfold in_usize; lia].
Qed.

Lemma fs_init_created nginx_bin test_bin busybox nss_so :
  wp (fs_init nginx_bin test_bin busybox nss_so) fs_empty (λ _ s, created 74 s).
Proof.
  assert (created 1 fs_empty) as H by (split; [apply fs_ok_empty|done]). revert H.
  generalize fs_empty as s. intros s H. unfold fs_init.
  repeat (apply wp_bind; eapply wp_mono; [apply wp_add_file; [exact H|done]|]; cbn beta; clear H; clear s; intros _ s H).
  apply wp_ret. exact H.
Qed.

Definition boot_fs (nginx_bin test_bin busybox nss_so : list Z) : Fs :=
  match fs_init nginx_bin test_bin busybox nss_so fs_empty with Ret (_, s) => s | _ => fs_empty end.

Lemma fs_init_run nginx_bin test_bin busybox nss_so :
  fs_init nginx_bin test_bin busybox nss_so fs_empty = Ret (tt, boot_fs nginx_bin test_bin busybox nss_so).
Proof.
  unfold boot_fs. destruct (wp_run _ _ _ (fs_init_created nginx_bin test_bin busybox nss_so)) as ([] & s & E & _).
  by rewrite E.
Qed.

Lemma boot_fs_sh nginx_bin test_bin busybox nss_so : let s := boot_fs nginx_bin test_bin busybox nss_so in
  get_file_data "/bin/sh" s = Ret (Some busybox, s).
Proof. intros s. unfold get_file_data, gets. apply f_equal, (f_equal (λ o, (o, s))). vm_compute. reflexivity. Qed.

Lemma inode_map_inj (im : gmap Z string) i j path : NoDup (map_to_list im).*2 →
  im !! i = Some path → im !! j = Some path → i = j.
Proof.
  intros Hnd Hi%elem_of_map_to_list Hj%elem_of_map_to_list.
  apply list_elem_of_lookup in Hi as [a Ha], Hj as [b Hb].
  assert (a = b) as ->; [|by simplify_eq].
  eapply (NoDup_lookup _ a b path Hnd); rewrite list_lookup_fmap; [by rewrite Ha|by rewrite Hb].
Qed.

(** One operation on the file system. A creation needs a free inode number. *)
Inductive fs_step (s s' : Fs) : Prop :=
  | step_static path d : next_inode s < 2^64 - 1 → create_file_static path d s = Ret (tt, s') → fs_step s s'
  | step_dynamic path d : next_inode s < 2^64 - 1 → create_file_dynamic path d s = Ret (tt, s') → fs_step s s'
  | step_mkdir path : next_inode s < 2^64 - 1 → mkdir path s = Ret (tt, s') → fs_step s s'
  | step_write inode buf offset n : write_inode inode buf offset s = Ret (n, s') → fs_step s s'.

Lemma fs_step_ok s s' : fs_ok s → fs_step s s' → fs_ok s'.
Proof.
  intros Hok Hs. destruct Hs as [path d Hn E|path d Hn E|path Hn E|inode buf offset n E].
  1-3: injection E as <-; by apply add_file_ok.
  pose proof (write_inode_ok s inode buf offset Hok) as H. by rewrite E in H.
Qed.

(** ** Properties *)

(** C10: the file system is well formed in every reachable state. [fs::init]
    does not panic, whatever the embedded binaries are, and after it and any
    sequence of creations and writes every inode number that is in use lies
    below the next one and names an existing file, and every file has an
    inode. *)
Theorem fs_reachable_ok nginx_bin test_bin busybox nss_so :
  wp (fs_init nginx_bin test_bin busybox nss_so) fs_empty (λ _ s0,
    ∀ s, rtc fs_step s0 s → fs_ok s).
Proof.
  eapply wp_mono; [apply fs_init_created|]. intros _ s0 [Hok _] s Hs. cbn beta.
  induction Hs as [|s1 s2 s3 Hstep _ IH]; [done|]. by apply IH, (fs_step_ok s1).
Qed.

(** What [fs::init] installs. The programs are found under their paths:
    [/sbin/nginx], [/test_malloc], and the BusyBox image under each of its
    applet names; no path has two inode numbers; the log files can be
    written. *)
Lemma fs_init_files nginx_bin test_bin busybox nss_so :
  wp (fs_init nginx_bin test_bin busybox nss_so) fs_empty (λ _ s,
    get_file_data "/sbin/nginx" s = Ret (Some nginx_bin, s) ∧
    get_file_data "/test_malloc" s = Ret (Some test_bin, s) ∧
    Forall (λ path, get_file_data path s = Ret (Some busybox, s))
      ["/bin/busybox"; "/bin/sh"; "/bin/ls"; "/bin/cat"; "/bin/echo"; "/bin/pwd"; "/bin/mkdir"; "/bin/ps"] ∧
    Forall (λ path, as_mut_vec <$> fs_files s !! path = Some (Some []))
      ["/var/log/nginx/error.log"; "/var/log/nginx/access.log"; "/usr/local/nginx/logs/nginx.pid"] ∧
    (∀ i j path, inode_map s !! i = Some path → inode_map s !! j = Some path → i = j)).
Proof.
  eapply wp_of_run; [apply fs_init_run|]. set (s := boot_fs nginx_bin test_bin busybox nss_so).
  assert (NoDup (map_to_list (inode_map s)).*2) as Hnd by (refine (bool_decide_unpack _ _); vm_compute; exact I).
  unfold get_file_data, gets. split_and!; [| | | |intros i j path; by apply inode_map_inj].
  1-2: apply f_equal, (f_equal (λ o, (o, s))); vm_compute; reflexivity.
  - repeat constructor; apply f_equal, (f_equal (λ o, (o, s))); vm_compute; reflexivity.
  - repeat constructor; vm_compute; reflexivity.
Qed.

(** C35: [lookup] decides existence. On a well-formed file system it returns the
    smallest inode number of the path, through which the path's file is
    reached, and [None] exactly when there is no such file; the file system is
    not changed. *)
Theorem lookup_correct path s : fs_ok s →
  wp (lookup path) s (λ o s', s' = s ∧
    match o with
    | Some i => is_Some (fs_files s !! path) ∧ inode_file s i = fs_files s !! path ∧
                ∀ j, inode_map s !! j = Some path → i ≤ j
    | None => fs_files s !! path = None
    end).
Proof.
  intros Hok. destruct (lookup path s) as [[o s']| | |] eqn:E; try done.
  assert (s' = s) as -> by (by injection E). unfold wp. rewrite E. split; [done|]. destruct o as [i|].
  - destruct (lookup_file s path i Hok E) as (f & Hf & Hi). rewrite Hf, Hi.
    apply lookup_Some in E as [_ Hle]. eauto.
  - by apply lookup_None in E.
Qed.

(** One file. *)
Definition one_file : Fs := add_file "/a" (MkFile (Dynamic [1; 2; 3])) fs_empty.
Lemma one_file_ok : fs_ok one_file.
Proof. apply add_file_ok; [apply fs_ok_empty|done]. Qed.

Lemma lookup_correct_witness :
  wp (lookup "/a") one_file (λ o s', s' = one_file ∧
    match o with
    | Some i => is_Some (fs_files one_file !! "/a") ∧ inode_file one_file i = fs_files one_file !! "/a" ∧
                ∀ j, inode_map one_file !! j = Some "/a" → i ≤ j
    | None => fs_files one_file !! "/a" = None
    end).
Proof. apply (lookup_correct "/a" one_file). apply one_file_ok. Defined.

(** C36: [read_inode] on every branch. Up to the end of the file it returns the
    bytes from the offset on, at most as many as the buffer holds, and changes
    nothing; an unknown inode reads as empty; an offset beyond the end of the
    file panics the kernel, although a read there is defined to return 0
    bytes. *)
Theorem read_inode_exact s inode buf_len offset : 0 ≤ buf_len → 0 ≤ offset < 2^64 →
  match inode_file s inode with
  | None => read_inode inode buf_len offset s = Ret ([], s)
  | Some f =>
      file_len f < 2^64 →
      read_inode inode buf_len offset s =
        if decide (offset ≤ file_len f)
        then Ret (take (Z.to_nat buf_len) (drop (Z.to_nat offset) (as_slice f)), s)
        else Panic
  end.
Proof.
  intros Hb Ho. destruct (inode_file s inode) as [f|] eqn:E; [|by apply read_inode_none].
  intros Hf. case_decide; [apply read_inode_run|eapply read_inode_past]; done || lia.
Qed.

Lemma read_inode_exact_witness : read_inode 1 10 4 one_file = Panic.
Proof. exact (read_inode_exact one_file 1 10 4 ltac:(lia) ltac:(lia) ltac:(done)). Defined.



