(* ===== verification/Dirs.v ===== *)
(** * Directory listings of [fs.rs]

    What [read_dir] reports: the entries of a directory are [.], [..] and the
    distinct first components below its prefix, each described by the child
    itself; the buffer holds well-formed [linux_dirent64] records; and a caller
    that repeats the call sees every entry once. *)

From S2P Require Import Prelude Machine FdTable Fs.

Open Scope string_scope.
Open Scope list_scope.
Open Scope Z_scope.

(** ** Paths *)

Local Notation "s +++ t" := (String.append s t) (at level 60, right associativity).

#[local] Arguments String.append _ _ : simpl nomatch.

Lemma strip_prefix_Some p s r : strip_prefix p s = Some r ↔ s = (p +++ r)%string.
Proof.
  revert s. induction p as [|a p IH]; intros [|b s]; cbn; try (split; congruence).
  case_decide as E; [subst; rewrite IH; split; congruence|]. split; congruence.
Qed.

Lemma first_component_app s : ∃ t, s = (first_component s +++ t)%string.
Proof.
  induction s as [|a s [t IH]]; cbn; [by exists EmptyString|].
  case_decide; [by eexists|]. exists t. cbn. by rewrite <-IH.
Qed.

Definition no_slash (s : string) : Prop := first_component s = s.

Lemma str_le_app s t : str_le s (s +++ t)%string.
Proof.
  unfold str_le. induction s as [|a s IH]; cbn; [done|]. by rewrite N.compare_refl.
Qed.

Lemma append_assoc s t u : ((s +++ t) +++ u)%string = (s +++ (t +++ u))%string.
Proof. induction s as [|a s IH]; cbn; [done|]. by rewrite IH. Qed.

(** The name under which a path shows up below [prefix]. *)
Definition child (prefix path : string) : option string :=
  match strip_prefix prefix path with
  | None | Some EmptyString => None
  | Some r => Some (first_component r)
  end.

Lemma child_below prefix path name : child prefix path = Some name →
  ∃ t, path = (prefix +++ (name +++ t))%string.
Proof.
  unfold child. destruct (strip_prefix prefix path) as [r|] eqn:E; [|done].
  apply strip_prefix_Some in E. destruct r as [|a r'] eqn:Er; [done|]. rewrite <-Er in *. intros [= <-].
  destruct (first_component_app r) as [t Ht]. exists t. by rewrite <-Ht.
Qed.

Lemma child_self prefix name : name ≠ EmptyString → no_slash name →
  child prefix (prefix +++ name)%string = Some name.
Proof.
  intros Hne Hns. unfold child. assert (strip_prefix prefix (prefix +++ name)%string = Some name) as ->
    by by apply strip_prefix_Some. destruct name; [done|]. by rewrite Hns.
Qed.

(** ** The scan *)

Definition entry_of (im : gmap Z string) (name path : string) (file : File) : dirent :=
  Dirent name (entry_inode im path) (if file_len file =? 0 then 4 else 8).

Lemma scan_cons im prefix seen path file l :
  scan im prefix seen ((path, file) :: l) =
    match child prefix path with
    | None => scan im prefix seen l
    | Some name =>
        if decide (name ∈ seen) then scan im prefix seen l
        else entry_of im name path file :: scan im prefix ({[name]} ∪ seen) l
    end.
Proof. cbn [scan]. unfold child, entry_of. by destruct (strip_prefix prefix path) as [[|a r]|]. Qed.

Lemma scan_names im prefix l : ∀ seen,
  NoDup (d_name <$> scan im prefix seen l) ∧
  ∀ name, name ∈ d_name <$> scan im prefix seen l ↔
    name ∉ seen ∧ ∃ path, path ∈ l.*1 ∧ child prefix path = Some name.
Proof.
  induction l as [|[path file] l IH]; intros seen.
  { cbn. split; [constructor|]. intros name. split; [by intros ?%elem_of_nil|]. by intros (_ & ? & ?%elem_of_nil & _). }
  rewrite scan_cons. destruct (child prefix path) as [n|] eqn:Ec; [case_decide as Hs|].
  - destruct (IH seen) as [IH1 IH2]. split; [done|]. intros name. rewrite IH2. cbn. set_solver.
  - destruct (IH ({[n]} ∪ seen)) as [IH1 IH2]. cbn. split.
    + constructor; [|done]. rewrite IH2. set_solver.
    + intros name. rewrite elem_of_cons, IH2. destruct (decide (name = n)) as [->|]; set_solver.
  - destruct (IH seen) as [IH1 IH2]. split; [done|]. intros name. rewrite IH2. cbn. set_solver.
Qed.

(** The first path of a name gives its entry. *)
Lemma scan_first im prefix l1 path file l2 name : ∀ seen,
  child prefix path = Some name → name ∉ seen →
  (∀ q, q ∈ l1.*1 → child prefix q ≠ Some name) →
  entry_of im name path file ∈ scan im prefix seen (l1 ++ (path, file) :: l2).
Proof.
  induction l1 as [|[q g] l1 IH]; intros seen Hc Hs Hq; cbn [app]; rewrite scan_cons.
  - rewrite Hc, decide_False by done. left.
  - assert (∀ q', q' ∈ l1.*1 → child prefix q' ≠ Some name) as Hq' by (cbn in Hq; set_solver).
    destruct (child prefix q) as [n|] eqn:En; [case_decide|]; [by apply IH| |by apply IH].
    right. apply IH; [done| |done].
    assert (n ≠ name) by (intros ->; by apply (Hq q); [left|]). set_solver.
Qed.

(** In path order the child itself comes before everything below it. *)
Lemma scan_child im (m : gmap string File) prefix seen name file :
  name ≠ EmptyString → no_slash name → name ∉ seen → m !! (prefix +++ name)%string = Some file →
  entry_of im name (prefix +++ name)%string file ∈ scan im prefix seen (bt_iter m).
Proof.
  intros Hne Hns Hs Hm. set (p := (prefix +++ name)%string) in *.
  apply elem_of_bt_iter in Hm. apply list_elem_of_lookup in Hm as [i Hi].
  pose proof (bt_iter_NoDup m) as Hnd. rewrite <-(take_drop_middle _ _ _ Hi).
  apply scan_first; [by apply child_self|done|].
  intros q Hq Hc. apply child_below in Hc as [t Ht].
  apply list_elem_of_fmap in Hq as ([q' g] & -> & Hq). cbn in Ht.
  apply list_elem_of_lookup in Hq as [j Hj]. apply lookup_take_Some in Hj as [Hj Hji].
  assert (str_le q' p) as H1 by exact (bt_iter_lookup_le m j i _ _ _ _ Hj Hi Hji).
  assert (str_le p q') as H2 by (subst q'; unfold p; rewrite <-append_assoc; apply str_le_app).
  assert (q' = p) as -> by by apply (anti_symm str_le).
  assert (j = i); [|lia]. eapply NoDup_lookup; [exact Hnd|..]; rewrite list_lookup_fmap.
  - by rewrite Hj. - by rewrite Hi.
Qed.

(** ** The entries of a directory *)


(** The entry of a direct child. If [dir/name] exists then the listing of
    [dir] has an entry [name] with the inode number that [lookup] gives for the
    path and with the type of that file (directories are the empty files). *)
Lemma dir_entry_correct s inode dir name file i :
  name ≠ EmptyString → no_slash name → name ≠ "." → name ≠ ".." →
  let path := (dir_prefix dir +++ name)%string in
  fs_files s !! path = Some file → lookup path s = Ret (Some i, s) →
  Dirent name i (if file_len file =? 0 then 4 else 8) ∈ dir_entries s inode dir.
Proof.
  intros Hne Hns Hd Hdd path Hf Hi. right. right.
  assert (entry_inode (inode_map s) path = i) as <-.
  { unfold lookup, gets in Hi. unfold entry_inode. destruct (bt_find _ _) as [[k p]|]; cbn in Hi; congruence. }
  apply (scan_child (inode_map s) (fs_files s)); [done|done|set_solver|done].
Qed.

(** ** Records *)

Definition name_ok (s : string) : Prop :=
  Forall (λ b, b ≠ 0) (bytes_of s) ∧ Z.of_nat (String.length s) < 2^16 - 27.
Definition entry_ok (e : dirent) : Prop :=
  name_ok (d_name e) ∧ 0 ≤ d_ino e < 2^64.

Lemma reclen_bounds e : Z.of_nat (String.length (d_name e)) < 2^16 - 27 →
  let n := Z.of_nat (String.length (d_name e)) in
  reclen_of e = 8 * ((n + 27) / 8) ∧ 20 + n ≤ reclen_of e ≤ 27 + n ∧ u16 (reclen_of e) = reclen_of e.
Proof.
  intros Hn n. fold n in Hn.
  assert (reclen_of e = 8 * ((n + 27) / 8)) as E.
  { unfold reclen_of. fold n. change (not64 7) with (not64 (2^3 - 1)).
    rewrite land_not64 by (unfold in_usize; lia). change (2^3) with 8. dlia. }
  rewrite E. split; [done|]. split; [dlia|]. unfold u16. apply Z.mod_small. change (2^16) with 65536 in *. dlia.
Qed.

Lemma length_encode idx e : Z.of_nat (String.length (d_name e)) < 2^16 - 27 →
  Z.of_nat (length (encode_dirent idx e)) = reclen_of e.
Proof.
  intros Hn. pose proof (reclen_bounds e Hn) as (_ & Hb & _). unfold encode_dirent.
  rewrite !length_app, !length_le_bytes, length_replicate, length_bytes_of. cbn [length]. lia.
Qed.

(** What a C program reads at the start of a record: [d_ino], [d_off],
    [d_reclen], [d_type] and the NUL-terminated [d_name]. *)
Fixpoint c_string (l : list Z) : list Z :=
  match l with
  | [] => []
  | b :: l' => if b =? 0 then [] else b :: c_string l'
  end.

Definition decode_dirent (l : list Z) : dirent * Z * nat :=
  (Dirent (string_of (c_string (drop 19 l))) (le_val (take 8 l)) (nth 18 l 0),
   le_val (take 8 (drop 8 l)), Z.to_nat (le_val (take 2 (drop 16 l)))).

(** A reader that walks a buffer by [d_reclen]. *)
Fixpoint decode (fuel : nat) (l : list Z) : list (dirent * Z) :=
  match fuel, l with
  | O, _ | _, [] => []
  | S fuel', _ => let '(e, off, n) := decode_dirent l in (e, off) :: decode fuel' (drop n l)
  end.

Lemma string_of_bytes_of s : string_of (bytes_of s) = s.
Proof.
  unfold string_of, bytes_of. rewrite <-list_fmap_compose.
  induction s as [|a s IH]; cbn; [done|]. rewrite N2Z.id, Ascii.ascii_N_embedding. f_equal. apply IH.
Qed.

Lemma c_string_app l rest : Forall (λ b, b ≠ 0) l → c_string (l ++ 0 :: rest) = l.
Proof.
  induction 1 as [|b l Hb Hl IH]; cbn; [done|]. destruct (Z.eqb_spec b 0); [done|]. by rewrite IH.
Qed.

Lemma decode_encode idx e rest : entry_ok e → 0 ≤ idx < 2^64 - 1 →
  decode_dirent (encode_dirent idx e ++ rest) = (e, idx + 1, length (encode_dirent idx e)).
Proof.
  intros [[Hn Hl] Hi] Hx. pose proof (reclen_bounds e Hl) as (_ & Hb & Hr).
  pose proof (length_encode idx e Hl) as Hlen. rewrite <-(Nat2Z.id (length _)), Hlen.
  unfold encode_dirent. rewrite Hr, <-!app_assoc. unfold decode_dirent. f_equal; [f_equal|].
  - rewrite (drop_app_ge (le_bytes 8 (d_ino e))) by (rewrite length_le_bytes; lia). rewrite length_le_bytes.
    rewrite drop_app_ge by (rewrite length_le_bytes; lia). rewrite length_le_bytes.
    rewrite drop_app_ge by (rewrite length_le_bytes; lia). rewrite length_le_bytes. cbn [Nat.sub app drop].
    rewrite drop_0, c_string_app, string_of_bytes_of by done.
    rewrite take_app_le, take_ge by (rewrite length_le_bytes; lia). rewrite le_val_le_bytes.
    rewrite Z.mod_small by (change (256 ^ Z.of_nat 8) with (2^64); lia).
    do 2 (rewrite app_nth2 by (rewrite length_le_bytes; lia); rewrite length_le_bytes).
    rewrite app_nth2 by (rewrite length_le_bytes; lia). rewrite length_le_bytes. cbn. by destruct e.
  - rewrite drop_app_length' by by rewrite length_le_bytes.
    rewrite take_app_le, take_ge by (rewrite length_le_bytes; lia). rewrite le_val_le_bytes.
    apply Z.mod_small. change (256 ^ Z.of_nat 8) with (2^64). lia.
  - rewrite drop_app_ge by (rewrite length_le_bytes; lia). rewrite length_le_bytes.
    rewrite drop_app_length' by by rewrite length_le_bytes.
    rewrite take_app_le, take_ge by (rewrite length_le_bytes; lia). rewrite le_val_le_bytes.
    f_equal. apply Z.mod_small. change (256 ^ Z.of_nat 2) with (2^16). lia.
Qed.

(** ** Filling a buffer *)

Fixpoint encode_all (idx : Z) (l : list dirent) : list Z :=
  match l with [] => [] | e :: l' => encode_dirent idx e ++ encode_all (idx + 1) l' end.

(** Entries paired with their [d_off]. *)
Definition with_offsets (idx : Z) (l : list dirent) : list (dirent * Z) :=
  zip l (seqZ (idx + 1) (Z.of_nat (length l))).

Lemma with_offsets_cons idx e l : with_offsets idx (e :: l) = (e, idx + 1) :: with_offsets (idx + 1) l.
Proof.
  unfold with_offsets. cbn [length]. rewrite seqZ_cons by lia. cbn. f_equal. f_equal.
  f_equal; lia.
Qed.

Lemma encode_nonempty idx e rest : encode_dirent idx e ++ rest ≠ [].
Proof. unfold encode_dirent. by cbn. Qed.

#[local] Opaque encode_dirent.

Lemma decode_encode_all l : ∀ idx fuel, Forall entry_ok l → 0 ≤ idx → idx + Z.of_nat (length l) < 2^64 →
  (length l ≤ fuel)%nat → decode fuel (encode_all idx l) = with_offsets idx l.
Proof.
  induction l as [|e l IH]; intros idx fuel Hl Hi Hb Hf; [by destruct fuel|].
  apply Forall_cons in Hl as [He Hl]. cbn [length] in *. destruct fuel as [|fuel]; [lia|].
  cbn [encode_all]. rewrite with_offsets_cons. cbn [decode].
  destruct (encode_dirent idx e ++ encode_all (idx + 1) l) as [|b bs] eqn:E; [by apply encode_nonempty in E|].
  rewrite <-E, decode_encode by (done || lia). rewrite drop_app_length' by done.
  f_equal. apply IH; done || lia.
Qed.

Lemma reclen_pos e : entry_ok e → 20 ≤ reclen_of e ≤ 2^16.
Proof. intros [[_ Hl] _]. pose proof (reclen_bounds e Hl) as (_ & ? & _). change (2^16) with 65536 in *. lia. Qed.

(** The loop stores as many whole records as fit. *)
Lemma emit_spec buf_len l : ∀ off idx bs n, Forall entry_ok l → 0 ≤ off ≤ buf_len → buf_len < 2^63 →
  emit buf_len off idx l = (bs, n) →
  ∃ k, n = Z.of_nat k ∧ (k ≤ length l)%nat ∧ bs = encode_all idx (take k l) ∧
    off + Z.of_nat (length bs) ≤ buf_len ∧
    (∀ e, l !! k = Some e → buf_len < off + Z.of_nat (length bs) + reclen_of e).
Proof.
  induction l as [|e l IH]; intros off idx bs n Hl Ho Hb; cbn [emit].
  { intros [= <- <-]. exists O. cbn. split_and!; [done..|lia|done]. }
  apply Forall_cons in Hl as [He Hl]. pose proof (reclen_pos e He) as Hr. change (2^16) with 65536 in Hr.
  rewrite wrap64_small by (unfold in_usize; lia).
  destruct (Z.ltb_spec buf_len (off + reclen_of e)).
  { intros [= <- <-]. exists O. cbn. split_and!; [done|lia|done|lia|]. intros ? [= <-]. lia. }
  destruct (emit buf_len (off + reclen_of e) (idx + 1) l) as [bs' n'] eqn:E. intros [= <- <-].
  apply IH in E as (k & -> & Hk & -> & Hle & Hnext); [|done|lia..].
  pose proof (length_encode idx e (proj2 (proj1 He))) as Hlen.
  exists (S k). cbn [take encode_all length lookup list_lookup]. rewrite length_app.
  split_and!; [lia|lia|done|lia|]. intros e' He'. specialize (Hnext e' He'). lia.
Qed.

(** A caller that repeats the call until it returns no bytes, and decodes. *)
Fixpoint list_dir (fuel : nat) (s : Fs) (inode buf_len offset : Z) : list (dirent * Z) :=
  match fuel with
  | O => []
  | S fuel' =>
      let '(bs, next) := read_dir s inode buf_len offset in
      match bs with
      | [] => []
      | _ => decode (length bs) bs ++ list_dir fuel' s inode buf_len next
      end
  end.

Lemma encode_all_length idx l : Forall entry_ok l → (length l ≤ length (encode_all idx l))%nat.
Proof.
  intros Hl. revert idx. induction Hl as [|e l He Hl IH]; intros idx; cbn [encode_all length]; [lia|].
  rewrite length_app. pose proof (length_encode idx e (proj2 (proj1 He))). pose proof (reclen_pos e He).
  specialize (IH (idx + 1)). lia.
Qed.

Lemma with_offsets_app idx l k : with_offsets idx (l ++ k) = with_offsets idx l ++ with_offsets (idx + Z.of_nat (length l)) k.
Proof.
  revert idx. induction l as [|e l IH]; intros idx.
  - cbn [app length]. by rewrite Z.add_0_r.
  - cbn [app]. rewrite !with_offsets_cons, IH. cbn [app length]. do 3 f_equal. lia.
Qed.

Section Listing.
Context (s : Fs) (inode : Z) (dir : string) (f : File) (buf_len : Z).
Context (Hdir : inode_map s !! inode = Some dir) (Hf : fs_files s !! dir = Some f) (Hempty : file_len f = 0).
Context (Hentries : Forall entry_ok (dir_entries s inode dir)).
Context (Hroom : Forall (λ e, reclen_of e ≤ buf_len) (dir_entries s inode dir)) (Hbuf : buf_len < 2^63).
Context (Hcount : Z.of_nat (length (dir_entries s inode dir)) < 2^63).

Let entries := dir_entries s inode dir.

Lemma read_dir_progress offset : (offset ≤ length entries)%nat →
  ∃ k, read_dir s inode buf_len (Z.of_nat offset) =
         (encode_all (Z.of_nat offset) (take k (drop offset entries)), Z.of_nat (offset + k)) ∧
       (offset + k ≤ length entries)%nat ∧ (offset < length entries → 0 < k)%nat.
Proof.
  intros Ho. unfold read_dir. rewrite Hdir, Hf, Hempty. cbn [Z.eqb negb]. fold entries.
  destruct (Z.leb_spec (Z.of_nat (length entries)) (Z.of_nat offset)).
  { exists O. rewrite take_0, Nat.add_0_r. split_and!; [done|lia|lia]. }
  rewrite Nat2Z.id. destruct (emit _ _ _ _) as [bs n] eqn:E.
  assert (0 ≤ buf_len) as Hb0.
  { unfold dir_entries in Hroom, Hentries. apply Forall_cons in Hroom as [Hr _], Hentries as [He _].
    pose proof (reclen_pos _ He). lia. }
  apply emit_spec in E as (k & -> & Hk & -> & Hle & Hnext); [|by apply Forall_drop|lia..].
  rewrite length_drop in Hk. exists k. split; [f_equal; lia|]. split; [lia|]. intros Hlt.
  destruct k as [|k]; [|lia]. destruct (lookup_lt_is_Some_2 (drop offset entries) 0) as [e He].
  { rewrite length_drop. lia. }
  specialize (Hnext e He). rewrite take_0 in Hnext. cbn [encode_all length] in Hnext. apply list_elem_of_lookup_2 in He.
  rewrite Forall_forall in Hroom. assert (e ∈ entries) by (rewrite <-(take_drop offset entries); set_solver).
  pose proof (Hroom e ltac:(done) : reclen_of e ≤ buf_len). lia.
Qed.

Lemma list_dir_from fuel : ∀ offset, (length entries - offset < fuel)%nat → (offset ≤ length entries)%nat →
  list_dir fuel s inode buf_len (Z.of_nat offset) = with_offsets (Z.of_nat offset) (drop offset entries).
Proof.
  induction fuel as [|fuel IH]; intros offset Hfu Ho; [lia|]. cbn [list_dir].
  destruct (read_dir_progress offset Ho) as (k & -> & Hk & Hpos).
  assert (Forall entry_ok (take k (drop offset entries))) as Hok by by apply Forall_take, Forall_drop.
  assert (length (take k (drop offset entries)) = k) as Hlk by (rewrite length_take, length_drop; lia).
  destruct (encode_all _ _) as [|b bs] eqn:E.
  - pose proof (encode_all_length (Z.of_nat offset) _ Hok) as Hl. rewrite E, Hlk in Hl. cbn in Hl.
    by rewrite drop_ge by lia.
  - rewrite <-E. assert (k ≠ O) by (intros ->; done).
    rewrite decode_encode_all; [|done|lia|rewrite Hlk; unfold entries in *; lia|by apply encode_all_length].
    rewrite IH by lia. rewrite <-(take_drop k (drop offset entries)) at 2.
    rewrite with_offsets_app, drop_drop, Hlk. do 2 f_equal. lia.
Qed.

End Listing.

(** C25: reading a directory with [getdents64]. Repeated calls of [read_dir], each
    continuing at the offset the last one left, with any buffer that holds the
    longest record, end after finitely many calls, and decoding the records
    they stored yields every entry of the directory exactly once, in order,
    with consecutive offsets. *)
Theorem getdents_complete s inode dir f buf_len fuel :
  inode_map s !! inode = Some dir → fs_files s !! dir = Some f → file_len f = 0 →
  let entries := dir_entries s inode dir in
  Forall entry_ok entries → Forall (λ e, reclen_of e ≤ buf_len) entries → buf_len < 2^63 →
  Z.of_nat (length entries) < 2^63 → (length entries < fuel)%nat →
  list_dir fuel s inode buf_len 0 = with_offsets 0 entries.
Proof.
  intros Hd Hf He entries Hok Hroom Hb Hn Hfuel. change 0 with (Z.of_nat 0).
  rewrite (list_dir_from s inode dir f) by (done || unfold entries in *; lia).
  by rewrite drop_0.
Qed.

(** A root directory with two files. *)
Definition small_fs : Fs :=
  add_file "/log/x" (MkFile (Dynamic [7])) (add_file "/log" (MkFile (Static []))
    (add_file "/a" (MkFile (Static [1])) (add_file "/" (MkFile (Static [])) fs_empty))).

Lemma small_entries : dir_entries small_fs 1 "/" =
  [Dirent "." 1 4; Dirent ".." 1 4; Dirent "a" 2 8; Dirent "log" 3 4].
Proof. vm_compute. reflexivity. Qed.

Lemma dir_entry_correct_witness : Dirent "a" 2 8 ∈ dir_entries small_fs 1 "/".
Proof.
  apply (dir_entry_correct small_fs 1 "/" "a" (MkFile (Static [1])) 2); [done|done|done|done|..];
    vm_compute; reflexivity.
Defined.

Lemma getdents_complete_witness :
  list_dir 5 small_fs 1 32 0 = with_offsets 0 (dir_entries small_fs 1 "/").
Proof.
  apply (getdents_complete small_fs 1 "/" (MkFile (Static [])) 32 5).
  - vm_compute. reflexivity.
  - vm_compute. reflexivity.
  - reflexivity.
  - rewrite small_entries. repeat constructor; vm_compute; congruence.
  - rewrite small_entries. repeat constructor; vm_compute; congruence.
  - lia.
  - rewrite small_entries. done.
  - rewrite small_entries. cbn. lia.
Defined.
