(* ===== verification/Loader.v ===== *)
(** * Loading a program: the memory side of [proc.rs]

    Copying an ELF image to the heap ([align_elf]), mapping its segments
    ([load_elf_into]), the user stack pages and the initial stack contents
    ([build_stack]). The ELF parser is the crate [xmas_elf]: the values it
    reports are the records [ElfFile] and [ProgramHeader], and the parser itself
    is an argument. *)

From S2P Require Import Prelude Machine Alloc PageTable AddrSpace UserMem FdTable Fs.

Open Scope string_scope.
Open Scope list_scope.
Open Scope Z_scope.

(** ** What [xmas_elf] reports *)

Inductive SegType := Load | OtherType.
#[global] Instance SegType_eq_dec : EqDecision SegType.
Proof. solve_decision. Defined.

(** [ph_type] is [get_type().ok()]. *)
Record ProgramHeader := {
  ph_type : option SegType;
  virtual_addr : Z; mem_size : Z; file_size : Z; ph_offset : Z;
  is_read : bool; is_write : bool; is_execute : bool
}.

Record ElfFile := {
  entry_point : Z; phdr_offset : Z; ph_entry_size : Z; ph_count : Z;
  program_iter : list ProgramHeader
}.

(** ** Segments *)

Definition segment_flags (ph : ProgramHeader) : PTEFlags :=
  let fl := PTE_U in
  let fl := if is_read ph then fl |f PTE_R else fl in
  let fl := if is_write ph then fl |f PTE_W else fl in
  if is_execute ph then fl |f PTE_X else fl.

Definition page_down (a : Z) : Z := Z.land a (not64 (PAGE_SIZE - 1)).

(** The contents of the page at [page], stored in the frame [paddr]; [data] is
    the address of the image in memory. *)
Definition fill_page (data : Z) (ph : ProgramHeader) (page paddr : Z) : M mm unit :=
  let seg_begin := virtual_addr ph in
  let seg_file_end := saturating_add (virtual_addr ph) (file_size ph) in
  let seg_mem_end := saturating_add (virtual_addr ph) (mem_size ph) in
  let page_mem_end := Z.min (page +w PAGE_SIZE) seg_mem_end in
  let zero_len := page_mem_end -w page in
  do! write_bytes paddr 0 zero_len in
  let page_file_start := Z.max page seg_begin in
  let page_file_end := Z.min (page +w PAGE_SIZE) seg_file_end in
  if page_file_start <? page_file_end then
    let copy_offset := ph_offset ph +w (page_file_start -w seg_begin) in
    let dest_offset := page_file_start -w page in
    let copy_len := page_file_end -w page_file_start in
    copy_nonoverlapping (data +w copy_offset) (paddr +w dest_offset) copy_len
  else ret tt.

(** One turn of the page loop of [load_elf_into]. *)
Definition load_page (pt : PageTable) (data : Z) (ph : ProgramHeader) (page : Z) : M mm (option unit) :=
  let? paddr := alloc_map pt page (segment_flags ph) in
  do! fill_page data ph page paddr in
  ret (Some tt).

(** [while page <= last_page]. Every turn takes a frame, so the frames left
    bound the turns. *)
Fixpoint load_pages (fuel : nat) (pt : PageTable) (data : Z) (ph : ProgramHeader) (page last_page : Z) :
    M mm (option unit) :=
  match fuel with
  | O => hang
  | S fuel' =>
      if page <=? last_page then
        let? _ := load_page pt data ph page in
        load_pages fuel' pt data ph (page +w PAGE_SIZE) last_page
      else ret (Some tt)
  end.

Definition frames_left (s : mm) : nat := Z.to_nat ((page_end (mm_pages s) - page_current (mm_pages s)) / 4096).

Definition load_segment (pt : PageTable) (data : Z) (ph : ProgramHeader) : M mm (option unit) :=
  let seg_mem_end := saturating_add (virtual_addr ph) (mem_size ph) in
  let first_page := page_down (virtual_addr ph) in
  let last_page := page_down (seg_mem_end -w 1) in
  let! n := gets frames_left in
  load_pages (n + 2) pt data ph first_page last_page.

Fixpoint load_segments (pt : PageTable) (data : Z) (phs : list ProgramHeader) (max_end : Z) : M mm (option Z) :=
  match phs with
  | [] => ret (Some max_end)
  | ph :: phs' =>
      match ph_type ph with
      | None => ret None
      | Some ty =>
          if decide (ty = Load) then
            let seg_mem_end := saturating_add (virtual_addr ph) (mem_size ph) in
            let max_end := if max_end <? seg_mem_end then seg_mem_end else max_end in
            let? _ := load_segment pt data ph in
            load_segments pt data phs' max_end
          else load_segments pt data phs' max_end
      end
  end.

Definition load_elf_into (pt : PageTable) (data : Z) (elf : ElfFile) : M mm (option Z) :=
  load_segments pt data (program_iter elf) 0.

(** ** The image in memory *)

(** [Layout::from_size_align(size, align).ok()] for an alignment of 16. *)
Definition elf_layout (size : Z) : option Layout :=
  if size <=? 2 ^ 63 - 16 then Some {| layout_size := size; layout_align := 16 |} else None.

(** [align_elf]: the address of the copy. *)
Definition align_elf (elf_data : list Z) : M mm (option Z) :=
  match elf_layout (Z.of_nat (length elf_data)) with
  | None => ret None
  | Some layout =>
      let! ptr := heap_alloc layout in
      if ptr =? 0 then ret None
      else
        do! modify (λ s, set_mem (wr_bytes (mm_mem s) ptr elf_data) s) in
        ret (Some ptr)
  end.

(** ** The user stack *)

Definition STACK_TOP : Z := 0x3ffffff000.

(** The loop over [0..=8]: the frame of the top page is its result. *)
Fixpoint map_stack (pt : PageTable) (idxs : list Z) (top_page_paddr : Z) : M mm (option Z) :=
  match idxs with
  | [] => ret (Some top_page_paddr)
  | i :: idxs' =>
      let? page := alloc_map pt (STACK_TOP -w i *w PAGE_SIZE) (PTE_U |f PTE_R |f PTE_W) in
      map_stack pt idxs' (if i =? 0 then page else top_page_paddr)
  end.

Definition store64 (a v : Z) : M mm unit := modify (λ s, set_mem (wr64 (mm_mem s) a v) s).
Definition store_bytes (a : Z) (l : list Z) : M mm unit := modify (λ s, set_mem (wr_bytes (mm_mem s) a l) s).

(** Consecutive words, as the pointer loops and [push_aux] write them. *)
Fixpoint store_words (a : Z) (ws : list Z) : M mm unit :=
  match ws with
  | [] => ret tt
  | w :: ws' => do! store64 a w in store_words (a +w 8) ws'
  end.

Definition aux_vector (stack_top at_phdr phent phnum entry : Z) : list Z :=
  [6; 4096; 3; at_phdr; 4; phent; 5; phnum; 9; entry; 25; stack_top +w 0x200; 17; 100; 0; 0].

(** Strings in 256-byte slots from [str_off] on. *)
Fixpoint store_strings (base str_off : Z) (l : list string) : M mm unit :=
  match l with
  | [] => ret tt
  | s :: l' =>
      let len := Z.of_nat (String.length s) in
      do! store_bytes (base +w str_off) (bytes_of s) in
      do! store_bytes (base +w str_off +w len) [0] in
      store_strings base (str_off +w 0x100) l'
  end.

Definition build_stack (top_page_paddr stack_top : Z) (argv envp : list string)
    (at_phdr phent phnum entry : Z) : M mm Z :=
  let base := top_page_paddr in
  let argc := Z.of_nat (length argv) in
  let envc := Z.of_nat (length envp) in
  do! store64 base argc in
  let off := 8 in
  do! store_words (base +w off) (imap (λ i _, stack_top +w 0x400 +w Z.of_nat i * 0x100) argv) in
  let off := off + 8 * argc in
  do! store64 (base +w off) 0 in
  let off := off + 8 in
  do! store_words (base +w off) (imap (λ i _, stack_top +w 0x400 +w argc * 0x100 +w Z.of_nat i * 0x100) envp) in
  let off := off + 8 * envc in
  do! store64 (base +w off) 0 in
  let off := off + 8 in
  do! store_words (base +w off) (aux_vector stack_top at_phdr phent phnum entry) in
  do! store_strings base 0x400 argv in
  do! store_strings base (0x400 + 0x100 * argc) envp in
  do! write_bytes (base +w 0x200) 0xAB 16 in
  ret stack_top.

(** The smallest load address, [min().unwrap_or(0)]. *)
Definition base_vaddr (elf : ElfFile) : Z :=
  match (λ ph, virtual_addr ph) <$> filter (λ ph, ph_type ph = Some Load) (program_iter elf) with
  | [] => 0
  | v :: vs => foldl Z.min v vs
  end.

(** What [init_user_proc] and [exec_process] do between the identity maps and
    the process record: the stack pages, the image and the initial stack. The
    result is the ELF file, the end of its image and the stack pointer. *)
Section LoadImage.
Context (elf_new : list Z → option ElfFile).

Definition load_image (pt : PageTable) (elf_data : list Z) (argv envp : list string) :
    M mm (option (ElfFile * Z * Z)) :=
  let? top_page_paddr := map_stack pt (seqZ 0 9) 0 in
  let? ptr := align_elf elf_data in
  let! aligned := gets (λ s, rd_bytes (mm_mem s) ptr (Z.of_nat (length elf_data))) in
  match elf_new aligned with
  | None => ret None
  | Some elf =>
      let at_phdr := base_vaddr elf +w phdr_offset elf in
      let? max_end := load_elf_into pt ptr elf in
      let! sp := build_stack top_page_paddr STACK_TOP argv envp at_phdr
                   (ph_entry_size elf) (ph_count elf) (entry_point elf) in
      ret (Some (elf, max_end, sp))
  end.
End LoadImage.

(** ** What loading a segment does *)

Record seg_ok (ph : ProgramHeader) (len : Z) : Prop := {
  sg_vaddr : 0 ≤ virtual_addr ph;
  sg_file : 0 ≤ file_size ph ≤ mem_size ph;
  sg_mem : 0 < mem_size ph;
  sg_end : virtual_addr ph + mem_size ph ≤ 2 ^ 38;
  sg_offset : 0 ≤ ph_offset ph;
  sg_image : ph_offset ph + file_size ph ≤ len
}.

(** The byte a segment has at a virtual address, by the image bytes. *)
Definition seg_byte (img : Z → Z) (ph : ProgramHeader) (va : Z) : Z :=
  if decide (virtual_addr ph ≤ va < virtual_addr ph + file_size ph)
  then img (ph_offset ph + (va - virtual_addr ph)) else 0.

(** The page numbers of a segment. *)
Definition seg_first (ph : ProgramHeader) : Z := virtual_addr ph / 4096.
Definition seg_last (ph : ProgramHeader) : Z := (virtual_addr ph + mem_size ph - 1) / 4096.

Lemma segment_user_flags ph : user_flags (segment_flags ph).
Proof.
  unfold user_flags, flags_ok, segment_flags.
  destruct (is_read ph), (is_write ph), (is_execute ph); by vm_compute.
Qed.

Lemma page_down_spec a : in_usize a → page_down a = a / 4096 * 4096.
Proof.
  intros H. unfold page_down, PAGE_SIZE. change (4096 - 1) with (2 ^ 12 - 1).
  rewrite land_not64 by (done || lia). change (2 ^ 12) with 4096. dlia.
Qed.

Lemma saturating_add_small a b : 0 ≤ a + b < 2 ^ 64 → saturating_add a b = a + b.
Proof. intros H. unfold saturating_add. lia. Qed.

(** The memory after [fill_page] on a zeroed frame below the image. *)
Lemma fill_page_run data len ph page paddr s : seg_ok ph len →
  page mod 4096 = 0 → virtual_addr ph / 4096 * 4096 ≤ page < virtual_addr ph + mem_size ph →
  0 ≤ paddr → paddr + 4096 ≤ data → data + len < 2 ^ 63 →
  (∀ x, 0 ≤ x < 4096 → rd8 (mm_mem s) (paddr + x) = 0) →
  ∃ m', fill_page data ph page paddr s = Ret (tt, set_mem m' s) ∧
    (∀ x, ¬ (paddr ≤ x < paddr + 4096) → rd8 m' x = rd8 (mm_mem s) x) ∧
    (∀ x, 0 ≤ x < 4096 → rd8 m' (paddr + x) = seg_byte (λ i, rd8 (mm_mem s) (data + i)) ph (page + x)).
Proof.
  intros [Hv Hf Hm He Ho Hi] Hpm Hp Hpa Hd Hlen Hz.
  assert (0 ≤ page) by dlia. assert (page + 4096 < 2 ^ 63) by lia.
  unfold fill_page, PAGE_SIZE, write_bytes, copy_nonoverlapping, modify, bind, ret. cbv zeta.
  rewrite !saturating_add_small by lia. unwrap.
  set (m1 := fill (mm_mem s) paddr 0 _).
  assert (∀ x, rd8 m1 x = rd8 (mm_mem s) x) as Hm1.
  { intros x. unfold m1. rewrite rd8_fill. case_decide as Hx; [|done].
    replace x with (paddr + (x - paddr)) by lia. by rewrite Hz by lia. }
  unfold seg_byte. destruct (Z.ltb_spec (Z.max page (virtual_addr ph)) (Z.min (page + 4096) (virtual_addr ph + file_size ph))).
  - rewrite !mm_mem_set_mem. unwrap. eexists. split; [done|]. split.
    + intros x Hx. rewrite rd8_copy, Hm1. by rewrite decide_False by lia.
    + intros x Hx. rewrite rd8_copy. case_decide; case_decide; try lia.
      * rewrite Hm1. f_equal. lia.
      * rewrite Hm1. by apply Hz.
  - exists m1. split; [done|]. split; [intros x Hx; apply Hm1|].
    intros x Hx. rewrite Hm1, Hz by done. by rewrite decide_False by lia.
Qed.

(** The bytes of the image at [data]. *)
Definition image (data : Z) (s : mm) (i : Z) : Z := rd8 (mm_mem s) (data + i).

Lemma seg_pages_range len ph : seg_ok ph len → 0 ≤ seg_first ph ≤ seg_last ph ∧ seg_last ph < 2 ^ 26.
Proof. intros [Hv Hf Hm He Ho Hi]. unfold seg_first, seg_last. dlia. Qed.

(** A program header table whose load segments lie on disjoint pages. *)
Definition seg_disjoint (ph ph' : ProgramHeader) : Prop :=
  seg_last ph < seg_first ph' ∨ seg_last ph' < seg_first ph.

Fixpoint segs_ok (len : Z) (phs : list ProgramHeader) : Prop :=
  match phs with
  | [] => True
  | ph :: phs' =>
      is_Some (ph_type ph) ∧
      (ph_type ph = Some Load → seg_ok ph len ∧
         Forall (λ ph', ph_type ph' = Some Load → seg_disjoint ph ph') phs') ∧
      segs_ok len phs'
  end.

Fixpoint total_pages (phs : list ProgramHeader) : Z :=
  match phs with
  | [] => 0
  | ph :: phs' => (if decide (ph_type ph = Some Load) then seg_last ph - seg_first ph + 1 else 0) + total_pages phs'
  end.

(** The end of the highest segment. *)
Fixpoint segs_end (phs : list ProgramHeader) (max_end : Z) : Z :=
  match phs with
  | [] => max_end
  | ph :: phs' =>
      segs_end phs' (if decide (ph_type ph = Some Load) then Z.max max_end (virtual_addr ph + mem_size ph) else max_end)
  end.

Definition in_seg (phs : list ProgramHeader) (v : Z) : Prop :=
  ∃ ph, ph ∈ phs ∧ ph_type ph = Some Load ∧ seg_first ph ≤ v ≤ seg_last ph.

Lemma segs_ok_elem len phs ph : segs_ok len phs → ph ∈ phs → ph_type ph = Some Load → seg_ok ph len.
Proof.
  induction phs as [|q phs IH]; [by intros ? ?%elem_of_nil|]. intros (_ & Hq & Hok) [->|Hin]%elem_of_cons Ht.
  - by apply Hq.
  - by apply IH.
Qed.

Lemma total_pages_nonneg len phs : segs_ok len phs → 0 ≤ total_pages phs.
Proof.
  induction phs as [|ph phs IH]; cbn; [lia|]. intros (_ & Hq & Hok). specialize (IH Hok).
  case_decide as Ht; [|lia]. destruct (seg_pages_range len ph (proj1 (Hq Ht))). lia.
Qed.

Lemma seg_byte_ext len ph img img' : seg_ok ph len → (∀ i, 0 ≤ i < len → img' i = img i) →
  ∀ va, seg_byte img' ph va = seg_byte img ph va.
Proof.
  intros [Hv Hf Hm He Ho Hi] Hx va. unfold seg_byte. case_decide; [|done]. apply Hx. lia.
Qed.

Lemma page_is_content root s v fl c c' : (∀ va, c va = c' va) → page_is root s v fl c → page_is root s v fl c'.
Proof. intros Hc (e & Hu & Hf & Hx). exists e. split_and!; [done..|]. intros x Hxr. by rewrite Hx, Hc. Qed.

Section Segments.
Context (pt : PageTable) (data len : Z).
Let root := root_ppn pt.

Lemma load_page_spec ph v s : as_inv root s → seg_ok ph len → seg_first ph ≤ v ≤ seg_last ph →
  kernel_view v = None → view (mm_mem s) root v = None →
  cur s + 3 * 4096 ≤ page_end (mm_pages s) → cur s + 3 * 4096 ≤ data → data + len < 2 ^ 63 →
  wp (load_page pt data ph (v * 4096)) s (λ o s', o = Some tt ∧
    fresh_page root s s' v (segment_flags ph) ∧
    page_is root s' v (segment_flags ph) (seg_byte (image data s) ph)).
Proof.
  intros Hs Hseg Hv Hk Hnone Hfit Hdata Hlen. pose proof (seg_pages_range len ph Hseg) as Hr.
  assert (v * 4096 / 4096 = v) as Ev by (apply Z.div_mul; lia).
  assert (vpn_ok v) as Hvk by (unfold vpn_ok; lia).
  pose proof (segment_user_flags ph) as Hfl. unfold load_page. apply wp_try_opt. eapply wp_mono.
  { apply alloc_map_spec; fold root; rewrite ?Ev; done. }
  fold root. rewrite Ev. intros o s1 (-> & Hfp & Hz).
  destruct (as_pt _ _ Hs) as [_ Hok]. pose proof Hok as (Hc & _ & _).
  destruct (fill_page_run data len ph (v * 4096) (cur s) s1) as (m' & E & Hout & Hin);
    [done|apply Z.mod_mul; lia|unfold seg_first, seg_last in Hv; destruct Hseg; dlia|lia|lia|done|done|].
  apply wp_bind. eapply wp_of_run; [exact E|]. apply wp_ret. split; [done|].
  pose proof (fresh_page_write _ _ _ _ _ m' Hok Hfp Hout) as Hfp'. split; [done|].
  destruct (fresh_page_user _ _ _ _ _ Hfp' Hvk Hfl Hs) as (Hu & Hppn & Hpf).
  exists (mapped_pte (cur s) (segment_flags ph)). split; [done|]. split; [done|].
  intros x Hx. rewrite Hppn. cbn [mm_mem set_mem]. rewrite Hin by done.
  unfold seg_byte. case_decide as Hd; [|done]. unfold image.
  apply (ext_above _ _ _ (fp_ext _ _ _ _ _ Hfp)). destruct (fp_cur _ _ _ _ _ Hfp), Hseg. lia.
Qed.

(** The pages [a, b) of a segment are loaded, and only they were added. *)
Record loaded (ph : ProgramHeader) (s0 s : mm) (a b : Z) : Prop := {
  ld_ext : as_ext root s0 s;
  ld_cost : cur s ≤ cur s0 + 3 * 4096 * (b - a);
  ld_page : ∀ v, a ≤ v < b → page_is root s v (segment_flags ph) (seg_byte (image data s0) ph);
  ld_other : ∀ v, vpn_ok v → ¬ (a ≤ v < b) → view (mm_mem s) root v = view (mm_mem s0) root v
}.

Lemma loaded_snoc ph s0 s1 s2 a v : as_inv root s0 → seg_ok ph len → loaded ph s0 s1 a v → a ≤ v → 0 ≤ a → vpn_ok v →
  cur s0 + 3 * 4096 * (v - a) ≤ data →
  fresh_page root s1 s2 v (segment_flags ph) →
  page_is root s2 v (segment_flags ph) (seg_byte (image data s1) ph) →
  loaded ph s0 s2 a (v + 1).
Proof.
  intros Hs0 Hseg [He Hc Hp Ho] Hav Ha Hvk Hd Hfp Hpg. pose proof (fp_ext _ _ _ _ _ Hfp) as He2.
  pose proof (fp_cur _ _ _ _ _ Hfp). split.
  - by eapply as_ext_trans.
  - lia.
  - intros w Hw. destruct (decide (w = v)) as [->|].
    + destruct Hpg as (e & Hu & Hf & Hx). exists e. split; [done|]. split; [done|]. intros x Hxr.
      rewrite Hx by done. unfold seg_byte, image. case_decide; [|done].
      apply (ext_above _ _ _ He). destruct Hseg. lia.
    + apply (page_is_ext root s1); [apply He|done|unfold vpn_ok in *; lia|]. apply Hp. lia.
  - intros w Hw Hn. rewrite (fp_view _ _ _ _ _ Hfp) by done. rewrite decide_False by lia. apply Ho; [done|lia].
Qed.

Lemma load_pages_spec ph s0 : as_inv root s0 → seg_ok ph len →
  (∀ v, seg_first ph ≤ v ≤ seg_last ph → kernel_view v = None ∧ view (mm_mem s0) root v = None) →
  let n := seg_last ph - seg_first ph + 1 in
  cur s0 + 3 * 4096 * n ≤ page_end (mm_pages s0) → cur s0 + 3 * 4096 * n ≤ data → data + len < 2 ^ 63 →
  ∀ fuel v s, seg_first ph ≤ v ≤ seg_last ph + 1 → seg_last ph + 1 - v < Z.of_nat fuel →
  loaded ph s0 s (seg_first ph) v →
  wp (load_pages fuel pt data ph (v * 4096) (seg_last ph * 4096)) s (λ o s', o = Some tt ∧
    loaded ph s0 s' (seg_first ph) (seg_last ph + 1)).
Proof.
  intros Hs0 Hseg Hfree n Hend Hdata Hlen fuel. pose proof (seg_pages_range len ph Hseg) as Hr. subst n.
  induction fuel as [|fuel IH]; intros v s Hv Hfu Hld; [lia|]. cbn [load_pages].
  destruct (Z.leb_spec (v * 4096) (seg_last ph * 4096)).
  - pose proof (ld_cost _ _ _ _ _ Hld). pose proof (ext_end _ _ _ (ld_ext _ _ _ _ _ Hld)).
    apply wp_try_opt. eapply wp_mono; [apply (load_page_spec ph v s)|].
    + apply (ld_ext _ _ _ _ _ Hld).
    + done.
    + lia.
    + apply Hfree. lia.
    + rewrite (ld_other _ _ _ _ _ Hld) by (unfold vpn_ok; lia). apply Hfree. lia.
    + lia.
    + lia.
    + done.
    + intros o s1 (-> & Hfp & Hpg). unfold PAGE_SIZE. unwrap.
      replace (v * 4096 + 4096) with ((v + 1) * 4096) by lia. apply IH; [lia|lia|].
      eapply loaded_snoc; try done; [lia|lia|unfold vpn_ok; lia|lia].
  - assert (v = seg_last ph + 1) as -> by lia. apply wp_ret. done.
Qed.

Lemma load_segment_spec ph s : as_inv root s → seg_ok ph len →
  (∀ v, seg_first ph ≤ v ≤ seg_last ph → kernel_view v = None ∧ view (mm_mem s) root v = None) →
  let n := seg_last ph - seg_first ph + 1 in
  cur s + 3 * 4096 * n ≤ page_end (mm_pages s) → cur s + 3 * 4096 * n ≤ data → data + len < 2 ^ 63 →
  wp (load_segment pt data ph) s (λ o s', o = Some tt ∧ loaded ph s s' (seg_first ph) (seg_last ph + 1)).
Proof.
  intros Hs Hseg Hfree n Hend Hdata Hlen. pose proof (seg_pages_range len ph Hseg) as Hr.
  unfold load_segment. pose proof Hseg as [Hv Hf Hm He Ho Hi].
  rewrite saturating_add_small by lia. unwrap. rewrite !page_down_spec by (unfold in_usize; lia).
  fold (seg_first ph) (seg_last ph).
  apply wp_bind, wp_gets. apply (load_pages_spec ph s); try done.
  - lia.
  - unfold frames_left. subst n. dlia.
  - split.
    + by apply as_ext_refl.
    + lia.
    + lia.
    + done.
Qed.

Lemma load_segments_spec phs : ∀ max_end s, as_inv root s → segs_ok len phs →
  (∀ v, in_seg phs v → kernel_view v = None ∧ view (mm_mem s) root v = None) →
  cur s + 3 * 4096 * total_pages phs ≤ page_end (mm_pages s) →
  cur s + 3 * 4096 * total_pages phs ≤ data → data + len < 2 ^ 63 →
  wp (load_segments pt data phs max_end) s (λ o s', o = Some (segs_end phs max_end) ∧
    as_ext root s s' ∧ cur s' ≤ cur s + 3 * 4096 * total_pages phs ∧
    (∀ ph v, ph ∈ phs → ph_type ph = Some Load → seg_first ph ≤ v ≤ seg_last ph →
       page_is root s' v (segment_flags ph) (seg_byte (image data s) ph)) ∧
    (∀ v, vpn_ok v → ¬ in_seg phs v → view (mm_mem s') root v = view (mm_mem s) root v)).
Proof.
  induction phs as [|ph phs IH]; intros max_end s Hs Hok Hfree Hend Hdata Hlen; cbn [load_segments].
  { apply wp_ret. split_and!; [done|by apply as_ext_refl|cbn; lia|by intros ?? ?%elem_of_nil|done]. }
  destruct Hok as ([ty Hty] & Hph & Hok). cbn [total_pages segs_end] in *. rewrite Hty in *.
  pose proof (total_pages_nonneg len phs Hok) as Htp.
  assert (∀ v, in_seg phs v → in_seg (ph :: phs) v) as Hsub.
  { intros v (q & Hq & ?). exists q. split; [by right|done]. }
  destruct (decide (ty = Load)) as [->|Hne].
  2:{ rewrite !decide_False in * by congruence. eapply wp_mono; [apply (IH max_end s); auto|].
      intros o s' (-> & He & Hc & Hp & Hv). split_and!; [done|done|lia|..].
      - intros q v [->|Hq]%elem_of_cons Hq'; [congruence|]. by apply Hp.
      - intros v Hvk Hn. apply Hv; [done|]. intros ?. by apply Hn, Hsub. }
  rewrite !decide_True in * by done. destruct (Hph eq_refl) as [Hseg Hdis].
  pose proof (seg_pages_range len ph Hseg) as Hr. pose proof Hseg as [Hsv Hsf Hsm Hse Hso Hsi].
  rewrite saturating_add_small by lia.
  apply wp_try_opt. eapply wp_mono.
  { apply load_segment_spec; [done|done| |lia|lia|done]. intros v Hv. apply Hfree. exists ph. split; [left|done]. }
  intros o s1 (-> & [He1 Hc1 Hp1 Ho1]).
  assert (∀ v, in_seg phs v → vpn_ok v ∧ ¬ (seg_first ph ≤ v < seg_last ph + 1)) as Hout.
  { intros v (q & Hq & Htq & Hvq). rewrite Forall_forall in Hdis. specialize (Hdis q Hq Htq).
    pose proof (seg_pages_range len q (segs_ok_elem len phs q Hok Hq Htq)). unfold seg_disjoint, vpn_ok in *. lia. }
  pose proof (ext_end _ _ _ He1) as Hend1.
  eapply wp_mono; [apply (IH _ s1); [apply He1|done| |lia|lia|done]|].
  { intros v Hv. destruct (Hout v Hv). rewrite Ho1 by done. apply Hfree. by apply Hsub. }
  intros o s2 (-> & He2 & Hc2 & Hp2 & Ho2). split_and!.
  - do 2 f_equal. destruct (Z.ltb_spec max_end (virtual_addr ph + mem_size ph)); lia.
  - by eapply as_ext_trans.
  - lia.
  - intros q v [->|Hq]%elem_of_cons Htq Hv.
    + apply (page_is_ext root s1); [apply He1|done|unfold vpn_ok; lia|]. apply Hp1. lia.
    + eapply page_is_content; [|by apply Hp2]. apply (seg_byte_ext len); [by eapply (segs_ok_elem len)|].
      intros x Hx. apply (ext_above _ _ _ He1). lia.
  - intros v Hvk Hn. rewrite Ho2, Ho1; [done|done| |done|].
    + intros ?. apply Hn. exists ph. split; [left|split; [done|lia]].
    + intros ?. by apply Hn, Hsub.
Qed.

End Segments.

(** ** The initial stack *)

(** The words at the bottom of the stack page. *)
Definition stack_words (stack_top : Z) (argc envc : nat) (aux : list Z) : list Z :=
  [Z.of_nat argc] ++
  ((λ i, stack_top + 0x400 + i * 0x100) <$> seqZ 0 (Z.of_nat argc)) ++ [0] ++
  ((λ i, stack_top + 0x400 + i * 0x100) <$> seqZ (Z.of_nat argc) (Z.of_nat envc)) ++ [0] ++ aux.

Record stack_layout (m : mem) (base stack_top : Z) (argv envp : list string) (aux : list Z) : Prop := {
  sl_words : ∀ i w, stack_words stack_top (length argv) (length envp) aux !! i = Some w →
    rd64 m (base + 8 * Z.of_nat i) = w;
  sl_strings : ∀ i s, (argv ++ envp) !! i = Some s →
    let a := base + 0x400 + 0x100 * Z.of_nat i in
    rd_bytes m a (Z.of_nat (String.length s)) = bytes_of s ∧ rd8 m (a + Z.of_nat (String.length s)) = 0;
  sl_random : ∀ x, 0 ≤ x < 16 → rd8 m (base + 0x200 + x) = 0xAB
}.

(** The stores as functions on memory. *)
Fixpoint wr_words (m : mem) (a : Z) (ws : list Z) : mem :=
  match ws with [] => m | w :: ws' => wr_words (wr64 m a w) (a +w 8) ws' end.

Fixpoint wr_strings (m : mem) (base off : Z) (l : list string) : mem :=
  match l with
  | [] => m
  | s :: l' =>
      wr_strings (wr_bytes (wr_bytes m (base +w off) (bytes_of s))
                    (base +w off +w Z.of_nat (String.length s)) [0]) base (off +w 0x100) l'
  end.

Lemma store_words_run ws : ∀ a s, store_words a ws s = Ret (tt, set_mem (wr_words (mm_mem s) a ws) s).
Proof.
  induction ws as [|w ws IH]; intros a s; cbn [store_words wr_words]; [by destruct s|].
  unfold bind, store64, modify. by rewrite IH.
Qed.

Lemma store_strings_run base l : ∀ off s,
  store_strings base off l s = Ret (tt, set_mem (wr_strings (mm_mem s) base off l) s).
Proof.
  induction l as [|str l IH]; intros off s; cbn [store_strings wr_strings]; [by destruct s|].
  unfold bind, store_bytes, modify. by rewrite IH.
Qed.

Lemma wr_words_app ws1 ws2 : ∀ m a, 0 ≤ a → a + 8 * Z.of_nat (length ws1) < 2 ^ 64 →
  wr_words m a (ws1 ++ ws2) = wr_words (wr_words m a ws1) (a + 8 * Z.of_nat (length ws1)) ws2.
Proof.
  induction ws1 as [|w ws1 IH]; intros m a Ha Hb; cbn [app wr_words length].
  { by rewrite Z.mul_0_r, Z.add_0_r. }
  cbn [length] in Hb. unwrap. rewrite IH by lia. f_equal. lia.
Qed.

Lemma wr_strings_app base l1 l2 : ∀ m off, 0 ≤ off → off + 0x100 * Z.of_nat (length l1) < 2 ^ 64 →
  wr_strings m base off (l1 ++ l2) = wr_strings (wr_strings m base off l1) base (off + 0x100 * Z.of_nat (length l1)) l2.
Proof.
  induction l1 as [|str l1 IH]; intros m off Ho Hb; cbn [app wr_strings length].
  { by rewrite Z.mul_0_r, Z.add_0_r. }
  cbn [length] in Hb. rewrite (wrap64_small (off + 0x100)) by (unfold in_usize; lia).
  rewrite IH by lia. f_equal. lia.
Qed.

Lemma wr_words_spec ws : ∀ m a, 0 ≤ a → a + 8 * Z.of_nat (length ws) < 2 ^ 64 → Forall in_usize ws →
  (∀ i w, ws !! i = Some w → rd64 (wr_words m a ws) (a + 8 * Z.of_nat i) = w) ∧
  (∀ x, x < a ∨ a + 8 * Z.of_nat (length ws) ≤ x → rd8 (wr_words m a ws) x = rd8 m x).
Proof.
  induction ws as [|w ws IH]; intros m a Ha Hb Hw; cbn [wr_words]; [done|].
  apply Forall_cons in Hw as [Hw Hws]. cbn [length] in *. unwrap.
  destruct (IH (wr64 m a w) (a + 8)) as [Hin Hout]; [lia|lia|done|]. split.
  - intros [|i] w'; cbn [lookup list_lookup]; [intros [= <-]|].
    + rewrite Z.mul_0_r, Z.add_0_r. rewrite (rd64_ext _ (wr64 m a w)); [by apply rd64_wr64_same|].
      intros x Hx. apply Hout. lia.
    + intros Hi. rewrite <-(Hin i w' Hi). f_equal. lia.
  - intros x Hx. rewrite Hout by lia. apply rd8_wr64_out. lia.
Qed.

Lemma Forall_bytes_of s : Forall (λ b, 0 ≤ b < 256) (bytes_of s).
Proof.
  unfold bytes_of. apply Forall_fmap, Forall_forall. intros c _. cbn. pose proof (Ascii.N_ascii_bounded c). lia.
Qed.

Lemma wr_strings_spec base l : ∀ m off, 0 ≤ base → 0 ≤ off → base + off + 0x100 * Z.of_nat (length l) < 2 ^ 63 →
  Forall (λ s, (String.length s < 256)%nat) l →
  (∀ i str, l !! i = Some str → let a := base + off + 0x100 * Z.of_nat i in
     rd_bytes (wr_strings m base off l) a (Z.of_nat (String.length str)) = bytes_of str ∧
     rd8 (wr_strings m base off l) (a + Z.of_nat (String.length str)) = 0) ∧
  (∀ x, x < base + off ∨ base + off + 0x100 * Z.of_nat (length l) ≤ x → rd8 (wr_strings m base off l) x = rd8 m x).
Proof.
  induction l as [|str l IH]; intros m off Hb Ho Hr Hl; cbn [wr_strings]; [done|].
  apply Forall_cons in Hl as [Hn Hl]. cbn [length] in *. unwrap. pose proof (length_bytes_of str) as Hlen.
  set (m1 := wr_bytes (wr_bytes m (base + off) _) _ [0]).
  destruct (IH m1 (off + 256)) as [Hin Hout]; [lia|lia|lia|done|]. split.
  - intros [|i] str'; cbn [lookup list_lookup]; [intros [= <-]|].
    + rewrite Z.mul_0_r, Z.add_0_r. cbv zeta. split.
      * rewrite (rd_bytes_ext _ m1) by (intros x Hx; apply Hout; lia). unfold m1.
        rewrite rd_bytes_wr_bytes_disj by lia. rewrite <-Hlen. apply rd_bytes_wr_bytes_same, Forall_bytes_of.
      * rewrite Hout by lia. unfold m1. by rewrite (rd8_wr_bytes_in _ _ _ _ 0) by (lia || by rewrite Z.sub_diag).
    + intros Hi. specialize (Hin i str' Hi). cbv zeta in *.
      replace (base + off + 256 * Z.of_nat (S i)) with (base + (off + 256) + 256 * Z.of_nat i) by lia. done.
  - intros x Hx. rewrite Hout by lia. unfold m1.
    rewrite !rd8_wr_bytes_out; [done|rewrite Hlen; lia|cbn [length]; lia].
Qed.

(** [build_stack] is one run of words, one of strings and the random bytes. *)
Definition stack_mem (m : mem) (base stack_top : Z) (argv envp : list string) (aux : list Z) : mem :=
  fill (wr_strings (wr_words m base (stack_words stack_top (length argv) (length envp) aux))
          base 0x400 (argv ++ envp)) (base + 0x200) 0xAB 16.

Lemma imap_pointers {A} (l : list A) (f : nat → Z) :
  imap (λ i _, f i) l = (λ i, f (Z.to_nat i)) <$> seqZ 0 (Z.of_nat (length l)).
Proof.
  apply list_eq. intros i. rewrite list_lookup_imap, list_lookup_fmap.
  destruct (decide (i < length l)%nat) as [Hi|Hi].
  - destruct (lookup_lt_is_Some_2 l i Hi) as [x ->]. rewrite lookup_seqZ_lt by lia. cbn. f_equal. f_equal. lia.
  - rewrite (lookup_ge_None_2 l), (lookup_ge_None_2 (seqZ _ _)); [done|rewrite length_seqZ; lia|lia].
Qed.

Lemma set_mem_set_mem m m' s : set_mem m (set_mem m' s) = set_mem m s.
Proof. reflexivity. Qed.

Lemma build_stack_run base stack_top argv envp at_phdr phent phnum entry s :
  0 ≤ base → base + 0x1000 < 2 ^ 63 → 0 ≤ stack_top → stack_top + 0x1000 < 2 ^ 63 →
  (length argv + length envp ≤ 12)%nat →
  build_stack base stack_top argv envp at_phdr phent phnum entry s =
    Ret (stack_top, set_mem (stack_mem (mm_mem s) base stack_top argv envp
                               (aux_vector stack_top at_phdr phent phnum entry)) s).
Proof.
  intros Hb Hb' Ht Ht' Hn. unfold build_stack, bind, store64, write_bytes, modify, ret. cbv zeta.
  repeat (rewrite store_words_run; cbn [set_mem mm_mem mm_heap mm_pages]).
  repeat (rewrite store_strings_run; cbn [set_mem mm_mem mm_heap mm_pages]).
  rewrite (imap_pointers argv (λ i, stack_top +w 0x400 +w Z.of_nat i * 0x100)).
  rewrite (imap_pointers envp (λ i, stack_top +w 0x400 +w Z.of_nat (length argv) * 0x100 +w Z.of_nat i * 0x100)).
  rewrite !set_mem_set_mem. do 3 f_equal. unfold stack_mem. rewrite wr_strings_app by lia. unwrap. f_equal. f_equal. f_equal.
  set (P := _ <$> seqZ 0 (Z.of_nat (length argv))). set (E := _ <$> seqZ 0 (Z.of_nat (length envp))).
  assert (length P = length argv) as HP by (unfold P; rewrite length_fmap, length_seqZ; lia).
  assert (length E = length envp) as HE by (unfold E; rewrite length_fmap, length_seqZ; lia).
  assert (stack_words stack_top (length argv) (length envp) (aux_vector stack_top at_phdr phent phnum entry) =
    [Z.of_nat (length argv)] ++ P ++ [0] ++ E ++ [0] ++ aux_vector stack_top at_phdr phent phnum entry) as ->.
  { unfold stack_words. f_equal. f_equal; [ | f_equal; f_equal].
    - apply list_fmap_ext. intros i x Hx. apply lookup_seqZ in Hx as [-> Hi]. unwrap. lia.
    - rewrite <-(Z.add_0_r (Z.of_nat (length argv))) at 1. rewrite <-fmap_add_seqZ, <-list_fmap_compose.
      apply list_fmap_ext. intros i x Hx. apply lookup_seqZ in Hx as [-> Hi]. cbn. unwrap. lia. }
  clearbody P E.
  rewrite (wr_words_app [_]), (wr_words_app P), (wr_words_app [0]), (wr_words_app E), (wr_words_app [0])
    by (cbn [length]; lia).
  rewrite HP, HE. cbn [wr_words length]. unwrap. f_equal; [|lia]. f_equal; [|lia]. f_equal; [|lia]. f_equal; lia.
Qed.

Lemma stack_mem_layout m base stack_top argv envp aux : 0 ≤ base → base + 0x1000 < 2 ^ 63 →
  0 ≤ stack_top → stack_top + 0x1000 < 2 ^ 63 → (length argv + length envp ≤ 12)%nat →
  Forall (λ s, (String.length s < 256)%nat) (argv ++ envp) → length aux = 16%nat → Forall in_usize aux →
  stack_layout (stack_mem m base stack_top argv envp aux) base stack_top argv envp aux ∧
  (∀ x, x < base ∨ base + 0x1000 ≤ x → rd8 (stack_mem m base stack_top argv envp aux) x = rd8 m x).
Proof.
  intros Hb Hb' Ht Ht' Hn Hs Hla Haux. unfold stack_mem. set (ws := stack_words _ _ _ _).
  assert (length ws = (19 + length argv + length envp)%nat) as Hlw.
  { unfold ws, stack_words. rewrite !length_app, !length_fmap, !length_seqZ, Hla. cbn [length]. lia. }
  assert (Forall in_usize ws) as Hws.
  { unfold ws, stack_words, in_usize. rewrite !Forall_app, !Forall_fmap. split_and!; [by constructor; [lia|]|..| |done].
    - apply Forall_forall. intros i Hi%elem_of_seqZ. cbn. lia.
    - by constructor.
    - apply Forall_forall. intros i Hi%elem_of_seqZ. cbn. lia.
    - by constructor. }
  destruct (wr_words_spec ws m base) as [Hw1 Hw2]; [lia|lia|done|].
  destruct (wr_strings_spec base (argv ++ envp) (wr_words m base ws) 0x400) as [Hs1 Hs2];
    [lia|lia|rewrite length_app; lia|done|].
  rewrite length_app in Hs2. split; [split|].
  - intros i w Hi. pose proof (lookup_lt_Some _ _ _ Hi) as Hlt. fold ws in Hi, Hlt.
    rewrite rd64_fill_out by lia. rewrite <-(Hw1 i w Hi). apply rd64_ext. intros x Hx. apply Hs2. lia.
  - intros i str Hi. pose proof (lookup_lt_Some _ _ _ Hi) as Hlt. rewrite length_app in Hlt.
    destruct (Hs1 i str Hi) as [H1 H2]. cbv zeta in *.
    assert (String.length str < 256)%nat by (by eapply (Forall_lookup_1 _ _ i str Hs)).
    rewrite rd8_fill, decide_False by lia. split; [|done]. rewrite <-H1. apply rd_bytes_ext.
    intros x Hx. by rewrite rd8_fill, decide_False by lia.
  - intros x Hx. by rewrite rd8_fill, decide_True by lia.
  - intros x Hx. rewrite rd8_fill, decide_False, Hs2, Hw2 by lia. done.
Qed.

(** ** The stack pages *)

Definition STACK_VPN : Z := 0x3ffffff.
Definition stack_flags : PTEFlags := PTE_U |f PTE_R |f PTE_W.

Lemma stack_flags_user : user_flags stack_flags.
Proof. by vm_compute. Qed.

Lemma kernel_view_high v : 0x88000 ≤ v → kernel_view v = None.
Proof. intros Hv. unfold kernel_view. by rewrite !decide_False by lia. Qed.

Definition is_stack (v : Z) : Prop := STACK_VPN - 8 ≤ v ≤ STACK_VPN.

Lemma alloc_map_page pt va fl v s : let root := root_ppn pt in va = v * 4096 → vpn_ok v → user_flags fl →
  as_inv root s → kernel_view v = None → view (mm_mem s) root v = None →
  cur s + 3 * 4096 ≤ page_end (mm_pages s) →
  wp (alloc_map pt va fl) s (λ o s', o = Some (cur s) ∧ fresh_page root s s' v fl ∧ page_is root s' v fl (λ _, 0) ∧
    user_entry (mm_mem s') root v = Some (mapped_pte (cur s) fl) ∧ pte_ppn (mapped_pte (cur s) fl) * 4096 = cur s).
Proof.
  intros root -> Hv Hfl Hs Hk Hn Hfit. assert (v * 4096 / 4096 = v) as Ev by (apply Z.div_mul; lia).
  eapply wp_mono; [apply alloc_map_spec; fold root; rewrite ?Ev; done|].
  fold root. rewrite Ev. intros o s' (-> & Hfp & Hz). split; [done|]. split; [done|].
  destruct (fresh_page_user _ _ _ _ _ Hfp Hv Hfl Hs) as (Hu & Hppn & Hpf). split; [|done].
  exists (mapped_pte (cur s) fl). split; [done|]. split; [done|]. intros x Hx. rewrite Hppn. by apply Hz.
Qed.

Lemma map_stack_spec pt n : let root := root_ppn pt in ∀ i top s, 0 ≤ i → i + Z.of_nat n ≤ 9 → as_inv root s →
  (∀ j, i ≤ j < i + Z.of_nat n → view (mm_mem s) root (STACK_VPN - j) = None) →
  cur s + 3 * 4096 * Z.of_nat n ≤ page_end (mm_pages s) →
  wp (map_stack pt (seqZ i (Z.of_nat n)) top) s (λ o s', as_ext root s s' ∧
    cur s' ≤ cur s + 3 * 4096 * Z.of_nat n ∧
    (∀ j, i ≤ j < i + Z.of_nat n → page_is root s' (STACK_VPN - j) stack_flags (λ _, 0)) ∧
    (∀ v, vpn_ok v → ¬ (STACK_VPN - (i + Z.of_nat n) < v ≤ STACK_VPN - i) → view (mm_mem s') root v = view (mm_mem s) root v) ∧
    (0 < i → o = Some top) ∧
    (i = 0 → (0 < n)%nat → ∃ e, user_entry (mm_mem s') root STACK_VPN = Some e ∧ o = Some (pte_ppn e * 4096))).
Proof.
  intros root. induction n as [|n IH]; intros i top s Hi Hn Hs Hnone Hfit.
  { rewrite seqZ_nil by lia. apply wp_ret. split_and!; [by apply as_ext_refl|lia|lia|done|done|lia]. }
  rewrite seqZ_cons by lia. cbn [map_stack]. replace (Z.pred (Z.of_nat (S n))) with (Z.of_nat n) by lia.
  unfold PAGE_SIZE. assert (STACK_TOP -w i *w 4096 = (STACK_VPN - i) * 4096) as Eva.
  { unfold STACK_TOP, STACK_VPN. unwrap. lia. }
  assert (vpn_ok (STACK_VPN - i)) as Hvk by (unfold vpn_ok, STACK_VPN; lia).
  apply wp_try_opt. eapply wp_mono.
  { apply (alloc_map_page pt _ _ (STACK_VPN - i)); fold root; try done; [
      apply kernel_view_high; unfold STACK_VPN; lia|apply Hnone; lia|lia]. }
  fold root. intros o s1 (-> & Hfp & Hpg & Hu & Hppn). pose proof (fp_ext _ _ _ _ _ Hfp) as He.
  pose proof (fp_cur _ _ _ _ _ Hfp). pose proof (ext_end _ _ _ He).
  eapply wp_mono; [apply (IH (Z.succ i)); [lia|lia|apply He| |lia]|].
  { intros j Hj. rewrite (fp_view _ _ _ _ _ Hfp) by (unfold vpn_ok, STACK_VPN; lia).
    rewrite decide_False by lia. apply Hnone. lia. }
  intros o s2 (He2 & Hc2 & Hp2 & Ho2 & Htop & _). split_and!.
  - by eapply as_ext_trans.
  - lia.
  - intros j Hj. destruct (decide (j = i)) as [->|]; [|apply Hp2; lia].
    apply (page_is_ext root s1); [apply He|done|done|done].
  - intros v Hv Hnv. rewrite Ho2 by (done || lia). rewrite (fp_view _ _ _ _ _ Hfp) by done.
    by rewrite decide_False by lia.
  - intros Hi0. rewrite Htop by lia. destruct (Z.eqb_spec i 0); [lia|done].
  - intros -> _. exists (mapped_pte (cur s) stack_flags). rewrite Z.sub_0_r in Hu.
    split; [by apply (as_ext_user root s1); [|unfold vpn_ok, STACK_VPN|]|]. rewrite Htop by lia. f_equal. symmetry. exact Hppn.
Qed.

(** ** The whole image *)

Lemma align_elf_run d s : heap_ok (mm_heap s) → Z.of_nat (length d) ≤ 2 ^ 63 - 16 →
  let ptr := align_up (heap_current (mm_heap s)) 4 in
  ptr + Z.of_nat (length d) ≤ heap_end (mm_heap s) →
  align_elf d s = Ret (Some ptr, set_mem (wr_bytes (mm_mem s) ptr d)
    (set_heap {| heap_current := ptr + Z.of_nat (length d); heap_end := heap_end (mm_heap s) |} s)).
Proof.
  intros Hok Hlen ptr Hfit. unfold align_elf, elf_layout.
  destruct (Z.leb_spec (Z.of_nat (length d)) (2 ^ 63 - 16)); [|lia].
  set (l := {| layout_size := Z.of_nat (length d); layout_align := 16 |}).
  assert (layout_ok l) as Hl by (split_and!; [cbn; lia|by exists 4|cbn; lia]).
  destruct (heap_alloc_cases s l Hok Hl) as (k & Hk & Hk0 & Hc). cbn [layout_align l] in Hk.
  assert (k = 4) as -> by (apply (Z.pow_inj_r 2); lia).
  destruct Hc as [[_ E]|[Hbad _]]; [|cbn in Hbad; fold ptr in Hbad; lia].
  unfold bind. rewrite E. fold ptr. destruct (align_up_spec (heap_current (mm_heap s)) 4) as [Hp _]; [lia|].
  fold ptr in Hp. destruct Hok as [Hh _]. destruct (Z.eqb_spec ptr 0); [lia|]. done.
Qed.

(** Writes above the frames in use, as [align_elf] makes them. *)
Lemma page_is_above root s m' h v fl c : as_inv root s → (∀ x, x < cur s → rd8 m' x = rd8 (mm_mem s) x) →
  as_inv root (set_mem m' (set_heap h s)) ∧ (∀ w, view m' root w = view (mm_mem s) root w) ∧
  (vpn_ok v → page_is root s v fl c → page_is root (set_mem m' (set_heap h s)) v fl c).
Proof.
  intros Hs Hm. destruct (as_inv_write root s m' Hs) as (Hi & Hv & Ht).
  { intros t x (p & Hp & Htp) Hx. apply Hm. destruct (wf_range _ _ _ (proj1 (as_pt _ _ Hs)) p t Hp Htp). lia. }
  split; [|split; [done|]].
  - destruct Hi as [[? ?] ? ?]. split; [split|..]; done.
  - intros Hvk (e & Hu & Hf & Hx). destruct (as_user _ _ Hs v e Hvk Hu) as (_ & ? & ? & _).
    exists e. cbn [mm_mem set_mem]. split; [unfold user_entry in *; by rewrite Hv|]. split; [done|].
    intros x Hxr. rewrite Hm by lia. by apply Hx.
Qed.

(** Writes into the frame of one user page. *)
Lemma page_is_other root s m' v0 e0 : as_inv root s → vpn_ok v0 → user_entry (mm_mem s) root v0 = Some e0 →
  (∀ x, x < pte_ppn e0 * 4096 ∨ pte_ppn e0 * 4096 + 4096 ≤ x → rd8 m' x = rd8 (mm_mem s) x) →
  as_inv root (set_mem m' s) ∧ (∀ w, view m' root w = view (mm_mem s) root w) ∧
  (∀ v fl c, vpn_ok v → v ≠ v0 → page_is root s v fl c → page_is root (set_mem m' s) v fl c).
Proof.
  intros Hs Hv0 Hu0 Hm. destruct (as_user _ _ Hs v0 e0 Hv0 Hu0) as (_ & H0 & H1 & H2).
  destruct (as_inv_write root s m' Hs) as (Hi & Hv & Ht).
  { intros t x Htb Hx. apply Hm. assert (pte_ppn e0 ≠ t) by (intros <-; done). lia. }
  split; [done|]. split; [done|]. intros v fl c Hvk Hne (e & Hu & Hf & Hx).
  assert (pte_ppn e ≠ pte_ppn e0) by (intros E; apply Hne; by apply (as_inj _ _ Hs v v0 e e0)).
  exists e. cbn [mm_mem set_mem]. split; [unfold user_entry in *; by rewrite Hv|]. split; [done|].
  intros x Hxr. rewrite Hm by lia. by apply Hx.
Qed.

Definition elf_byte (d : list Z) (i : Z) : Z := default 0 (d !! Z.to_nat i).

(** The address space of a freshly loaded program. *)
Record image_loaded (root : Z) (s' : mm) (elf : ElfFile) (d : list Z) (argv envp : list string) : Prop := {
  il_inv : as_inv root s';
  il_segments : ∀ ph v, ph ∈ program_iter elf → ph_type ph = Some Load → seg_first ph ≤ v ≤ seg_last ph →
    page_is root s' v (segment_flags ph) (seg_byte (elf_byte d) ph);
  il_stack : ∀ v, STACK_VPN - 8 ≤ v < STACK_VPN → page_is root s' v stack_flags (λ _, 0);
  il_top : ∃ e, user_entry (mm_mem s') root STACK_VPN = Some e ∧
    pte_flags e = stack_flags |f PTE_V |f PTE_A |f PTE_D ∧
    stack_layout (mm_mem s') (pte_ppn e * 4096) STACK_TOP argv envp
      (aux_vector STACK_TOP (base_vaddr elf +w phdr_offset elf) (ph_entry_size elf) (ph_count elf) (entry_point elf));
  il_other : ∀ v, vpn_ok v → ¬ in_seg (program_iter elf) v → ¬ is_stack v →
    view (mm_mem s') root v = kernel_view v
}.

(** What the parser reports fits its fields. *)
Definition elf_fields_ok (elf : ElfFile) : Prop :=
  in_usize (entry_point elf) ∧ in_usize (ph_entry_size elf) ∧ in_usize (ph_count elf).

Lemma aux_vector_ok elf : elf_fields_ok elf →
  Forall in_usize (aux_vector STACK_TOP (base_vaddr elf +w phdr_offset elf) (ph_entry_size elf) (ph_count elf) (entry_point elf)).
Proof.
  intros (? & ? & ?). pose proof (wrap64_range (base_vaddr elf + phdr_offset elf)).
  unfold aux_vector. rewrite !Forall_cons. split_and!; done.
Qed.

Section LoadImageSpec.
Context (elf_new : list Z → option ElfFile).
Context (pt : PageTable) (d : list Z) (elf : ElfFile) (argv envp : list string) (s : mm).
Let root := root_ppn pt.
Let phs := program_iter elf.
Let len := Z.of_nat (length d).

Context (Hbytes : Forall (λ b, 0 ≤ b < 256) d) (Hparse : elf_new d = Some elf) (Hfields : elf_fields_ok elf).
Context (Hsegs : segs_ok len phs).
Context (Huser : ∀ v, in_seg phs v → kernel_view v = None ∧ ¬ is_stack v).
Context (Hargs : (length argv + length envp ≤ 12)%nat).
Context (Hstr : Forall (λ s, (String.length s < 256)%nat) (argv ++ envp)).
Context (Hs : as_inv root s) (Hfresh : ∀ v, vpn_ok v → view (mm_mem s) root v = kernel_view v).
Context (Hheap : heap_ok (mm_heap s)) (Hroom : heap_current (mm_heap s) + 16 + len ≤ heap_end (mm_heap s)).
Context (Hbelow : cur s + 3 * 4096 * (9 + total_pages phs) ≤ heap_current (mm_heap s)).
Context (Hframes : cur s + 3 * 4096 * (9 + total_pages phs) ≤ page_end (mm_pages s)).

(** The stack pages, then the copy of the image on the heap. *)
Record image_ready (e : PageTableEntry) (ptr : Z) (s2 : mm) : Prop := {
  ir_inv : as_inv root s2;
  ir_cur : cur s2 ≤ cur s + 3 * 4096 * 9;
  ir_end : page_end (mm_pages s2) = page_end (mm_pages s);
  ir_ptr : heap_current (mm_heap s) ≤ ptr ∧ ptr + len < 2 ^ 62;
  ir_image : ∀ i, 0 ≤ i < len → image ptr s2 i = elf_byte d i;
  ir_bytes : rd_bytes (mm_mem s2) ptr len = d;
  ir_stack : ∀ v, is_stack v → page_is root s2 v stack_flags (λ _, 0);
  ir_top : user_entry (mm_mem s2) root STACK_VPN = Some e;
  ir_other : ∀ v, vpn_ok v → ¬ is_stack v → view (mm_mem s2) root v = kernel_view v
}.

Lemma image_ready_spec : wp (let? top := map_stack pt (seqZ 0 9) 0 in let? ptr := align_elf d in ret (Some (top, ptr))) s
  (λ o s2, ∃ e ptr, o = Some (pte_ppn e * 4096, ptr) ∧ image_ready e ptr s2).
Proof.
  pose proof (total_pages_nonneg len phs Hsegs) as Htp. pose proof Hheap as [Hh0 Hh1].
  apply wp_try_opt. eapply wp_mono.
  { apply (map_stack_spec pt 9 0 0 s); fold root; [lia|lia|done| |lia].
    intros j Hj. rewrite Hfresh by (unfold vpn_ok, STACK_VPN; lia). apply kernel_view_high. unfold STACK_VPN. lia. }
  fold root. intros o s1 (He1 & Hc1 & Hp1 & Ho1 & _ & Htop). destruct (Htop eq_refl) as (e & Hu1 & ->); [lia|]. clear Htop.
  pose proof (ext_heap _ _ _ He1) as Hheap1.
  destruct (align_up_spec (heap_current (mm_heap s)) 4) as [Hptr _]; [lia|]. change (2 ^ 4) with 16 in Hptr.
  assert (heap_ok (mm_heap s1)) as Hhok1 by by rewrite Hheap1.
  pose proof (align_elf_run d s1 Hhok1) as E. cbv zeta in E. rewrite Hheap1 in E. fold len in E.
  set (ptr := align_up (heap_current (mm_heap s)) 4) in *.
  apply wp_try_opt. eapply wp_of_run; [apply E; lia|]. apply wp_ret. exists e, ptr. split; [done|].
  set (h := {| heap_current := ptr + len; heap_end := heap_end (mm_heap s) |}).
  assert (∀ x, x < cur s1 → rd8 (wr_bytes (mm_mem s1) ptr d) x = rd8 (mm_mem s1) x) as Hwr.
  { intros x Hx. apply rd8_wr_bytes_out. lia. }
  pose proof (λ v fl c, page_is_above root s1 (wr_bytes (mm_mem s1) ptr d) h v fl c (ext_inv _ _ _ He1) Hwr) as Hab.
  destruct (Hab 0 0 (λ _, 0)) as (Hi2 & Hv2 & _).
  split; [done|done|apply He1|lia|..]; cbn [mm_mem set_mem].
  - intros i Hi. unfold image, elf_byte. cbn [mm_mem set_mem].
    destruct (lookup_lt_is_Some_2 d (Z.to_nat i)) as [b Hb]; [unfold len in Hi; lia|].
    erewrite rd8_wr_bytes_in; [|lia|rewrite Z.add_simpl_l; exact Hb]. rewrite Hb. cbn.
    apply u8_small. by apply (Forall_lookup_1 _ _ _ _ Hbytes Hb).
  - by apply rd_bytes_wr_bytes_same.
  - intros v Hv. apply Hab; [unfold is_stack, vpn_ok, STACK_VPN in *; lia|].
    replace v with (STACK_VPN - (STACK_VPN - v)) by lia. apply Hp1. unfold is_stack in Hv. lia.
  - unfold user_entry in *. by rewrite Hv2.
  - intros v Hvk Hn. rewrite Hv2, Ho1, Hfresh; [done|done|done|]. unfold is_stack in Hn. lia.
Qed.

(** The segments and the initial stack. *)
Lemma image_fill_spec e ptr s2 : image_ready e ptr s2 →
  wp (let? max_end := load_elf_into pt ptr elf in
      let! sp := build_stack (pte_ppn e * 4096) STACK_TOP argv envp (base_vaddr elf +w phdr_offset elf)
                   (ph_entry_size elf) (ph_count elf) (entry_point elf) in
      ret (Some (elf, max_end, sp))) s2
    (λ o s', o = Some (elf, segs_end phs 0, STACK_TOP) ∧ image_loaded root s' elf d argv envp).
Proof.
  intros [Hi2 Hc2 Hend2 [Hp1 Hp2] Him _ Hst Htop Hoth].
  pose proof (total_pages_nonneg len phs Hsegs) as Htp.
  apply wp_try_opt. eapply wp_mono.
  { apply (load_segments_spec pt ptr len phs 0 s2); fold root; [done|done| |lia|lia|lia].
    intros v Hv. destruct (Huser v Hv) as [Hk Hns]. split; [done|]. rewrite Hoth; [done| |done].
    destruct Hv as (ph & Hph & Ht & Hv). pose proof (seg_pages_range len ph (segs_ok_elem len phs ph Hsegs Hph Ht)).
    unfold vpn_ok. lia. }
  fold root. intros o s3 (-> & He3 & Hc3 & Hseg3 & Ho3).
  assert (vpn_ok STACK_VPN) as Hsv by (unfold vpn_ok, STACK_VPN; lia).
  pose proof (as_ext_user root s2 s3 _ _ He3 Hsv Htop) as Hu3.
  destruct (as_user _ _ (ext_inv _ _ _ He3) _ _ Hsv Hu3) as (_ & Hb0 & Hb1 & _).
  destruct (as_pt _ _ (ext_inv _ _ _ He3)) as [_ (_ & Hpe & _)]. pose proof (ext_end _ _ _ He3).
  assert (cur s3 < 2 ^ 56) as Hc56 by (destruct (as_pt _ _ (ext_inv _ _ _ He3)) as [_ (? & ? & _)]; lia).
  apply wp_bind. eapply wp_of_run; [apply build_stack_run; unfold STACK_TOP; lia || done|]. apply wp_ret.
  split; [done|]. set (aux := aux_vector _ _ _ _ _).
  destruct (stack_mem_layout (mm_mem s3) (pte_ppn e * 4096) STACK_TOP argv envp aux) as [Hlay Hout];
    [lia|lia|unfold STACK_TOP; lia|unfold STACK_TOP; lia|done|done|done|by apply aux_vector_ok|].
  destruct (page_is_other root s3 _ STACK_VPN e (ext_inv _ _ _ He3) Hsv Hu3 Hout) as (Hi4 & Hv4 & Hpg4).
  split; cbn [mm_mem set_mem].
  - done.
  - intros ph v Hph Ht Hv. pose proof (seg_pages_range len ph (segs_ok_elem len phs ph Hsegs Hph Ht)).
    destruct (Huser v) as [_ Hns]; [by exists ph|].
    apply Hpg4; [unfold vpn_ok; lia|intros ->; apply Hns; unfold is_stack, STACK_VPN; lia|].
    eapply page_is_content; [|by apply (Hseg3 ph)]. apply (seg_byte_ext len); [by eapply (segs_ok_elem len)|].
    intros i Hi. by apply Him.
  - intros v Hv. apply Hpg4; [unfold vpn_ok, STACK_VPN in *; lia|lia|].
    apply (page_is_ext root s2); [done|done|unfold vpn_ok, STACK_VPN in *; lia|]. apply Hst. unfold is_stack. lia.
  - exists e. split; [unfold user_entry in *; by rewrite Hv4|]. split; [|done].
    destruct (Hst STACK_VPN) as (e' & Hu' & Hf' & _); [unfold is_stack; lia|]. congruence.
  - intros v Hvk Hns Hnst. rewrite Hv4, Ho3, Hoth; done.
Qed.

Lemma load_image_spec : wp (load_image elf_new pt d argv envp) s (λ o s',
  o = Some (elf, segs_end phs 0, STACK_TOP) ∧ image_loaded root s' elf d argv envp).
Proof.
  pose proof image_ready_spec as H. apply wp_run in H as (o & s2 & E & e & ptr & -> & Hr).
  unfold try_opt, bind in E.
  destruct (map_stack pt (seqZ 0 9) 0 s) as [[[top|] s1]| | |] eqn:E1; try done.
  destruct (align_elf d s1) as [[[p|] s2']| | |] eqn:E2; try done. injection E as -> -> ->.
  unfold load_image. apply wp_try_opt. eapply wp_of_run; [exact E1|].
  apply wp_try_opt. eapply wp_of_run; [exact E2|]. apply wp_bind, wp_gets. fold len.
  rewrite (ir_bytes _ _ _ Hr), Hparse. by apply image_fill_spec.
Qed.
End LoadImageSpec.
