(* ===== verification/Net.v ===== *)
(** * The socket layer of [net.rs]

    The TCP/IP stack is the crate [smoltcp] on top of [virtio_drivers]; the
    class [NetStack] is the interface [net.rs] uses of them, over an abstract
    stack state. The kernel's own part is modelled in full: which descriptor is
    bound to which socket handle, the listening descriptor, the epoll data, and
    the calls that accept, receive, send, close and poll. *)

From S2P Require Import Prelude Machine.

(** ** The interface of the stack *)

Class NetStack (NS : Type) := {
  (* [Interface::poll] at a time in milliseconds, with the device *)
  ns_poll : Z → NS → NS;
  (* [SocketSet::add] of a new TCP socket; it panics on a full set *)
  ns_add : NS → option (Z * NS);
  (* the handle is in the set: [get_mut] and [remove] panic otherwise *)
  ns_has : NS → Z → bool;
  (* [Socket::listen(port).ok()] *)
  ns_listen : Z → Z → NS → option NS;
  ns_is_listening : NS → Z → bool;
  ns_is_open : NS → Z → bool;
  ns_can_recv : NS → Z → bool;
  ns_can_send : NS → Z → bool;
  (* the contiguous bytes [recv] shows to its closure; [None] for an error *)
  ns_recv : NS → Z → option (list Z);
  ns_recv_consume : Z → Z → NS → NS;
  (* the length of the contiguous space [send] shows to its closure *)
  ns_send : NS → Z → option Z;
  ns_send_put : Z → list Z → NS → NS;
  ns_remove : Z → NS → NS
}.

(** The globals of [net.rs] and the [time] counter: [n_clock i] is the value
    that reading number [i] returns. *)
Record Net (NS : Type) := {
  n_device : bool;
  n_stack : NS;
  n_handles : gmap Z Z;
  n_epoll : gmap Z Z;
  n_listen : option Z;
  n_clock : nat → Z;
  n_reads : nat
}.
Arguments n_device {NS} _.
Arguments n_stack {NS} _.
Arguments n_handles {NS} _.
Arguments n_epoll {NS} _.
Arguments n_listen {NS} _.
Arguments n_clock {NS} _.
Arguments n_reads {NS} _.

Section Net.
Context {NS : Type} `{NetStack NS}.
Implicit Types n : Net NS.

Definition sn_stack (x : NS) n : Net NS :=
  {| n_device := n_device n; n_stack := x; n_handles := n_handles n; n_epoll := n_epoll n;
     n_listen := n_listen n; n_clock := n_clock n; n_reads := n_reads n |}.
Definition sn_handles (x : gmap Z Z) n : Net NS :=
  {| n_device := n_device n; n_stack := n_stack n; n_handles := x; n_epoll := n_epoll n;
     n_listen := n_listen n; n_clock := n_clock n; n_reads := n_reads n |}.
Definition sn_epoll (x : gmap Z Z) n : Net NS :=
  {| n_device := n_device n; n_stack := n_stack n; n_handles := n_handles n; n_epoll := x;
     n_listen := n_listen n; n_clock := n_clock n; n_reads := n_reads n |}.
Definition sn_listen (x : option Z) n : Net NS :=
  {| n_device := n_device n; n_stack := n_stack n; n_handles := n_handles n; n_epoll := n_epoll n;
     n_listen := x; n_clock := n_clock n; n_reads := n_reads n |}.

(** [rdtime]. *)
Definition rdtime : M (Net NS) Z := λ n,
  Ret (n_clock n (n_reads n),
    {| n_device := n_device n; n_stack := n_stack n; n_handles := n_handles n; n_epoll := n_epoll n;
       n_listen := n_listen n; n_clock := n_clock n; n_reads := S (n_reads n) |}).

Definition get_time_ms : M (Net NS) Z :=
  let! time := rdtime in ret (time / 10000).

Definition poll_network : M (Net NS) unit :=
  let! dev := gets n_device in
  if dev then
    let! timestamp := get_time_ms in
    modify (λ n, sn_stack (ns_poll timestamp (n_stack n)) n)
  else ret tt.

(** [sockets.get_mut(handle)]. *)
Definition get_socket (handle : Z) : M (Net NS) unit :=
  let! st := gets n_stack in if ns_has st handle then ret tt else panic.

Definition create_listen_socket : M (Net NS) (option Z) :=
  let! st := gets n_stack in
  match ns_add st with
  | None => panic
  | Some (handle, st1) =>
      do! modify (sn_stack st1) in
      do! get_socket handle in
      match ns_listen handle 80 st1 with
      | Some st2 => do! modify (sn_stack st2) in ret (Some handle)
      | None => ret None
      end
  end.

Definition bind_listen_fd (fd : Z) : M (Net NS) unit :=
  let! l := gets n_listen in
  if bool_decide (l = Some fd) then ret tt
  else
    let! o := create_listen_socket in
    match o with
    | Some handle =>
        do! modify (λ n, sn_handles (<[fd := handle]> (n_handles n)) n) in
        modify (sn_listen (Some fd))
    | None => ret tt
    end.

Definition set_epoll_data (fd d : Z) : M (Net NS) unit :=
  modify (λ n, sn_epoll (<[fd := d]> (n_epoll n)) n).

Definition is_listen_readable : M (Net NS) bool :=
  let! l := gets n_listen in
  match l with
  | None => ret false
  | Some fd =>
      do! poll_network in
      let! hs := gets n_handles in
      match hs !! fd with
      | Some handle =>
          do! get_socket handle in
          gets (λ n, negb (ns_is_listening (n_stack n) handle) && ns_is_open (n_stack n) handle)
      | None => ret false
      end
  end.

Definition accept_connection (fd : Z) : M (Net NS) (option Z) :=
  let? listen_fd := gets n_listen in
  if negb (fd =? listen_fd) then ret None
  else
    do! poll_network in
    let? handle := gets (λ n, n_handles n !! listen_fd) in
    do! get_socket handle in
    let! l := gets (λ n, ns_is_listening (n_stack n) handle) in
    if l then ret None
    else
      let? new_handle := create_listen_socket in
      do! modify (λ n, sn_handles (<[listen_fd := new_handle]> (n_handles n)) n) in
      ret (Some handle).

(** [recv_from_fd] on a buffer of [len] bytes: the returned value and the bytes
    stored at the start of the buffer. *)
Definition recv_from_fd (fd len : Z) : M (Net NS) (Z * list Z) :=
  do! poll_network in
  let! hs := gets n_handles in
  match hs !! fd with
  | Some handle =>
      do! get_socket handle in
      let! st := gets n_stack in
      if negb (ns_can_recv st handle) then
        ret (if ns_is_open st handle then -11 else 0, [])
      else
        match ns_recv st handle with
        | Some d =>
            let n := Z.min (Z.of_nat (length d)) len in
            do! modify (sn_stack (ns_recv_consume handle n st)) in
            ret (n, take (Z.to_nat n) d)
        | None => ret (0, [])
        end
  | None => ret (-1, [])
  end.

Definition send_to_fd (fd : Z) (buf : list Z) : M (Net NS) Z :=
  do! poll_network in
  let! hs := gets n_handles in
  match hs !! fd with
  | Some handle =>
      do! get_socket handle in
      let! st := gets n_stack in
      if negb (ns_can_send st handle) then
        ret (if ns_is_open st handle then -11 else -32)
      else
        match ns_send st handle with
        | Some room =>
            let n := Z.min room (Z.of_nat (length buf)) in
            do! modify (sn_stack (ns_send_put handle (take (Z.to_nat n) buf) st)) in
            ret n
        | None => ret 0
        end
  | None => ret (-1)
  end.

Definition close_fd (fd : Z) : M (Net NS) unit :=
  let! l := gets n_listen in
  if bool_decide (l = Some fd) then modify (λ n, sn_epoll (delete fd (n_epoll n)) n)
  else
    let! hs := gets n_handles in
    do! match hs !! fd with
        | Some handle =>
            do! modify (sn_handles (delete fd hs)) in
            do! get_socket handle in
            modify (λ n, sn_stack (ns_remove handle (n_stack n)) n)
        | None => ret tt
        end in
    modify (λ n, sn_epoll (delete fd (n_epoll n)) n).

Definition add_fd_handle (fd handle : Z) : M (Net NS) unit :=
  modify (λ n, sn_handles (<[fd := handle]> (n_handles n)) n).

Definition is_socket_fd (fd : Z) : M (Net NS) bool :=
  gets (λ n, bool_decide (is_Some (n_handles n !! fd))).

(** The readiness mask of a socket. *)
Definition revents_of (st : NS) (handle : Z) : Z :=
  let r := if ns_can_recv st handle || (negb (ns_is_listening st handle) && ns_is_open st handle)
           then 1 else 0 in
  if ns_can_send st handle then Z.lor r 4 else r.

(** The loop of [get_epoll_events]: the [(events, data)] pairs it stores. *)
Fixpoint epoll_scan (st : NS) (ed : gmap Z Z) (maxevents count : Z) (l : list (Z * Z)) : M (Net NS) (list (Z * Z)) :=
  match l with
  | [] => ret []
  | (fd, handle) :: l' =>
      if maxevents <=? count then ret []
      else
        do! get_socket handle in
        let revents := revents_of st handle in
        if negb (revents =? 0) then
          let! rest := epoll_scan st ed maxevents (count + 1) l' in
          ret ((revents, default fd (ed !! fd)) :: rest)
        else epoll_scan st ed maxevents count l'
  end.

Definition get_epoll_events (maxevents : Z) : M (Net NS) (list (Z * Z)) :=
  do! poll_network in
  let! n := gets id in
  epoll_scan (n_stack n) (n_epoll n) maxevents 0 (bt_iter (n_handles n)).
End Net.
