(* ===== verification/NetSpec.v ===== *)
(** * The socket layer keeps its handles valid

    [smoltcp]'s [SocketSet::get_mut] and [SocketSet::remove] panic on a handle
    that is not in the set. The laws below are what the crate documents of its
    handles; under them no operation of [net.rs] ever uses a stale one. *)

From S2P Require Import Prelude Machine Net.

Class NetLaws (NS : Type) `{NetStack NS} := {
  (* polling the interface neither adds nor removes sockets *)
  nl_poll : ∀ t st h, ns_has (ns_poll t st) h = ns_has st h;
  (* a new socket gets a handle that was not in use *)
  nl_add : ∀ st h st', ns_add st = Some (h, st') →
    ns_has st h = false ∧ ∀ g, ns_has st' g = bool_decide (g = h) || ns_has st g;
  nl_listen : ∀ h port st st' g, ns_listen h port st = Some st' → ns_has st' g = ns_has st g;
  nl_recv : ∀ h n st g, ns_has (ns_recv_consume h n st) g = ns_has st g;
  nl_send : ∀ h l st g, ns_has (ns_send_put h l st) g = ns_has st g;
  nl_remove : ∀ h st g, ns_has (ns_remove h st) g = ns_has st g && negb (bool_decide (g = h))
}.

(** The operations the system calls perform. *)
Inductive net_op :=
  | OBind (fd : Z)
  | OAccept (fd new_fd : Z)
  | ORecv (fd len : Z)
  | OSend (fd : Z) (buf : list Z)
  | OClose (fd : Z)
  | OEpoll (maxevents : Z)
  | OReadable
  | OData (fd d : Z).

Section NetSpec.
Context {NS : Type} `{NetLaws NS}.
Implicit Types n : Net NS.

Definition run_op (op : net_op) : M (Net NS) unit :=
  match op with
  | OBind fd => bind_listen_fd fd
  | OAccept fd new_fd =>
      let! o := accept_connection fd in
      match o with Some handle => add_fd_handle new_fd handle | None => ret tt end
  | ORecv fd len => let! _ := recv_from_fd fd len in ret tt
  | OSend fd buf => let! _ := send_to_fd fd buf in ret tt
  | OClose fd => close_fd fd
  | OEpoll maxevents => let! _ := get_epoll_events maxevents in ret tt
  | OReadable => let! _ := is_listen_readable in ret tt
  | OData fd d => set_epoll_data fd d
  end.

(** Every descriptor has a live handle of its own. *)
Record net_ok n : Prop := {
  no_live : ∀ fd h, n_handles n !! fd = Some h → ns_has (n_stack n) h = true;
  no_inj : ∀ fd fd' h, n_handles n !! fd = Some h → n_handles n !! fd' = Some h → fd = fd'
}.

(** The stack after [poll_network]. *)
Definition polled n : NS :=
  if n_device n then ns_poll (n_clock n (n_reads n) / 10000) (n_stack n) else n_stack n.

Lemma poll_run n : ∃ n1, poll_network n = Ret (tt, n1) ∧ n_stack n1 = polled n ∧ n_handles n1 = n_handles n ∧
  n_listen n1 = n_listen n ∧ n_epoll n1 = n_epoll n ∧ (net_ok n → net_ok n1).
Proof.
  unfold poll_network, polled, gets, bind, get_time_ms, bind, rdtime, ret, modify.
  destruct (n_device n); eexists; (split; [reflexivity|]); split_and!; try done.
  intros [Hl Hi]. split; [|done]. intros fd h Hf. cbn. rewrite nl_poll. by apply (Hl fd).
Qed.

Lemma net_ok_stack n st : net_ok n → (∀ h, ns_has st h = ns_has (n_stack n) h) → net_ok (sn_stack st n).
Proof. intros [Hl Hi] E. split; [|done]. intros fd h Hf. cbn in *. rewrite E. by apply (Hl fd). Qed.

Lemma get_socket_run n h : ns_has (n_stack n) h = true → get_socket h n = Ret (tt, n).
Proof. intros Hh. unfold get_socket, bind, gets. by rewrite Hh. Qed.

(** A new listening socket: a handle outside the map, or no room in the set. *)
Lemma listen_socket_run n : net_ok n →
  match create_listen_socket n with
  | Ret (o, n') => net_ok n' ∧ n_handles n' = n_handles n ∧ n_listen n' = n_listen n ∧
      (∀ h, ns_has (n_stack n) h = true → ns_has (n_stack n') h = true) ∧
      match o with
      | Some h => ns_has (n_stack n') h = true ∧ ns_has (n_stack n) h = false
      | None => True
      end
  | Panic => ns_add (n_stack n) = None
  | _ => False
  end.
Proof.
  intros Hok. unfold create_listen_socket, bind at 1, gets. destruct (ns_add (n_stack n)) as [[h st1]|] eqn:E; [|done].
  destruct (nl_add _ _ _ E) as [Hfresh Hadd]. unfold bind at 1, modify. unfold bind at 1.
  rewrite get_socket_run by (cbn; rewrite Hadd; by rewrite bool_decide_eq_true_2).
  assert (∀ st, (∀ g, ns_has st g = ns_has st1 g) → net_ok (sn_stack st n) ∧
    (∀ g, ns_has (n_stack n) g = true → ns_has st g = true) ∧ ns_has st h = true) as Hst.
  { intros st Hst. destruct Hok as [Hl Hi]. split_and!.
    - split; [|done]. intros fd g Hg. cbn. rewrite Hst, Hadd, (Hl fd g Hg). apply orb_true_r.
    - intros g Hg. rewrite Hst, Hadd, Hg. apply orb_true_r.
    - rewrite Hst, Hadd. by rewrite bool_decide_eq_true_2. }
  destruct (ns_listen h 80 st1) as [st2|] eqn:El; unfold bind, ret.
  - destruct (Hst st2) as (? & ? & ?); [intros g; by apply (nl_listen h 80)|]. by split_and!.
  - destruct (Hst st1) as (? & ? & ?); [done|]. by split_and!.
Qed.

Lemma net_ok_insert n fd h : net_ok n → ns_has (n_stack n) h = true →
  (∀ fd', n_handles n !! fd' ≠ Some h) → net_ok (sn_handles (<[fd := h]> (n_handles n)) n).
Proof.
  intros [Hl Hi] Hh Hno. split; cbn.
  - intros fd' g. rewrite lookup_insert. case_decide; [by intros [= <-]|apply Hl].
  - intros f1 f2 g. rewrite !lookup_insert. repeat case_decide; intros E1 E2; simplify_eq; try done.
    + by apply Hno in E2.
    + by apply Hno in E1.
    + by apply (Hi f1 f2 g).
Qed.

(** The scan of [get_epoll_events] meets live handles only. *)
Lemma epoll_scan_run st ed maxevents l : ∀ count n, st = n_stack n →
  (∀ fd h, (fd, h) ∈ l → ns_has st h = true) → ∃ evs, epoll_scan st ed maxevents count l n = Ret (evs, n).
Proof.
  induction l as [|[fd h] l IH]; intros count n E Hl; cbn [epoll_scan]; [by eexists|].
  destruct (maxevents <=? count); [by eexists|]. unfold bind at 1.
  rewrite get_socket_run by (subst st; apply (Hl fd h); left).
  assert (∀ c, ∃ evs, epoll_scan st ed maxevents c l n = Ret (evs, n)) as Hrest.
  { intros c. apply IH; [done|]. intros fd' h' Hin. apply (Hl fd' h'). by right. }
  destruct (negb _).
  - destruct (Hrest (count + 1)) as [evs Ev]. unfold bind. rewrite Ev. by eexists.
  - apply Hrest.
Qed.

Lemma handle_live n fd h : net_ok n → n_handles n !! fd = Some h → get_socket h n = Ret (tt, n).
Proof. intros Hok Hf. apply get_socket_run. by apply (no_live n Hok fd). Qed.

(** What an operation may end in. *)
Definition op_result (op : net_op) n (o : outcome (unit * Net NS)) : Prop :=
  match o with
  | Ret (_, n') => net_ok n'
  | Panic =>
      match op with
      | OBind _ => ns_add (n_stack n) = None
      | OAccept _ _ => ns_add (polled n) = None
      | _ => False
      end
  | Hang | Shutdown => False
  end.

Lemma bind_ok fd n : net_ok n → op_result (OBind fd) n (bind_listen_fd fd n).
Proof.
  intros Hok. unfold bind_listen_fd, bind at 1, gets. case_bool_decide; [done|].
  pose proof (listen_socket_run n Hok) as Hc. unfold bind at 1.
  destruct (create_listen_socket n) as [[[h|] n1]| | |]; cbn [op_result]; try done; [|by destruct Hc].
  destruct Hc as (Hok1 & Hh & _ & _ & Hnew & Hfresh). unfold bind, modify.
  assert (net_ok (sn_handles (<[fd := h]> (n_handles n1)) n1)) as [? ?]; [|by split].
  apply net_ok_insert; [done|done|]. intros fd' Hf. rewrite Hh in Hf. apply (no_live n Hok) in Hf. congruence.
Qed.

(** The accepted handle is live and no descriptor's yet. *)
Lemma accept_run fd n : net_ok n →
  match accept_connection fd n with
  | Ret (o, n') => net_ok n' ∧
      ∀ h, o = Some h → ns_has (n_stack n') h = true ∧ ∀ fd', n_handles n' !! fd' ≠ Some h
  | Panic => ns_add (polled n) = None
  | _ => False
  end.
Proof.
  intros Hok. unfold accept_connection, try_opt. unfold bind at 1, gets.
  destruct (n_listen n) as [lfd|]; [|done]. destruct (negb (fd =? lfd)); [done|]. unfold bind at 1.
  destruct (poll_run n) as (n1 & -> & Hst & Hh & _ & _ & Hok1). specialize (Hok1 Hok). unfold bind at 1.
  destruct (n_handles n1 !! lfd) as [h|] eqn:Hl; [|done]. unfold bind at 1. rewrite (handle_live n1 lfd) by done.
  unfold bind at 1. destruct (ns_is_listening _ _); [done|]. unfold bind at 1.
  pose proof (listen_socket_run n1 Hok1) as Hc. rewrite Hst in Hc.
  destruct (create_listen_socket n1) as [[[h2|] n2]| | |]; try done; [|by destruct Hc].
  destruct Hc as (Hok2 & Hh2 & _ & Hkeep & Hnew & Hfresh). unfold bind, modify, ret. rewrite <-Hst in Hkeep, Hfresh. split.
  { apply net_ok_insert; [done|done|]. intros fd' Hf. rewrite Hh2 in Hf. apply (no_live n1 Hok1) in Hf. congruence. }
  intros g [= <-]. split; [apply Hkeep, (no_live n1 Hok1 lfd); done|].
  intros fd'. cbn. rewrite lookup_insert, Hh2. case_decide as Hd.
  - intros [= ->]. apply (no_live n1 Hok1) in Hl. congruence.
  - intros Hf. apply Hd. by apply (no_inj n1 Hok1 lfd fd' h).
Qed.

Lemma accept_ok fd new_fd n : net_ok n → op_result (OAccept fd new_fd) n (run_op (OAccept fd new_fd) n).
Proof.
  intros Hok. cbn [run_op]. pose proof (accept_run fd n Hok) as Ha. unfold bind.
  destruct (accept_connection fd n) as [[[h|] n']| | |]; try done; [|by destruct Ha].
  destruct Ha as [Hok' Hh]. destruct (Hh h eq_refl). by apply net_ok_insert.
Qed.

Lemma close_ok fd n : net_ok n → op_result (OClose fd) n (close_fd fd n).
Proof.
  intros Hok. unfold close_fd, bind at 1, gets. case_bool_decide.
  { unfold modify. cbn. destruct Hok. by split. }
  unfold bind at 1. unfold bind at 1. destruct (n_handles n !! fd) as [h|] eqn:Hf; [|cbn; destruct Hok; by split].
  unfold bind at 1, modify. unfold bind at 1. rewrite get_socket_run by (cbn; by apply (no_live n Hok fd)).
  cbn. split; cbn.
  - intros fd' g. rewrite lookup_delete. case_decide as Hd; [done|]. intros Hg. rewrite nl_remove.
    rewrite (no_live n Hok fd' g Hg). apply negb_true_iff, bool_decide_eq_false_2. intros ->.
    by apply Hd, (no_inj n Hok fd fd' h).
  - intros f1 f2 g. rewrite !lookup_delete. repeat case_decide; try done. apply (no_inj n Hok).
Qed.

Lemma run_op_ok op n : net_ok n → op_result op n (run_op op n).
Proof.
  intros Hok. destruct op as [fd|fd new_fd|fd len|fd buf|fd|maxevents| |fd d].
  - by apply bind_ok.
  - by apply accept_ok.
  - cbn [run_op]. unfold recv_from_fd. unfold bind at 1, bind at 1.
    destruct (poll_run n) as (n1 & -> & Hst & Hh & _ & _ & Hok1). specialize (Hok1 Hok). unfold bind at 1, gets.
    destruct (n_handles n1 !! fd) as [h|] eqn:Hf; [|done]. unfold bind at 1. rewrite (handle_live n1 fd) by done.
    unfold bind at 1. destruct (negb _); [done|]. destruct (ns_recv _ _); [|done].
    cbn. apply net_ok_stack; [done|]. intros g. apply nl_recv.
  - cbn [run_op]. unfold send_to_fd. unfold bind at 1, bind at 1.
    destruct (poll_run n) as (n1 & -> & Hst & Hh & _ & _ & Hok1). specialize (Hok1 Hok). unfold bind at 1, gets.
    destruct (n_handles n1 !! fd) as [h|] eqn:Hf; [|done]. unfold bind at 1. rewrite (handle_live n1 fd) by done.
    unfold bind at 1. destruct (negb _); [done|]. destruct (ns_send _ _); [|done].
    cbn. apply net_ok_stack; [done|]. intros g. apply nl_send.
  - by apply close_ok.
  - cbn [run_op]. unfold get_epoll_events. unfold bind at 1, bind at 1.
    destruct (poll_run n) as (n1 & -> & Hst & Hh & _ & _ & Hok1). specialize (Hok1 Hok). unfold bind at 1, gets, id.
    destruct (epoll_scan_run (n_stack n1) (n_epoll n1) maxevents (bt_iter (n_handles n1)) 0 n1 eq_refl) as [evs ->].
    { intros fd h Hin%elem_of_bt_iter. by apply (no_live n1 Hok1 fd). }
    done.
  - cbn [run_op]. unfold is_listen_readable. unfold bind at 1, bind at 1, gets. destruct (n_listen n) as [fd|]; [|done].
    unfold bind at 1. destruct (poll_run n) as (n1 & -> & Hst & Hh & _ & _ & Hok1). specialize (Hok1 Hok).
    unfold bind at 1. destruct (n_handles n1 !! fd) as [h|] eqn:Hf; [|done]. unfold bind at 1.
    by rewrite (handle_live n1 fd) by done.
  - cbn. destruct Hok. by split.
Qed.

(** C12: no operation uses a stale socket handle. In every state in which each
    descriptor has a live handle of its own, binding, accepting, receiving,
    sending, closing and polling end normally in such a state again, whatever
    the TCP stack does, except that binding and accepting panic when the
    socket set has no free slot. *)
Theorem net_handles_valid op n : net_ok n → op_result op n (run_op op n).
Proof. apply run_op_ok. Qed.
End NetSpec.

(** ** A socket set with eight slots *)

Record toy_stack := { ts_open : gset Z; ts_next : Z }.
#[global] Instance toy_net : NetStack toy_stack := {|
  ns_poll := λ _ st, st;
  ns_add := λ st,
    if decide (8 ≤ Z.of_nat (size (ts_open st)) ∨ ts_next st ∈ ts_open st) then None
    else Some (ts_next st, {| ts_open := {[ts_next st]} ∪ ts_open st; ts_next := ts_next st + 1 |});
  ns_has := λ st h, bool_decide (h ∈ ts_open st);
  ns_listen := λ _ _ st, Some st;
  ns_is_listening := λ _ _, false;
  ns_is_open := λ _ _, true;
  ns_can_recv := λ _ _, true;
  ns_can_send := λ _ _, true;
  ns_recv := λ _ _, Some [];
  ns_recv_consume := λ _ _ st, st;
  ns_send := λ _ _, Some 0;
  ns_send_put := λ _ _ st, st;
  ns_remove := λ h st, {| ts_open := ts_open st ∖ {[h]}; ts_next := ts_next st |}
|}.

#[global] Instance toy_laws : NetLaws toy_stack.
Proof.
  split; cbn; try done.
  - intros st h st'. case_decide as Hd; [done|]. intros [= <- <-]. cbn. split.
    + apply bool_decide_eq_false_2. tauto.
    + intros g. repeat case_bool_decide; set_solver.
  - by intros h port st st' g [= <-].
  - intros h st g. repeat case_bool_decide; set_solver.
Qed.

Definition toy_state : Net toy_stack := {|
  n_device := true; n_stack := {| ts_open := ∅; ts_next := 0 |}; n_handles := ∅; n_epoll := ∅; n_listen := None;
  n_clock := λ i, Z.of_nat i; n_reads := 0
|}.

Lemma net_handles_valid_witness : op_result (OBind 100) toy_state (run_op (OBind 100) toy_state).
Proof. apply (net_handles_valid (OBind 100) toy_state). by split. Defined.
