(* ===== verification/Kernel.v ===== *)
(** * The kernel state

    The global state of the kernel as one record, with the types of [trap.rs],
    [proc.rs] and [syscall.rs] it contains, the lifting of each component's
    operations to it, and the supervisor's accesses to user memory through the
    page table that [satp] selects. *)

From S2P Require Import Prelude Machine Alloc PageTable AddrSpace Pipe FdTable Fs Net.

Open Scope string_scope.
Open Scope list_scope.
Open Scope Z_scope.

(** ** Trap frames *)

Record TrapFrame := {
  tf_regs : list Z;
  tf_fregs : list Z;
  tf_satp : Z;
  tf_sepc : Z;
  tf_sstatus : Z;
  tf_scause : Z;
  tf_stval : Z
}.

Definition TrapFrame_new : TrapFrame := {|
  tf_regs := replicate 32 0; tf_fregs := replicate 32 0;
  tf_satp := 0; tf_sepc := 0; tf_sstatus := 0; tf_scause := 0; tf_stval := 0
|}.

Definition set_regs (r : list Z) (t : TrapFrame) : TrapFrame := {|
  tf_regs := r; tf_fregs := tf_fregs t; tf_satp := tf_satp t; tf_sepc := tf_sepc t;
  tf_sstatus := tf_sstatus t; tf_scause := tf_scause t; tf_stval := tf_stval t
|}.
Definition set_sepc (x : Z) (t : TrapFrame) : TrapFrame := {|
  tf_regs := tf_regs t; tf_fregs := tf_fregs t; tf_satp := tf_satp t; tf_sepc := x;
  tf_sstatus := tf_sstatus t; tf_scause := tf_scause t; tf_stval := tf_stval t
|}.
Definition set_sstatus (x : Z) (t : TrapFrame) : TrapFrame := {|
  tf_regs := tf_regs t; tf_fregs := tf_fregs t; tf_satp := tf_satp t; tf_sepc := tf_sepc t;
  tf_sstatus := x; tf_scause := tf_scause t; tf_stval := tf_stval t
|}.
(** [regs[i] = v]. *)
Definition set_reg (i : nat) (v : Z) (t : TrapFrame) : TrapFrame := set_regs (<[i := v]> (tf_regs t)) t.

(** ** Processes *)

Inductive ProcState := Ready | Running | Waiting | Zombie.
#[global] Instance ProcState_eq_dec : EqDecision ProcState.
Proof. solve_decision. Defined.

Record Process := {
  p_pid : Z;
  p_ppid : Z;
  p_state : ProcState;
  p_page_table : PageTable;
  p_trap_frame : TrapFrame;
  p_kernel_stack : Z;
  p_brk : Z;
  p_exit_code : Z;
  p_fd_table : FdTable
}.

Definition sp_state (x : ProcState) (p : Process) : Process := {|
  p_pid := p_pid p; p_ppid := p_ppid p; p_state := x; p_page_table := p_page_table p;
  p_trap_frame := p_trap_frame p; p_kernel_stack := p_kernel_stack p; p_brk := p_brk p;
  p_exit_code := p_exit_code p; p_fd_table := p_fd_table p
|}.
Definition sp_page_table (x : PageTable) (p : Process) : Process := {|
  p_pid := p_pid p; p_ppid := p_ppid p; p_state := p_state p; p_page_table := x;
  p_trap_frame := p_trap_frame p; p_kernel_stack := p_kernel_stack p; p_brk := p_brk p;
  p_exit_code := p_exit_code p; p_fd_table := p_fd_table p
|}.
Definition sp_trap_frame (x : TrapFrame) (p : Process) : Process := {|
  p_pid := p_pid p; p_ppid := p_ppid p; p_state := p_state p; p_page_table := p_page_table p;
  p_trap_frame := x; p_kernel_stack := p_kernel_stack p; p_brk := p_brk p;
  p_exit_code := p_exit_code p; p_fd_table := p_fd_table p
|}.
Definition sp_brk (x : Z) (p : Process) : Process := {|
  p_pid := p_pid p; p_ppid := p_ppid p; p_state := p_state p; p_page_table := p_page_table p;
  p_trap_frame := p_trap_frame p; p_kernel_stack := p_kernel_stack p; p_brk := x;
  p_exit_code := p_exit_code p; p_fd_table := p_fd_table p
|}.
Definition sp_exit_code (x : Z) (p : Process) : Process := {|
  p_pid := p_pid p; p_ppid := p_ppid p; p_state := p_state p; p_page_table := p_page_table p;
  p_trap_frame := p_trap_frame p; p_kernel_stack := p_kernel_stack p; p_brk := p_brk p;
  p_exit_code := x; p_fd_table := p_fd_table p
|}.

(** ** Descriptors outside the table *)

Inductive NscdPhase := PhHeader | PhData | PhDone.
Record NscdState := {
  nscd_phase : NscdPhase;
  nscd_header : list Z;
  nscd_data : list Z;
  nscd_offset : Z
}.
Inductive FakeFdType := Nscd (st : NscdState) | InetSocket | Epoll | EventFd.

(** ** The state *)

Record kernel (NS : Type) := {
  k_mm : mm;  (* memory and the allocators *)
  k_kpt : option PageTable;  (* [KERNEL_PAGE_TABLE] *)
  k_fs : Fs;  (* the file system *)
  k_fdt : FdTable;  (* [FD_TABLE] *)
  k_pipes : gmap Z PipeInner;  (* [PIPES] *)
  k_next_pipe : Z;  (* [NEXT_PIPE_ID] *)
  k_fake : gmap Z FakeFdType;  (* [FAKE_FDS] *)
  k_fake_next : Z;  (* [FAKE_FD_NEXT] *)
  k_procs : gmap Z Process;  (* [PROC_TABLE] *)
  k_current : Z;  (* [CURRENT_PID] *)
  k_next_pid : Z;  (* [NEXT_PID] *)
  k_ctf : TrapFrame;  (* [CURRENT_TRAP_FRAME] *)
  k_satp : Z;  (* the [satp] register *)
  k_mmap_base : Z;  (* [MMAP_BASE] of [sys_mmap] *)
  k_last_tp : Z;  (* [LAST_TP] *)
  k_net : Net NS;  (* the globals of [net.rs] *)
  k_out : list Z;  (* bytes sent to the UART *)
  k_in : list Z  (* bytes the UART will receive *)
}.
Arguments k_mm {NS} _.
Arguments k_kpt {NS} _.
Arguments k_fs {NS} _.
Arguments k_fdt {NS} _.
Arguments k_pipes {NS} _.
Arguments k_next_pipe {NS} _.
Arguments k_fake {NS} _.
Arguments k_fake_next {NS} _.
Arguments k_procs {NS} _.
Arguments k_current {NS} _.
Arguments k_next_pid {NS} _.
Arguments k_ctf {NS} _.
Arguments k_satp {NS} _.
Arguments k_mmap_base {NS} _.
Arguments k_last_tp {NS} _.
Arguments k_net {NS} _.
Arguments k_out {NS} _.
Arguments k_in {NS} _.

(** Field updates. *)
Section Setters.
Context {NS : Type}.
Implicit Types k : kernel NS.

Definition sk_mm (x : mm) k : kernel NS := {|
  k_mm := x; k_kpt := k_kpt k; k_fs := k_fs k; k_fdt := k_fdt k; k_pipes := k_pipes k; k_next_pipe :=
  k_next_pipe k; k_fake := k_fake k; k_fake_next := k_fake_next k; k_procs := k_procs k; k_current :=
  k_current k; k_next_pid := k_next_pid k; k_ctf := k_ctf k; k_satp := k_satp k; k_mmap_base :=
  k_mmap_base k; k_last_tp := k_last_tp k; k_net := k_net k; k_out := k_out k; k_in := k_in k
|}.
Definition sk_kpt (x : option PageTable) k : kernel NS := {|
  k_mm := k_mm k; k_kpt := x; k_fs := k_fs k; k_fdt := k_fdt k; k_pipes := k_pipes k; k_next_pipe :=
  k_next_pipe k; k_fake := k_fake k; k_fake_next := k_fake_next k; k_procs := k_procs k; k_current :=
  k_current k; k_next_pid := k_next_pid k; k_ctf := k_ctf k; k_satp := k_satp k; k_mmap_base :=
  k_mmap_base k; k_last_tp := k_last_tp k; k_net := k_net k; k_out := k_out k; k_in := k_in k
|}.
Definition sk_fs (x : Fs) k : kernel NS := {|
  k_mm := k_mm k; k_kpt := k_kpt k; k_fs := x; k_fdt := k_fdt k; k_pipes := k_pipes k; k_next_pipe :=
  k_next_pipe k; k_fake := k_fake k; k_fake_next := k_fake_next k; k_procs := k_procs k; k_current :=
  k_current k; k_next_pid := k_next_pid k; k_ctf := k_ctf k; k_satp := k_satp k; k_mmap_base :=
  k_mmap_base k; k_last_tp := k_last_tp k; k_net := k_net k; k_out := k_out k; k_in := k_in k
|}.
Definition sk_fdt (x : FdTable) k : kernel NS := {|
  k_mm := k_mm k; k_kpt := k_kpt k; k_fs := k_fs k; k_fdt := x; k_pipes := k_pipes k; k_next_pipe :=
  k_next_pipe k; k_fake := k_fake k; k_fake_next := k_fake_next k; k_procs := k_procs k; k_current :=
  k_current k; k_next_pid := k_next_pid k; k_ctf := k_ctf k; k_satp := k_satp k; k_mmap_base :=
  k_mmap_base k; k_last_tp := k_last_tp k; k_net := k_net k; k_out := k_out k; k_in := k_in k
|}.
Definition sk_pipes (x : gmap Z PipeInner) k : kernel NS := {|
  k_mm := k_mm k; k_kpt := k_kpt k; k_fs := k_fs k; k_fdt := k_fdt k; k_pipes := x; k_next_pipe :=
  k_next_pipe k; k_fake := k_fake k; k_fake_next := k_fake_next k; k_procs := k_procs k; k_current :=
  k_current k; k_next_pid := k_next_pid k; k_ctf := k_ctf k; k_satp := k_satp k; k_mmap_base :=
  k_mmap_base k; k_last_tp := k_last_tp k; k_net := k_net k; k_out := k_out k; k_in := k_in k
|}.
Definition sk_next_pipe (x : Z) k : kernel NS := {|
  k_mm := k_mm k; k_kpt := k_kpt k; k_fs := k_fs k; k_fdt := k_fdt k; k_pipes := k_pipes k; k_next_pipe
  := x; k_fake := k_fake k; k_fake_next := k_fake_next k; k_procs := k_procs k; k_current := k_current k;
  k_next_pid := k_next_pid k; k_ctf := k_ctf k; k_satp := k_satp k; k_mmap_base := k_mmap_base k;
  k_last_tp := k_last_tp k; k_net := k_net k; k_out := k_out k; k_in := k_in k
|}.
Definition sk_fake (x : gmap Z FakeFdType) k : kernel NS := {|
  k_mm := k_mm k; k_kpt := k_kpt k; k_fs := k_fs k; k_fdt := k_fdt k; k_pipes := k_pipes k; k_next_pipe
  := k_next_pipe k; k_fake := x; k_fake_next := k_fake_next k; k_procs := k_procs k; k_current :=
  k_current k; k_next_pid := k_next_pid k; k_ctf := k_ctf k; k_satp := k_satp k; k_mmap_base :=
  k_mmap_base k; k_last_tp := k_last_tp k; k_net := k_net k; k_out := k_out k; k_in := k_in k
|}.
Definition sk_fake_next (x : Z) k : kernel NS := {|
  k_mm := k_mm k; k_kpt := k_kpt k; k_fs := k_fs k; k_fdt := k_fdt k; k_pipes := k_pipes k; k_next_pipe
  := k_next_pipe k; k_fake := k_fake k; k_fake_next := x; k_procs := k_procs k; k_current := k_current k;
  k_next_pid := k_next_pid k; k_ctf := k_ctf k; k_satp := k_satp k; k_mmap_base := k_mmap_base k;
  k_last_tp := k_last_tp k; k_net := k_net k; k_out := k_out k; k_in := k_in k
|}.
Definition sk_procs (x : gmap Z Process) k : kernel NS := {|
  k_mm := k_mm k; k_kpt := k_kpt k; k_fs := k_fs k; k_fdt := k_fdt k; k_pipes := k_pipes k; k_next_pipe
  := k_next_pipe k; k_fake := k_fake k; k_fake_next := k_fake_next k; k_procs := x; k_current :=
  k_current k; k_next_pid := k_next_pid k; k_ctf := k_ctf k; k_satp := k_satp k; k_mmap_base :=
  k_mmap_base k; k_last_tp := k_last_tp k; k_net := k_net k; k_out := k_out k; k_in := k_in k
|}.
Definition sk_current (x : Z) k : kernel NS := {|
  k_mm := k_mm k; k_kpt := k_kpt k; k_fs := k_fs k; k_fdt := k_fdt k; k_pipes := k_pipes k; k_next_pipe
  := k_next_pipe k; k_fake := k_fake k; k_fake_next := k_fake_next k; k_procs := k_procs k; k_current :=
  x; k_next_pid := k_next_pid k; k_ctf := k_ctf k; k_satp := k_satp k; k_mmap_base := k_mmap_base k;
  k_last_tp := k_last_tp k; k_net := k_net k; k_out := k_out k; k_in := k_in k
|}.
Definition sk_next_pid (x : Z) k : kernel NS := {|
  k_mm := k_mm k; k_kpt := k_kpt k; k_fs := k_fs k; k_fdt := k_fdt k; k_pipes := k_pipes k; k_next_pipe
  := k_next_pipe k; k_fake := k_fake k; k_fake_next := k_fake_next k; k_procs := k_procs k; k_current :=
  k_current k; k_next_pid := x; k_ctf := k_ctf k; k_satp := k_satp k; k_mmap_base := k_mmap_base k;
  k_last_tp := k_last_tp k; k_net := k_net k; k_out := k_out k; k_in := k_in k
|}.
Definition sk_ctf (x : TrapFrame) k : kernel NS := {|
  k_mm := k_mm k; k_kpt := k_kpt k; k_fs := k_fs k; k_fdt := k_fdt k; k_pipes := k_pipes k; k_next_pipe
  := k_next_pipe k; k_fake := k_fake k; k_fake_next := k_fake_next k; k_procs := k_procs k; k_current :=
  k_current k; k_next_pid := k_next_pid k; k_ctf := x; k_satp := k_satp k; k_mmap_base := k_mmap_base k;
  k_last_tp := k_last_tp k; k_net := k_net k; k_out := k_out k; k_in := k_in k
|}.
Definition sk_satp (x : Z) k : kernel NS := {|
  k_mm := k_mm k; k_kpt := k_kpt k; k_fs := k_fs k; k_fdt := k_fdt k; k_pipes := k_pipes k; k_next_pipe
  := k_next_pipe k; k_fake := k_fake k; k_fake_next := k_fake_next k; k_procs := k_procs k; k_current :=
  k_current k; k_next_pid := k_next_pid k; k_ctf := k_ctf k; k_satp := x; k_mmap_base := k_mmap_base k;
  k_last_tp := k_last_tp k; k_net := k_net k; k_out := k_out k; k_in := k_in k
|}.
Definition sk_mmap_base (x : Z) k : kernel NS := {|
  k_mm := k_mm k; k_kpt := k_kpt k; k_fs := k_fs k; k_fdt := k_fdt k; k_pipes := k_pipes k; k_next_pipe
  := k_next_pipe k; k_fake := k_fake k; k_fake_next := k_fake_next k; k_procs := k_procs k; k_current :=
  k_current k; k_next_pid := k_next_pid k; k_ctf := k_ctf k; k_satp := k_satp k; k_mmap_base := x;
  k_last_tp := k_last_tp k; k_net := k_net k; k_out := k_out k; k_in := k_in k
|}.
Definition sk_last_tp (x : Z) k : kernel NS := {|
  k_mm := k_mm k; k_kpt := k_kpt k; k_fs := k_fs k; k_fdt := k_fdt k; k_pipes := k_pipes k; k_next_pipe
  := k_next_pipe k; k_fake := k_fake k; k_fake_next := k_fake_next k; k_procs := k_procs k; k_current :=
  k_current k; k_next_pid := k_next_pid k; k_ctf := k_ctf k; k_satp := k_satp k; k_mmap_base :=
  k_mmap_base k; k_last_tp := x; k_net := k_net k; k_out := k_out k; k_in := k_in k
|}.
Definition sk_net (x : Net NS) k : kernel NS := {|
  k_mm := k_mm k; k_kpt := k_kpt k; k_fs := k_fs k; k_fdt := k_fdt k; k_pipes := k_pipes k; k_next_pipe
  := k_next_pipe k; k_fake := k_fake k; k_fake_next := k_fake_next k; k_procs := k_procs k; k_current :=
  k_current k; k_next_pid := k_next_pid k; k_ctf := k_ctf k; k_satp := k_satp k; k_mmap_base :=
  k_mmap_base k; k_last_tp := k_last_tp k; k_net := x; k_out := k_out k; k_in := k_in k
|}.
Definition sk_out (x : list Z) k : kernel NS := {|
  k_mm := k_mm k; k_kpt := k_kpt k; k_fs := k_fs k; k_fdt := k_fdt k; k_pipes := k_pipes k; k_next_pipe
  := k_next_pipe k; k_fake := k_fake k; k_fake_next := k_fake_next k; k_procs := k_procs k; k_current :=
  k_current k; k_next_pid := k_next_pid k; k_ctf := k_ctf k; k_satp := k_satp k; k_mmap_base :=
  k_mmap_base k; k_last_tp := k_last_tp k; k_net := k_net k; k_out := x; k_in := k_in k
|}.
Definition sk_in (x : list Z) k : kernel NS := {|
  k_mm := k_mm k; k_kpt := k_kpt k; k_fs := k_fs k; k_fdt := k_fdt k; k_pipes := k_pipes k; k_next_pipe
  := k_next_pipe k; k_fake := k_fake k; k_fake_next := k_fake_next k; k_procs := k_procs k; k_current :=
  k_current k; k_next_pid := k_next_pid k; k_ctf := k_ctf k; k_satp := k_satp k; k_mmap_base :=
  k_mmap_base k; k_last_tp := k_last_tp k; k_net := k_net k; k_out := k_out k; k_in := x
|}.
End Setters.

(** ** Lifting the components *)

Section Lift.
Context {NS : Type}.

Definition on_mm {A} (m : M mm A) : M (kernel NS) A := zoom k_mm sk_mm m.
Definition on_fs {A} (m : M Fs A) : M (kernel NS) A := zoom k_fs sk_fs m.
Definition on_fdt {A} (m : M FdTable A) : M (kernel NS) A := zoom k_fdt sk_fdt m.
Definition on_net {A} (m : M (Net NS) A) : M (kernel NS) A := zoom k_net sk_net m.

Lemma wp_on_mm {A} (m : M mm A) k (Q : A → kernel NS → Prop) :
  wp m (k_mm k) (λ a s', Q a (sk_mm s' k)) → wp (on_mm m) k Q.
Proof. unfold wp, on_mm, zoom. by destruct (m (k_mm k)) as [[]| | |]. Qed.
Lemma wp_on_fs {A} (m : M Fs A) k (Q : A → kernel NS → Prop) :
  wp m (k_fs k) (λ a s', Q a (sk_fs s' k)) → wp (on_fs m) k Q.
Proof. unfold wp, on_fs, zoom. by destruct (m (k_fs k)) as [[]| | |]. Qed.
Lemma wp_on_fdt {A} (m : M FdTable A) k (Q : A → kernel NS → Prop) :
  wp m (k_fdt k) (λ a s', Q a (sk_fdt s' k)) → wp (on_fdt m) k Q.
Proof. unfold wp, on_fdt, zoom. by destruct (m (k_fdt k)) as [[]| | |]. Qed.
Lemma wp_on_net {A} (m : M (Net NS) A) k (Q : A → kernel NS → Prop) :
  wp m (k_net k) (λ a s', Q a (sk_net s' k)) → wp (on_net m) k Q.
Proof. unfold wp, on_net, zoom. by destruct (m (k_net k)) as [[]| | |]. Qed.

(** ** The console *)

Definition putchar (c : Z) : M (kernel NS) unit := modify (λ k, sk_out (k_out k ++ [c]) k).
Definition write_str (s : list Z) : M (kernel NS) unit := mfor s putchar.
(** [console::print] of a string of bytes. *)
Definition print (s : list Z) : M (kernel NS) unit := write_str s.

(** [log::warn!], which the logger writes to the console. *)
Definition warn (msg : list Z) : M (kernel NS) unit := print (bytes_of "[WARN] " ++ msg ++ [0x0a]).

(** Bit 0 of the line status register says whether a byte has arrived. *)
Definition getchar : M (kernel NS) (option Z) :=
  let! input := gets k_in in
  match input with
  | c :: rest => do! modify (sk_in rest) in ret (Some c)
  | [] => ret None
  end.

Lemma print_run s : ∀ k, print s k = Ret (tt, sk_out (k_out k ++ s) k).
Proof.
  unfold print, write_str. induction s as [|c s IH]; intros k; cbn [mfor].
  - rewrite app_nil_r. by destruct k.
  - unfold bind, putchar, modify. rewrite IH. cbn [k_out sk_out]. by rewrite <-app_assoc.
Qed.
Lemma wp_print s k (Q : unit → kernel NS → Prop) : Q tt (sk_out (k_out k ++ s) k) → wp (print s) k Q.
Proof. apply wp_of_run, print_run. Qed.

(** ** Memory as the supervisor sees it

    SV39 with [sstatus.SUM] set: a walk of the table in [satp]. Entries above
    the last level are pointers; a leaf needs the accessed and dirty bits and
    the permission of the access. *)

Inductive access := ARead | AWrite.

Definition perm_ok (acc : access) (e : PageTableEntry) : bool :=
  contains (pte_flags e) (PTE_V |f PTE_R |f PTE_A) &&
  match acc with ARead => true | AWrite => contains (pte_flags e) (PTE_W |f PTE_D) end.

(** Bits 63..39 of an address equal bit 38. *)
Definition canonical (va : Z) : bool := (va <? 2 ^ 38) || (2 ^ 64 - 2 ^ 38 <=? va).

Definition mmu (m : mem) (root : Z) (acc : access) (va : Z) : option Z :=
  if canonical va then
    match view m root (va / 4096) with
    | Some e => if perm_ok acc e then Some (pte_ppn e * 4096 + va mod 4096) else None
    | None => None
    end
  else None.

Definition satp_root (satp : Z) : Z := satp mod 2 ^ 44.

(** One byte; a page fault in supervisor mode ends in the trap handler's
    [loop {}]. *)
Definition ld8 (va : Z) : M (kernel NS) Z :=
  let! k := gets id in
  match mmu (mm_mem (k_mm k)) (satp_root (k_satp k)) ARead va with
  | Some pa => ret (rd8 (mm_mem (k_mm k)) pa)
  | None => hang
  end.
Definition st8 (va v : Z) : M (kernel NS) unit :=
  let! k := gets id in
  match mmu (mm_mem (k_mm k)) (satp_root (k_satp k)) AWrite va with
  | Some pa => modify (sk_mm (set_mem (wr8 (mm_mem (k_mm k)) pa v) (k_mm k)))
  | None => hang
  end.

Fixpoint ld_bytes (va : Z) (n : nat) : M (kernel NS) (list Z) :=
  match n with
  | O => ret []
  | S n' => let! b := ld8 va in let! bs := ld_bytes (va +w 1) n' in ret (b :: bs)
  end.
Fixpoint st_bytes (va : Z) (l : list Z) : M (kernel NS) unit :=
  match l with
  | [] => ret tt
  | b :: l' => do! st8 va b in st_bytes (va +w 1) l'
  end.

(** Words in memory order. *)
Definition ldw (n : nat) (va : Z) : M (kernel NS) Z := let! bs := ld_bytes va n in ret (le_val bs).
Definition stw (n : nat) (va v : Z) : M (kernel NS) unit := st_bytes va (le_bytes n v).

(** The current process, as [with_current_proc] gives it. *)
Definition cur_proc (k : kernel NS) : option Process := k_procs k !! k_current k.

Definition set_proc (pid : Z) (p : Process) (k : kernel NS) : kernel NS := sk_procs (<[pid := p]> (k_procs k)) k.

Lemma k_procs_sk (t : gmap Z Process) (k : kernel NS) : k_procs (sk_procs t k) = t.
Proof. reflexivity. Qed.

(** [with_current_proc]: run [f] on the current process, store what it leaves. *)
Definition with_current_proc {A} (f : Process → M (kernel NS) (A * Process)) : M (kernel NS) (option A) :=
  let! k := gets id in
  match cur_proc k with
  | Some p =>
      let! r := f p in
      do! modify (set_proc (k_current k) r.2) in
      ret (Some r.1)
  | None => ret None
  end.

Lemma with_current_proc_run {A} (f : Process → M (kernel NS) (A * Process)) k p a p' k' :
  cur_proc k = Some p → f p k = Ret ((a, p'), k') →
  with_current_proc f k = Ret (Some a, set_proc (k_current k) p' k').
Proof. intros Hp Hf. unfold with_current_proc, bind, gets, id, modify, ret. by rewrite Hp, Hf. Qed.

Definition with_current_proc_ref {A} (f : Process → M (kernel NS) A) : M (kernel NS) (option A) :=
  let! k := gets id in
  match cur_proc k with
  | Some p => let! a := f p in ret (Some a)
  | None => ret None
  end.
End Lift.

(** ** The kernel's own address space *)

(** RAM, UART with VirtIO, PLIC and the test device. *)
Definition kernel_addr (va : Z) : Prop :=
  0x80000000 ≤ va < 0x88000000 ∨ 0x10000000 ≤ va < 0x10009000 ∨ 0x0c000000 ≤ va < 0x0c200000 ∨
  0x100000 ≤ va < 0x101000.
#[global] Instance kernel_addr_dec va : Decision (kernel_addr va) := _.

Lemma satp_of_spec pt : 0 ≤ root_ppn pt < 2 ^ 44 →
  satp_of pt = 8 * 2 ^ 60 + root_ppn pt ∧ satp_root (satp_of pt) = root_ppn pt.
Proof.
  intros H. assert (satp_of pt = 8 * 2 ^ 60 + root_ppn pt) as E.
  { unfold satp_of. rewrite shl64_small by lia. apply lor_disjoint; lia. }
  split; [done|]. rewrite E. unfold satp_root.
  replace (8 * 2 ^ 60 + root_ppn pt) with (root_ppn pt + 2 ^ 19 * 2 ^ 44) by lia.
  rewrite Z.mod_add by lia. apply Z.mod_small. lia.
Qed.

Lemma mmu_identity m root acc va v fl : 0 ≤ va < 2 ^ 38 → v = va / 4096 →
  view m root v = Some (mapped_pte (v * 4096) fl) → fl ∈ [PTE_R |f PTE_W |f PTE_X; PTE_R |f PTE_W] →
  mmu m root acc va = Some va.
Proof.
  intros Hva -> Hview Hfl. unfold mmu, canonical. rewrite (proj2 (Z.ltb_lt _ _)), Hview by lia. simpl orb.
  assert (flags_ok fl) as Hok by (set_unfold in Hfl; destruct_or! Hfl; subst; done).
  destruct (mapped_pte_ok (va / 4096 * 4096) fl) as (_ & _ & Hppn & Hpf); [unfold in_usize; dlia|done|].
  unfold perm_ok. rewrite Hpf, Hppn, Z.div_mul by lia.
  replace (va / 4096 * 4096 + va mod 4096) with va by dlia.
  set_unfold in Hfl. destruct acc; destruct_or! Hfl; by subst.
Qed.

(** The entries of the kernel's own table: its regions and the test device. *)
Definition kernel_table (m : mem) (root : Z) : Prop := ∀ v, vpn_ok v → view m root v =
  if decide (v = 0x100) then Some (mapped_pte 0x100000 (PTE_R |f PTE_W)) else kernel_view v.

Lemma kernel_mmu m root acc va : kernel_table m root → 0 ≤ va < 2 ^ 38 →
  mmu m root acc va = if decide (kernel_addr va) then Some va else None.
Proof.
  intros Hview Hva.
  assert (vpn_ok (va / 4096)) as Hv by (unfold vpn_ok; dlia).
  specialize (Hview _ Hv). unfold kernel_view in Hview. destruct (decide (kernel_addr va)) as [Hin|Hin].
  - destruct Hin as [Hin|[Hin|[Hin|Hin]]].
    + rewrite decide_False, decide_True in Hview by dlia. eapply mmu_identity; [done|done|exact Hview|set_solver].
    + rewrite decide_False, decide_False, decide_True in Hview by dlia.
      eapply mmu_identity; [done|done|exact Hview|set_solver].
    + rewrite decide_False, decide_False, decide_True in Hview by dlia.
      eapply mmu_identity; [done|done|exact Hview|set_solver].
    + rewrite decide_True in Hview by dlia. replace 0x100000 with (va / 4096 * 4096) in Hview by dlia.
      eapply mmu_identity; [done|done|exact Hview|set_solver].
  - unfold mmu, canonical. rewrite (proj2 (Z.ltb_lt _ _)), Hview by lia. simpl orb. unfold kernel_addr in Hin.
    by rewrite !decide_False by dlia.
Qed.

(** C24: the kernel's page table is an identity map. [build_kernel_page_table]
    does not panic when 137 frames are free; with its [satp] value the
    supervisor reads and writes every address of RAM, the UART and VirtIO
    registers, the PLIC and the test device at the same physical address, and
    every other address of the lower half faults. *)
Theorem kernel_table_identity s : pages_ok (mm_pages s) → cur s + 137 * 4096 ≤ page_end (mm_pages s) →
  wp build_kernel_page_table s (λ pt s',
    pt_inv (root_ppn pt) s' ∧ satp_of pt = 8 * 2 ^ 60 + root_ppn pt ∧
    ∀ acc va, 0 ≤ va < 2 ^ 38 →
      mmu (mm_mem s') (satp_root (satp_of pt)) acc va = if decide (kernel_addr va) then Some va else None).
Proof.
  intros Hok Hfit. eapply wp_mono; [by apply build_kernel_page_table_spec|].
  intros pt s' (Hinv & Hview & _). split; [done|].
  destruct (satp_of_spec pt) as [Es Er].
  { destruct Hinv as [Hwf (? & ? & ?)]. pose proof (wf_root _ _ _ Hwf). lia. }
  split; [done|]. intros acc va Hva. rewrite Er. by apply kernel_mmu.
Qed.

Lemma kernel_table_identity_witness :
  wp build_kernel_page_table boot_pages (λ pt s',
    pt_inv (root_ppn pt) s' ∧ satp_of pt = 8 * 2 ^ 60 + root_ppn pt ∧
    ∀ acc va, 0 ≤ va < 2 ^ 38 →
      mmu (mm_mem s') (satp_root (satp_of pt)) acc va = if decide (kernel_addr va) then Some va else None).
Proof. apply (kernel_table_identity boot_pages); [by repeat split|done]. Defined.
