(* ===== verification/Access.v ===== *)
(** * User memory as the system calls see it

    A system call dereferences user pointers directly: the loads and stores go
    through the page table in [satp], byte by byte. In an address space that
    satisfies its invariant these accesses behave like accesses to an array
    indexed by the user's virtual addresses. *)

From S2P Require Import Prelude Machine Alloc PageTable AddrSpace UserMem Net Kernel.

(** The byte of a user address. *)
Definition ubyte (m : mem) (root a : Z) : Z :=
  match user_entry m root (a / 4096) with
  | Some e => rd8 m (pte_ppn e * 4096 + a mod 4096)
  | None => 0
  end.
Definition ubytes (m : mem) (root a : Z) (n : nat) : list Z := ubyte m root <$> seqZ a (Z.of_nat n).

(** The range lies in the user's half and its pages are mapped for the access. *)
Definition user_ok (m : mem) (root : Z) (acc : access) (a : Z) : Prop :=
  0 ≤ a < 2 ^ 38 ∧ ∃ e, user_entry m root (a / 4096) = Some e ∧ perm_ok acc e = true.
Definition user_range (m : mem) (root : Z) (acc : access) (va n : Z) : Prop :=
  ∀ a, va ≤ a < va + n → user_ok m root acc a.

Lemma page_is_ubyte root s v fl c a : page_is root s v fl c → a / 4096 = v → ubyte (mm_mem s) root a = c a.
Proof.
  intros (e & He & _ & Hc) Hv. unfold ubyte. rewrite Hv, He, Hc by dlia. f_equal. dlia.
Qed.

Lemma page_is_ok root s v fl c a acc : page_is root s v fl c → a / 4096 = v → 0 ≤ a < 2 ^ 38 →
  fl ∈ [PTE_U |f PTE_R |f PTE_W; PTE_U |f PTE_R |f PTE_W |f PTE_X] → user_ok (mm_mem s) root acc a.
Proof.
  intros (e & He & Hf & _) Hv Ha Hfl. split; [done|]. exists e. rewrite Hv. split; [done|].
  unfold perm_ok. rewrite Hf. set_unfold in Hfl. destruct acc; destruct_or! Hfl; by subst.
Qed.

Lemma user_ok_mmu m root acc a : user_ok m root acc a →
  ∃ e, user_entry m root (a / 4096) = Some e ∧ mmu m root acc a = Some (pte_ppn e * 4096 + a mod 4096).
Proof.
  intros (Ha & e & He & Hp). exists e. split; [done|]. unfold mmu, canonical.
  rewrite (proj2 (Z.ltb_lt _ _)), (user_entry_view _ _ _ _ He), Hp by lia. done.
Qed.

Lemma user_range_tail m root acc va n : 0 < n → user_range m root acc va n →
  user_ok m root acc va ∧ user_range m root acc (va + 1) (n - 1).
Proof. intros Hn H. split; [apply H; lia|]. intros a Ha. apply H. lia. Qed.

Lemma user_vpn a : 0 ≤ a < 2 ^ 38 → vpn_ok (a / 4096).
Proof. intros. unfold vpn_ok. dlia. Qed.

Lemma user_range_view m m' root acc va n : (∀ w, view m' root w = view m root w) →
  user_range m root acc va n → user_range m' root acc va n.
Proof.
  intros Hv H b Hb. destruct (H b Hb) as (? & e & He & ?). split; [done|]. exists e. split; [|done].
  rewrite <-He. unfold user_entry. by rewrite Hv.
Qed.

Section Access.
Context {NS : Type}.
Implicit Types k : kernel NS.

Abbreviation kmem k := (mm_mem (k_mm k)).
Abbreviation kroot k := (satp_root (k_satp k)).

Lemma sk_mm_twice s s' k : sk_mm s (sk_mm s' k) = sk_mm s k.
Proof. reflexivity. Qed.
Lemma sk_mm_id k : sk_mm (set_mem (kmem k) (k_mm k)) k = k.
Proof. by destruct k as [[]]. Qed.

(** ** Loads *)

Lemma ld_bytes_run n : ∀ va k, user_range (kmem k) (kroot k) ARead va (Z.of_nat n) →
  ld_bytes va n k = Ret (ubytes (kmem k) (kroot k) va n, k).
Proof.
  induction n as [|n IH]; intros va k Hr; [done|]. cbn [ld_bytes].
  apply user_range_tail in Hr as [H0 Hr]; [|lia].
  destruct (user_ok_mmu _ _ _ _ H0) as (e & He & Hm). unfold bind, ld8, gets. cbn [bind id]. rewrite Hm. cbn [ret].
  rewrite wrap64_small by (destruct H0; unfold in_usize; lia).
  unfold ret. rewrite IH by (replace (Z.of_nat n) with (Z.of_nat (S n) - 1) by lia; done).
  assert (rd8 (kmem k) (pte_ppn e * 4096 + va mod 4096) = ubyte (kmem k) (kroot k) va) as ->
    by (unfold ubyte; by rewrite He).
  unfold ubytes. rewrite (seqZ_cons va) by lia. cbn [fmap list_fmap]. do 5 f_equal. lia.
Qed.

(** Kernel memory, which every table maps at its physical address. *)
Lemma ld_bytes_ident n : ∀ a k, 0 ≤ a → a + Z.of_nat n < 2 ^ 64 →
  (∀ y, a ≤ y < a + Z.of_nat n → mmu (kmem k) (kroot k) ARead y = Some y) →
  ld_bytes a n k = Ret (rd8 (kmem k) <$> seqZ a (Z.of_nat n), k).
Proof.
  induction n as [|n IH]; intros a k Hlo Hhi Hm; [done|]. cbn [ld_bytes]. unfold bind, ld8, gets, id. cbn [bind].
  rewrite Hm by lia. unfold ret. rewrite wrap64_small by (unfold in_usize; lia).
  rewrite IH by (intros; apply Hm || lia; lia). rewrite (seqZ_cons a) by lia. cbn [fmap list_fmap]. do 5 f_equal. lia.
Qed.

(** ** Stores *)

(** One byte stored at a user address. *)
Lemma store_user m s root a v e : as_inv root s → mm_mem s = m → 0 ≤ a < 2 ^ 38 →
  user_entry m root (a / 4096) = Some e →
  let m' := wr8 m (pte_ppn e * 4096 + a mod 4096) v in
  as_inv root (set_mem m' s) ∧ (∀ w, view m' root w = view m root w) ∧
  (∀ b, 0 ≤ b < 2 ^ 38 → is_Some (user_entry m root (b / 4096)) →
     ubyte m' root b = if decide (b = a) then u8 v else ubyte m root b) ∧
  (∀ x, (∀ w f, vpn_ok w → user_entry m root w = Some f → ¬ (pte_ppn f * 4096 ≤ x < pte_ppn f * 4096 + 4096)) →
     rd8 m' x = rd8 m x).
Proof.
  intros Hs <- Ha He m'. pose proof (user_vpn _ Ha) as Hv.
  destruct (as_user _ _ Hs _ _ Hv He) as (_ & Hp0 & _ & Hnt).
  destruct (as_inv_write root s m' Hs) as (Hi & Hview & _).
  { intros t y Ht Hy. unfold m'. rewrite rd8_wr8, decide_False; [done|]. intros ->.
    apply Hnt. assert (t = pte_ppn e) as <- by dlia. done. }
  split; [done|]. split; [done|]. split.
  - intros b Hb [f Hf]. unfold ubyte.
    assert (user_entry m' root (b / 4096) = user_entry (mm_mem s) root (b / 4096)) as -> by (unfold user_entry; by rewrite Hview).
    rewrite Hf. unfold m'. rewrite rd8_wr8.
    destruct (decide (b = a)) as [->|Hne].
    + assert (f = e) as -> by congruence. by rewrite decide_True.
    + rewrite decide_False; [done|]. intros Heq. apply Hne.
      assert (pte_ppn f = pte_ppn e) as Hpp by dlia.
      assert (b / 4096 = a / 4096) by (apply (as_inj _ _ Hs _ _ f e); auto using user_vpn). dlia.
  - intros y Hy. unfold m'. rewrite rd8_wr8, decide_False; [done|]. intros ->.
    apply (Hy _ _ Hv He). dlia.
Qed.

(** Stores to kernel memory outside the page tables: nothing else changes. *)
Lemma st_bytes_ident l hi : ∀ a k, 0 ≤ a → a + Z.of_nat (length l) < 2 ^ 64 → Forall (λ b, 0 ≤ b < 256) l →
  pt_wf (kmem k) (kroot k) hi →
  (∀ y, a ≤ y < a + Z.of_nat (length l) → mmu (kmem k) (kroot k) AWrite y = Some y ∧ ¬ is_table (kmem k) (kroot k) (y / 4096)) →
  ∃ m', st_bytes a l k = Ret (tt, sk_mm (set_mem m' (k_mm k)) k) ∧
    ∀ x, rd8 m' x = match (if decide (a ≤ x) then l !! Z.to_nat (x - a) else None) with Some c => c | None => rd8 (kmem k) x end.
Proof.
  induction l as [|c l IH]; intros a k Hlo Hhi Hl Hwf Hy; cbn [st_bytes].
  { exists (kmem k). rewrite sk_mm_id. split; [done|]. intros x. by case_decide. }
  cbn [length] in Hhi, Hy. apply Forall_cons in Hl as [Hc Hl]. destruct (Hy a) as [Hm Hnt]; [lia|].
  unfold bind at 1. unfold st8, gets, bind at 1, id. rewrite Hm. unfold modify. rewrite wrap64_small by (unfold in_usize; lia).
  set (m1 := wr8 (kmem k) a c). set (k1 := sk_mm (set_mem m1 (k_mm k)) k).
  destruct (pt_tables_frame _ m1 _ _ Hwf) as (Hn1 & Hv1 & Hwf1).
  { intros t x Ht Hx. unfold m1. rewrite rd8_wr8, decide_False; [done|]. intros ->. apply Hnt.
    assert (a / 4096 = t) as -> by dlia. done. }
  destruct (IH (a + 1) k1) as (m' & E & Hrd); [lia|lia|done|exact Hwf1| |].
  { intros y Hr. destruct (Hy y) as [Hmy Hty]; [lia|]. split.
    - rewrite <-Hmy. unfold mmu. change (kmem k1) with m1. change (kroot k1) with (kroot k). by rewrite Hv1.
    - intros (q & Hq & Ht). apply Hty. exists q. split; [done|]. by rewrite <-(Hn1 q Hq). }
  exists m'. split; [exact E|]. intros x. rewrite Hrd. change (kmem k1) with m1. destruct (decide (x = a)) as [->|Hne].
  - rewrite decide_False, decide_True, Z.sub_diag by lia. cbn. unfold m1. rewrite rd8_wr8, decide_True by done. by apply u8_small.
  - assert (rd8 m1 x = rd8 (kmem k) x) as -> by (unfold m1; by rewrite rd8_wr8, decide_False). destruct (decide (a ≤ x)).
    + rewrite decide_True by lia. replace (Z.to_nat (x - a)) with (S (Z.to_nat (x - (a + 1)))) by lia. done.
    + by rewrite decide_False by lia.
Qed.

(** What a store of [l] at [va] does to the memory of the address space. *)
Record stored (root va : Z) (l : list Z) (s : mm) (m' : mem) : Prop := {
  st_inv : as_inv root (set_mem m' s);
  st_view : ∀ w, view m' root w = view (mm_mem s) root w;
  st_byte : ∀ b, 0 ≤ b < 2 ^ 38 → is_Some (user_entry (mm_mem s) root (b / 4096)) →
    ubyte m' root b = match (if decide (va ≤ b) then l !! Z.to_nat (b - va) else None) with
                      | Some c => c
                      | None => ubyte (mm_mem s) root b
                      end;
  st_frame : ∀ x, (∀ w f, vpn_ok w → user_entry (mm_mem s) root w = Some f →
      ¬ (pte_ppn f * 4096 ≤ x < pte_ppn f * 4096 + 4096)) → rd8 m' x = rd8 (mm_mem s) x
}.

Lemma st_bytes_run l : ∀ va k, as_inv (kroot k) (k_mm k) → Forall (λ b, 0 ≤ b < 256) l →
  user_range (kmem k) (kroot k) AWrite va (Z.of_nat (length l)) →
  ∃ m', st_bytes va l k = Ret (tt, sk_mm (set_mem m' (k_mm k)) k) ∧ stored (kroot k) va l (k_mm k) m'.
Proof.
  induction l as [|c l IH]; intros va k Hi Hl Hr.
  { exists (kmem k). cbn [st_bytes]. rewrite sk_mm_id. split; [done|]. split; [|done| |done].
    - by destruct (k_mm k).
    - intros b _ _. by case_decide. }
  cbn [length] in Hr. apply user_range_tail in Hr as [H0 Hr]; [|lia]. apply Forall_cons in Hl as [Hc Hl].
  destruct (user_ok_mmu _ _ _ _ H0) as (e & He & Hm). destruct H0 as [Ha _].
  destruct (store_user (kmem k) (k_mm k) (kroot k) va c e Hi eq_refl Ha He) as (Hi1 & Hv1 & Hb1 & Hf1).
  set (m1 := wr8 (kmem k) (pte_ppn e * 4096 + va mod 4096) c) in *.
  set (k1 := sk_mm (set_mem m1 (k_mm k)) k).
  assert (st_bytes va (c :: l) k = st_bytes (va + 1) l k1) as ->.
  { cbn [st_bytes]. unfold bind at 1. unfold st8, gets, bind, id. rewrite Hm. unfold modify.
    by rewrite wrap64_small by (unfold in_usize; lia). }
  clearbody m1. destruct (IH (va + 1) k1) as (m' & E & [Hi2 Hv2 Hb2 Hf2]); [done|done| |].
  { intros a Hra. destruct (Hr a) as (Ha' & f & Hf & Hp); [lia|]. split; [done|]. exists f. split; [|done].
    rewrite <-Hf. unfold user_entry. change (kmem k1) with m1. by rewrite Hv1. }
  assert (∀ w, user_entry m1 (kroot k) w = user_entry (kmem k) (kroot k) w) as Hue
    by (intros w; unfold user_entry; by rewrite Hv1).
  exists m'. split; [exact E|]. change (kmem k1) with m1 in *. change (kroot k1) with (kroot k) in *. split.
  - done.
  - intros w. by rewrite Hv2, Hv1.
  - intros b Hb Hs. rewrite Hb2 by (by rewrite ?Hue). rewrite Hb1 by done.
    destruct (decide (b = va)) as [->|Hne].
    + rewrite decide_False, decide_True, Z.sub_diag by lia. cbn. by apply u8_small.
    + destruct (decide (va ≤ b)).
      * rewrite decide_True by lia. replace (Z.to_nat (b - va)) with (S (Z.to_nat (b - (va + 1)))) by lia. done.
      * by rewrite decide_False by lia.
  - intros x Hx. rewrite Hf2; [by apply Hf1|]. intros w f Hw. rewrite Hue. by apply Hx.
Qed.

(** The bytes stored are the bytes read back. *)
Lemma stored_bytes root va l s m' : stored root va l s m' → as_inv root s →
  user_range (mm_mem s) root AWrite va (Z.of_nat (length l)) → ubytes m' root va (length l) = l.
Proof.
  intros Hst Hs Hr. apply list_eq. intros i. unfold ubytes. rewrite list_lookup_fmap.
  destruct (decide (i < length l)%nat) as [Hi|Hi].
  - rewrite lookup_seqZ_lt by lia. cbn. destruct (Hr (va + Z.of_nat i)) as (Hb & e & He & _); [lia|].
    rewrite (st_byte _ _ _ _ _ Hst) by eauto. rewrite decide_True by lia.
    replace (Z.to_nat (va + Z.of_nat i - va)) with i by lia.
    by destruct (lookup_lt_is_Some_2 l i Hi) as [c ->].
  - rewrite lookup_seqZ_ge, (lookup_ge_None_2 l) by lia. done.
Qed.

Lemma stored_range root va l s m' acc a n : stored root va l s m' →
  user_range (mm_mem s) root acc a n → user_range m' root acc a n.
Proof.
  intros Hst. apply user_range_view, (st_view _ _ _ _ _ Hst).
Qed.

(** Little-endian words. *)
Lemma stw_run n va v k : as_inv (kroot k) (k_mm k) →
  user_range (kmem k) (kroot k) AWrite va (Z.of_nat n) →
  ∃ m', stw n va v k = Ret (tt, sk_mm (set_mem m' (k_mm k)) k) ∧ stored (kroot k) va (le_bytes n v) (k_mm k) m'.
Proof.
  intros Hi Hr. apply st_bytes_run; [done|apply Forall_le_bytes|]. by rewrite length_le_bytes.
Qed.
(** A store to a page without write permission. *)
Lemma st_bytes_fault va c l k : mmu (kmem k) (kroot k) AWrite va = None → st_bytes va (c :: l) k = Hang.
Proof. intros Hm. cbn [st_bytes]. unfold bind at 1, st8, gets, bind, id. by rewrite Hm. Qed.
End Access.
