(* ===== verification/Devices.v ===== *)
(** * Devices: [virtio.rs], the device half of [net.rs] and [sbi.rs]

    The network card is driven by the crate [virtio_drivers], the TCP/IP stack
    is [smoltcp]; the classes below are what the kernel uses of them. Modelled
    are the memory the kernel lends the driver ([RvHal]), the search for the
    card, the [Device] through which the stack reaches it, the start of the
    stack, and the registers of a firmware call. *)

From S2P Require Import Prelude Machine Alloc PageTable AddrSpace Pipe FdTable Fs Net Kernel Access.

Open Scope string_scope.
Open Scope list_scope.
Open Scope Z_scope.

(** ** The driver's view of memory: [RvHal] *)

(** [NonNull::new(p).unwrap()]. *)
Definition non_null {S} (p : Z) : M S Z := if p =? 0 then panic else ret p.

Definition dma_alloc (pages : Z) : M mm (Z * Z) :=
  let! paddr := expect (alloc_pages pages) in
  let! vaddr := non_null paddr in
  ret (paddr, vaddr).
Definition dma_dealloc (_paddr _vaddr _pages : Z) : M mm Z := ret 0.
Definition mmio_phys_to_virt (paddr _size : Z) : M mm Z := non_null paddr.
Definition share (buffer : Z) : M mm Z := ret buffer.
Definition unshare (_paddr _buffer : Z) : M mm unit := ret tt.

(** ** The driver crate *)

(** A device of type [DV] with receive buffers of type [RB]. *)
Class VirtIONet (DV RB : Type) := {
  (* [MmioTransport::new] on an address and [device_type] *)
  vt_device : Z → option Z;
  (* [VirtIONet::new] on that transport; an error with its text *)
  vn_new : Z → M mm (DV + list Z);
  vn_mac_address : DV → list Z;
  vn_receive : DV → option RB * DV;
  vn_packet : RB → list Z;
  vn_packet_put : list Z → RB → RB;
  vn_recycle_rx_buffer : RB → DV → DV;
  vn_can_send : DV → bool;
  vn_new_tx_buffer : Z → DV → list Z;
  (* the text of an error, if any *)
  vn_send : list Z → DV → option (list Z) * DV;
  (* the memory-mapped registers, by offset *)
  vn_read_reg : Z → DV → Z;
  vn_write_reg : Z → Z → DV → DV
}.

(** [{:#x}]. *)
Fixpoint hex_digits (fuel : nat) (n : Z) (acc : list Z) : list Z :=
  match fuel with
  | O => acc
  | S fuel' =>
      let d := n mod 16 in
      let c := if d <? 10 then 48 + d else 87 + d in
      if n <? 16 then c :: acc else hex_digits fuel' (n / 16) (c :: acc)
  end.
Definition hex (n : Z) : list Z := bytes_of "0x" ++ hex_digits 16 n [].

(** [DeviceType::Network]. *)
Definition NETWORK : Z := 1.

Section Virtio.
Context {NS DV RB : Type} `{!VirtIONet DV RB}.

(** The diagnostics after a card was found: the registers of both queues and,
    if the first has a page number, words of its rings. Their values go to
    messages below the level of the logger. *)
Definition show_queues (net : DV) : M (kernel NS) DV :=
  let net := vn_write_reg 0x30 0 net in
  let q0_pfn := vn_read_reg 0x40 net in
  let net := vn_write_reg 0x30 1 net in
  do! (if negb (q0_pfn =? 0) then
         let desc_paddr := q0_pfn *w 4096 in
         let avail_paddr := desc_paddr +w 256 in
         let used_paddr := desc_paddr +w 4096 in
         let! _ := ldw 2 (avail_paddr +w 2) in
         let! _ := ldw 2 (used_paddr +w 2) in
         mfor [0; 1; 2; 3] (λ i,
           let daddr := desc_paddr +w i *w 16 in
           let! _ := ldw 8 daddr in
           let! _ := ldw 4 (daddr +w 8) in
           let! _ := ldw 2 (daddr +w 12) in
           let! _ := ldw 2 (daddr +w 14) in
           ret tt)
       else ret tt) in
  ret net.

(** The loop of [virtio::init]: the card for [NET_DEVICE] and [MMIO_BASE]. *)
Fixpoint virtio_probe (addrs : list Z) : M (kernel NS) (option (DV * Z)) :=
  match addrs with
  | [] => do! warn (bytes_of "No VirtIO network device found") in ret None
  | addr :: rest =>
      if addr =? 0 then virtio_probe rest
      else
        match vt_device addr with
        | None => virtio_probe rest
        | Some ty =>
            if ty =? NETWORK then
              let! r := on_mm (vn_new addr) in
              match r with
              | inl net => let! net := show_queues net in ret (Some (net, addr))
              | inr e =>
                  do! warn (bytes_of "Found virtio-net at " ++ hex addr ++
                            bytes_of " but failed to initialize: " ++ e) in
                  virtio_probe rest
              end
            else virtio_probe rest
        end
  end.

Definition virtio_addrs : list Z :=
  [0x10001000; 0x10002000; 0x10003000; 0x10004000; 0x10005000; 0x10006000; 0x10007000; 0x10008000].
Definition virtio_init : M (kernel NS) (option (DV * Z)) := virtio_probe virtio_addrs.
End Virtio.

(** ** The device the stack sees: [NetDevice] *)

Record NetDevice (DV : Type) := { nd_device : option DV; nd_base : Z }.
Arguments nd_device {DV} _.
Arguments nd_base {DV} _.

Section NetDevice.
Context {DV RB : Type} `{!VirtIONet DV RB}.

Definition set_device (d : DV) (s : NetDevice DV) : NetDevice DV := {| nd_device := Some d; nd_base := nd_base s |}.

(** Select queue 0 and ring its bell. *)
Definition notify_rx : M (NetDevice DV) unit :=
  let! s := gets id in
  if negb (nd_base s =? 0) then
    modify (λ s, {| nd_device := vn_write_reg 0x50 0 <$> (vn_write_reg 0x30 0 <$> nd_device s); nd_base := nd_base s |})
  else ret tt.

(** The received buffer, which becomes the receive token. *)
Definition receive : M (NetDevice DV) (option RB) :=
  let! s := gets id in
  match nd_device s with
  | Some n =>
      let '(o, n') := vn_receive n in
      do! modify (set_device n') in
      match o with
      | Some rx_buf => ret (Some rx_buf)
      | None => do! notify_rx in ret None
      end
  | None => ret None
  end.

Definition transmit : M (NetDevice DV) bool :=
  gets (λ s, match nd_device s with Some n => vn_can_send n | None => false end).

(** [NetRxToken::consume]. The device is not locked while [f] runs, so [f] may
    transmit. *)
Definition rx_consume {R} (buffer : option RB) (f : list Z → M (NetDevice DV) (R * list Z)) : M (NetDevice DV) R :=
  match buffer with
  | None => panic
  | Some b =>
      let! r := f (vn_packet b) in
      let! s := gets id in
      do! match nd_device s with
          | Some n => modify (set_device (vn_recycle_rx_buffer (vn_packet_put r.2 b) n))
          | None => ret tt
          end in
      ret r.1
  end.

(** [NetTxToken::consume]: an error of [send] is dropped. *)
Definition tx_consume {R} (len : Z) (f : list Z → R * list Z) : M (NetDevice DV) R :=
  let! s := gets id in
  match nd_device s with
  | Some n =>
      let '(result, tx_buf) := f (vn_new_tx_buffer len n) in
      do! modify (set_device (vn_send tx_buf n).2) in
      ret result
  | None => ret (f (replicate (Z.to_nat len) 0)).1
  end.
End NetDevice.

(** ** Starting the stack: [net::init] *)

(** The stack over the card: [Interface::new], a socket set with eight free
    slots, the address 10.0.2.15/24 and the default route; and the driver's
    [send] below it. *)
Class NetBoot (NS DV : Type) := {
  nb_start : list Z → Z → DV → Z → NS;
  nb_send : list Z → NS → option (list Z) * NS
}.

(** The ARP request for the gateway. *)
Definition arp_request (mac : list Z) : list Z :=
  replicate 6 0xff ++ mac ++ [0x08; 0x06] ++
  [0x00; 0x01] ++ [0x08; 0x00] ++ [6] ++ [4] ++ [0x00; 0x01] ++ mac ++ [10; 0; 2; 15] ++ replicate 6 0 ++ [10; 0; 2; 2].

Section NetInit.
Context {NS DV RB : Type} `{!VirtIONet DV RB} `{!NetStack NS} `{!NetBoot NS DV}.

Definition net_init (device : option (DV * Z)) : M (kernel NS) unit :=
  match device with
  | None => warn (bytes_of "Network stack init skipped: no virtio-net device")
  | Some (n, base) =>
      let mac := vn_mac_address n in
      let! now := on_net get_time_ms in
      do! on_net (modify (λ s, {| n_device := true; n_stack := nb_start mac now n base; n_handles := n_handles s;
                                  n_epoll := n_epoll s; n_listen := n_listen s; n_clock := n_clock s;
                                  n_reads := n_reads s |})) in
      let! st := on_net (gets n_stack) in
      let '(e, st') := nb_send (arp_request mac) st in
      do! on_net (modify (sn_stack st')) in
      do! match e with Some msg => warn (bytes_of "ARP send failed: " ++ msg) | None => ret tt end in
      on_net (mfor (seqZ 0 500) (λ _, poll_network))
  end.

Definition init_devices : M (kernel NS) unit :=
  let! device := virtio_init in
  net_init device.
End NetInit.

(** ** Firmware calls: [sbi.rs] *)

(** The argument registers of an [ecall]. *)
Record sbi_regs := { sbi_a0 : Z; sbi_a1 : Z; sbi_a2 : Z; sbi_a6 : Z; sbi_a7 : Z }.
Definition SBI_SET_TIMER : Z := 0.
Definition SBI_SRST : Z := 0x53525354.
Definition sbi_call (eid fid arg0 arg1 arg2 : Z) : sbi_regs :=
  {| sbi_a0 := arg0; sbi_a1 := arg1; sbi_a2 := arg2; sbi_a6 := eid; sbi_a7 := fid |}.
Definition set_timer (timer : Z) : sbi_regs := sbi_call SBI_SET_TIMER 0 timer 0 0.
Definition sbi_shutdown : sbi_regs := sbi_call SBI_SRST 0 0 0 0.

(** ** What the driver relies on *)

(** The laws of the driver: starting a card takes at most [f] frames and [h]
    bytes of heap, leaves the memory below the free frames alone, and puts the
    receive queue in RAM. *)
Record driver_starts {DV RB : Type} `{!VirtIONet DV RB} (f h : Z) : Prop := {
  ds_frames : 0 ≤ f;
  ds_heap : 0 ≤ h;
  ds_new : ∀ addr s, pages_ok (mm_pages s) → heap_ok (mm_heap s) →
    cur s + f * 4096 ≤ page_end (mm_pages s) → heap_current (mm_heap s) + h ≤ heap_end (mm_heap s) →
    wp (vn_new addr) s (λ r s', pages_ok (mm_pages s') ∧
      cur s ≤ cur s' ≤ cur s + f * 4096 ∧ page_end (mm_pages s') = page_end (mm_pages s) ∧
      heap_current (mm_heap s) ≤ heap_current (mm_heap s') ≤ heap_current (mm_heap s) + h ∧
      heap_end (mm_heap s') = heap_end (mm_heap s) ∧
      (∀ y, y < cur s → rd8 (mm_mem s') y = rd8 (mm_mem s) y) ∧
      match r with
      | inl net => let pfn := vn_read_reg 0x40 (vn_write_reg 0x30 0 net) in
          pfn = 0 ∨ (0x80000 ≤ pfn ∧ pfn + 2 ≤ 0x88000)
      | inr _ => True
      end)
}.
Arguments driver_starts DV RB {_} f h.

Section DeviceSpec.
Context {NS DV RB : Type} `{!VirtIONet DV RB}.
Implicit Types k : kernel NS.

Abbreviation kmem k := (mm_mem (k_mm k)).
Abbreviation kroot k := (satp_root (k_satp k)).

(** The state before and after a step of the device start-up: [f] frames and
    [h] bytes of heap are gone at most, and only memory, console and network
    have changed. *)
Record devices_ran (f h : Z) k k' : Prop := {
  dr_pages : pages_ok (mm_pages (k_mm k'));
  dr_cur : cur (k_mm k) ≤ cur (k_mm k') ≤ cur (k_mm k) + f * 4096;
  dr_end : page_end (mm_pages (k_mm k')) = page_end (mm_pages (k_mm k));
  dr_heap : heap_current (mm_heap (k_mm k)) ≤ heap_current (mm_heap (k_mm k')) ≤ heap_current (mm_heap (k_mm k)) + h;
  dr_hend : heap_end (mm_heap (k_mm k')) = heap_end (mm_heap (k_mm k));
  dr_mem : ∀ y, y < cur (k_mm k) → rd8 (kmem k') y = rd8 (kmem k) y;
  dr_rest : ∃ s n o, k' = sk_out o (sk_net n (sk_mm s k)) ∧ n_handles n = n_handles (k_net k) ∧
    n_listen n = n_listen (k_net k)
}.

Lemma devices_ran_refl k : pages_ok (mm_pages (k_mm k)) → devices_ran 0 0 k k.
Proof.
  intros Hp. split; try done; [lia..|]. exists (k_mm k), (k_net k), (k_out k). by destruct k.
Qed.

Lemma devices_ran_trans f1 f2 h1 h2 k1 k2 k3 :
  devices_ran f1 h1 k1 k2 → devices_ran f2 h2 k2 k3 → devices_ran (f1 + f2) (h1 + h2) k1 k3.
Proof.
  intros [Hp Hc He Hh Hhe Hm (s & n & o & -> & Hn & Hl)] [Hp' Hc' He' Hh' Hhe' Hm' (s' & n' & o' & -> & Hn' & Hl')].
  split; try done; cbn in *; try lia.
  - intros y Hy. rewrite Hm' by lia. by apply Hm.
  - exists s', n', o'. split_and!; [done|congruence|congruence].
Qed.

Lemma devices_ran_le f f' h h' k k' : devices_ran f h k k' → f ≤ f' → h ≤ h' → devices_ran f' h' k k'.
Proof. intros [] Hf Hh. split; try done; lia. Qed.

Lemma devices_ran_print f h k k' o : devices_ran f h k k' → devices_ran f h k (sk_out o k').
Proof.
  intros [Hp Hc He Hh Hhe Hm (s & n & o' & -> & Hn & Hl)]. split; try done. by exists s, n, o.
Qed.
Lemma devices_ran_net f h k k' n : devices_ran f h k k' → n_handles n = n_handles (k_net k') →
  n_listen n = n_listen (k_net k') → devices_ran f h k (sk_net n k').
Proof.
  intros [Hp Hc He Hh Hhe Hm (s & n' & o' & -> & Hn & Hl)] E1 E2. split; try done. exists s, n, o'.
  split; [done|]. cbn in *. split; congruence.
Qed.

(** A word of RAM under the kernel's table. *)
Lemma ldw_ram n a k : kernel_table (kmem k) (kroot k) → 0x80000000 ≤ a → a + Z.of_nat n ≤ 0x88000000 →
  wp (ldw n a) k (λ _ k', k' = k).
Proof.
  intros Hk Hlo Hhi. unfold ldw. apply wp_bind. eapply wp_of_run; [|by apply wp_ret]. apply ld_bytes_ident; [lia..|].
  intros y Hy. rewrite (kernel_mmu _ _ _ y Hk) by lia. rewrite decide_True; [done|]. left. lia.
Qed.

Lemma show_queues_spec net k : kernel_table (kmem k) (kroot k) →
  (let pfn := vn_read_reg 0x40 (vn_write_reg 0x30 0 net) in pfn = 0 ∨ (0x80000 ≤ pfn ∧ pfn + 2 ≤ 0x88000)) →
  wp (show_queues net) k (λ _ k', k' = k).
Proof.
  cbv zeta. intros Hk Hpfn. unfold show_queues. cbv zeta. set (pfn := vn_read_reg 0x40 _) in *.
  apply wp_bind. eapply (wp_mono _ _ (λ _ k', k' = k)); [|by intros _ ? ->].
  destruct (Z.eqb_spec pfn 0) as [|Hne]; [done|]. destruct Hpfn as [|Hp]; [done|]. cbn [negb].
  apply wp_bind. eapply wp_mono; [apply ldw_ram; [done|unwrap; lia..]|]. intros _ ? ->.
  apply wp_bind. eapply wp_mono; [apply ldw_ram; [done|unwrap; lia..]|]. intros _ ? ->.
  apply (wp_mfor_inv (λ k', k' = k)); [done|]. intros i ? Hi ->.
  assert (0 ≤ i ≤ 3) as Hr by (set_unfold in Hi; lia).
  do 4 (apply wp_bind; eapply wp_mono; [apply ldw_ram; [done|unwrap; lia..]|]; intros _ ? ->). by apply wp_ret.
Qed.

(** The kernel's table survives while memory is only taken above it. *)
Lemma kernel_table_ran f h k k' : pt_wf (kmem k) (kroot k) (cur (k_mm k)) → devices_ran f h k k' →
  kernel_table (kmem k) (kroot k) → kernel_table (kmem k') (kroot k').
Proof.
  intros Hwf Hr Hk v Hv. destruct (pt_frame _ (kmem k') _ _ Hwf (dr_mem _ _ _ _ Hr)) as (_ & Hview & _).
  assert (kroot k' = kroot k) as -> by by destruct (dr_rest _ _ _ _ Hr) as (s & n & o & -> & _).
  rewrite Hview. by apply Hk.
Qed.

(** Each address probed costs at most one start of the driver. *)
Lemma virtio_probe_spec f h addrs k : driver_starts DV RB f h →
  let c := Z.of_nat (length addrs) in
  pages_ok (mm_pages (k_mm k)) → heap_ok (mm_heap (k_mm k)) →
  pt_wf (kmem k) (kroot k) (cur (k_mm k)) → kernel_table (kmem k) (kroot k) →
  cur (k_mm k) + c * f * 4096 ≤ page_end (mm_pages (k_mm k)) →
  heap_current (mm_heap (k_mm k)) + c * h ≤ heap_end (mm_heap (k_mm k)) →
  wp (virtio_probe addrs) k (λ _ k', devices_ran (c * f) (c * h) k k').
Proof.
  intros Hd. pose proof (ds_frames _ _ Hd) as Hf. pose proof (ds_heap _ _ Hd) as Hh. revert k.
  induction addrs as [|addr addrs IH]; intros k c Hp Hhp Hwf Hk Hfr Hhe; cbn [virtio_probe].
  { apply wp_bind, wp_print, wp_ret. by apply devices_ran_print, devices_ran_refl. }
  cbn [length] in c. set (c' := Z.of_nat (length addrs)) in *. assert (c = 1 + c') as Ec by lia. assert (0 ≤ c') by lia.
  assert (wp (virtio_probe addrs) k (λ _ k', devices_ran (c * f) (c * h) k k')) as Hskip.
  { eapply wp_mono; [apply IH; try done; nia|]. intros o k' Hr. apply (devices_ran_le _ _ _ _ _ _ Hr); nia. }
  destruct (addr =? 0); [done|]. destruct (vt_device addr) as [ty|]; [|done]. destruct (ty =? NETWORK); [|done].
  apply wp_bind, wp_on_mm. eapply wp_mono; [apply (ds_new _ _ Hd); [done|done|nia|nia]|].
  intros r s (Hps & Hcs & Hes & Hhs & Hhes & Hms & Hpfn).
  assert (devices_ran f h k (sk_mm s k)) as Hr1.
  { split; try done. exists s, (k_net k), (k_out k). by destruct k. }
  pose proof (kernel_table_ran _ _ _ _ Hwf Hr1 Hk) as Hk1. destruct r as [net|e].
  - apply wp_bind. eapply wp_mono; [by apply show_queues_spec|]. intros net' ? ->. apply wp_ret.
    apply (devices_ran_le _ _ _ _ _ _ Hr1); nia.
  - apply wp_bind, wp_print. set (k2 := sk_out _ _).
    assert (devices_ran f h k k2) as Hr2 by by apply devices_ran_print.
    assert (heap_ok (mm_heap s)) as Hhs' by (unfold heap_ok in *; lia).
    eapply wp_mono; [apply (IH k2); try done|].
    + cbn. destruct (pt_frame _ (mm_mem s) _ _ Hwf Hms) as (_ & _ & [Hrng Hinj]).
      split; [|done]. intros q t Hq Ht. specialize (Hrng q t Hq Ht). lia.
    + cbn. rewrite Hes. nia.
    + cbn. rewrite Hhes. nia.
    + intros o k' Hr. eapply devices_ran_le; [exact (devices_ran_trans _ _ _ _ _ _ _ Hr2 Hr)|nia|nia].
Qed.
End DeviceSpec.

Section InitSpec.
Context {NS DV RB : Type} `{!VirtIONet DV RB} `{!NetStack NS} `{!NetBoot NS DV}.
Implicit Types k : kernel NS.

(** Starting the stack changes nothing but the network and the console. *)
Lemma on_net_ran {A} f h k0 k (m : M (Net NS) A) : devices_ran f h k0 k →
  wp m (k_net k) (λ _ n, n_handles n = n_handles (k_net k) ∧ n_listen n = n_listen (k_net k)) →
  wp (on_net m) k (λ _ k', devices_ran f h k0 k').
Proof.
  intros Hr Hm. apply wp_on_net. eapply wp_mono; [exact Hm|]. intros a n [E1 E2]. by apply devices_ran_net.
Qed.

Lemma poll_network_ran (n0 n : Net NS) : n_handles n = n_handles n0 ∧ n_listen n = n_listen n0 →
  wp poll_network n (λ _ n', n_handles n' = n_handles n0 ∧ n_listen n' = n_listen n0).
Proof.
  intros Hn. unfold poll_network. apply wp_bind, wp_gets. destruct (n_device n); [|done].
  apply wp_bind, wp_bind. eapply wp_of_run; [reflexivity|]. by apply wp_ret, wp_modify.
Qed.

Lemma net_init_spec f h k0 k d : devices_ran f h k0 k → wp (net_init d) k (λ _ k', devices_ran f h k0 k').
Proof.
  intros Hr. destruct d as [[n base]|]; cbn [net_init]; [|by apply wp_print, devices_ran_print].
  apply wp_bind. eapply wp_mono; [by apply (on_net_ran f h k0)|]. cbn beta. intros now k1 Hr1.
  apply wp_bind. eapply wp_mono; [by apply (on_net_ran f h k0)|]. cbn beta. intros _ k2 Hr2.
  apply wp_bind. eapply wp_mono; [by apply (on_net_ran f h k0)|]. cbn beta. intros st k3 Hr3.
  destruct (nb_send _ _) as [e st']. apply wp_bind. eapply wp_mono; [by apply (on_net_ran f h k0)|]. cbn beta. intros _ k4 Hr4.
  apply wp_bind. eapply (wp_mono _ _ (λ _ k', devices_ran f h k0 k')).
  { destruct e; [by apply wp_print, devices_ran_print|by apply wp_ret]. }
  cbn beta. intros _ k5 Hr5. apply (on_net_ran f h k0); [done|].
  apply (wp_mfor_inv (λ n', n_handles n' = n_handles (k_net k5) ∧ n_listen n' = n_listen (k_net k5))); [done|].
  intros i n' _ Hn. by apply poll_network_ran.
Qed.

Lemma init_devices_spec f h k : driver_starts DV RB f h →
  pages_ok (mm_pages (k_mm k)) → heap_ok (mm_heap (k_mm k)) →
  pt_wf (mm_mem (k_mm k)) (satp_root (k_satp k)) (cur (k_mm k)) →
  kernel_table (mm_mem (k_mm k)) (satp_root (k_satp k)) →
  cur (k_mm k) + 8 * f * 4096 ≤ page_end (mm_pages (k_mm k)) →
  heap_current (mm_heap (k_mm k)) + 8 * h ≤ heap_end (mm_heap (k_mm k)) →
  wp init_devices k (λ _ k', devices_ran (8 * f) (8 * h) k k').
Proof.
  intros. unfold init_devices, virtio_init. apply wp_bind. eapply wp_mono; [by apply (virtio_probe_spec f h virtio_addrs)|].
  intros d k' Hr. by apply net_init_spec.
Qed.
End InitSpec.

(** ** Properties *)



(** ** Receive buffers *)

(** [posted d] counts the buffers that the device holds for packets to come. *)
Class VirtIOLaws (DV RB : Type) `{!VirtIONet DV RB} := {
  posted : DV → Z;
  vl_receive : ∀ d, match vn_receive d with (Some b, d') => posted d' = posted d - 1 | (None, d') => posted d' = posted d end;
  vl_recycle : ∀ b d, posted (vn_recycle_rx_buffer b d) = posted d + 1;
  vl_send : ∀ l d, posted (vn_send l d).2 = posted d;
  vl_write : ∀ o v d, posted (vn_write_reg o v d) = posted d
}.

Section Ring.
Context {DV RB : Type} `{!VirtIONet DV RB} `{!VirtIOLaws DV RB}.
Implicit Types s : NetDevice DV.

(** What the stack does with one packet: reply with some frames, each of a
    length and with contents of its choice, and overwrite the buffer. *)
Record reaction := { re_frames : list Z → list (Z * (list Z → list Z)); re_scratch : list Z → list Z }.

Definition react (re : reaction) (pkt : list Z) : M (NetDevice DV) (list Z * list Z) :=
  do! mfor (re_frames re pkt) (λ fr,
    let! ready := transmit in
    if ready then tx_consume fr.1 (λ buf, (tt, fr.2 buf)) else ret tt) in
  ret (pkt, re_scratch re pkt).

(** One round of the stack's ingress: the packet it saw, if any. *)
Definition ingress (re : reaction) : M (NetDevice DV) (option (list Z)) :=
  let! o := receive in
  match o with
  | Some b => let! pkt := rx_consume (Some b) (react re) in ret (Some pkt)
  | None => ret None
  end.

Fixpoint ingress_n (n : nat) (re : reaction) : M (NetDevice DV) unit :=
  match n with O => ret tt | S n' => let! _ := ingress re in ingress_n n' re end.

Definition ring s : option Z := posted <$> nd_device s.

Lemma react_ring re pkt s : wp (react re pkt) s (λ r s', r.1 = pkt ∧ ring s' = ring s ∧ nd_base s' = nd_base s).
Proof.
  apply wp_bind. eapply (wp_mono _ _ (λ _ s', ring s' = ring s ∧ nd_base s' = nd_base s)).
  - apply (wp_mfor_inv (λ s', ring s' = ring s ∧ nd_base s' = nd_base s)); [done|]. intros [len fill] s1 _ [Hr Hb].
    apply wp_bind, wp_gets. destruct (nd_device s1) as [n|] eqn:E; [|done]. destruct (vn_can_send n); [|done].
    unfold tx_consume. apply wp_bind, wp_gets. unfold id. rewrite E. apply wp_bind, wp_modify, wp_ret.
    unfold ring in *. rewrite E in Hr. cbn in *. split; [|done]. by rewrite vl_send.
  - intros _ s1 [Hr Hb]. by apply wp_ret.
Qed.

Lemma ingress_ring re s : wp (ingress re) s (λ o s', ring s' = ring s ∧ nd_base s' = nd_base s ∧
  o = match nd_device s with Some n => vn_packet <$> (vn_receive n).1 | None => None end).
Proof.
  unfold ingress, receive. apply wp_bind, wp_bind, wp_gets. unfold id. destruct (nd_device s) as [n|] eqn:E; [|by apply wp_ret, wp_ret].
  pose proof (vl_receive n) as Hv. destruct (vn_receive n) as [[b|] n'].
  - apply wp_bind, wp_modify, wp_ret. apply wp_bind. unfold rx_consume. apply wp_bind. eapply wp_mono; [apply react_ring|].
    intros r s1 (-> & Hr & Hb). apply wp_bind, wp_gets. unfold id. apply wp_bind. unfold ring in *. rewrite E. cbn in Hr, Hb.
    destruct (nd_device s1) as [n1|]; [|done]. apply wp_modify, wp_ret, wp_ret. cbn in *. injection Hr as Hr.
    split_and!; [|done|done]. rewrite vl_recycle. f_equal. lia.
  - apply wp_bind, wp_modify, wp_bind. unfold notify_rx. apply wp_bind, wp_gets. unfold id, ring. rewrite E. cbn [nd_base set_device].
    destruct (negb _); [apply wp_modify|apply wp_ret]; apply wp_ret, wp_ret; cbn; rewrite ?vl_write; split_and!; (done || by f_equal).
Qed.

End Ring.

(** ** A card in the first slot *)

Record toy_card := { tc_posted : Z; tc_packets : list (list Z); tc_sent : list (list Z) }.
#[global] Instance toy_virtio : VirtIONet toy_card (list Z) := {|
  vt_device := λ addr, if addr =? 0x10001000 then Some NETWORK else None;
  vn_new := λ _, let! _ := dma_alloc 2 in ret (inl {| tc_posted := 16; tc_packets := []; tc_sent := [] |});
  vn_mac_address := λ _, [0x52; 0x54; 0; 0x12; 0x34; 0x56];
  vn_receive := λ d,
    match tc_packets d with
    | p :: l => (Some p, {| tc_posted := tc_posted d - 1; tc_packets := l; tc_sent := tc_sent d |})
    | [] => (None, d)
    end;
  vn_packet := λ b, b;
  vn_packet_put := λ b _, b;
  vn_recycle_rx_buffer := λ _ d, {| tc_posted := tc_posted d + 1; tc_packets := tc_packets d; tc_sent := tc_sent d |};
  vn_can_send := λ _, true;
  vn_new_tx_buffer := λ len _, replicate (Z.to_nat len) 0;
  vn_send := λ l d, (None, {| tc_posted := tc_posted d; tc_packets := tc_packets d; tc_sent := tc_sent d ++ [l] |});
  vn_read_reg := λ _ _, 0;
  vn_write_reg := λ _ _ d, d
|}.

#[global] Instance toy_virtio_laws : VirtIOLaws toy_card (list Z).
Proof.
  refine {| posted := tc_posted |}; try done. intros d. cbn. by destruct (tc_packets d).
Defined.

(** It takes two frames for its queues. *)
Lemma toy_driver_starts : driver_starts toy_card (list Z) 2 0.
Proof.
  split; [lia..|]. intros addr s Hp Hh Hf _. cbn [vn_new toy_virtio]. apply wp_bind. unfold dma_alloc.
  destruct (alloc_pages_cases s 2 Hp) as [[_ E]|[? _]]; [lia| |lia].
  apply wp_bind, wp_expect. eapply wp_of_run; [exact E|]. apply wp_bind. unfold non_null.
  destruct (Z.eqb_spec (cur s) 0); [unfold pages_ok in Hp; lia|]. apply wp_ret, wp_ret, wp_ret.
  split; [apply take_frames_ok; [done|lia..]|].
  split_and!; try (cbn; lia). intros y Hy. unfold take_frames. cbn [mm_mem set_mem]. rewrite rd8_fill, decide_False by lia. done.
Qed.

(** Two packets in, one answer to each. *)
Definition toy_reaction : reaction := {| re_frames := λ p, [(60, λ _, p)]; re_scratch := λ p, p |}.
Definition toy_device : NetDevice toy_card :=
  {| nd_device := Some {| tc_posted := 16; tc_packets := [[1; 2]; [3]]; tc_sent := [] |}; nd_base := 0x10001000 |}.


(** The registers of [shutdown] ask for the legacy timer extension: the
    extension number belongs in [a7]. *)
Lemma sbi_shutdown_regs : sbi_a7 sbi_shutdown = SBI_SET_TIMER ∧ sbi_a6 sbi_shutdown = SBI_SRST.
Proof. done. Qed.
