(* ===== verification/Proc.v ===== *)
(** * Processes: [proc.rs]

    Creation of the first process, [exec], [fork], [exit] and the accessors of
    the current process. *)

From S2P Require Import Prelude Machine Alloc PageTable AddrSpace UserMem FdTable Fs Loader Net NetSpec Kernel.

Open Scope string_scope.
Open Scope list_scope.
Open Scope Z_scope.

(** [Process::new]. *)
Definition Process_new (pid : Z) : M mm (option Process) :=
  let? pt := PageTable_new in
  let? kstack := alloc_pages 2 in
  do! map_kernel_regions pt in
  ret (Some {|
    p_pid := pid; p_ppid := 0; p_state := Ready; p_page_table := pt; p_trap_frame := TrapFrame_new;
    p_kernel_stack := kstack +w 2 * PAGE_SIZE; p_brk := 0; p_exit_code := 0; p_fd_table := FdTable_new
  |}).

(** [(max_end + PAGE_SIZE - 1) & !(PAGE_SIZE - 1)], with the default for 0. *)
Definition initial_brk (max_end : Z) : Z :=
  let brk := Z.land (max_end +w PAGE_SIZE -w 1) (not64 (PAGE_SIZE - 1)) in
  if brk =? 0 then 0x10000 else brk.

(** [(1 << 5) | (1 << 13)]. *)
Definition user_sstatus : Z := Z.lor (Z.shiftl 1 5) (Z.shiftl 1 13).

Section Proc.
Context {NS : Type}.
Context (elf_new : list Z → option ElfFile).

Definition init_user_proc (elf_data : list Z) (argv : list string) : M (kernel NS) (option unit) :=
  let? proc := on_mm (Process_new 1) in
  let? r := on_mm (load_image elf_new (p_page_table proc) elf_data argv ["PATH=/bin"]) in
  let '(elf, max_end, sp) := r in
  let proc := sp_brk (initial_brk max_end) proc in
  let proc := sp_trap_frame (set_sepc (entry_point elf) (p_trap_frame proc)) proc in
  let proc := sp_trap_frame (set_sstatus user_sstatus (p_trap_frame proc)) proc in
  let proc := sp_trap_frame (set_reg 2 sp (p_trap_frame proc)) proc in
  let proc := sp_trap_frame (set_reg 10 (Z.of_nat (length argv)) (p_trap_frame proc)) proc in
  let proc := sp_state Running proc in
  do! modify (sk_current 1) in
  do! modify (set_proc 1 proc) in
  do! modify (sk_next_pid 2) in
  ret (Some tt).

(** [exec_process]: the new stack pointer and the process it leaves. *)
Definition exec_process (proc : Process) (elf_data : list Z) (argv envp : list string) :
    M mm (option Z * Process) :=
  let! o :=
    (let? new_pt := PageTable_new in
     do! map_kernel_regions new_pt in
     let? r := load_image elf_new new_pt elf_data argv envp in
     ret (Some (new_pt, r))) in
  match o with
  | None => ret (None, proc)
  | Some (new_pt, (elf, max_end, sp)) =>
      let proc := sp_page_table new_pt proc in
      let proc := sp_brk (initial_brk max_end) proc in
      let proc := sp_trap_frame (set_sepc (entry_point elf) (p_trap_frame proc)) proc in
      let proc := sp_trap_frame (set_sstatus user_sstatus (p_trap_frame proc)) proc in
      let proc := sp_trap_frame (set_reg 2 sp (p_trap_frame proc)) proc in
      ret (Some sp, proc)
  end.

Definition fork_process (parent_tf : TrapFrame) : M (kernel NS) (option Z) :=
  let! parent_pid := gets k_current in
  let? parent := gets (λ k, k_procs k !! parent_pid) in
  let? child_pt := on_mm (clone_user_space (p_page_table parent)) in
  let? child_kstack := on_mm (alloc_pages 2) in
  let child_tf := set_reg 10 0 parent_tf in
  let child_tf := set_sepc (tf_sepc child_tf +w 4) child_tf in
  let! pid := gets k_next_pid in
  do! modify (sk_next_pid (pid +w 1)) in
  let child := {|
    p_pid := pid; p_ppid := parent_pid; p_state := Ready; p_page_table := child_pt;
    p_trap_frame := child_tf; p_kernel_stack := child_kstack +w 2 * PAGE_SIZE;
    p_brk := p_brk parent; p_exit_code := 0; p_fd_table := p_fd_table parent
  |} in
  do! modify (set_proc pid child) in
  ret (Some pid).

Definition exit_process (code : Z) : M (kernel NS) unit :=
  let! pid := gets k_current in
  let! table := gets k_procs in
  let ppid := match table !! pid with Some p => p_ppid p | None => 0 end in
  do! match table !! pid with
      | Some proc => modify (set_proc pid (sp_exit_code code (sp_state Zombie proc)))
      | None => ret tt
      end in
  let! table := gets k_procs in
  match table !! ppid with
  | Some parent =>
      if decide (p_state parent = Waiting) then modify (set_proc ppid (sp_state Ready parent)) else ret tt
  | None => ret tt
  end.

Definition current_trap_frame : M (kernel NS) (option TrapFrame) :=
  gets (λ k, p_trap_frame <$> cur_proc k).

Definition set_current_trap_frame (tf : TrapFrame) : M (kernel NS) unit :=
  let! k := gets id in
  match cur_proc k with
  | Some p => modify (set_proc (k_current k) (sp_trap_frame tf p))
  | None => ret tt
  end.

(** The registers [run_user] loads before [sret]. *)
Record UserEntry := { ue_sscratch : Z; ue_satp : Z; ue_sepc : Z; ue_sstatus : Z; ue_sp : Z }.

Definition run_user : M (kernel NS) UserEntry :=
  let! p := expect (gets cur_proc) in
  let satp := satp_of (p_page_table p) in
  do! modify (sk_satp satp) in
  ret {| ue_sscratch := p_kernel_stack p; ue_satp := satp; ue_sepc := tf_sepc (p_trap_frame p);
         ue_sstatus := tf_sstatus (p_trap_frame p); ue_sp := tf_regs (p_trap_frame p) !!! 2%nat |}.
End Proc.

(** ** [exec] *)

Lemma kernel_view_no_user v e : vpn_ok v → kernel_view v = Some e → contains (pte_flags e) PTE_U = false.
Proof.
  unfold kernel_view, vpn_ok. intros Hv He. repeat case_decide; simplify_eq;
  (destruct (mapped_pte_ok (v * 4096) (PTE_R |f PTE_W |f PTE_X)) as (_ & _ & _ & H1); [unfold in_usize; lia|by vm_compute|]);
  (destruct (mapped_pte_ok (v * 4096) (PTE_R |f PTE_W)) as (_ & _ & _ & H2); [unfold in_usize; lia|by vm_compute|]);
  rewrite ?H1, ?H2; by vm_compute.
Qed.

(** An address space with the kernel's mappings only. *)
Lemma as_inv_kernel root s : pt_inv root s → (∀ v, vpn_ok v → view (mm_mem s) root v = kernel_view v) → as_inv root s.
Proof.
  intros Hp Hv. assert (∀ v, vpn_ok v → user_entry (mm_mem s) root v = None) as Hu.
  { intros v Hvk. unfold user_entry. rewrite Hv by done. destruct (kernel_view v) as [e|] eqn:E; [|done].
    by rewrite (kernel_view_no_user v e). }
  split; [done|..]; intros *; intros; rewrite Hu in *; done.
Qed.

(** What the loader needs of a program and its arguments. *)
Record program_ok (elf_new : list Z → option ElfFile) (d : list Z) (elf : ElfFile) (argv envp : list string) : Prop := {
  po_bytes : Forall (λ b, 0 ≤ b < 256) d;
  po_parse : elf_new d = Some elf;
  po_fields : elf_fields_ok elf;
  po_segs : segs_ok (Z.of_nat (length d)) (program_iter elf);
  po_user : ∀ v, in_seg (program_iter elf) v → kernel_view v = None ∧ ¬ is_stack v;
  po_args : (length argv + length envp ≤ 12)%nat;
  po_strings : Forall (λ s, (String.length s < 256)%nat) (argv ++ envp)
}.

(** Room for a new address space: tables, stack and image, below the heap. *)
Record room_ok (d : list Z) (elf : ElfFile) (s : mm) : Prop := {
  ro_pages : pages_ok (mm_pages s);
  ro_heap : heap_ok (mm_heap s);
  ro_image : heap_current (mm_heap s) + 16 + Z.of_nat (length d) ≤ heap_end (mm_heap s);
  ro_frames : cur s + 4096 * (135 + 3 * (9 + total_pages (program_iter elf))) ≤ page_end (mm_pages s);
  ro_below : cur s + 4096 * (135 + 3 * (9 + total_pages (program_iter elf))) ≤ heap_current (mm_heap s)
}.

Lemma initial_brk_spec m : 0 < m < 2 ^ 63 → m ≤ initial_brk m < m + 4096 ∧ initial_brk m mod 4096 = 0.
Proof.
  intros Hm. unfold initial_brk, PAGE_SIZE. unwrap. change (4096 - 1) with (2 ^ 12 - 1).
  rewrite land_not64 by (unfold in_usize; lia). change (2 ^ 12) with 4096. cbv zeta.
  destruct (Z.eqb_spec (m + 4096 - 1 - (m + 4096 - 1) mod 4096) 0); dlia.
Qed.

#[local] Opaque load_image map_kernel_regions PageTable_new clone_user_space alloc_pages.

(** [execve] builds the program's address space. For a file the ELF parser
    accepts, whose LOAD segments lie in the file and on disjoint pages outside
    the kernel's and the stack's, with at most 12 argument and environment
    strings of at most 255 bytes, and with enough free memory, [exec_process]
    does not fail: the process gets a new page table in which every page of
    every segment holds the bytes of the file (zeros beyond the file part) with
    the segment's permissions, eight zeroed stack pages, and a top stack page
    with [argc], [argv], [envp], the auxiliary vector and the strings in the
    layout of the ABI; everything else is as in the kernel's map. The program
    counter is the entry point, the stack pointer the top page, and the break
    the end of the last segment rounded up. *)
Lemma exec_process_spec elf_new p d elf argv envp s : program_ok elf_new d elf argv envp → room_ok d elf s →
  wp (exec_process elf_new p d argv envp) s (λ r s', ∃ pt,
    r = (Some STACK_TOP,
         sp_trap_frame (set_reg 2 STACK_TOP (set_sstatus user_sstatus (set_sepc (entry_point elf) (p_trap_frame p))))
           (sp_brk (initial_brk (segs_end (program_iter elf) 0)) (sp_page_table pt p))) ∧
    root_ppn pt * 4096 = cur s ∧
    image_loaded (root_ppn pt) s' elf d argv envp).
Proof.
  intros [Hb Hpa Hfi Hsg Hus Har Hst] [Hpg Hhp Him Hfr Hbl].
  pose proof (total_pages_nonneg _ _ Hsg) as Htp.
  unfold exec_process. apply wp_bind.
  pose proof (fresh_space_spec s Hpg ltac:(lia)) as Hf.
  apply wp_run in Hf as (o & s1 & E & pt & -> & Hroot & Hinv & Hc & He & Hh & Ht & Hmem & Hv).
  unfold try_opt, bind, ret in E.
  destruct (PageTable_new s) as [[[npt|] s2]| | |] eqn:E1; try done.
  destruct (map_kernel_regions npt s2) as [[[] s3]| | |] eqn:E2; try done. injection E as -> ->.
  apply wp_try_opt. eapply wp_of_run; [exact E1|]. apply wp_bind. eapply wp_of_run; [exact E2|].
  apply wp_try_opt. eapply wp_mono.
  { apply (load_image_spec elf_new pt d elf argv envp s1); try done; [by apply as_inv_kernel|by rewrite Hh|rewrite Hh; lia|rewrite Hh; lia|lia]. }
  intros o s4 (-> & Hil). apply wp_ret. apply wp_ret. exists pt. split; [done|]. split; [|done].
  rewrite Hroot. destruct Hpg as (_ & _ & Hm). dlia.
Qed.

(** ** [fork] *)

Lemma as_user_pages root s : as_inv root s → user_pages_ok (mm_mem s) root (cur s).
Proof. intros Hs v e Hv Hu. destruct (as_user _ _ Hs v e Hv Hu) as (? & ? & ? & ?). auto. Qed.

Lemma lor_vad fl : (fl |f PTE_V |f PTE_A |f PTE_D) |f PTE_V |f PTE_A |f PTE_D = fl |f PTE_V |f PTE_A |f PTE_D.
Proof. apply Z.bits_inj'. intros i Hi. rewrite !Z.lor_spec. by destruct (Z.testbit fl i), (Z.testbit PTE_V i), (Z.testbit PTE_A i), (Z.testbit PTE_D i). Qed.

(** The parts of a finished clone. *)
Section Cloned.
Context (s0 : mm) (pt : PageTable) (us : list Z) (r c1 : Z) (s : mm).
Let root := root_ppn pt.
Context (Hs0 : as_inv root s0) (Hus : ∀ v, v ∈ us ↔ vpn_ok v ∧ is_Some (user_entry (mm_mem s0) root v)).
Context (Hc : clone_inv s0 pt us r c1 (2 ^ 27) s).

Lemma clone_user v e' : vpn_ok v → user_entry (mm_mem s) r v = Some e' →
  ∃ e pa, user_entry (mm_mem s0) root v = Some e ∧ e' = mapped_pte pa (pte_flags e) ∧ pa mod 4096 = 0 ∧
    cur s0 ≤ pa ∧ pa + 4096 ≤ cur s ∧ pte_ppn e' * 4096 = pa ∧ ¬ is_table (mm_mem s) r (pa / 4096) ∧
    pte_flags e' = pte_flags e |f PTE_V |f PTE_A |f PTE_D ∧
    (∀ x, 0 ≤ x < 4096 → rd8 (mm_mem s) (pa + x) = rd8 (mm_mem s0) (pte_ppn e * 4096 + x)).
Proof.
  intros Hv Hu'. pose proof (user_entry_view _ _ _ _ Hu') as Hv'.
  destruct (user_entry (mm_mem s0) root v) as [e|] eqn:Hu.
  - destruct (ci_done _ _ _ _ _ _ _ Hc v e Hv Hu) as (pa & Hview & Hm & Hlo & Hhi & Ht & Hx); [unfold vpn_ok in Hv; lia|].
    assert (e' = mapped_pte pa (pte_flags e)) as -> by congruence.
    destruct (as_pt _ _ Hs0) as [_ (Hp0 & _ & _)]. destruct (ci_inv _ _ _ _ _ _ _ Hc) as [_ (Hp1 & Hp2 & _)].
    destruct (mapped_pte_ok pa (pte_flags e)) as (_ & _ & Hp & Hf); [unfold in_usize; lia|apply pte_flags_ok|].
    exists e, pa. split_and!; try done.
    + rewrite Hp. dlia.
    + intros Htab. apply (Ht _ Htab). dlia.
  - rewrite (ci_kernel _ _ _ _ _ _ _ Hc v Hv Hu) in Hv'. unfold user_entry in Hu'.
    rewrite (ci_kernel _ _ _ _ _ _ _ Hc v Hv Hu), Hv' in Hu'. by rewrite (kernel_view_no_user v e') in Hu'.
Qed.

Lemma clone_as_inv : as_inv r s.
Proof.
  split; [apply (ci_inv _ _ _ _ _ _ _ Hc)|..].
  - intros v e' Hv Hu. destruct (clone_user v e' Hv Hu) as (e & pa & Hue & -> & Hm & Hlo & Hhi & Hppn & Hnt & _ & _).
    destruct (as_user _ _ Hs0 v e Hv Hue) as (Hk & _). destruct (as_pt _ _ Hs0) as [_ (Hp0 & _ & _)].
    split_and!; [done|lia|lia|]. intros Ht. apply Hnt.
    assert (pa / 4096 = pte_ppn (mapped_pte pa (pte_flags e))) as -> by dlia. done.
  - intros v v' e e' Hv Hv' Hu Hu' Heq. destruct (decide (v = v')) as [|Hne]; [done|].
    destruct (clone_user v e Hv Hu) as (? & ? & Hue & _). destruct (clone_user v' e' Hv' Hu') as (? & ? & Hue' & _).
    exfalso. apply (ci_inj _ _ _ _ _ _ _ Hc v v' e e' Hne); [apply Hus; split; eauto..|by apply user_entry_view|by apply user_entry_view|done].
Qed.

Lemma clone_page v fl c : vpn_ok v → page_is root s0 v fl c → page_is r s v fl c.
Proof.
  intros Hv (e & Hu & Hf & Hx).
  destruct (ci_done _ _ _ _ _ _ _ Hc v e Hv Hu) as (pa & Hview & _); [unfold vpn_ok in Hv; lia|].
  destruct (as_pt _ _ Hs0) as [_ (Hp0 & _ & _)].
  assert (user_entry (mm_mem s) r v = Some (mapped_pte pa (pte_flags e))) as Hu'.
  { unfold user_entry. rewrite Hview.
    destruct (ci_done _ _ _ _ _ _ _ Hc v e Hv Hu) as (pa' & Hview' & _ & Hlo & Hhi & _); [unfold vpn_ok in Hv; lia|].
    destruct (ci_inv _ _ _ _ _ _ _ Hc) as [_ (Hp1 & Hp2 & _)].
    assert (in_usize pa') as Hpa by (unfold in_usize; lia).
    destruct (mapped_pte_ok pa' (pte_flags e) Hpa) as (_ & _ & _ & Hfl); [apply pte_flags_ok|].
    assert (mapped_pte pa (pte_flags e) = mapped_pte pa' (pte_flags e)) as -> by congruence.
    rewrite Hfl, Hf, lor_vad, <-Hf. unfold user_entry in Hu. destruct (view _ root v); [|done].
    destruct (contains (pte_flags p) PTE_U) eqn:Hcu; [|done]. injection Hu as ->. by rewrite Hcu. }
  destruct (clone_user v _ Hv Hu') as (e2 & pa2 & Hu2 & E2 & _ & _ & _ & Hppn & _ & Hfl & Hx2).
  assert (e2 = e) as -> by congruence. exists (mapped_pte pa (pte_flags e)). split; [done|].
  split; [by rewrite Hfl, Hf, lor_vad|]. intros x Hxr. rewrite Hppn, Hx2 by done. by apply Hx.
Qed.
End Cloned.

Section Fork.
Context {NS : Type}.
Implicit Types k : kernel NS.

(** The two address spaces after a fork. *)
Record forked (proot croot : Z) (s s' : mm) : Prop := {
  fk_parent : as_inv proot s';
  fk_child : as_inv croot s';
  fk_parent_view : ∀ v, view (mm_mem s') proot v = view (mm_mem s) proot v;
  fk_pages : ∀ v fl c, vpn_ok v → page_is proot s v fl c → page_is proot s' v fl c ∧ page_is croot s' v fl c;
  fk_only : ∀ v, vpn_ok v → user_entry (mm_mem s) proot v = None → view (mm_mem s') croot v = kernel_view v;
  fk_private : ∀ v v' e e', vpn_ok v → vpn_ok v' → user_entry (mm_mem s') proot v = Some e →
    user_entry (mm_mem s') croot v' = Some e' → pte_ppn e ≠ pte_ppn e'
}.

Lemma fork_memory pt us s : as_inv (root_ppn pt) s → NoDup us →
  (∀ v, v ∈ us ↔ vpn_ok v ∧ is_Some (user_entry (mm_mem s) (root_ppn pt) v)) →
  cur s + (137 + 3 * Z.of_nat (length us)) * 4096 ≤ page_end (mm_pages s) →
  ∃ npt kst s1 s', clone_user_space pt s = Ret (Some npt, s1) ∧ alloc_pages 2 s1 = Ret (Some kst, s') ∧
    cur s ≤ kst ∧ kst + 8192 ≤ page_end (mm_pages s) ∧ forked (root_ppn pt) (root_ppn npt) s s'.
Proof.
  intros Hs Hnd Hus Hfit. destruct (as_pt _ _ Hs) as [Hwf Hpg].
  pose proof (clone_user_space_spec s pt us (as_pt _ _ Hs) (as_user_pages _ _ Hs) Hnd Hus ltac:(lia)) as Hcl.
  apply wp_run in Hcl as (o & s1 & E1 & npt & c1 & -> & Hc1 & Hroot & Hc).
  pose proof (ci_inv _ _ _ _ _ _ _ Hc) as [Hwf1 Hpg1]. pose proof (ci_cost _ _ _ _ _ _ _ Hc) as Hcost.
  pose proof (done_count_le us (2 ^ 27)) as Hdc. pose proof (ci_end _ _ _ _ _ _ _ Hc) as Hend. pose proof (ci_cur _ _ _ _ _ _ _ Hc) as Hcur.
  destruct (alloc_pages_cases s1 2 Hpg1 ltac:(lia)) as [[Hfit2 E2]|[? _]]; [|lia].
  exists npt, (cur s1), s1, (take_frames 2 s1). split; [done|]. split; [done|]. split; [done|]. split; [lia|].
  assert (pages_ok (mm_pages (take_frames 2 s1))) as Hpg2 by (apply take_frames_ok; [done|lia|lia]).
  assert (∀ x, x < cur s1 → rd8 (mm_mem (take_frames 2 s1)) x = rd8 (mm_mem s1) x) as Hm2.
  { intros x Hx. unfold take_frames. rewrite mm_mem_set_mem, rd8_fill. by rewrite decide_False by lia. }
  assert (cur (take_frames 2 s1) = cur s1 + 2 * 4096) as Hc2 by done.
  destruct (as_inv_grow (root_ppn npt) s1 (take_frames 2 s1)) as (Hic & Hvc & Hpc);
    [by apply (clone_as_inv s pt us _ c1)|done|lia|done|].
  destruct (as_inv_grow (root_ppn pt) s (take_frames 2 s1)) as (Hip & Hvp & Hpp); [done|done|lia| |].
  { intros x Hx. rewrite Hm2 by lia. by apply (ci_mem _ _ _ _ _ _ _ Hc). }
  split; [done|done|done|..].
  - intros v fl c Hv Hp. split; [by apply Hpp|]. apply Hpc; [done|]. by apply (clone_page s pt us _ c1).
  - intros v Hv Hn. rewrite Hvc. by apply (ci_kernel _ _ _ _ _ _ _ Hc).
  - intros v v' e e' Hv Hv' Hu Hu'.
    assert (user_entry (mm_mem s) (root_ppn pt) v = Some e) as Hu0 by (unfold user_entry in *; by rewrite Hvp in Hu).
    assert (user_entry (mm_mem s1) (root_ppn npt) v' = Some e') as Hu1 by (unfold user_entry in *; by rewrite Hvc in Hu').
    destruct (as_user _ _ Hs v e Hv Hu0) as (_ & _ & ? & _).
    destruct (clone_user s pt us _ c1 s1 Hs Hc v' e' Hv' Hu1) as (? & pa & _ & _ & _ & ? & _ & ? & _). lia.
Qed.

Definition child_of (pid ppid kst : Z) (pt : PageTable) (tf : TrapFrame) (parent : Process) : Process := {|
  p_pid := pid; p_ppid := ppid; p_state := Ready; p_page_table := pt;
  p_trap_frame := set_sepc (tf_sepc tf +w 4) (set_reg 10 0 tf);
  p_kernel_stack := kst +w 2 * PAGE_SIZE; p_brk := p_brk parent; p_exit_code := 0; p_fd_table := p_fd_table parent
|}.

(** C4: [fork] duplicates the process. When the parent's address space is well
    formed and memory suffices, the child gets the next pid, the parent's
    registers with [a0 = 0] and the program counter after the [ecall], its own
    kernel stack, and a page table in which every user page has the parent's
    contents and permissions but a frame of its own: no user frame is shared,
    the parent's memory is unchanged, and both address spaces stay well
    formed. *)
Theorem fork_copies_process tf parent us k : k_procs k !! k_current k = Some parent →
  let proot := root_ppn (p_page_table parent) in let s := k_mm k in
  as_inv proot s → NoDup us → (∀ v, v ∈ us ↔ vpn_ok v ∧ is_Some (user_entry (mm_mem s) proot v)) →
  cur s + (137 + 3 * Z.of_nat (length us)) * 4096 ≤ page_end (mm_pages s) →
  ∃ pt kst s', let pid := k_next_pid k in
    fork_process tf k = Ret (Some pid,
      set_proc pid (child_of pid (k_current k) kst pt tf parent) (sk_next_pid (pid +w 1) (sk_mm s' k))) ∧
    cur s ≤ kst ∧ kst + 8192 ≤ page_end (mm_pages s) ∧
    forked proot (root_ppn pt) s s'.
Proof.
  intros Hp proot s Hs Hnd Hus Hfit.
  destruct (fork_memory _ us s Hs Hnd Hus Hfit) as (npt & kst & s1 & s' & E1 & E2 & Hk1 & Hk2 & Hf).
  exists npt, kst, s'. cbv zeta. split; [|done].
  unfold fork_process, try_opt, bind, gets, modify, on_mm, zoom, ret. rewrite Hp. fold s. rewrite E1.
  change (k_mm (sk_mm s1 k)) with s1. by rewrite E2.
Qed.
End Fork.

(** ** Examples *)

(** A program with one segment of 16 file bytes on two pages. *)
Definition demo_image : list Z := replicate 16 0x13.
Definition demo_header : ProgramHeader := {|
  ph_type := Some Load; virtual_addr := 0x10000; mem_size := 0x1800; file_size := 16; ph_offset := 0;
  is_read := true; is_write := true; is_execute := true
|}.
Definition demo_elf : ElfFile := {|
  entry_point := 0x10000; phdr_offset := 64; ph_entry_size := 56; ph_count := 1; program_iter := [demo_header]
|}.
Definition demo_elf_new (d : list Z) : option ElfFile := if decide (d = demo_image) then Some demo_elf else None.
Definition demo_mm : mm := Mm ∅ {| heap_current := 0x86000000; heap_end := 0x87000000 |}
                                {| page_current := 0x80400000; page_end := 0x88000000 |}.
Definition demo_process : Process := {|
  p_pid := 1; p_ppid := 0; p_state := Running; p_page_table := table0; p_trap_frame := TrapFrame_new;
  p_kernel_stack := 0x80402000; p_brk := 0; p_exit_code := 0; p_fd_table := FdTable_new
|}.

Lemma demo_program_ok : program_ok demo_elf_new demo_image demo_elf ["sh"] ["PATH=/bin"].
Proof.
  split.
  - by repeat constructor.
  - reflexivity.
  - done.
  - cbn. split_and!; [eauto| |done]. intros _. split; [by split|constructor].
  - intros v (ph & ->%list_elem_of_singleton & _ & Hv).
    change (seg_first demo_header) with 0x10 in Hv. change (seg_last demo_header) with 0x11 in Hv.
    split; [|unfold is_stack, STACK_VPN; lia]. unfold kernel_view. by rewrite !decide_False by lia.
  - cbn. lia.
  - repeat constructor; cbn; lia.
Qed.

(** An address space with one user page, at 0x10000. *)
Lemma as_inv_empty root s : pt_inv root s → (∀ v, view (mm_mem s) root v = None) → as_inv root s.
Proof.
  intros Hpt Hv. split; [done|..].
  - intros v e _ He. unfold user_entry in He. by rewrite Hv in He.
  - intros v v' e e' _ _ He. unfold user_entry in He. by rewrite Hv in He.
Qed.

Lemma demo_space : ∃ s, as_inv (root_ppn table0) s ∧ cur s + 150 * 4096 ≤ page_end (mm_pages s) ∧
  (∀ v, v ∈ [0x10] ↔ vpn_ok v ∧ is_Some (user_entry (mm_mem s) (root_ppn table0) v)) ∧
  page_is (root_ppn table0) s 0x10 stack_flags (λ _, 0) ∧
  (∀ v, vpn_ok v → v ≠ 0x10 → view (mm_mem s) (root_ppn table0) v = None).
Proof.
  destruct table0_ok as [Hpt Hnone]. pose proof (as_inv_empty _ _ Hpt Hnone) as Hs.
  destruct (wp_run _ _ _ (alloc_map_page table0 0x10000 stack_flags 0x10 table0_mm eq_refl ltac:(done) stack_flags_user
    Hs eq_refl (Hnone _) ltac:(done))) as (o & s & _ & _ & Hf & Hp & Hu & _).
  exists s. split; [apply Hf|]. split.
  { rewrite (ext_end _ _ _ (fp_ext _ _ _ _ _ Hf)). pose proof (fp_cur _ _ _ _ _ Hf). cbn in *. lia. }
  split; [|split; [done|]].
  - intros v. rewrite list_elem_of_singleton. split.
    + intros ->. split; [done|]. eexists. exact Hu.
    + intros [Hv [e He%user_entry_view]]. rewrite (fp_view _ _ _ _ _ Hf) in He by done.
      case_decide; [done|]. by rewrite Hnone in He.
  - intros v Hv Hne. rewrite (fp_view _ _ _ _ _ Hf), decide_False by done. apply Hnone.
Qed.

Definition demo_kernel (s : mm) : kernel toy_stack := {|
  k_mm := s; k_kpt := None; k_fs := fs_empty; k_fdt := FdTable_new; k_pipes := ∅; k_next_pipe := 1;
  k_fake := ∅; k_fake_next := 100; k_procs := {[1 := demo_process]}; k_current := 1; k_next_pid := 2;
  k_ctf := TrapFrame_new; k_satp := satp_of table0; k_mmap_base := 0; k_last_tp := 0; k_net := toy_state;
  k_out := []; k_in := []
|}.

Lemma fork_copies_process_witness : ∃ s pt kst s',
  fork_process TrapFrame_new (demo_kernel s) = Ret (Some 2,
    set_proc 2 (child_of 2 1 kst pt TrapFrame_new demo_process) (sk_next_pid 3 (sk_mm s' (demo_kernel s)))) ∧
  cur s ≤ kst ∧ kst + 8192 ≤ page_end (mm_pages s) ∧
  forked (root_ppn table0) (root_ppn pt) s s'.
Proof.
  destruct demo_space as (s & Hs & Hfit & Hus & _). exists s.
  apply (fork_copies_process TrapFrame_new demo_process [0x10] (demo_kernel s)).
  - reflexivity.
  - exact Hs.
  - apply NoDup_singleton.
  - exact Hus.
  - cbn. lia.
Defined.
