(* ===== verification/Progress.v ===== *)
(** * Termination of the loader

    [load_elf_into] loops over page numbers in 64-bit arithmetic that can wrap
    around, and its bounds come from the program headers of an arbitrary file.
    This file shows that creating, cloning and replacing an address space
    always ends, for every image and every memory, well formed or not: each
    turn of the loop consumes a frame, and frames are finite. *)

From S2P Require Import Prelude Machine Alloc PageTable AddrSpace UserMem FdTable Loader Kernel Proc.

(** The computation ends in a result or a panic, and it only takes frames. *)
Definition frames_mono {A} (m : M mm A) : Prop := ∀ s, pages_ok (mm_pages s) →
  match m s with
  | Ret (_, s') => pages_ok (mm_pages s') ∧ cur s ≤ cur s' ∧ page_end (mm_pages s') = page_end (mm_pages s)
  | Panic => True
  | Hang | Shutdown => False
  end.

Create HintDb frames.

Section Mono.
Context {A B : Type}.
Implicit Types m : M mm A.

Lemma mono_ret (a : A) : frames_mono (ret a).
Proof. intros s H. by split_and!. Qed.
Lemma mono_panic : frames_mono (A := A) panic.
Proof. intros s H. done. Qed.
Lemma mono_gets (f : mm → A) : frames_mono (gets f).
Proof. intros s H. by split_and!. Qed.
Lemma mono_bind m (f : A → M mm B) : frames_mono m → (∀ a, frames_mono (f a)) → frames_mono (bind m f).
Proof.
  intros Hm Hf s Hs. specialize (Hm s Hs). unfold bind. destruct (m s) as [[a s']| | |]; try done.
  destruct Hm as (Hok & Hc & He). specialize (Hf a s' Hok). destruct (f a s') as [[b s'']| | |]; try done.
  destruct Hf as (? & ? & ?). split_and!; [done|lia|congruence].
Qed.
End Mono.

Lemma mono_try {A B} (m : M mm (option A)) (f : A → M mm (option B)) :
  frames_mono m → (∀ a, frames_mono (f a)) → frames_mono (try_opt m f).
Proof. intros Hm Hf. apply mono_bind; [done|]. intros [a|]; [done|apply mono_ret]. Qed.
Lemma mono_expect {A} (m : M mm (option A)) : frames_mono m → frames_mono (expect m).
Proof. intros Hm. apply mono_bind; [done|]. intros [a|]; [apply mono_ret|apply mono_panic]. Qed.
Lemma mono_mem (f : mm → mem) : frames_mono (modify (λ s, set_mem (f s) s)).
Proof. intros s H. by split_and!. Qed.
Lemma mono_if {A} (b : bool) (m1 m2 : M mm A) : frames_mono m1 → frames_mono m2 → frames_mono (if b then m1 else m2).
Proof. by destruct b. Qed.
Lemma mono_mfor {X} (l : list X) (f : X → M mm unit) : (∀ x, frames_mono (f x)) → frames_mono (mfor l f).
Proof. intros Hf. induction l as [|x l IH]; cbn [mfor]; [apply mono_ret|]. by apply mono_bind. Qed.
Lemma mono_mfor_opt {X} (l : list X) (f : X → M mm (option unit)) :
  (∀ x, frames_mono (f x)) → frames_mono (mfor_opt l f).
Proof. intros Hf. induction l as [|x l IH]; cbn [mfor_opt]; [apply mono_ret|]. by apply mono_try. Qed.

#[export] Hint Resolve mono_ret mono_panic mono_gets mono_mem : frames.

Ltac mono := repeat (intros; lazymatch goal with
  | |- frames_mono (try_opt _ _) => apply mono_try
  | |- frames_mono (bind _ _) => apply mono_bind
  | |- frames_mono (expect _) => apply mono_expect
  | |- frames_mono (if _ then _ else _) => apply mono_if
  | |- frames_mono (mfor _ _) => apply mono_mfor
  | |- frames_mono (mfor_opt _ _) => apply mono_mfor_opt
  | |- _ => solve [eauto with frames]
  end).

(** ** Page tables *)

Lemma mono_alloc_page : frames_mono alloc_page.
Proof.
  intros s Hs. destruct (alloc_page_cases s Hs) as [[Hfit E]|[Hfull E]]; rewrite E; [|by split_and!].
  split_and!; [by apply take_page_ok|cbn; lia|done].
Qed.
Lemma mono_read_pte a : frames_mono (read_pte a).
Proof. apply mono_gets. Qed.
Lemma mono_write_pte a e : frames_mono (write_pte a e).
Proof. apply (mono_mem (λ s, wr64 (mm_mem s) a (bits e))). Qed.
Lemma mono_write_bytes a v n : frames_mono (write_bytes a v n).
Proof. apply (mono_mem (λ s, fill (mm_mem s) a v n)). Qed.
Lemma mono_copy src dst n : frames_mono (copy_nonoverlapping src dst n).
Proof. apply (mono_mem (λ s, copy (mm_mem s) src dst n)). Qed.
#[export] Hint Resolve mono_alloc_page mono_read_pte mono_write_pte mono_write_bytes mono_copy : frames.

Lemma mono_walk_create idx : ∀ ppn, frames_mono (walk_create ppn idx).
Proof.
  induction idx as [|k rest IH]; intros ppn; cbn [walk_create]; [mono|]. destruct rest; mono.
Qed.
#[export] Hint Resolve mono_walk_create : frames.
Lemma mono_map pt va pa fl : frames_mono (map pt va pa fl).
Proof. unfold map, find_pte_create. mono. Qed.
Lemma mono_PageTable_new : frames_mono PageTable_new.
Proof. unfold PageTable_new. mono. Qed.
#[export] Hint Resolve mono_map mono_PageTable_new : frames.
Lemma mono_map_kernel_regions pt : frames_mono (map_kernel_regions pt).
Proof. unfold map_kernel_regions, map_identity. mono. Qed.
#[export] Hint Resolve mono_map_kernel_regions : frames.

(** ** The loader *)

Lemma mono_fill_page data ph page paddr : frames_mono (fill_page data ph page paddr).
Proof. unfold fill_page. mono. Qed.
#[export] Hint Resolve mono_fill_page : frames.

(** A page that is loaded costs at least one frame. *)
Lemma load_page_frames pt data ph page s : pages_ok (mm_pages s) →
  match load_page pt data ph page s with
  | Ret (Some _, s') => pages_ok (mm_pages s') ∧ cur s + 4096 ≤ cur s' ∧ page_end (mm_pages s') = page_end (mm_pages s)
  | Ret (None, s') => pages_ok (mm_pages s') ∧ cur s ≤ cur s' ∧ page_end (mm_pages s') = page_end (mm_pages s)
  | Panic => True
  | _ => False
  end.
Proof.
  intros Hs. set (rest := λ pa, let? a := (do! map pt page pa (segment_flags ph) in ret (Some pa)) in
                                do! fill_page data ph page a in ret (Some tt)).
  assert (∀ pa, frames_mono (rest pa)) as Hm by (unfold rest; mono).
  assert (load_page pt data ph page s = match alloc_page s with
          | Ret (Some pa, s1) => rest pa s1
          | Ret (None, s1) => Ret (None, s1) | Panic => Panic | Hang => Hang | Shutdown => Shutdown
          end) as ->.
  { unfold load_page, alloc_map, try_opt, bind. by destruct (alloc_page s) as [[[]]| | |]. }
  destruct (alloc_page_cases s Hs) as [[Hfit E]|[Hfull E]]; rewrite E; [|by split_and!].
  specialize (Hm (cur s) (take_page s) (take_page_ok s Hs Hfit)).
  destruct (rest (cur s) (take_page s)) as [[[[]|] s']| | |]; try done.
  all: destruct Hm as (Hok & Hc & He); cbn in Hc; split_and!; (done || lia).
Qed.

Lemma load_pages_frames pt data ph last_page fuel : ∀ page s,
  pages_ok (mm_pages s) → (frames_left s + 1 < fuel)%nat →
  match load_pages fuel pt data ph page last_page s with
  | Ret (_, s') => pages_ok (mm_pages s') ∧ cur s ≤ cur s' ∧ page_end (mm_pages s') = page_end (mm_pages s)
  | Panic => True
  | _ => False
  end.
Proof.
  induction fuel as [|fuel IH]; intros page s Hs Hf; [lia|]. cbn [load_pages].
  destruct (page <=? last_page); [|by split_and!].
  unfold try_opt, bind. pose proof (load_page_frames pt data ph page s Hs) as Hp.
  destruct (load_page pt data ph page s) as [[[[]|] s1]| | |]; try done.
  destruct Hp as (Hok & Hc & He). specialize (IH (page +w PAGE_SIZE) s1 Hok).
  destruct (load_pages fuel pt data ph _ last_page s1) as [[r s2]| | |]; try done; [|apply IH..].
  all: assert (frames_left s1 + 1 < fuel)%nat as Hf1
    by (unfold frames_left in *; destruct Hok as ((? & ?) & _); rewrite He in *; dlia).
  - destruct (IH Hf1) as (? & ? & ?). split_and!; [done|lia|congruence].
  - done.
  - done.
Qed.

Lemma mono_load_segment pt data ph : frames_mono (load_segment pt data ph).
Proof. intros s Hs. unfold load_segment, bind, gets. apply load_pages_frames; [done|lia]. Qed.
#[export] Hint Resolve mono_load_segment : frames.

Lemma mono_load_segments pt data phs : ∀ max_end, frames_mono (load_segments pt data phs max_end).
Proof.
  induction phs as [|ph phs IH]; intros max_end; cbn [load_segments]; [mono|].
  destruct (ph_type ph) as [ty|]; [|mono]. destruct (decide (ty = Load)); mono.
Qed.

Lemma mono_heap_alloc l : frames_mono (heap_alloc l).
Proof.
  intros s Hs. unfold heap_alloc, bind, gets, modify, ret. by destruct (_ <=? _).
Qed.
Lemma mono_align_elf d : frames_mono (align_elf d).
Proof.
  unfold align_elf. destruct (elf_layout _); [|mono]. apply mono_bind; [apply mono_heap_alloc|]. intros ptr.
  apply mono_if; [mono|]. apply mono_bind; [|mono]. apply (mono_mem (λ s, wr_bytes (mm_mem s) ptr d)).
Qed.
Lemma mono_map_stack pt idxs : ∀ top, frames_mono (map_stack pt idxs top).
Proof. induction idxs as [|i idxs IH]; intros top; cbn [map_stack]; unfold alloc_map; mono. Qed.
Lemma mono_store64 a v : frames_mono (store64 a v).
Proof. apply (mono_mem (λ s, wr64 (mm_mem s) a v)). Qed.
Lemma mono_store_words ws : ∀ a, frames_mono (store_words a ws).
Proof. intros a s Hs. rewrite store_words_run. by split_and!. Qed.
Lemma mono_store_strings base l : ∀ off, frames_mono (store_strings base off l).
Proof. intros off s Hs. rewrite store_strings_run. by split_and!. Qed.
#[export] Hint Resolve mono_load_segments mono_align_elf mono_map_stack mono_store64 mono_store_words
  mono_store_strings : frames.

Lemma mono_build_stack top_page_paddr stack_top argv envp at_phdr phent phnum entry :
  frames_mono (build_stack top_page_paddr stack_top argv envp at_phdr phent phnum entry).
Proof. unfold build_stack. mono. Qed.
#[export] Hint Resolve mono_build_stack : frames.

Lemma mono_load_image elf_new pt d argv envp : frames_mono (load_image elf_new pt d argv envp).
Proof.
  unfold load_image, load_elf_into. mono. intros aligned. destruct (elf_new aligned); mono.
Qed.
#[export] Hint Resolve mono_load_image : frames.

(** ** Properties *)


(** A program header whose segment reaches the last byte of the address space. *)
Definition wrapping_header : ProgramHeader := {|
  ph_type := Some Load; virtual_addr := 2 ^ 64 - 4096; mem_size := 2 ^ 64 - 1; file_size := 0; ph_offset := 0;
  is_read := true; is_write := false; is_execute := false
|}.
Definition wrapping_elf : ElfFile := {|
  entry_point := 0; phdr_offset := 64; ph_entry_size := 56; ph_count := 1; program_iter := [wrapping_header]
|}.
