(* ===== verification/Boot.v ===== *)
(** * Boot: [rust_main] of [main.rs]

    The boot sequence from the allocators to the first instruction of the
    shell, with the search for the network card and the start of the TCP/IP
    stack on the way. *)

From S2P Require Import Prelude Machine Alloc PageTable AddrSpace UserMem Pipe FdTable Fs Loader Net NetSpec Kernel Devices Proc.

Open Scope string_scope.
Open Scope list_scope.
Open Scope Z_scope.

Section Boot.
Context {NS DV RB : Type} `{!VirtIONet DV RB} `{!NetStack NS} `{!NetBoot NS DV}.
Context (elf_new : list Z → option ElfFile).
Context (nginx_bin test_bin busybox nss_so : list Z).
Implicit Types k : kernel NS.

Definition init_kernel_page_table : M (kernel NS) unit :=
  let! pt := on_mm build_kernel_page_table in
  let satp := satp_of pt in
  do! modify (sk_kpt (Some pt)) in
  modify (sk_satp satp).

Definition rust_main (kernel_end : Z) : M (kernel NS) UserEntry :=
  do! on_mm (init kernel_end) in
  do! on_mm init_heap in
  do! init_kernel_page_table in
  do! init_devices (DV := DV) in
  do! on_fs (fs_init nginx_bin test_bin busybox nss_so) in
  let! sh_data := expect (on_fs (get_file_data "/bin/sh")) in
  do! expect (init_user_proc elf_new sh_data ["sh"]) in
  run_user.
End Boot.

(** ** A process before its image is loaded *)

Definition new_process (pid kst : Z) (pt : PageTable) : Process := {|
  p_pid := pid; p_ppid := 0; p_state := Ready; p_page_table := pt; p_trap_frame := TrapFrame_new;
  p_kernel_stack := kst +w 2 * PAGE_SIZE; p_brk := 0; p_exit_code := 0; p_fd_table := FdTable_new
|}.

#[local] Opaque map_kernel_regions PageTable_new alloc_pages load_image fs_init build_kernel_page_table.

Lemma Process_new_spec pid s : pages_ok (mm_pages s) → cur s + 137 * 4096 ≤ page_end (mm_pages s) →
  wp (Process_new pid) s (λ o s', ∃ pt kst, o = Some (new_process pid kst pt) ∧
    pt_inv (root_ppn pt) s' ∧ (∀ v, vpn_ok v → view (mm_mem s') (root_ppn pt) v = kernel_view v) ∧
    cur s ≤ cur s' ≤ cur s + 137 * 4096 ∧ page_end (mm_pages s') = page_end (mm_pages s) ∧ mm_heap s' = mm_heap s).
Proof.
  intros Hok Hfit. unfold Process_new. apply wp_try_opt.
  eapply wp_mono; [apply PageTable_new_spec; [done|lia]|].
  intros o s1 (pt & -> & _ & Hinv & Hc & He & Hh & Hv & _).
  apply wp_try_opt. destruct (alloc_pages_cases s1 2) as [[Hf E]|[Hf _]]; [apply Hinv|lia| |rewrite He, Hc in Hf; lia].
  eapply wp_of_run; [exact E|]. apply wp_bind.
  assert (∀ y, y < cur s1 → rd8 (mm_mem (take_frames 2 s1)) y = rd8 (mm_mem s1) y) as Hkeep.
  { intros y Hy. unfold take_frames. cbn [mm_mem set_mem]. rewrite rd8_fill, decide_False by lia. done. }
  destruct (pt_frame _ _ _ _ (proj1 Hinv) Hkeep) as (_ & Hview & Hwf).
  assert (pt_inv (root_ppn pt) (take_frames 2 s1)) as Hinv2.
  { split; [|apply take_frames_ok; [apply Hinv|lia|done]].
    destruct Hwf as [Hr Hi]. split; [|done]. intros p t Hp Ht. specialize (Hr p t Hp Ht).
    cbn [take_frames set_mem set_pages mm_pages page_current]. lia. }
  eapply wp_mono.
  { apply map_kernel_regions_spec; [done|intros v; by rewrite Hview|]. cbn [take_frames set_mem set_pages mm_pages page_current page_end]. lia. }
  intros [] s2 (Hg & Hc2 & Hv2). apply wp_ret. eexists _, _. split; [reflexivity|].
  pose proof (grow_cur _ _ _ Hg). cbn [take_frames set_mem set_pages mm_pages page_current] in *.
  split_and!; [apply Hg|done|lia|lia| |].
  - rewrite (grow_end _ _ _ Hg). cbn [take_frames set_mem set_pages mm_pages page_end]. done.
  - rewrite (grow_heap _ _ _ Hg). done.
Qed.

Section BootSpec.
Context {NS : Type}.
Implicit Types k : kernel NS.

(** What [init_user_proc] leaves: the process table with the program loaded. *)
Record started (elf : ElfFile) (d : list Z) (argv : list string) k (p : Process) : Prop := {
  sd_current : k_current k = 1;
  sd_proc : k_procs k !! 1 = Some p;
  sd_state : p_state p = Running;
  sd_sepc : tf_sepc (p_trap_frame p) = entry_point elf;
  sd_sstatus : tf_sstatus (p_trap_frame p) = user_sstatus;
  sd_sp : tf_regs (p_trap_frame p) !!! 2%nat = STACK_TOP;
  sd_argc : tf_regs (p_trap_frame p) !!! 10%nat = Z.of_nat (length argv);
  sd_brk : p_brk p = initial_brk (segs_end (program_iter elf) 0);
  sd_next : k_next_pid k = 2;
  sd_image : image_loaded (root_ppn (p_page_table p)) (k_mm k) elf d argv ["PATH=/bin"]
}.

(** The tables that creating the first process leaves alone. *)
Record same_io k k' : Prop := {
  io_kpt : k_kpt k' = k_kpt k;
  io_fdt : k_fdt k' = k_fdt k;
  io_pipes : k_pipes k' = k_pipes k;
  io_next_pipe : k_next_pipe k' = k_next_pipe k;
  io_fake : k_fake k' = k_fake k;
  io_fake_next : k_fake_next k' = k_fake_next k;
  io_handles : n_handles (k_net k') = n_handles (k_net k)
}.

Lemma init_user_proc_spec elf_new d elf argv k : program_ok elf_new d elf argv ["PATH=/bin"] →
  let s := k_mm k in pages_ok (mm_pages s) → heap_ok (mm_heap s) →
  heap_current (mm_heap s) + 16 + Z.of_nat (length d) ≤ heap_end (mm_heap s) →
  cur s + 4096 * (137 + 3 * (9 + total_pages (program_iter elf))) ≤ page_end (mm_pages s) →
  cur s + 4096 * (137 + 3 * (9 + total_pages (program_iter elf))) ≤ heap_current (mm_heap s) →
  wp (init_user_proc elf_new d argv) k (λ o k', o = Some tt ∧ same_io k k' ∧ k_fs k' = k_fs k ∧
    ∃ p, started elf d argv k' p ∧ p_pid p = 1 ∧ p_ppid p = 0 ∧ k_procs k' = <[1 := p]> (k_procs k)).
Proof.
  intros [Hb Hpa Hfi Hsg Hus Har Hst] s Hpg Hhp Him Hfr Hbl.
  pose proof (total_pages_nonneg _ _ Hsg) as Htp. unfold init_user_proc.
  apply wp_try_opt, wp_on_mm. eapply wp_mono; [apply Process_new_spec; [done|fold s; lia]|].
  intros o s1 (pt & kst & -> & Hinv & Hv & Hc & He & Hh). fold s in Hc, He, Hh.
  apply wp_try_opt, wp_on_mm. cbn [k_mm sk_mm new_process p_page_table]. eapply wp_mono.
  { apply (load_image_spec elf_new pt d elf argv ["PATH=/bin"] s1); try done;
      [by apply as_inv_kernel|by rewrite Hh|rewrite Hh; lia|rewrite Hh; lia|lia]. }
  intros o s2 (-> & Hil). cbv beta iota. apply wp_bind, wp_modify, wp_bind, wp_modify, wp_bind, wp_modify, wp_ret.
  split; [done|]. split; [done|]. split; [done|].
  match goal with |- ∃ p, started _ _ _ (sk_next_pid 2 (set_proc 1 ?q _)) p ∧ _ => exists q end.
  split; [|done]. split; try done. unfold set_proc. cbn [k_procs sk_next_pid sk_procs]. by rewrite lookup_insert, decide_True.
Qed.

Context {DV RB : Type} `{!VirtIONet DV RB} `{!NetStack NS} `{!NetBoot NS DV}.

(** The room the boot needs: the driver's frames and heap, and the shell's. *)
Record boot_room (elf_new : list Z → option ElfFile) (f h : Z) (busybox : list Z) (elf : ElfFile) (kernel_end : Z) : Prop := {
  br_kernel : 0 < kernel_end ≤ 0x86000000;
  br_driver : driver_starts DV RB f h;
  br_shell : program_ok elf_new busybox elf ["sh"] ["PATH=/bin"];
  br_heap : 8 * h + 16 + Z.of_nat (length busybox) ≤ 0x1000000;
  br_frames : align_up kernel_end 12 + 4096 * (274 + 8 * f + 3 * (9 + total_pages (program_iter elf))) ≤ 0x86000000
}.

Lemma rust_main_spec elf_new f h nginx_bin test_bin busybox nss_so elf kernel_end k :
  k_fs k = fs_empty → boot_room elf_new f h busybox elf kernel_end →
  wp (rust_main (DV := DV) elf_new nginx_bin test_bin busybox nss_so kernel_end) k (λ ue k', ∃ p,
    (started elf busybox ["sh"] k' p ∧ is_Some (k_kpt k') ∧
     ue = {| ue_sscratch := p_kernel_stack p; ue_satp := satp_of (p_page_table p); ue_sepc := entry_point elf;
             ue_sstatus := user_sstatus; ue_sp := STACK_TOP |} ∧
     k_satp k' = satp_of (p_page_table p)) ∧
    p_pid p = 1 ∧ p_ppid p = 0 ∧ k_procs k' = <[1 := p]> (k_procs k) ∧
    k_fs k' = boot_fs nginx_bin test_bin busybox nss_so ∧ (∀ kpt, same_io (sk_kpt kpt k) (sk_kpt kpt k'))).
Proof.
  intros Hfs [Hke Hdrv Hprog Hheap Hframes].
  pose proof (total_pages_nonneg _ _ (po_segs _ _ _ _ _ Hprog)) as Htp.
  pose proof (ds_frames _ _ Hdrv) as Hf. pose proof (ds_heap _ _ Hdrv) as Hh.
  destruct (align_up_spec kernel_end 12 ltac:(lia)) as [Hal Ham]. unfold rust_main.
  apply wp_bind, wp_on_mm, wp_modify. rewrite init_start by lia.
  apply wp_bind, wp_on_mm, wp_modify.
  match goal with |- wp _ ?x _ => set (k1 := x) end.
  assert (pages_ok (mm_pages (k_mm k1))) as Hp1 by (cbn; unfold pages_ok; cbn; split_and!; [lia..|exact Ham]).
  assert (heap_ok (mm_heap (k_mm k1))) as Hh1 by (cbn; unfold heap_ok; cbn; lia).
  unfold init_kernel_page_table. apply wp_bind, wp_bind, wp_on_mm.
  eapply wp_mono; [apply build_kernel_page_table_spec; [done|cbn; lia]|].
  intros kpt s2 (Hkinv & Hkv & Hc2 & He2 & Hhe2). apply wp_bind, wp_modify, wp_modify.
  match goal with |- wp _ ?x _ => set (k2 := x) end. change (mm_heap (k_mm k1)) with
    {| heap_current := 0x86000000; heap_end := 0x87000000 |} in *. change (cur (k_mm k1)) with (align_up kernel_end 12) in *.
  change (page_end (mm_pages (k_mm k1))) with 0x88000000 in *.
  assert (satp_root (k_satp k2) = root_ppn kpt) as Hroot.
  { apply satp_of_spec. destruct Hkinv as [Hwf (? & ? & ?)]. pose proof (wf_root _ _ _ Hwf). lia. }
  apply wp_bind. eapply wp_mono.
  { apply (init_devices_spec f h); [done|apply Hkinv|by rewrite <-Hhe2 in Hh1|..]; rewrite ?Hroot; change (k_mm k2) with s2;
      [apply Hkinv|exact Hkv|rewrite He2; lia|rewrite Hhe2; cbn; lia]. }
  intros _ k3 [Hp3 Hc3 He3 Hhc3 Hhe3 _ (s3 & n3 & o3 & Ek3 & Hn3 & _)]. change (k_mm k2) with s2 in *. rewrite Hhe2 in *.
  cbn [heap_current heap_end] in *.
  apply wp_bind, wp_on_fs. replace (k_fs k3) with fs_empty by (subst k3; exact (eq_sym Hfs)).
  eapply wp_of_run; [apply fs_init_run|].
  apply wp_bind, wp_expect, wp_on_fs. cbn [k_fs sk_fs].
  eapply wp_of_run; [apply boot_fs_sh|].
  apply wp_bind, wp_expect. eapply wp_mono.
  { apply (init_user_proc_spec _ _ elf); cbn [k_mm sk_fs]; [done|done|unfold heap_ok; lia|lia..]. }
  intros o k4 (-> & Hio & Hf4 & p & Hst & Hpid & Hppid & Hprocs). unfold run_user. apply wp_bind, wp_expect, wp_gets.
  unfold cur_proc. rewrite (sd_current _ _ _ _ _ Hst), (sd_proc _ _ _ _ _ Hst).
  apply wp_bind, wp_modify, wp_ret. exists p. split.
  - split; [by destruct Hst|]. split; [exists kpt; subst k3; exact (io_kpt _ _ Hio)|].
    split; [|done]. by destruct Hst as [? ? ? -> -> -> ? ? ? ?].
  - split; [done|]. split; [done|]. split; [subst k3; exact Hprocs|]. split; [exact Hf4|].
    intros kp. subst k3. destruct Hio as [_ ? ? ? ? ? Hhd]. split; try done. exact (eq_trans Hhd Hn3).
Qed.

(** C5: the machine boots into the shell. From the static initial state, with
    the kernel image low enough, a shell binary that parses and fits, and a
    driver that starts or refuses each card it finds, [rust_main] searches the
    eight VirtIO slots, starts the network and reaches [sret] without a panic,
    with the registers for the entry point of [/bin/sh]: program counter, user
    stack, kernel stack for traps, user-mode status, and [satp] on a page table
    in which the shell's segments, its stack with [argv = ["sh"]] and
    [PATH=/bin], and the kernel's identity map are in place; it is process 1
    and running. *)
Theorem boot_enters_shell elf_new f h nginx_bin test_bin busybox nss_so elf kernel_end k :
  k_fs k = fs_empty → boot_room elf_new f h busybox elf kernel_end →
  wp (rust_main (DV := DV) elf_new nginx_bin test_bin busybox nss_so kernel_end) k (λ ue k', ∃ p,
    started elf busybox ["sh"] k' p ∧ is_Some (k_kpt k') ∧
    ue = {| ue_sscratch := p_kernel_stack p; ue_satp := satp_of (p_page_table p); ue_sepc := entry_point elf;
            ue_sstatus := user_sstatus; ue_sp := STACK_TOP |} ∧
    k_satp k' = satp_of (p_page_table p)).
Proof.
  intros Hfs Hroom. eapply wp_mono; [by apply (rust_main_spec elf_new f h)|]. intros ue k' (p & H & _). by exists p.
Qed.
End BootSpec.
Arguments boot_room DV RB {_} elf_new f h busybox elf kernel_end.

(** The small socket set over the card in the first slot. *)
#[global] Instance toy_boot : NetBoot toy_stack toy_card := {|
  nb_start := λ _ _ _ _, {| ts_open := ∅; ts_next := 0 |};
  nb_send := λ _ st, (None, st)
|}.

Lemma demo_boot_room : boot_room toy_card (list Z) demo_elf_new 2 0 demo_image demo_elf 0x80412345.
Proof.
  split; [lia|apply toy_driver_starts|apply demo_program_ok|cbn; lia|]. vm_compute. discriminate.
Qed.

Lemma boot_enters_shell_witness :
  wp (rust_main (DV := toy_card) demo_elf_new [] [] demo_image [] 0x80412345) (demo_kernel table0_mm) (λ ue k', ∃ p,
    started demo_elf demo_image ["sh"] k' p ∧ is_Some (k_kpt k') ∧
    ue = {| ue_sscratch := p_kernel_stack p; ue_satp := satp_of (p_page_table p); ue_sepc := 0x10000;
            ue_sstatus := user_sstatus; ue_sp := STACK_TOP |} ∧
    k_satp k' = satp_of (p_page_table p)).
Proof.
  apply (boot_enters_shell demo_elf_new 2 0 [] [] demo_image [] demo_elf 0x80412345 (demo_kernel table0_mm)).
  - reflexivity.
  - apply demo_boot_room.
Defined.
