(* ===== verification/Sched.v ===== *)
(** * Context switches: [trap_vector] and [do_schedule] of [trap.rs]

    The frame that the trap entry stores on the kernel stack, the assembly that
    stores and reloads it, and the scheduler that runs between the two. *)

From S2P Require Import Prelude Machine Alloc PageTable AddrSpace UserMem FdTable Fs Net NetSpec Kernel Proc.

(** ** The frame on the kernel stack *)

Record TrapFrameRaw := { x : list Z; orig_sp : Z; sepc : Z; sstatus : Z }.

Definition set_x (i : nat) (v : Z) (r : TrapFrameRaw) : TrapFrameRaw :=
  {| x := <[i := v]> (x r); orig_sp := orig_sp r; sepc := sepc r; sstatus := sstatus r |}.
Definition set_raw_sepc (v : Z) (r : TrapFrameRaw) : TrapFrameRaw :=
  {| x := x r; orig_sp := orig_sp r; sepc := v; sstatus := sstatus r |}.
Definition set_orig_sp (v : Z) (r : TrapFrameRaw) : TrapFrameRaw :=
  {| x := x r; orig_sp := v; sepc := sepc r; sstatus := sstatus r |}.

Definition rd_raw (m : mem) (a : Z) : TrapFrameRaw := {|
  x := (λ i, rd64 m (a + 8 * i)) <$> seqZ 0 32;
  orig_sp := rd64 m (a + 256); sepc := rd64 m (a + 264); sstatus := rd64 m (a + 272)
|}.

Fixpoint wr_regs (m : mem) (a : Z) (l : list Z) : mem :=
  match l with [] => m | v :: l' => wr_regs (wr64 m a v) (a + 8) l' end.

Definition wr_raw (m : mem) (a : Z) (r : TrapFrameRaw) : mem :=
  wr64 (wr64 (wr64 (wr_regs m a (x r)) (a + 256) (orig_sp r)) (a + 264) (sepc r)) (a + 272) (sstatus r).

(** ** The trap vector *)

(** The registers the assembly touches. *)
Record cpu := { c_x : list Z; c_sscratch : Z; c_sepc : Z; c_sstatus : Z }.

Definition SUM : Z := Z.shiftl 1 18.

(** From [csrrw sp, sscratch, sp] to [call rust_trap_handler]: the memory, the
    frame address passed in [a0] and the registers. The stores are in program order; [x2]
    holds the kernel stack pointer by then. *)
Definition trap_entry (c : cpu) (m : mem) : mem * Z * cpu :=
  let usp := c_x c !!! 2%nat in
  let sp := c_sscratch c -w 288 in
  let regs := <[2%nat := sp]> (c_x c) in
  let m := wr_regs m sp regs in
  let m := wr64 m (sp + 256) usp in
  let m := wr64 m (sp + 264) (c_sepc c) in
  let m := wr64 m (sp + 272) (c_sstatus c) in
  (m, sp, {| c_x := <[10%nat := sp]> (<[5%nat := SUM]> regs); c_sscratch := usp; c_sepc := c_sepc c; c_sstatus := Z.lor (c_sstatus c) SUM |}).

(** From [mv sp, a0] to [sret]: [x0] is hard-wired, [x2] comes last. *)
Definition trap_exit (m : mem) (sp : Z) : cpu := {|
  c_x := <[2%nat := rd64 m (sp + 256)]> (<[0%nat := 0]> ((λ i, rd64 m (sp + 8 * i)) <$> seqZ 0 32));
  c_sscratch := sp + 288;
  c_sepc := rd64 m (sp + 264);
  c_sstatus := rd64 m (sp + 272)
|}.

(** ** The scheduler *)

(** Saving the frame of the interrupted process. *)
Definition save_frame (raw : TrapFrameRaw) (proc : Process) : Process :=
  let proc := if decide (p_state proc = Running) then sp_state Ready proc else proc in
  let tf := p_trap_frame proc in
  let tf := set_regs (x raw) tf in
  let tf := set_reg 2 (orig_sp raw) tf in
  let tf := set_sepc (sepc raw) tf in
  let tf := set_sstatus (sstatus raw) tf in
  sp_trap_frame tf proc.

(** The pids of the ready processes, in the order of the table. *)
Definition ready_pids (table : gmap Z Process) : list Z :=
  (filter (λ kv, p_state kv.2 = Ready) (bt_iter table)).*1.

(** [pids[pids.iter().position(|&p| p > current).unwrap_or(0)]]. *)
Definition pick (current : Z) (pids : list Z) : option Z :=
  match list_find (λ p, current < p) pids with
  | Some (_, p) => Some p
  | None => head pids
  end.

Definition raw_of (tf : TrapFrame) : TrapFrameRaw :=
  {| x := tf_regs tf; orig_sp := tf_regs tf !!! 2%nat; sepc := tf_sepc tf; sstatus := tf_sstatus tf |}.

Section Sched.
Context {NS : Type}.

Definition do_schedule (tf_sp : Z) : M (kernel NS) Z :=
  let! k := gets id in
  let raw := rd_raw (mm_mem (k_mm k)) tf_sp in
  let current_pid := k_current k in
  do! match k_procs k !! current_pid with
      | Some proc => modify (set_proc current_pid (save_frame raw proc))
      | None => ret tt
      end in
  let! table := gets k_procs in
  match pick current_pid (ready_pids table) with
  | None =>
      match table !! current_pid with
      | Some proc =>
          if decide (p_state proc = Zombie) then
            let! kpt := expect (gets k_kpt) in
            do! modify (sk_satp (satp_of kpt)) in
            shutdown
          else
            do! modify (set_proc current_pid (sp_state Running proc)) in
            ret tf_sp
      | None => ret tf_sp
      end
  | Some next_pid =>
      if next_pid =? current_pid then ret tf_sp
      else
        let! next_proc := expect (gets (λ k, k_procs k !! next_pid)) in
        do! modify (set_proc next_pid (sp_state Running next_proc)) in
        do! modify (sk_current next_pid) in
        do! modify (sk_satp (satp_of (p_page_table next_proc))) in
        let new_tf_sp := p_kernel_stack next_proc -w 288 in
        do! modify (λ k, sk_mm (set_mem (wr_raw (mm_mem (k_mm k)) new_tf_sp (raw_of (p_trap_frame next_proc))) (k_mm k)) k) in
        ret new_tf_sp
  end.
End Sched.

(** ** Frames in memory *)

Definition raw_ok (r : TrapFrameRaw) : Prop :=
  length (x r) = 32%nat ∧ Forall in_usize (x r) ∧ in_usize (orig_sp r) ∧ in_usize (sepc r) ∧ in_usize (sstatus r).

Lemma wr_regs_spec l : ∀ m a, Forall in_usize l →
  (∀ i v, l !! i = Some v → rd64 (wr_regs m a l) (a + 8 * Z.of_nat i) = v) ∧
  (∀ y, y < a ∨ a + 8 * Z.of_nat (length l) ≤ y → rd8 (wr_regs m a l) y = rd8 m y).
Proof.
  induction l as [|w l IH]; intros m a Hl; cbn [wr_regs]; [done|].
  apply Forall_cons in Hl as [Hw Hl]. destruct (IH (wr64 m a w) (a + 8) Hl) as [Hin Hout]. cbn [length] in *. split.
  - intros [|i] v; cbn [lookup list_lookup]; [intros [= <-]|].
    + rewrite Z.mul_0_r, Z.add_0_r, (rd64_ext _ (wr64 m a w)); [by apply rd64_wr64_same|].
      intros y Hy. apply Hout. lia.
    + intros Hi. rewrite <-(Hin i v Hi). f_equal. lia.
  - intros y Hy. rewrite Hout by lia. apply rd8_wr64_out. lia.
Qed.

Lemma rd_regs_wr m a l : length l = 32%nat → Forall in_usize l →
  (λ i, rd64 (wr_regs m a l) (a + 8 * i)) <$> seqZ 0 32 = l.
Proof.
  intros Hl Hu. destruct (wr_regs_spec l m a Hu) as [Hin _]. apply list_eq. intros i. rewrite list_lookup_fmap.
  destruct (decide (i < 32)%nat) as [Hi|Hi].
  - rewrite lookup_seqZ_lt by lia. destruct (lookup_lt_is_Some_2 l i) as [v Hv]; [lia|]. rewrite Hv. cbn. f_equal.
    rewrite <-(Hin i v Hv). f_equal; lia.
  - rewrite lookup_seqZ_ge by lia. symmetry. apply lookup_ge_None_2. lia.
Qed.

Lemma rd_raw_wr m a r : raw_ok r → rd_raw (wr_raw m a r) a = r.
Proof.
  intros (Hl & Hx & Ho & Hp & Hs). unfold rd_raw, wr_raw.
  rewrite !(rd64_wr64_disj _ (a + 272)) by lia. rewrite !(rd64_wr64_disj _ (a + 264) _ (a + 256)) by lia.
  rewrite !rd64_wr64_same by done. destruct r as [rx ro rp rs]; cbn [x orig_sp sepc sstatus] in *. f_equal.
  etrans; [|apply (rd_regs_wr m a rx Hl Hx)]. apply list_fmap_ext. intros i z Hz.
  apply lookup_seqZ in Hz as [-> Hi]. rewrite !rd64_wr64_disj by lia. done.
Qed.

Lemma wr_raw_out m a r y : length (x r) = 32%nat → Forall in_usize (x r) → y < a ∨ a + 280 ≤ y →
  rd8 (wr_raw m a r) y = rd8 m y.
Proof.
  intros Hl Hx Hy. unfold wr_raw. rewrite !rd8_wr64_out by lia.
  destruct (wr_regs_spec (x r) m a Hx) as [_ Hout]. apply Hout. lia.
Qed.

(** The trap entry stores this frame. *)
Definition entry_frame (c : cpu) : TrapFrameRaw :=
  {| x := <[2%nat := c_sscratch c -w 288]> (c_x c); orig_sp := c_x c !!! 2%nat; sepc := c_sepc c; sstatus := c_sstatus c |}.

Lemma trap_entry_frame c m : trap_entry c m =
  (wr_raw m (c_sscratch c -w 288) (entry_frame c), c_sscratch c -w 288, (trap_entry c m).2).
Proof. done. Qed.

(** What the trap exit reloads. *)
Lemma trap_exit_raw m a : trap_exit m a =
  let r := rd_raw m a in
  {| c_x := <[2%nat := orig_sp r]> (<[0%nat := 0]> (x r)); c_sscratch := a + 288; c_sepc := sepc r; c_sstatus := sstatus r |}.
Proof. done. Qed.

(** ** The ready list *)

Lemma elem_of_ready t p : p ∈ ready_pids t ↔ ∃ proc, t !! p = Some proc ∧ p_state proc = Ready.
Proof.
  unfold ready_pids. rewrite list_elem_of_fmap. split.
  - intros ([q proc] & -> & [Hr Hin]%list_elem_of_filter). exists proc. split; [by apply elem_of_bt_iter|done].
  - intros (proc & Hp & Hr). exists (p, proc). split; [done|]. apply list_elem_of_filter.
    split; [done|by apply elem_of_bt_iter].
Qed.

Lemma ready_sorted t : StronglySorted Z.lt (ready_pids t).
Proof.
  unfold ready_pids. pose proof (bt_iter_sorted t) as Hs. pose proof (bt_iter_NoDup t) as Hn.
  induction (bt_iter t) as [|[q proc] l IH]; [constructor|].
  apply StronglySorted_inv in Hs as [Hs Hq]. cbn in Hn. apply NoDup_cons in Hn as [Hqn Hn].
  rewrite filter_cons. case_decide; [|by apply IH]. cbn. constructor; [by apply IH|].
  apply Forall_forall. intros y ([y' py] & -> & [_ Hy]%list_elem_of_filter)%list_elem_of_fmap. cbn.
  rewrite Forall_forall in Hq. pose proof (Hq _ Hy) as Hle. unfold key_le in Hle. cbn in Hle.
  assert (y' ≠ q); [|change (q ≤ y') in Hle; lia]. intros ->. apply Hqn. apply list_elem_of_fmap. by exists (q, py).
Qed.

(** ** The choice of the scheduler *)

Lemma sorted_lookup (l : list Z) i j a b : StronglySorted Z.lt l → l !! i = Some a → l !! j = Some b →
  (i < j)%nat → a < b.
Proof.
  intros Hs. revert i j. induction Hs as [|c l Hs IH Hc]; intros [|i] [|j] Ha Hb Hij; try lia; try done.
  - cbn in Ha, Hb. injection Ha as ->. rewrite Forall_forall in Hc. apply Hc. by apply (list_elem_of_lookup_2 _ j).
  - by apply (IH i j); [..|lia].
Qed.

Lemma pick_after l c p : StronglySorted Z.lt l → c < p → p ∈ l → (∀ q, q ∈ l → c < q → p ≤ q) → pick c l = Some p.
Proof.
  intros Hs Hc Hp Hmin. unfold pick. destruct (list_find (λ q, c < q) l) as [[i q]|] eqn:E.
  - apply list_find_Some in E as (Hi & Hq & Hfirst). f_equal.
    apply list_elem_of_lookup in Hp as [j Hj]. pose proof (Hmin q (list_elem_of_lookup_2 _ _ _ Hi) Hq).
    destruct (Nat.lt_total i j) as [Hij|[->|Hij]].
    + pose proof (sorted_lookup l i j q p Hs Hi Hj Hij). lia.
    + congruence.
    + by destruct (Hfirst j p Hj Hij).
  - apply list_find_None in E. rewrite Forall_forall in E. by destruct (E p Hp).
Qed.

Lemma pick_wrap l c p : StronglySorted Z.lt l → p ∈ l → (∀ q, q ∈ l → q ≤ c) → (∀ q, q ∈ l → p ≤ q) → pick c l = Some p.
Proof.
  intros Hs Hp Hle Hmin. unfold pick. destruct (list_find (λ q, c < q) l) as [[i q]|] eqn:E.
  - apply list_find_Some in E as (Hi & Hq & _). specialize (Hle q (list_elem_of_lookup_2 _ _ _ Hi)). lia.
  - destruct l as [|a l]; [by apply elem_of_nil in Hp|]. cbn. f_equal.
    apply StronglySorted_inv in Hs as [_ Ha]. rewrite Forall_forall in Ha.
    apply elem_of_cons in Hp as [->|Hp]; [done|]. specialize (Ha p Hp). specialize (Hmin a (list_elem_of_here _ _)). lia.
Qed.

(** The next process in the cyclic order of the pids. *)
Lemma pick_next l i c : StronglySorted Z.lt l → l !! i = Some c → pick c l = l !! ((i + 1) mod length l)%nat.
Proof.
  intros Hs Hi. pose proof (lookup_lt_Some _ _ _ Hi) as Hlt.
  destruct (decide (i + 1 < length l)%nat) as [Hn|Hn].
  - rewrite Nat.mod_small by done. destruct (lookup_lt_is_Some_2 l (i + 1) Hn) as [p Hp]. rewrite Hp.
    apply pick_after; [done|by apply (sorted_lookup l i (i + 1)); [..|lia]|by eapply list_elem_of_lookup_2|].
    intros q Hq Hcq. apply list_elem_of_lookup in Hq as [j Hj].
    destruct (Nat.lt_total j (i + 1)) as [Hij|[->|Hij]].
    + destruct (decide (j = i)) as [->|]; [assert (q = c) by congruence; lia|].
      pose proof (sorted_lookup l j i q c Hs Hj Hi ltac:(lia)). lia.
    + assert (q = p) by congruence. lia.
    + pose proof (sorted_lookup l (i + 1) j p q Hs Hp Hj Hij). lia.
  - replace (i + 1)%nat with (length l) by lia. rewrite Nat.Div0.mod_same.
    destruct (lookup_lt_is_Some_2 l 0) as [p Hp]; [lia|]. rewrite Hp.
    apply pick_wrap; [done|by eapply list_elem_of_lookup_2|..].
    + intros q Hq. apply list_elem_of_lookup in Hq as [j Hj]. pose proof (lookup_lt_Some _ _ _ Hj).
      destruct (decide (j = i)) as [->|]; [assert (q = c) by congruence; lia|].
      pose proof (sorted_lookup l j i q c Hs Hj Hi ltac:(lia)). lia.
    + intros q Hq. apply list_elem_of_lookup in Hq as [[|j] Hj]; [assert (q = p) by congruence; lia|].
      pose proof (sorted_lookup l 0 (S j) p q Hs Hp Hj ltac:(lia)). lia.
Qed.

Lemma pick_some l c : l ≠ [] → ∃ i p, pick c l = Some p ∧ l !! i = Some p.
Proof.
  intros Hl. unfold pick. destruct (list_find (λ q, c < q) l) as [[i q]|] eqn:E.
  - apply list_find_Some in E as (Hi & _). eauto.
  - destruct l as [|a l]; [done|]. by exists O, a.
Qed.

(** Rotating through the list reaches every entry in at most one round. *)
Fixpoint rotate (n : nat) (l : list Z) (c : Z) : Z :=
  match n with O => c | S n' => rotate n' l (default c (pick c l)) end.

Lemma rotate_index l n : ∀ i c, StronglySorted Z.lt l → l !! i = Some c →
  l !! ((i + n) mod length l)%nat = Some (rotate n l c).
Proof.
  induction n as [|n IH]; intros i c Hs Hi; pose proof (lookup_lt_Some _ _ _ Hi) as Hlt; cbn [rotate].
  { by rewrite Nat.add_0_r, Nat.mod_small. }
  rewrite (pick_next l i c Hs Hi).
  destruct (lookup_lt_is_Some_2 l ((i + 1) mod length l)%nat) as [p Hp]; [apply Nat.mod_upper_bound; lia|].
  rewrite Hp. change (default c (Some p)) with p. rewrite <-(IH ((i + 1) mod length l)%nat p Hs Hp).
  rewrite Nat.Div0.add_mod_idemp_l. do 2 f_equal. lia.
Qed.

Lemma rotate_reaches l c p : StronglySorted Z.lt l → p ∈ l →
  ∃ n, (1 ≤ n ≤ length l)%nat ∧ rotate n l c = p.
Proof.
  intros Hs Hp. destruct (pick_some l c) as (i & q & Hpick & Hi); [by intros ->; apply elem_of_nil in Hp|].
  apply list_elem_of_lookup in Hp as [j Hj].
  pose proof (lookup_lt_Some _ _ _ Hi). pose proof (lookup_lt_Some _ _ _ Hj).
  set (d := if decide (i ≤ j)%nat then (j - i)%nat else (j + length l - i)%nat).
  assert ((i + d) mod length l = j)%nat as Hd.
  { unfold d. case_decide; [rewrite Nat.mod_small; lia|].
    replace (i + (j + length l - i))%nat with (j + 1 * length l)%nat by lia.
    rewrite Nat.Div0.mod_add. apply Nat.mod_small. lia. }
  exists (S d). split; [unfold d; case_decide; lia|]. cbn [rotate]. rewrite Hpick. change (default c (Some q)) with q.
  pose proof (rotate_index l d i q Hs Hi) as E. rewrite Hd, Hj in E. congruence.
Qed.

Lemma sorted_ext (l k : list Z) : StronglySorted Z.lt l → StronglySorted Z.lt k → (∀ a, a ∈ l ↔ a ∈ k) → l = k.
Proof.
  intros Hl. revert k. induction Hl as [|a l Hl IH Ha]; intros k Hk Heq.
  { destruct k as [|b k]; [done|]. pose proof (proj2 (Heq b) (list_elem_of_here _ _)) as Hb. by apply elem_of_nil in Hb. }
  destruct Hk as [|b k Hk Hb]; [pose proof (proj1 (Heq a) (list_elem_of_here _ _)) as Hb; by apply elem_of_nil in Hb|].
  rewrite Forall_forall in Ha, Hb.
  assert (a = b) as ->.
  { destruct (proj1 (elem_of_cons _ _ _) (proj1 (Heq a) (list_elem_of_here _ _))) as [|Hak]; [done|].
    destruct (proj1 (elem_of_cons _ _ _) (proj2 (Heq b) (list_elem_of_here _ _))) as [|Hbl]; [done|].
    specialize (Ha _ Hbl). specialize (Hb _ Hak). lia. }
  f_equal. apply IH; [done|]. intros z. split; intros Hz.
  - destruct (proj1 (elem_of_cons _ _ _) (proj1 (Heq z) (list_elem_of_further _ _ _ Hz))) as [->|]; [|done].
    specialize (Ha _ Hz). lia.
  - destruct (proj1 (elem_of_cons _ _ _) (proj2 (Heq z) (list_elem_of_further _ _ _ Hz))) as [->|]; [|done].
    specialize (Hb _ Hz). lia.
Qed.

(** ** Runs of the scheduler *)

Section SchedSpec.
Context {NS : Type}.
Implicit Types k : kernel NS.

(** The table once the interrupted process has been saved. *)
Definition saved (tf_sp : Z) k : gmap Z Process :=
  match k_procs k !! k_current k with
  | Some proc => <[k_current k := save_frame (rd_raw (mm_mem (k_mm k)) tf_sp) proc]> (k_procs k)
  | None => k_procs k
  end.

Definition switched (next : Z) (p : Process) k : kernel NS :=
  sk_mm (set_mem (wr_raw (mm_mem (k_mm k)) (p_kernel_stack p -w 288) (raw_of (p_trap_frame p))) (k_mm k))
    (sk_satp (satp_of (p_page_table p)) (sk_current next (sk_procs (<[next := sp_state Running p]> (k_procs k)) k))).

Lemma do_schedule_run tf_sp k :
  do_schedule tf_sp k =
  let t := saved tf_sp k in let k1 := sk_procs t k in
  match pick (k_current k) (ready_pids t) with
  | None =>
      match t !! k_current k with
      | Some p =>
          if decide (p_state p = Zombie) then (match k_kpt k with Some _ => Shutdown | None => Panic end)
          else Ret (tf_sp, sk_procs (<[k_current k := sp_state Running p]> t) k)
      | None => Ret (tf_sp, k1)
      end
  | Some next =>
      if next =? k_current k then Ret (tf_sp, k1)
      else match t !! next with
           | Some p => Ret (p_kernel_stack p -w 288, switched next p k1)
           | None => Panic
           end
  end.
Proof.
  unfold do_schedule, saved, expect, gets, bind, modify, id. cbv zeta.
  destruct (k_procs k !! k_current k) as [proc|] eqn:E; unfold set_proc; rewrite ?k_procs_sk; cbn [ret].
  - destruct (pick _ _) as [next|].
    + destruct (next =? k_current k); [done|]. rewrite k_procs_sk. by destruct (<[k_current k := _]> (k_procs k) !! next).
    + rewrite lookup_insert, decide_True by done. case_decide; [|done].
      change (k_kpt (sk_procs _ k)) with (k_kpt k). by destruct (k_kpt k).
  - assert (sk_procs (k_procs k) k = k) as -> by by destruct k. destruct (pick _ _) as [next|].
    + destruct (next =? k_current k); [done|]. by destruct (k_procs k !! next).
    + by rewrite E.
Qed.

Lemma save_frame_state raw p : p_state (save_frame raw p) = if decide (p_state p = Running) then Ready else p_state p.
Proof. unfold save_frame. by case_decide. Qed.

(** *** Fairness *)

(** The current process can run on. *)
Definition runnable k : Prop :=
  ∃ p, k_procs k !! k_current k = Some p ∧ (p_state p = Running ∨ p_state p = Ready).

Lemma save_ready raw p : p_state p = Running ∨ p_state p = Ready → p_state (save_frame raw p) = Ready.
Proof. intros Hp. rewrite save_frame_state. case_decide; naive_solver. Qed.

Lemma saved_current tf_sp k : runnable k →
  ∃ p, saved tf_sp k !! k_current k = Some p ∧ p_state p = Ready.
Proof.
  intros (p & Hp & Hst). unfold saved. rewrite Hp, lookup_insert, decide_True by done.
  eexists. split; [done|]. by apply save_ready.
Qed.

(** Saving the current process again, or after it was dispatched, keeps the
    ready list. *)
Lemma ready_pids_save t c p q raw : t !! c = Some p → p_state p = Ready →
  (p_state q = Running ∨ p_state q = Ready) → ready_pids (<[c := save_frame raw q]> t) = ready_pids t.
Proof.
  intros Hc Hp Hq. apply sorted_ext; [apply ready_sorted..|]. intros a. rewrite !elem_of_ready.
  destruct (decide (a = c)) as [->|Hne].
  - rewrite lookup_insert, decide_True, Hc by done. pose proof (save_ready raw q Hq). naive_solver.
  - by rewrite lookup_insert_ne by done.
Qed.

Lemma do_schedule_step tf_sp k : runnable k →
  let l := ready_pids (saved tf_sp k) in
  ∃ sp' k', do_schedule tf_sp k = Ret (sp', k') ∧ runnable k' ∧
    k_current k' = default (k_current k) (pick (k_current k) l) ∧ ready_pids (saved sp' k') = l.
Proof.
  intros Hr l. destruct (saved_current tf_sp k Hr) as (pc & Hc & Hcs).
  rewrite do_schedule_run. cbv zeta. fold l. destruct (pick_some l (k_current k)) as (i & next & Hp & Hi).
  { intros E. assert (k_current k ∈ l) as Hin by (apply elem_of_ready; eauto). rewrite E in Hin. by apply elem_of_nil in Hin. }
  rewrite Hp. change (default (k_current k) (Some next)) with next.
  assert (∃ pn, saved tf_sp k !! next = Some pn ∧ p_state pn = Ready) as (pn & Hn & Hns).
  { apply elem_of_ready. by apply (list_elem_of_lookup_2 _ i). }
  destruct (Z.eqb_spec next (k_current k)) as [->|Hne].
  - eexists _, _. split; [done|]. split; [exists pc; auto|]. split; [done|].
    unfold saved at 1. rewrite k_procs_sk. change (k_current (sk_procs _ k)) with (k_current k). rewrite Hc.
    eapply ready_pids_save; eauto.
  - rewrite Hn. eexists _, _. split; [done|].
    assert (k_procs (switched next pn (sk_procs (saved tf_sp k) k)) !! next = Some (sp_state Running pn)) as Hl.
    { change (k_procs (switched _ _ _)) with (<[next := sp_state Running pn]> (saved tf_sp k)).
      by rewrite lookup_insert, decide_True. }
    split; [|split; [done|]].
    + exists (sp_state Running pn). split; [exact Hl|by left].
    + unfold saved at 1. change (k_current (switched next pn _)) with next. rewrite Hl.
      change (k_procs (switched _ _ _)) with (<[next := sp_state Running pn]> (saved tf_sp k)).
      rewrite insert_insert, decide_True by done. eapply ready_pids_save; [exact Hn|done|by left].
Qed.

(** Scheduling again and again while every process stays runnable. *)
Fixpoint sched_iter (n : nat) (tf_sp : Z) : M (kernel NS) Z :=
  match n with
  | O => ret tf_sp
  | S n' => let! sp := do_schedule tf_sp in sched_iter n' sp
  end.

Lemma sched_iter_rotate n : ∀ tf_sp k, runnable k →
  ∃ sp' k', sched_iter n tf_sp k = Ret (sp', k') ∧
    k_current k' = rotate n (ready_pids (saved tf_sp k)) (k_current k).
Proof.
  induction n as [|n IH]; intros tf_sp k Hr; [eexists _, _; done|].
  destruct (do_schedule_step tf_sp k Hr) as (sp1 & k1 & E & Hr1 & Hc1 & Hl1).
  destruct (IH sp1 k1 Hr1) as (sp2 & k2 & E2 & Hc2). exists sp2, k2. cbn [sched_iter rotate].
  unfold bind. rewrite E. split; [done|]. by rewrite Hc2, Hl1, Hc1.
Qed.

(** *** Saving and restoring registers *)

Definition tf_ok (tf : TrapFrame) : Prop :=
  length (tf_regs tf) = 32%nat ∧ Forall in_usize (tf_regs tf) ∧ in_usize (tf_sepc tf) ∧ in_usize (tf_sstatus tf).

Lemma raw_of_ok tf : tf_ok tf → raw_ok (raw_of tf).
Proof.
  intros (Hl & Hr & Hp & Hs). split_and!; [done|done| |done|done]. cbn.
  destruct (lookup_lt_is_Some_2 (tf_regs tf) 2) as [v Hv]; [lia|].
  rewrite (list_lookup_total_correct _ _ _ Hv). by apply (Forall_lookup_1 _ _ _ _ Hr Hv).
Qed.

(** A switch to another process leaves the machine ready to reload the frame
    saved for it, on its own kernel stack and page table. *)
Lemma do_schedule_switch tf_sp k sp' k' : do_schedule tf_sp k = Ret (sp', k') → k_current k' ≠ k_current k →
  ∃ p, saved tf_sp k !! k_current k' = Some p ∧ p_state p = Ready ∧
    k_procs k' = <[k_current k' := sp_state Running p]> (saved tf_sp k) ∧
    sp' = p_kernel_stack p -w 288 ∧ k_satp k' = satp_of (p_page_table p) ∧
    mm_mem (k_mm k') = wr_raw (mm_mem (k_mm k)) sp' (raw_of (p_trap_frame p)).
Proof.
  rewrite do_schedule_run. cbv zeta. intros E Hne.
  destruct (pick (k_current k) (ready_pids (saved tf_sp k))) as [next|] eqn:Hp.
  - destruct (Z.eqb_spec next (k_current k)) as [->|Hn]; [by injection E as <- <-|].
    destruct (saved tf_sp k !! next) as [p|] eqn:Hl; [|done]. injection E as <- <-. exists p.
    assert (next ∈ ready_pids (saved tf_sp k)) as (q & Hq & Hqs)%elem_of_ready.
    { unfold pick in Hp. destruct (list_find _ _) as [[i r]|] eqn:Hf; simplify_eq.
      - apply list_find_Some in Hf as (Hi & _). by apply (list_elem_of_lookup_2 _ i).
      - destruct (ready_pids _); simplify_eq/=. left. }
    split_and!; try done. congruence.
  - destruct (saved tf_sp k !! k_current k) as [p|]; [|by injection E as <- <-].
    case_decide; [by destruct (k_kpt k)|]. by injection E as <- <-.
Qed.

(** The registers of user mode. *)
Record cpu_ok (c : cpu) : Prop := {
  co_len : length (c_x c) = 32%nat;
  co_zero : c_x c !! 0%nat = Some 0;
  co_range : Forall in_usize (c_x c);
  co_sepc : in_usize (c_sepc c);
  co_sstatus : in_usize (c_sstatus c)
}.

Lemma lookup_total_range l i : Forall in_usize l → (i < length l)%nat → in_usize (l !!! i).
Proof.
  intros Hl Hi. destruct (lookup_lt_is_Some_2 l i Hi) as [v Hv].
  rewrite (list_lookup_total_correct _ _ _ Hv). by apply (Forall_lookup_1 _ _ _ _ Hl Hv).
Qed.

Lemma entry_frame_ok c : cpu_ok c → raw_ok (entry_frame c).
Proof.
  intros [Hl _ Hr Hp Hs]. split_and!; cbn [x orig_sp sepc sstatus entry_frame]; try done.
  - by rewrite length_insert.
  - apply Forall_insert; [done|]. apply wrap64_range.
  - apply lookup_total_range; [done|lia].
Qed.

Lemma raw_of_saved raw p : raw_of (p_trap_frame (save_frame raw p)) =
  {| x := <[2%nat := orig_sp raw]> (x raw); orig_sp := <[2%nat := orig_sp raw]> (x raw) !!! 2%nat;
     sepc := sepc raw; sstatus := sstatus raw |}.
Proof. reflexivity. Qed.

Lemma saved_frame_ok c p : cpu_ok c → raw_ok (raw_of (p_trap_frame (save_frame (entry_frame c) p))).
Proof.
  intros Hc. pose proof (entry_frame_ok c Hc) as (Hl & Hr & Ho & Hp & Hs). rewrite raw_of_saved.
  split_and!; cbn [x orig_sp sepc sstatus]; try done.
  - by rewrite length_insert.
  - by apply Forall_insert.
  - apply lookup_total_range; [by apply Forall_insert|]. rewrite length_insert. lia.
Qed.

(** Reloading the frame that was saved for [c]. *)
Lemma reload_frame m sp c p : cpu_ok c → sp + 288 = c_sscratch c →
  trap_exit (wr_raw m sp (raw_of (p_trap_frame (save_frame (entry_frame c) p)))) sp = c.
Proof.
  intros Hc Hsp. rewrite trap_exit_raw, rd_raw_wr, raw_of_saved by by apply saved_frame_ok.
  destruct Hc as [Hl Hz Hr Hp Hs]. destruct c as [cx css cpc cst]. cbn [x orig_sp sepc sstatus entry_frame c_x c_sscratch c_sepc c_sstatus] in *. f_equal; [|done].
  rewrite list_lookup_total_insert_eq by (rewrite length_insert; lia).
  apply list_eq. intros i. rewrite !list_lookup_insert, !length_insert.
  destruct (decide (i = 2%nat)) as [->|]; [|destruct (decide (i = 0%nat)) as [->|]].
  - rewrite decide_True by lia. symmetry. apply list_lookup_lookup_total_lt. lia.
  - rewrite decide_False, decide_True by lia. done.
  - by rewrite !decide_False by lia.
Qed.

(** The kernel when a trap has stored the registers [c]. *)
Definition trapped (c : cpu) k : kernel NS :=
  sk_mm (set_mem (trap_entry c (mm_mem (k_mm k))).1.1 (k_mm k)) k.

Lemma trapped_raw c k : cpu_ok c →
  rd_raw (mm_mem (k_mm (trapped c k))) (trap_entry c (mm_mem (k_mm k))).1.2 = entry_frame c.
Proof.
  intros Hc. unfold trapped. rewrite trap_entry_frame. cbn [fst snd sk_mm k_mm set_mem mm_mem].
  by apply rd_raw_wr, entry_frame_ok.
Qed.

(** What [do_schedule] leaves of a process it switches away from. *)
Lemma switched_away tf_sp k p sp' k' : k_procs k !! k_current k = Some p →
  do_schedule tf_sp k = Ret (sp', k') → k_current k' ≠ k_current k →
  k_procs k' !! k_current k = Some (save_frame (rd_raw (mm_mem (k_mm k)) tf_sp) p).
Proof.
  intros Hp E Hne. destruct (do_schedule_switch _ _ _ _ E Hne) as (q & _ & _ & -> & _).
  rewrite lookup_insert_ne by done. unfold saved. rewrite Hp. by rewrite lookup_insert, decide_True.
Qed.

(** *** Which process runs *)

Lemma pick_in c l p : pick c l = Some p → p ∈ l.
Proof.
  unfold pick. destruct (list_find _ _) as [[i q]|] eqn:Hf; intros E; simplify_eq.
  - apply list_find_Some in Hf as (Hi & _). by apply (list_elem_of_lookup_2 _ i).
  - destruct l; simplify_eq/=. left.
Qed.
Lemma pick_None c l : pick c l = None ↔ l = [].
Proof.
  split; [|by intros ->]. intros E. destruct l as [|a l]; [done|].
  destruct (pick_some (a :: l) c) as (i & p & E' & _); [done|]. congruence.
Qed.

(** Only the current process is marked as running. *)
Definition sched_ok k : Prop := ∀ pid p, k_procs k !! pid = Some p → p_state p = Running → pid = k_current k.

Lemma saved_running tf_sp k pid p : sched_ok k → saved tf_sp k !! pid = Some p → p_state p ≠ Running.
Proof.
  intros Hok. unfold saved. destruct (k_procs k !! k_current k) as [q|] eqn:Hq.
  - rewrite lookup_insert. case_decide as Hd.
    + intros [= <-]. rewrite save_frame_state. case_decide; [done|]. naive_solver.
    + intros Hl Hr. by apply Hd, eq_sym, (Hok _ p).
  - intros Hl Hr. assert (pid = k_current k) as -> by by apply (Hok _ p). congruence.
Qed.

Lemma saved_ready tf_sp k pid p : saved tf_sp k !! pid = Some p → p_state p = Ready →
  ∃ q, k_procs k !! pid = Some q ∧ (p_state q = Ready ∨ (pid = k_current k ∧ p_state q = Running)).
Proof.
  unfold saved. destruct (k_procs k !! k_current k) as [q|] eqn:Hq; [|eauto].
  rewrite lookup_insert. case_decide as Hd; [|eauto]. subst pid. intros [= <-].
  rewrite save_frame_state. case_decide; eauto.
Qed.

Lemma do_schedule_sched_ok tf_sp k sp' k' : sched_ok k → do_schedule tf_sp k = Ret (sp', k') → sched_ok k'.
Proof.
  intros Hok E. rewrite do_schedule_run in E. cbv zeta in E.
  destruct (pick (k_current k) (ready_pids (saved tf_sp k))) as [next|] eqn:Hpick.
  - destruct (Z.eqb_spec next (k_current k)) as [->|Hn].
    { injection E as <- <-. intros pid q Hq Hr. by apply (saved_running tf_sp k pid q) in Hok. }
    destruct (saved tf_sp k !! next) as [q|] eqn:Hq; [|done]. injection E as <- <-. intros pid r Hr Hrun.
    change (k_current (switched next q _)) with next.
    change (k_procs (switched next q _)) with (<[next := sp_state Running q]> (saved tf_sp k)) in Hr.
    rewrite lookup_insert in Hr. case_decide; [done|]. by apply (saved_running tf_sp k pid r) in Hok.
  - destruct (saved tf_sp k !! k_current k) as [q|] eqn:Hq.
    + case_decide; [by destruct (k_kpt k)|]. injection E as <- <-. intros pid r Hr Hrun.
      change (k_procs (sk_procs ?t k)) with t in Hr. rewrite lookup_insert in Hr. case_decide; [done|].
      by apply (saved_running tf_sp k pid r) in Hok.
    + injection E as <- <-. intros pid r Hr Hrun. by apply (saved_running tf_sp k pid r) in Hok.
Qed.

End SchedSpec.

(** ** Properties *)

Section SchedTheorems.
Context {NS : Type}.
Implicit Types k : kernel NS.

(** C9: the scheduler is fair. While the current process stays runnable and the
    set of ready processes does not change, every ready process is switched to
    after at most as many calls of [do_schedule] as there are ready
    processes. *)
Theorem schedule_fair tf_sp k p : runnable k → p ∈ ready_pids (saved tf_sp k) →
  ∃ n sp' k', (1 ≤ n ≤ length (ready_pids (saved tf_sp k)))%nat ∧
    sched_iter n tf_sp k = Ret (sp', k') ∧ k_current k' = p.
Proof.
  intros Hr Hp.
  destruct (rotate_reaches _ (k_current k) p (ready_sorted (saved tf_sp k)) Hp) as (n & Hn & En).
  destruct (sched_iter_rotate n tf_sp k Hr) as (sp' & k' & E & Hc).
  exists n, sp', k'. split; [done|]. split; [done|]. congruence.
Qed.

(** C6: a context switch is invisible to the process. When the current process
    traps with registers [c] and [do_schedule] switches to another process,
    then whatever happens in between, as long as its entry of the process
    table is left alone, the [do_schedule] that switches back to it restores,
    through the trap exit code, every integer register, the program counter,
    the status and the trap stack pointer of [c], under its own page table. *)
Theorem context_switch_roundtrip c p k sp1 k1 k2 sp2 sp3 k3 :
  cpu_ok c → k_procs k !! k_current k = Some p →
  c_sscratch c = p_kernel_stack p → 288 ≤ p_kernel_stack p < 2 ^ 64 →
  do_schedule (trap_entry c (mm_mem (k_mm k))).1.2 (trapped c k) = Ret (sp1, k1) → k_current k1 ≠ k_current k →
  k_procs k2 !! k_current k = k_procs k1 !! k_current k → k_current k2 ≠ k_current k →
  do_schedule sp2 k2 = Ret (sp3, k3) → k_current k3 = k_current k →
  trap_exit (mm_mem (k_mm k3)) sp3 = c ∧ k_satp k3 = satp_of (p_page_table p).
Proof.
  intros Hc Hp Hss Hks E1 H1 Hsame H2 E2 H3.
  pose proof (switched_away _ (trapped c k) p _ _ Hp E1 H1) as Hs. rewrite trapped_raw in Hs by done.
  change (k_current (trapped c k)) with (k_current k) in Hs. rewrite Hs in Hsame.
  destruct (do_schedule_switch _ _ _ _ E2) as (q & Hq & _ & _ & -> & -> & ->); [congruence|].
  rewrite H3 in Hq. assert (q = save_frame (entry_frame c) p) as ->.
  { unfold saved in Hq. destruct (k_procs k2 !! k_current k2); [rewrite lookup_insert_ne in Hq by done|]; congruence. }
  assert (p_kernel_stack (save_frame (entry_frame c) p) = p_kernel_stack p) as ->
    by (unfold save_frame; by case_decide).
  split; [|unfold save_frame; by case_decide].
  apply reload_frame; [done|]. rewrite wrap64_small by (unfold in_usize; lia). lia.
Qed.


(** C29: the machine is switched off exactly when the current process is dead and
    no process is ready; in every other state [do_schedule] returns a trap
    frame. *)
Theorem schedule_shutdown tf_sp k : is_Some (k_kpt k) →
  let done := ∃ p, k_procs k !! k_current k = Some p ∧ p_state p = Zombie ∧
                   ∀ pid q, k_procs k !! pid = Some q → p_state q ≠ Ready in
  match do_schedule tf_sp k with
  | Ret _ => ¬ done
  | Shutdown => done
  | Panic | Hang => False
  end.
Proof.
  intros [kpt Hkpt] fin. rewrite do_schedule_run. cbv zeta. rewrite Hkpt.
  assert (∀ next, next ∈ ready_pids (saved tf_sp k) → ¬ fin) as Hnf.
  { intros next (q & Hq & Hqs)%elem_of_ready (p & Hp & Hz & Hall).
    destruct (saved_ready _ _ _ _ Hq Hqs) as (r & Hr & [Hs|[-> Hs]]); [by apply (Hall next r)|congruence]. }
  destruct (pick _ _) as [next|] eqn:Hpick.
  - apply pick_in in Hpick. destruct (_ =? _); [by eapply Hnf|].
    destruct (saved tf_sp k !! next) eqn:Hl; [by eapply Hnf|].
    apply elem_of_ready in Hpick as (q & Hq & _). congruence.
  - apply pick_None in Hpick. unfold saved in *. destruct (k_procs k !! k_current k) as [p|] eqn:Hp.
    + rewrite lookup_insert, decide_True by done. rewrite save_frame_state.
      destruct (decide (p_state p = Running)) as [Hrun|Hrun]; [|destruct (decide (p_state p = Zombie)) as [Hz|Hz]].
      * rewrite decide_False by done. intros (q & [= <-] & Hq & _). congruence.
      * exists p. split; [done|]. split; [done|]. intros pid q Hq Hr.
        assert (pid ∈ []) as []%not_elem_of_nil. rewrite <-Hpick. apply elem_of_ready.
        exists q. split; [|done]. rewrite lookup_insert_ne; [done|]. intros <-. congruence.
      * intros (q & [= <-] & Hq & _). congruence.
    + rewrite Hp. by intros (q & ? & _).
Qed.
End SchedTheorems.

(** ** Examples *)

(** Two processes: pid 1 runs, pid 2 is ready. *)
Definition second_process : Process := {|
  p_pid := 2; p_ppid := 1; p_state := Ready; p_page_table := {| root_ppn := 0x80410 |}; p_trap_frame := TrapFrame_new;
  p_kernel_stack := 0x80404000; p_brk := 0; p_exit_code := 0; p_fd_table := FdTable_new
|}.
Definition duo : kernel toy_stack :=
  sk_kpt (Some table0) (set_proc 2 second_process (demo_kernel demo_mm)).
Definition duo_cpu : cpu := {|
  c_x := 0 :: seqZ 101 31; c_sscratch := 0x80402000; c_sepc := 0x10000; c_sstatus := 0x2020
|}.

Definition after (o : outcome (Z * kernel toy_stack)) : Z * kernel toy_stack :=
  match o with Ret r => r | _ => (0, duo) end.
Lemma after_Ret o : match o with Ret _ => true | _ => false end = true → o = Ret ((after o).1, (after o).2).
Proof. by destruct o as [[]| | |]. Qed.

Lemma duo_runnable : runnable duo.
Proof. exists demo_process. split; [reflexivity|by left]. Qed.

Lemma schedule_fair_witness : ∃ n sp' k', (1 ≤ n ≤ 2)%nat ∧
  sched_iter n 0x80401ee0 duo = Ret (sp', k') ∧ k_current k' = 2.
Proof.
  apply (schedule_fair 0x80401ee0 duo 2).
  - apply duo_runnable.
  - apply elem_of_ready. exists second_process. by split.
Defined.

Definition duo_trap : outcome (Z * kernel toy_stack) :=
  do_schedule (trap_entry duo_cpu (mm_mem (k_mm duo))).1.2 (trapped duo_cpu duo).
Definition duo_back : outcome (Z * kernel toy_stack) := do_schedule (after duo_trap).1 (after duo_trap).2.

Lemma context_switch_roundtrip_witness :
  trap_exit (mm_mem (k_mm (after duo_back).2)) (after duo_back).1 = duo_cpu ∧
  k_satp (after duo_back).2 = satp_of table0.
Proof.
  apply (context_switch_roundtrip duo_cpu demo_process duo (after duo_trap).1 (after duo_trap).2
           (after duo_trap).2 (after duo_trap).1).
  - split; [done|done| |done|done]. repeat constructor; done.
  - reflexivity.
  - reflexivity.
  - done.
  - apply after_Ret. vm_compute. reflexivity.
  - vm_compute. discriminate.
  - reflexivity.
  - vm_compute. discriminate.
  - apply after_Ret. vm_compute. reflexivity.
  - vm_compute. reflexivity.
Defined.


Lemma schedule_shutdown_witness :
  let done := ∃ p, k_procs duo !! 1 = Some p ∧ p_state p = Zombie ∧
                   ∀ pid q, k_procs duo !! pid = Some q → p_state q ≠ Ready in
  match do_schedule 0x80401ee0 duo with
  | Ret _ => ¬ done
  | Shutdown => done
  | Panic | Hang => False
  end.
Proof. apply (schedule_shutdown 0x80401ee0 duo). by exists table0. Defined.
