(* ===== verification/SysFile.v ===== *)
(** * File, pipe and descriptor system calls of [syscall.rs]

    Arguments are the [usize] registers after the casts of [dispatch]: a
    descriptor is a signed [isize], a pointer a [usize]; user memory is accessed
    through the page table in [satp]. The logger runs at level [Warn]: messages
    below it are left out, warnings and the output and echo of [write] and
    [read] go to the console. *)

From S2P Require Import Prelude Machine Alloc PageTable AddrSpace Pipe FdTable Fs Net Kernel.

Open Scope string_scope.
Open Scope list_scope.
Open Scope Z_scope.

(** [core::str::from_utf8(..).is_ok()]. *)
Definition between (lo b hi : Z) : bool := (lo <=? b) && (b <=? hi).
Definition cont (b : Z) : bool := between 0x80 b 0xBF.
Fixpoint valid_utf8 (l : list Z) : bool :=
  match l with
  | [] => true
  | b0 :: t =>
      if b0 <? 0x80 then valid_utf8 t
      else
        match t with
        | [] => false
        | b1 :: t1 =>
            if between 0xC2 b0 0xDF then cont b1 && valid_utf8 t1
            else
              match t1 with
              | [] => false
              | b2 :: t2 =>
                  if between 0xE0 b0 0xEF then
                    (if b0 =? 0xE0 then between 0xA0 b1 0xBF
                     else if b0 =? 0xED then between 0x80 b1 0x9F else cont b1) &&
                    cont b2 && valid_utf8 t2
                  else
                    match t2 with
                    | [] => false
                    | b3 :: t3 =>
                        between 0xF0 b0 0xF4 &&
                        (if b0 =? 0xF0 then between 0x90 b1 0xBF
                         else if b0 =? 0xF4 then between 0x80 b1 0x8F else cont b1) &&
                        cont b2 && cont b3 && valid_utf8 t3
                    end
              end
        end
  end.

Section SysFile.
Context {NS : Type} `{NetStack NS}.
Abbreviation K := (M (kernel NS)).

(** [vec![0u8; n]]. *)
Definition vec_new (n : Z) : K unit := if HEAP_SIZE <? n then panic else ret tt.

(** [cstr]: the bytes up to the first NUL. *)
Definition cstr (ptr : Z) : K string :=
  let! l := mloop (2 ^ 64)%positive (λ acc,
    let! b := ld8 (ptr +w Z.of_nat (length acc)) in
    ret (if b =? 0 then inr (rev acc) else inl (b :: acc))) [] in
  ret (string_of l).

Definition is_fake_fd (fd : Z) : K bool := gets (λ k, bool_decide (is_Some (k_fake k !! fd))).
Definition is_inet_socket (fd : Z) : K bool :=
  gets (λ k, match k_fake k !! fd with Some InetSocket => true | _ => false end).

(** The slot of a descriptor in [FD_TABLE]. *)
Definition get_fd (fd : Z) : K (option OpenFile) := gets (λ k, fd_get (k_fdt k) (as_usize fd)).
Definition put_fd (fd : Z) (f : OpenFile) : K unit := on_fdt (fd_update (as_usize fd) f).

Definition get_pipe (id : Z) : K (option PipeInner) := gets (λ k, k_pipes k !! id).
(** Run an operation on the pipe [id], which holds [p]. *)
Definition on_pipe {A} (id : Z) (p : PipeInner) (m : M PipeInner A) : K A := λ k,
  match m p with
  | Ret (a, p') => Ret (a, sk_pipes (<[id := p']> (k_pipes k)) k)
  | Panic => Panic
  | Hang => Hang
  | Shutdown => Shutdown
  end.

(** ** [write] *)

Definition invalid_utf8 : list Z := bytes_of "<invalid utf8>".

Definition sys_write (fd buf count : Z) : K Z :=
  if (fd =? 1) || (fd =? 2) then
    let! slice := ld_bytes buf (Z.to_nat count) in
    do! print (if valid_utf8 slice then slice else invalid_utf8) in
    ret (as_isize count)
  else
    do! (if (fd =? 3) || (fd =? 4) || (fd =? 5) || (fd =? 6)
         then let! _ := ld_bytes buf (Z.to_nat count) in ret tt else ret tt) in
    let! inet := is_inet_socket (as_usize fd) in
    if inet then
      let! slice := ld_bytes buf (Z.to_nat count) in
      on_net (send_to_fd (as_usize fd) slice)
    else
      let! o := get_fd fd in
      match o with
      | None => ret (-1)
      | Some f =>
          match of_pipe_id f with
          | Some pid =>
              let! po := get_pipe pid in
              match po with
              | Some p =>
                  do! vec_new count in
                  let! tmp := ld_bytes buf (Z.to_nat count) in
                  let! n := on_pipe pid p (pipe_write tmp) in
                  ret (as_isize n)
              | None => ret 0
              end
          | None =>
              do! vec_new count in
              let! tmp := ld_bytes buf (Z.to_nat count) in
              let! n := on_fs (write_inode (of_inode f) tmp (of_offset f)) in
              do! put_fd fd (of_set_offset (of_offset f +w n) f) in
              ret (as_isize n)
          end
      end.

(** ** [read] *)

(** One turn of the line editor on standard input, with [n] bytes stored so
    far. *)
Definition stdin_turn (buf count n : Z) : K (Z + Z) :=
  if count <=? n then ret (inr n)
  else
    let! o := getchar in
    match o with
    | None => ret (inl n)
    | Some c =>
        if (c =? 0x08) || (c =? 0x7f) then
          if 0 <? n then
            do! print [0x08; 0x20; 0x08] in ret (inl (n - 1))
          else ret (inl n)
        else
          let nl := (c =? 0x0d) || (c =? 0x0a) in
          let c' := if nl then 0x0a else c in
          do! (if nl then print [0x0d; 0x0a]
               else if (0x20 <=? c) && (c <? 0x7f) then print [c]
               else if c =? 0x09 then print [0x09] else ret tt) in
          do! st8 (buf +w n) c' in
          ret (if c' =? 0x0a then inr (n + 1) else inl (n + 1))
    end.

Definition nscd_set (off : Z) (st : NscdState) : NscdState := {|
  nscd_phase := nscd_phase st; nscd_header := nscd_header st; nscd_data := nscd_data st; nscd_offset := off
|}.

Definition sys_read (fd buf count : Z) : K Z :=
  let! o := get_fd fd in
  if match o with
     | Some f => (of_inode f =? 0) && bool_decide (of_pipe_id f = None)
     | None => false
     end
  then
    let! n := mloop (2 ^ 64)%positive (stdin_turn buf count) 0 in
    ret (as_isize n)
  else
    let! fake := gets (λ k, k_fake k !! as_usize fd) in
    match fake with
    | Some (Nscd st) =>
        let n := Z.min (saturating_sub (Z.of_nat (length (nscd_data st))) (nscd_offset st)) count in
        do! (if 0 <? n then
               do! st_bytes buf (take (Z.to_nat n) (drop (Z.to_nat (nscd_offset st)) (nscd_data st))) in
               modify (λ k, sk_fake (<[as_usize fd := Nscd (nscd_set (nscd_offset st + n) st)]> (k_fake k)) k)
             else ret tt) in
        ret (as_isize n)
    | _ =>
        let! inet := is_inet_socket (as_usize fd) in
        if inet then
          let! r := on_net (recv_from_fd (as_usize fd) count) in
          do! st_bytes buf r.2 in
          ret r.1
        else
          match o with
          | None => ret (-1)
          | Some f =>
              match of_pipe_id f with
              | Some pid =>
                  let! po := get_pipe pid in
                  match po with
                  | Some p =>
                      do! vec_new count in
                      let! out := on_pipe pid p (pipe_read count) in
                      do! st_bytes buf out in
                      ret (as_isize (Z.of_nat (length out)))
                  | None => ret 0
                  end
              | None =>
                  do! vec_new count in
                  let! out := on_fs (read_inode (of_inode f) count (of_offset f)) in
                  do! st_bytes buf out in
                  do! put_fd fd (of_set_offset (of_offset f +w Z.of_nat (length out)) f) in
                  ret (as_isize (Z.of_nat (length out)))
              end
          end
    end.
(** ** The other descriptor calls *)

(** [sys_writev] from vector [i] on, with [total] bytes written. *)
Fixpoint writev_loop (fuel : nat) (fd iov i total : Z) : K Z :=
  match fuel with
  | O => ret total
  | S fuel' =>
      let ptr := iov +w i *w 16 in
      let! base := ldw 8 ptr in
      let! len := ldw 8 (ptr +w 8) in
      if len =? 0 then writev_loop fuel' fd iov (i + 1) total
      else
        let! n := sys_write fd base len in
        if n <? 0 then ret (if total =? 0 then n else total)
        else
          let total := as_isize (as_usize (total + n)) in
          if as_usize n <? len then ret total else writev_loop fuel' fd iov (i + 1) total
  end.
Definition sys_writev (fd iov iovcnt : Z) : K Z := writev_loop (Z.to_nat iovcnt) fd iov 0 0.

Definition sys_openat (_dirfd path flags _mode : Z) : K Z :=
  let! path := cstr path in
  let! o := on_fs (lookup path) in
  match o with
  | Some inode =>
      let writable := negb (Z.land flags 1 =? 0) || negb (Z.land flags 2 =? 0) in
      let! fd := on_fdt (fd_alloc {| of_inode := inode; of_offset := 0; of_readable := true;
                                     of_writable := writable; of_pipe_id := None |}) in
      ret (as_isize fd)
  | None => ret (-2)
  end.

Definition sys_close (fd : Z) : K Z :=
  if (fd <? 3) && (0 <=? fd) then ret (-1)
  else
    let! inet := is_inet_socket (as_usize fd) in
    if inet then
      do! on_net (close_fd (as_usize fd)) in
      do! modify (λ k, sk_fake (delete (as_usize fd) (k_fake k)) k) in
      ret 0
    else
      let! fake := is_fake_fd (as_usize fd) in
      do! modify (λ k, sk_fake (delete (as_usize fd) (k_fake k)) k) in
      if fake then ret 0
      else
        do! on_fdt (fd_close (as_usize fd)) in
        ret 0.

Definition sys_lseek (fd offset whence : Z) : K Z :=
  let! o := get_fd fd in
  match o with
  | None => ret (-1)
  | Some f =>
      let! pos :=
        (if whence =? 0 then ret (Some (as_usize offset))
         else if whence =? 1 then ret (Some (as_usize (as_isize (of_offset f) + offset)))
         else if whence =? 2 then
           let! size := on_fs (file_size (of_inode f)) in
           ret (Some (as_usize (as_isize size + offset)))
         else ret None) in
      match pos with
      | None => ret (-1)
      | Some pos => do! put_fd fd (of_set_offset pos f) in ret (as_isize pos)
      end
  end.

Definition fill_stat (buf size : Z) : K unit :=
  do! st_bytes buf (replicate 128 0) in
  let mode := if size =? 0 then 0x41ed else 0x81a4 in
  do! stw 4 (buf +w 16) mode in
  do! stw 4 (buf +w 24) 1 in
  do! stw 8 (buf +w 48) size in
  do! stw 4 (buf +w 56) 4096 in
  stw 8 (buf +w 64) ((size +w 511) / 512).

Definition fill_stat_chr (buf : Z) : K unit :=
  do! st_bytes buf (replicate 128 0) in
  do! stw 4 (buf +w 16) 0x2190 in
  do! stw 4 (buf +w 24) 1 in
  do! stw 4 (buf +w 32) 0 in
  do! stw 4 (buf +w 36) 0 in
  do! stw 8 (buf +w 40) 0x102 in
  do! stw 8 (buf +w 48) 0 in
  do! stw 4 (buf +w 56) 4096 in
  stw 8 (buf +w 64) 0.

Definition sys_fstat (fd buf : Z) : K Z :=
  let! o := get_fd fd in
  match o with
  | None => ret (-1)
  | Some f =>
      if of_inode f =? 0 then do! fill_stat_chr buf in ret 0
      else
        let! size := on_fs (file_size (of_inode f)) in
        do! fill_stat buf size in
        ret 0
  end.

Definition sys_fstatat (_dirfd path buf _flags : Z) : K Z :=
  let! path := cstr path in
  let! o := on_fs (lookup path) in
  match o with
  | Some inode =>
      let! size := on_fs (file_size inode) in
      do! fill_stat buf size in
      ret 0
  | None => ret (-2)
  end.

Definition sys_statx (_dirfd path _flags _mask buf : Z) : K Z :=
  let! path := cstr path in
  let! o := on_fs (lookup path) in
  match o with
  | Some inode =>
      let! size := on_fs (file_size inode) in
      do! fill_stat buf size in
      ret 0
  | None => ret (-1)
  end.

Definition sys_dup2 (oldfd newfd : Z) : K Z :=
  let! ok := on_fdt (fd_dup2 (as_usize oldfd) (as_usize newfd)) in
  ret (if ok then newfd else -1).
Definition sys_dup3 (oldfd newfd _flags : Z) : K Z := sys_dup2 oldfd newfd.

Definition sys_pipe2 (pipefd _flags : Z) : K Z :=
  let! id := gets k_next_pipe in
  do! modify (sk_next_pipe (id +w 1)) in
  do! modify (λ k, sk_pipes (<[id := PipeInner_new]> (k_pipes k)) k) in
  let! rfd := on_fdt (fd_alloc {| of_inode := 0; of_offset := 0; of_readable := true;
                                  of_writable := false; of_pipe_id := Some id |}) in
  let! wfd := on_fdt (fd_alloc {| of_inode := 0; of_offset := 0; of_readable := false;
                                  of_writable := true; of_pipe_id := Some id |}) in
  do! stw 4 pipefd (u32 rfd) in
  do! stw 4 (pipefd +w 4) (u32 wfd) in
  ret 0.

Definition sys_getdents64 (fd buf count : Z) : K Z :=
  let! o := get_fd fd in
  match o with
  | None => ret (-1)
  | Some f =>
      do! vec_new count in
      let! r := on_fs (gets (λ s, read_dir s (of_inode f) count (of_offset f))) in
      let n := Z.of_nat (length r.1) in
      do! (if 0 <? n then
             do! st_bytes buf r.1 in
             put_fd fd (of_set_offset r.2 f)
           else ret tt) in
      ret (as_isize n)
  end.

Definition sys_pread64 (fd buf count offset : Z) : K Z :=
  let! o := get_fd fd in
  match o with
  | None => ret (-1)
  | Some f =>
      do! vec_new count in
      let! out := on_fs (read_inode (of_inode f) count (as_usize offset)) in
      do! st_bytes buf out in
      ret (as_isize (Z.of_nat (length out)))
  end.

Definition sys_pwrite64 (fd buf count offset : Z) : K Z :=
  let! o := get_fd fd in
  match o with
  | None => ret (-1)
  | Some f =>
      do! vec_new count in
      let! tmp := ld_bytes buf (Z.to_nat count) in
      let! n := on_fs (write_inode (of_inode f) tmp (as_usize offset)) in
      ret (as_isize n)
  end.

(** The buffer is a heap block, so [sys_read] and [sys_write] get its address;
    an empty vector has the dangling pointer 1. *)
Definition sys_sendfile (out_fd in_fd _offset count : Z) : K Z :=
  let len := Z.min count 4096 in
  let! buf :=
    (if len =? 0 then ret 1
     else
       let! p := on_mm (heap_alloc {| layout_size := len; layout_align := 1 |}) in
       if p =? 0 then panic else do! on_mm (write_bytes p 0 len) in ret p) in
  let! n := sys_read in_fd buf len in
  if n <=? 0 then ret n else sys_write out_fd buf (as_usize n).

Definition sys_faccessat (_dirfd path _mode _flags : Z) : K Z :=
  let! path := cstr path in
  let! o := on_fs (lookup path) in
  ret (if bool_decide (is_Some o) then 0 else -2).

Definition sys_mkdirat (_dirfd path _mode : Z) : K Z :=
  let! path := cstr path in
  let! o := on_fs (lookup path) in
  if bool_decide (is_Some o) then ret 0
  else do! on_fs (mkdir path) in ret 0.

Definition sys_readlinkat (_dirfd path buf bufsiz : Z) : K Z :=
  let! path := cstr path in
  if decide (path = "/proc/self/exe") then
    let bytes := bytes_of "/sbin/nginx" in
    let len := Z.min (Z.of_nat (length bytes)) bufsiz in
    do! st_bytes buf (take (Z.to_nat len) bytes) in
    ret (as_isize len)
  else ret (-1).

Definition sys_getcwd (buf size : Z) : K Z :=
  let cwd := bytes_of "/tmp" ++ [0] in
  if size <? Z.of_nat (length cwd) then ret (-1)
  else do! st_bytes buf cwd in ret (as_isize buf).

Definition sys_fcntl (fd cmd _arg : Z) : K Z :=
  if cmd =? 1 then ret fd
  else if cmd =? 2 then ret 0
  else if cmd =? 3 then
    let! inet := is_inet_socket (as_usize fd) in
    ret (if inet then 0x800 else 0)
  else ret 0.

Definition sys_ioctl (fd req arg : Z) : K Z :=
  let! fake := is_fake_fd (as_usize fd) in
  let! sock := on_net (is_socket_fd (as_usize fd)) in
  if (req =? 0x5421) && (fake || sock) then ret 0
  else if (req =? 0x5401) && (fd <? 3) then do! stw 4 (arg +w 12) 3 in ret 0
  else if (req =? 0x5402) || (req =? 0x5403) || (req =? 0x5404) then ret 0
  else if req =? 0x5413 then
    do! st_bytes arg (replicate 8 0) in
    do! stw 2 arg 24 in
    do! stw 2 (arg +w 2) 80 in
    ret 0
  else ret 0.

(** [i32] and [i16] values in memory. *)
Definition as_i32 (z : Z) : Z := if z <? 2 ^ 31 then z else z - 2 ^ 32.

Fixpoint ppoll_loop (fuel : nat) (fds i ready : Z) : K Z :=
  match fuel with
  | O => ret ready
  | S fuel' =>
      let p := fds +w i *w 8 in
      let! fd := ldw 4 p in
      let! events := ldw 2 (p +w 4) in
      let fd := as_i32 fd in
      let! inet := is_inet_socket (as_usize fd) in
      let! fake := is_fake_fd (as_usize fd) in
      let is_ready := if fd <? 3 then true else if inet then true else fake in
      if is_ready then
        do! stw 2 (p +w 6) (Z.land events 5) in ppoll_loop fuel' fds (i + 1) (ready + 1)
      else
        do! stw 2 (p +w 6) 0 in ppoll_loop fuel' fds (i + 1) ready
  end.
Definition sys_ppoll (fds nfds _tmo _sigmask _sigsetsize : Z) : K Z :=
  let! ready := ppoll_loop (Z.to_nat nfds) fds 0 0 in
  ret (if 0 <? ready then ready else 0).
End SysFile.
