(* ===== verification/SysProc.v ===== *)
(** * Process, memory, information and socket system calls of [syscall.rs] *)

From S2P Require Import Prelude Machine Alloc PageTable AddrSpace UserMem Pipe FdTable Fs Loader Net Kernel Proc SysFile.

Open Scope string_scope.
Open Scope list_scope.
Open Scope Z_scope.

Section SysProc.
Context {NS : Type} `{NetStack NS}.
Context (elf_new : list Z → option ElfFile).
Abbreviation K := (M (kernel NS)).

(** ** Memory *)

(** The loop body that [brk] and [mmap] share: back [va] with a fresh page
    unless it is mapped or no frame is left. *)
Definition back_page (pt : PageTable) (va : Z) (flags : PTEFlags) : M mm unit :=
  let! o := translate pt va in
  match o with
  | Some _ => ret tt
  | None =>
      let! p := alloc_page in
      match p with
      | Some pa => map pt va pa flags
      | None => ret tt
      end
  end.

Definition page_up (a : Z) : Z := Z.land (a +w 0xfff) (not64 0xfff).

Definition sys_brk (addr : Z) : K Z :=
  let! r := with_current_proc (λ proc,
    let brk := if p_brk proc =? 0 then 0x10000 else p_brk proc in
    let proc := sp_brk brk proc in
    if addr =? 0 then ret (as_isize brk, proc)
    else
      do! (if brk <? addr then
             let start := page_up brk in
             let end_ := page_up addr in
             on_mm (mfor (range_step start end_ 0x1000)
               (λ page, back_page (p_page_table proc) page (PTE_U |f PTE_R |f PTE_W)))
           else ret tt) in
      ret (as_isize addr, sp_brk addr proc)) in
  ret (default (-1) r).

Definition mmap_flags (prot : Z) : PTEFlags :=
  let fl := PTE_U in
  let fl := if negb (Z.land prot 1 =? 0) then fl |f PTE_R else fl in
  let fl := if negb (Z.land prot 2 =? 0) then fl |f PTE_W else fl in
  if negb (Z.land prot 4 =? 0) then fl |f PTE_X else fl.

Definition sys_mmap (addr len prot flags fd offset : Z) : K Z :=
  let! b := gets k_mmap_base in
  let base := if b =? 0 then 0x50000000 else b in
  do! modify (sk_mmap_base base) in
  let aligned_len := page_up len in
  let fixed := negb (Z.land flags 0x10 =? 0) in
  let ret_ := if fixed then addr else base in
  do! (if fixed then ret tt else modify (sk_mmap_base (base +w aligned_len))) in
  let! _ := with_current_proc (λ proc,
    do! on_mm (mfor (range_step 0 aligned_len 0x1000)
      (λ page, back_page (p_page_table proc) (ret_ +w page) (mmap_flags prot))) in
    ret (tt, proc)) in
  do! st_bytes ret_ (replicate (Z.to_nat aligned_len) 0) in
  do! (if (Z.land flags 0x20 =? 0) && (0 <=? fd) then
         let! o := get_fd fd in
         match o with
         | Some f =>
             do! vec_new len in
             let! tmp := on_fs (read_inode (of_inode f) len (as_usize offset)) in
             st_bytes ret_ tmp
         | None => ret tt
         end
       else ret tt) in
  ret (as_isize ret_).

(** ** Processes *)

Definition sys_exit (code : Z) : K Z := do! exit_process code in ret 0.

(** Reads through the process's page table, at the physical address. *)
Definition read_user_u64 (addr : Z) : K (option Z) :=
  let! r := with_current_proc_ref (λ proc,
    let! o := on_mm (translate (p_page_table proc) addr) in
    match o with Some pa => let! v := ldw 8 pa in ret (Some v) | None => ret None end) in
  ret (mjoin r).
Definition read_user_byte (addr : Z) : K (option Z) :=
  let! r := with_current_proc_ref (λ proc,
    let! o := on_mm (translate (p_page_table proc) addr) in
    match o with Some pa => let! v := ld8 pa in ret (Some v) | None => ret None end) in
  ret (mjoin r).

(** [s.push(b as char)]: a byte above 0x7f becomes two bytes of UTF-8. *)
Definition push_char (b : Z) : list Z :=
  if b <? 0x80 then [b] else [Z.lor 0xC0 (Z.shiftr b 6); Z.lor 0x80 (Z.land b 0x3f)].

(** The loop of [read_user_str] with [fuel] more bytes allowed. *)
Fixpoint read_user_str_from (fuel : nat) (addr off : Z) (acc : list Z) : K (option string) :=
  match fuel with
  | O => ret None
  | S fuel' =>
      let? b := read_user_byte (addr +w off) in
      if b =? 0 then ret (Some (string_of acc))
      else read_user_str_from fuel' addr (off + 1) (acc ++ push_char b)
  end.
Definition read_user_str (addr : Z) : K (option string) := read_user_str_from 4097 addr 0 [].

(** The loops over [argv] and [envp]: at most 129 strings. *)
Fixpoint read_user_strs (fuel : nat) (addr i : Z) : K (list string) :=
  match fuel with
  | O => ret []
  | S fuel' =>
      let! w := read_user_u64 (addr +w i *w 8) in
      match w with
      | None => ret []
      | Some ptr =>
          if ptr =? 0 then ret []
          else
            let! s := read_user_str ptr in
            match s with
            | None => ret []
            | Some str => let! rest := read_user_strs fuel' addr (i + 1) in ret (str :: rest)
            end
      end
  end.

Definition has_path (envp : list string) : bool :=
  bool_decide (Exists (λ s, is_Some (strip_prefix "PATH=" s)) envp).

Definition sys_execve (path argv envp : Z) : K Z :=
  let! o := read_user_str path in
  match o with
  | None => ret (-1)
  | Some path =>
      let! argv_strs := read_user_strs 129 argv 0 in
      let! envp_strs := read_user_strs 129 envp 0 in
      let! d := on_fs (get_file_data path) in
      match d with
      | None => do! warn (bytes_of "sys_execve: file not found: " ++ bytes_of path) in ret (-2)
      | Some d =>
          let envp_strs := if has_path envp_strs then envp_strs else envp_strs ++ ["PATH=/bin"] in
          let! r := with_current_proc (λ proc, on_mm (exec_process elf_new proc d argv_strs envp_strs)) in
          match mjoin r with
          | None => ret (-1)
          | Some sp =>
              let! pc := gets (λ k, match cur_proc k with Some p => tf_sepc (p_trap_frame p) | None => 0 end) in
              do! modify (λ k, sk_ctf (set_reg 10 (Z.of_nat (length argv_strs))
                                         (set_reg 2 sp (set_sepc pc (k_ctf k)))) k) in
              let! satp := gets (λ k, match cur_proc k with Some p => satp_of (p_page_table p) | None => 0 end) in
              do! modify (sk_satp satp) in
              ret 0
          end
      end
  end.

Definition sys_clone (_flags stack _ptid _ctid _tls : Z) : K Z :=
  let! tf := gets k_ctf in
  let! o := fork_process tf in
  match o with
  | Some child_pid =>
      do! (if negb (stack =? 0) then
             let! t := gets k_procs in
             match t !! child_pid with
             | Some child => modify (set_proc child_pid (sp_trap_frame (set_reg 2 stack (p_trap_frame child)) child))
             | None => ret tt
             end
           else ret tt) in
      ret (as_isize child_pid)
  | None => ret (-1)
  end.

(** The test of the loop of [sys_wait4]. *)
Definition reapable (current_pid pid cpid : Z) (proc : Process) : bool :=
  (p_ppid proc =? current_pid) && bool_decide (p_state proc = Zombie) &&
  negb ((0 <? pid) && negb (cpid =? as_usize pid)).

Definition sys_wait4 (pid wstatus _options _rusage : Z) : K Z :=
  let! current_pid := gets k_current in
  let! table := gets k_procs in
  match bt_find (reapable current_pid pid) table with
  | Some (zpid, z) =>
      do! (if negb (wstatus =? 0)
           then stw 8 wstatus (as_usize (Z.shiftl (Z.land (p_exit_code z) 0xff) 8)) else ret tt) in
      do! modify (λ k, sk_procs (delete zpid (k_procs k)) k) in
      ret (as_isize zpid)
  | None => ret (if negb (Z.land _options 1 =? 0) then 0 else -11)
  end.

Definition sys_getpid : K Z := gets (λ k, as_isize (k_current k)).
Definition sys_getppid : K Z :=
  gets (λ k, match cur_proc k with Some p => as_isize (p_ppid p) | None => 0 end).
Definition sys_getpgrp : K Z := sys_getpid.
Definition sys_setsid : K Z := sys_getpid.
Definition sys_gettid : K Z := sys_getpid.

(** ** Information *)

Definition pad (s : list Z) : list Z := s ++ replicate (65 - length s) 0.

Definition sys_uname (buf : Z) : K Z :=
  do! st_bytes buf (pad (bytes_of "Linux")) in
  do! st_bytes (buf +w 65) (pad (bytes_of "rvos")) in
  do! st_bytes (buf +w 130) (pad (bytes_of "5.15.0")) in
  do! st_bytes (buf +w 195) (pad (bytes_of "#1")) in
  do! st_bytes (buf +w 260) (pad (bytes_of "riscv64")) in
  do! st_bytes (buf +w 325) (pad []) in
  ret 0.

Definition sys_clock_gettime (_clk_id buf : Z) : K Z :=
  let! ticks := on_net rdtime in
  let sec := ticks / 10000000 + 1 in
  let usec := ticks mod 10000000 in
  do! stw 8 buf sec in
  do! stw 8 (buf +w 8) usec in
  ret 0.

Definition sys_getrlimit (resource buf : Z) : K Z :=
  let cur := if resource =? 7 then 1024 else 2 ^ 64 - 1 in
  let max := if resource =? 7 then 4096 else 2 ^ 64 - 1 in
  do! stw 8 buf cur in
  do! stw 8 (buf +w 8) max in
  ret 0.

Definition sys_prlimit64 (_pid resource _new_limit old_limit : Z) : K Z :=
  do! (if negb (old_limit =? 0) then
         let lim := if resource =? 7 then 1024 else 2 ^ 64 - 1 in
         do! stw 8 old_limit lim in
         stw 8 (old_limit +w 8) lim
       else ret tt) in
  ret 0.

Definition sys_getrandom (buf buflen _flags : Z) : K Z :=
  do! st_bytes buf (replicate (Z.to_nat buflen) 0xAB) in
  ret (as_isize buflen).
End SysProc.
