(* ===== verification/SysSpec.v ===== *)
(** * What the system calls do

    The behaviour of the file, pipe, process and memory calls on the state of
    the kernel: user memory as an array of bytes, descriptors as a map to open
    files, the file system as a map from paths to contents. *)

From S2P Require Import Prelude Machine Alloc PageTable AddrSpace UserMem Pipe FdTable Fs Loader Net NetSpec Kernel Access Proc SysFile SysProc.

Open Scope string_scope.
Open Scope list_scope.
Open Scope Z_scope.

#[local] Opaque ld_bytes st_bytes translate map alloc_page.

Section SysSpec.
Context {NS : Type} `{NetStack NS}.
Implicit Types k : kernel NS.

Abbreviation kmem k := (mm_mem (k_mm k)).
Abbreviation kroot k := (satp_root (k_satp k)).

Lemma sk_fs_id k : sk_fs (k_fs k) k = k.
Proof. by destruct k. Qed.

Lemma wp_vec_new n k (Q : unit → kernel NS → Prop) : n ≤ HEAP_SIZE → Q tt k → wp (vec_new n) k Q.
Proof. intros Hn HQ. unfold vec_new. destruct (Z.ltb_spec HEAP_SIZE n); [lia|done]. Qed.

Lemma wp_st_bytes va l k (Q : unit → kernel NS → Prop) : as_inv (kroot k) (k_mm k) → Forall (λ b, 0 ≤ b < 256) l →
  user_range (kmem k) (kroot k) AWrite va (Z.of_nat (length l)) →
  (∀ m', stored (kroot k) va l (k_mm k) m' → Q tt (sk_mm (set_mem m' (k_mm k)) k)) → wp (st_bytes va l) k Q.
Proof.
  intros Hi Hl Hr HQ. destruct (st_bytes_run l va k Hi Hl Hr) as (m' & E & Hst).
  eapply wp_of_run; [exact E|]. by apply HQ.
Qed.

Lemma wp_ld_bytes va n k (Q : list Z → kernel NS → Prop) :
  user_range (kmem k) (kroot k) ARead va (Z.of_nat n) →
  Q (ubytes (kmem k) (kroot k) va n) k → wp (ld_bytes va n) k Q.
Proof. intros Hr HQ. eapply wp_of_run; [by apply ld_bytes_run|done]. Qed.

(** ** Files *)

(** A descriptor that is an open file of the file system. *)
Record file_fd k (fd : Z) (f : OpenFile) : Prop := {
  ff_range : 0 ≤ fd < 2 ^ 63;
  ff_get : fd_get (k_fdt k) fd = Some f;
  ff_inode : of_inode f ≠ 0;
  ff_pipe : of_pipe_id f = None;
  ff_fake : k_fake k !! fd = None
}.

Lemma fd_usize fd : 0 ≤ fd < 2 ^ 63 → as_usize fd = fd.
Proof. intros. unfold as_usize. apply wrap64_small. unfold in_usize. lia. Qed.

Lemma isize_small z : z < 2 ^ 63 → as_isize z = z.
Proof. intros. unfold as_isize. destruct (Z.ltb_spec z (2 ^ 63)); lia. Qed.

(** [sys_read] on a file comes down to [read_inode]. *)
Lemma sys_read_file fd buf count f k : file_fd k fd f → count ≤ HEAP_SIZE →
  sys_read fd buf count k =
    (let! out := on_fs (read_inode (of_inode f) count (of_offset f)) in
     do! st_bytes buf out in
     do! put_fd fd (of_set_offset (of_offset f +w Z.of_nat (length out)) f) in
     ret (as_isize (Z.of_nat (length out)))) k.
Proof.
  intros [Hr Hg Hi Hp Hf] Hc. unfold sys_read, get_fd, is_inet_socket, gets. unfold bind at 1.
  rewrite fd_usize, Hg by done. rewrite (proj2 (Z.eqb_neq _ _)) by done. cbn [andb].
  unfold bind at 1. rewrite Hf. unfold bind at 1. rewrite Hf, Hp. unfold bind at 1, vec_new.
  destruct (Z.ltb_spec HEAP_SIZE count); [lia|]. done.
Qed.

Lemma put_fd_wp fd f f' k (Q : unit → kernel NS → Prop) : 0 ≤ fd < 2 ^ 63 → fd_get (k_fdt k) fd = Some f →
  (∀ t', fd_get t' fd = Some f' → (∀ j, j ≠ fd → fd_get t' j = fd_get (k_fdt k) j) → Q tt (sk_fdt t' k)) →
  wp (put_fd fd f') k Q.
Proof.
  intros Hr Hg HQ. unfold put_fd. apply wp_on_fdt. rewrite fd_usize by done.
  destruct (fd_update_get _ _ _ f' Hg) as (t' & E & H1 & H2). eapply wp_of_run; [exact E|]. by apply HQ.
Qed.


(** C39: reading beyond the end of a file. [lseek] accepts any position; the next
    [read] on the descriptor panics the kernel instead of returning 0. *)
Theorem seek_read_panics fd buf count off f file k :
  file_fd k fd f → inode_file (k_fs k) (of_inode f) = Some file → 0 ≤ count ≤ HEAP_SIZE →
  file_len file < off < 2 ^ 63 →
  (do! sys_lseek fd off 0 in sys_read fd buf count) k = Panic.
Proof.
  intros Hfd Hfile Hc Hoff. pose proof Hfd as [Hr Hg Hin Hp Hf].
  assert (0 ≤ file_len file) by (rewrite file_len_slice; lia).
  assert (∃ t', sys_lseek fd off 0 k = Ret (as_isize off, sk_fdt t' k) ∧
                fd_get t' fd = Some (of_set_offset off f)) as (t' & E & Ht).
  { unfold sys_lseek, get_fd, gets, bind at 1. rewrite fd_usize, Hg by done. cbn [Z.eqb].
    destruct (fd_update_get _ _ _ (of_set_offset off f) Hg) as (t' & E & H1 & _). exists t'. split; [|done].
    unfold bind, ret, put_fd, on_fdt, zoom. rewrite (fd_usize off), (fd_usize fd) by lia. by rewrite E. }
  unfold bind at 1. rewrite E. rewrite (sys_read_file _ _ _ (of_set_offset off f)); [|by split|lia].
  unfold bind at 1, on_fs, zoom. cbn [k_fs sk_fdt of_inode of_offset of_set_offset].
  by rewrite (read_inode_past _ _ file) by (done || lia).
Qed.

(** ** Pipes *)

(** A descriptor that is an end of pipe [id]. *)
Record pipe_fd k (fd : Z) (f : OpenFile) (id : Z) : Prop := {
  pf_range : 0 ≤ fd < 2 ^ 63;
  pf_get : fd_get (k_fdt k) fd = Some f;
  pf_pipe : of_pipe_id f = Some id;
  pf_fake : k_fake k !! fd = None
}.

Lemma Forall_ubytes m root a n : Forall (λ b, 0 ≤ b < 256) (ubytes m root a n).
Proof.
  apply Forall_forall. intros b (x & -> & _)%list_elem_of_fmap. unfold ubyte. case_match; [apply rd8_range|lia].
Qed.
Lemma length_ubytes m root a n : length (ubytes m root a n) = n.
Proof. unfold ubytes. rewrite length_fmap, length_seqZ. lia. Qed.

Lemma wp_on_pipe {A} id p (m : M PipeInner A) k (Q : A → kernel NS → Prop) :
  wp m p (λ a p', Q a (sk_pipes (<[id := p']> (k_pipes k)) k)) → wp (on_pipe id p m) k Q.
Proof. unfold wp, on_pipe. by destruct (m p) as [[]| | |]. Qed.

Lemma sys_write_pipe fd f id p buf n k (Q : Z → kernel NS → Prop) : pipe_fd k fd f id → fd ≠ 1 → fd ≠ 2 →
  k_pipes k !! id = Some p → pipe_ok p → read_closed p = false → 0 ≤ n ≤ HEAP_SIZE →
  user_range (kmem k) (kroot k) ARead buf n →
  let d := ubytes (kmem k) (kroot k) buf (Z.to_nat n) in
  (∀ p', pipe_ok p' → capacity p' = capacity p → read_closed p' = false →
     contents p' = Queue.push (capacity p) d (contents p) →
     Q (Z.of_nat (length (Queue.accepted (capacity p) d (contents p)))) (sk_pipes (<[id := p']> (k_pipes k)) k)) →
  wp (sys_write fd buf n) k Q.
Proof.
  intros [Hr Hg Hp Hf] H1 H2 Hpi Hok Hrc Hn Hrange d HQ. unfold sys_write.
  rewrite (proj2 (Z.eqb_neq fd 1)), (proj2 (Z.eqb_neq fd 2)) by done. cbn [orb].
  assert (∀ Q' : list Z → kernel NS → Prop, Q' d k → wp (ld_bytes buf (Z.to_nat n)) k Q') as Hld.
  { intros Q' HQ'. apply wp_ld_bytes; [|done]. by rewrite Z2Nat.id by lia. }
  apply wp_bind. assert (∀ (b : bool) (Q' : unit → kernel NS → Prop), Q' tt k →
    wp (if b then let! _ := ld_bytes buf (Z.to_nat n) in ret tt else ret tt) k Q') as Hecho.
  { intros [] Q' HQ'; [|by apply wp_ret]. apply wp_bind, Hld. by apply wp_ret. }
  apply Hecho. apply wp_bind, wp_gets. rewrite fd_usize, Hf by done.
  apply wp_bind, wp_gets. rewrite fd_usize, Hg, Hp by done.
  apply wp_bind, wp_gets. rewrite Hpi. apply wp_bind, wp_vec_new; [lia|].
  apply wp_bind, Hld. apply wp_bind, wp_on_pipe. eapply wp_mono; [by apply pipe_write_spec|].
  intros w p' (Hok' & Hc & Hrc' & Hcont & ->). apply wp_ret. rewrite isize_small; [by apply HQ|].
  unfold Queue.accepted. rewrite length_take. unfold d. rewrite length_ubytes. unfold HEAP_SIZE in Hn. lia.
Qed.

Lemma sys_read_pipe fd f id p buf n k (Q : Z → kernel NS → Prop) : pipe_fd k fd f id →
  k_pipes k !! id = Some p → pipe_ok p → Forall (λ b, 0 ≤ b < 256) (contents p) → 0 ≤ n ≤ HEAP_SIZE →
  as_inv (kroot k) (k_mm k) → user_range (kmem k) (kroot k) AWrite buf n →
  let out := take (Z.to_nat n) (contents p) in
  (∀ p' m', pipe_ok p' → contents p' = drop (Z.to_nat n) (contents p) →
     stored (kroot k) buf out (k_mm k) m' →
     Q (Z.of_nat (length out)) (sk_mm (set_mem m' (k_mm k)) (sk_pipes (<[id := p']> (k_pipes k)) k))) →
  wp (sys_read fd buf n) k Q.
Proof.
  intros [Hr Hg Hp Hf] Hpi Hok Hb Hn Hi Hrange out HQ. unfold sys_read.
  apply wp_bind, wp_gets. rewrite fd_usize, Hg, Hp by done.
  rewrite bool_decide_eq_false_2, andb_false_r by done.
  apply wp_bind, wp_gets. rewrite Hf. apply wp_bind, wp_gets. rewrite Hf.
  apply wp_bind, wp_gets. rewrite Hpi. apply wp_bind, wp_vec_new; [lia|].
  apply wp_bind, wp_on_pipe. eapply wp_mono; [by apply pipe_read_spec|].
  intros o p' (Hok' & _ & _ & [= -> Hcont]). fold out.
  assert (length out ≤ Z.to_nat n)%nat by (unfold out; rewrite length_take; lia).
  apply wp_bind, wp_st_bytes; [done|by apply Forall_take| |].
  { intros a Ha. apply Hrange. cbn in Ha. lia. }
  intros m' Hst. apply wp_ret. rewrite isize_small by (unfold HEAP_SIZE in Hn; lia). by apply HQ.
Qed.


(** ** Processes *)

(** C23: [exit]. The current process becomes a zombie with its exit code, a
    parent that waits for a child becomes ready, and every other process is
    left as it is. *)
Theorem exit_wakes_parent code p k : cur_proc k = Some p → p_ppid p ≠ k_current k →
  wp (sys_exit code) k (λ _ k',
    cur_proc k' = Some (sp_exit_code code (sp_state Zombie p)) ∧
    (∀ q, k_procs k !! p_ppid p = Some q →
       k_procs k' !! p_ppid p = Some (if decide (p_state q = Waiting) then sp_state Ready q else q)) ∧
    (∀ pid, pid ≠ k_current k → pid ≠ p_ppid p → k_procs k' !! pid = k_procs k !! pid) ∧
    k_mm k' = k_mm k).
Proof.
  unfold cur_proc. intros Hp Hne. unfold sys_exit, exit_process.
  apply wp_bind, wp_bind, wp_gets, wp_bind, wp_gets. rewrite Hp.
  apply wp_bind, wp_modify, wp_bind, wp_gets. unfold set_proc at 1. rewrite k_procs_sk, lookup_insert_ne by done.
  destruct (k_procs k !! p_ppid p) as [q|] eqn:Hq; [case_decide as Hw|].
  - apply wp_modify, wp_ret. unfold set_proc. cbn [k_procs k_current sk_procs k_mm].
    split_and!; [by rewrite lookup_insert_ne, lookup_insert, decide_True| | |done].
    + intros q' [= <-]. by rewrite lookup_insert, !decide_True.
    + intros pid H1 H2. by rewrite !lookup_insert_ne.
  - apply wp_ret, wp_ret. unfold set_proc. cbn [k_procs k_current sk_procs k_mm].
    split_and!; [by rewrite lookup_insert, decide_True| | |done].
    + intros q' [= <-]. by rewrite lookup_insert_ne, decide_False by done.
    + intros pid H1 H2. by rewrite lookup_insert_ne.
  - apply wp_ret, wp_ret. unfold set_proc. cbn [k_procs k_current sk_procs k_mm].
    split_and!; [by rewrite lookup_insert, decide_True|done| |done].
    intros pid H1 H2. by rewrite lookup_insert_ne.
Qed.

(** A dead child of the current process that [wait4(pid, ...)] accepts. *)
Definition dead_child k (pid cpid : Z) (z : Process) : Prop :=
  k_procs k !! cpid = Some z ∧ p_ppid z = k_current k ∧ p_state z = Zombie ∧ (0 < pid → cpid = as_usize pid).

Lemma reapable_spec k pid cpid z : k_procs k !! cpid = Some z →
  reapable (k_current k) pid cpid z = true ↔ dead_child k pid cpid z.
Proof.
  intros Hl. unfold reapable, dead_child. rewrite !andb_true_iff, Z.eqb_eq, bool_decide_eq_true, negb_true_iff.
  destruct (Z.ltb_spec 0 pid); cbn [andb]; rewrite ?negb_false_iff, ?Z.eqb_eq; naive_solver lia.
Qed.

(** C22: [wait4]. If a dead child matches, the one with the smallest pid is
    removed from the process table, its pid is returned, and its exit code is
    stored in bits 8 to 15 of the status word; without one nothing changes, and
    the call returns 0 with WNOHANG and EAGAIN without. *)
Theorem wait4_reaps pid wstatus options rusage k : as_inv (kroot k) (k_mm k) →
  (wstatus ≠ 0 → user_range (kmem k) (kroot k) AWrite wstatus 8) →
  wp (sys_wait4 pid wstatus options rusage) k (λ r k',
    (∃ cpid z, dead_child k pid cpid z ∧ (∀ cpid' z', dead_child k pid cpid' z' → cpid ≤ cpid') ∧
       r = as_isize cpid ∧ k_procs k' = delete cpid (k_procs k) ∧
       (wstatus = 0 → k_mm k' = k_mm k) ∧
       (wstatus ≠ 0 → stored (kroot k) wstatus (le_bytes 8 (p_exit_code z mod 256 * 256)) (k_mm k) (kmem k'))) ∨
    ((∀ cpid z, ¬ dead_child k pid cpid z) ∧ k' = k ∧ r = if Z.testbit options 0 then 0 else -11)).
Proof.
  intros Hi Hw. unfold sys_wait4. apply wp_bind, wp_gets, wp_bind, wp_gets.
  destruct (bt_find _ _) as [[cpid z]|] eqn:E.
  - apply bt_find_Some in E as (Hl & Hz & Hmin). apply (reapable_spec k pid cpid z Hl) in Hz.
    assert (∀ cpid' z', dead_child k pid cpid' z' → cpid ≤ cpid') as Hle.
    { intros cpid' z' Hd. apply (Hmin cpid' z'); [apply Hd|]. by apply (reapable_spec k pid); [apply Hd|]. }
    assert (as_usize (Z.shiftl (Z.land (p_exit_code z) 0xff) 8) = p_exit_code z mod 256 * 256) as Hst.
    { change 0xff with (Z.ones 8). rewrite Z.land_ones, Z.shiftl_mul_pow2 by lia. change (2 ^ 8) with 256.
      pose proof (Z.mod_pos_bound (p_exit_code z) 256). apply wrap64_small. unfold in_usize. lia. }
    apply wp_bind. destruct (Z.eqb_spec wstatus 0) as [->|Hne]; cbn [negb].
    + apply wp_ret, wp_bind, wp_modify, wp_ret. left. exists cpid, z. by split_and!.
    + rewrite Hst. destruct (stw_run 8 wstatus (p_exit_code z mod 256 * 256) k Hi (Hw Hne)) as (m' & E & Hs).
      eapply wp_of_run; [exact E|]. apply wp_bind, wp_modify, wp_ret. left. exists cpid, z. by split_and!.
  - apply wp_ret. right. split; [|split; [done|]].
    + intros cpid z Hd. pose proof (proj1 (bt_find_None _ _) E cpid z (proj1 Hd)) as Hf.
      apply (reapable_spec k pid cpid z (proj1 Hd)) in Hd. congruence.
    + assert (Z.land options 1 = options mod 2) as -> by (change 1 with (Z.ones 1); by rewrite Z.land_ones by lia).
      pose proof (Z.bit0_mod options) as Hb. destruct (Z.testbit options 0); cbn in Hb; by rewrite <-Hb.
Qed.
End SysSpec.

(** ** Examples *)

(** One user page at 0x10000, the file [/hi] on descriptor 3, the ends of a pipe
    on 4 and 5, and a dead child with pid 2. *)
Definition io_file : File := MkFile (Static [104; 105; 10]).
Definition io_open : OpenFile := {|
  of_inode := 1; of_offset := 0; of_readable := true; of_writable := false; of_pipe_id := None
|}.
Definition io_end (w : bool) : OpenFile := {|
  of_inode := 0; of_offset := 0; of_readable := negb w; of_writable := w; of_pipe_id := Some 1
|}.
Definition io_child : Process := {|
  p_pid := 2; p_ppid := 1; p_state := Zombie; p_page_table := table0; p_trap_frame := TrapFrame_new;
  p_kernel_stack := 0x80404000; p_brk := 0; p_exit_code := 3; p_fd_table := FdTable_new
|}.
Definition io_kernel (s : mm) : kernel toy_stack :=
  set_proc 2 io_child
    (sk_pipes {[1 := PipeInner_new]}
      (sk_fs (MkFs {["/hi" := io_file]} 2 {[1 := "/hi"]})
        (sk_fdt (FdT (files FdTable_new ++ [Some io_open; Some (io_end false); Some (io_end true)])) (demo_kernel s)))).

Lemma io_root s : satp_root (k_satp (io_kernel s)) = root_ppn table0.
Proof. exact (proj2 (satp_of_spec table0 ltac:(cbn; lia))). Qed.

(** The page can be read and written. *)
Lemma io_space : ∃ s, as_inv (satp_root (k_satp (io_kernel s))) s ∧
  ∀ acc va n, 0x10000 ≤ va → va + n ≤ 0x11000 → user_range (mm_mem s) (satp_root (k_satp (io_kernel s))) acc va n.
Proof.
  destruct demo_space as (s & Hs & _ & _ & Hp & _). exists s. rewrite io_root. split; [done|].
  intros acc va n Hlo Hhi a Ha. eapply page_is_ok; [exact Hp|dlia|lia|set_solver].
Qed.

Lemma io_file_fd s : file_fd (io_kernel s) 3 io_open.
Proof. by split. Qed.


Lemma seek_read_panics_witness :
  (do! sys_lseek 3 10 0 in sys_read 3 0x10000 2) (io_kernel demo_mm) = Panic.
Proof.
  apply (seek_read_panics 3 0x10000 2 10 io_open io_file (io_kernel demo_mm)).
  - apply io_file_fd.
  - vm_compute. reflexivity.
  - done.
  - done.
Defined.


(** Pid 2 runs, and its parent waits for it. *)
Definition io_family : kernel toy_stack :=
  sk_current 2 (set_proc 1 (sp_state Waiting demo_process) (set_proc 2 (sp_state Running io_child) (demo_kernel demo_mm))).

Lemma exit_wakes_parent_witness : k_procs io_family !! 1 = Some (sp_state Waiting demo_process) ∧
  wp (sys_exit 7) io_family (λ _ k',
    cur_proc k' = Some (sp_exit_code 7 (sp_state Zombie (sp_state Running io_child))) ∧
    (∀ q, k_procs io_family !! 1 = Some q →
       k_procs k' !! 1 = Some (if decide (p_state q = Waiting) then sp_state Ready q else q)) ∧
    (∀ pid, pid ≠ 2 → pid ≠ 1 → k_procs k' !! pid = k_procs io_family !! pid) ∧
    k_mm k' = k_mm io_family).
Proof.
  split; [reflexivity|].
  apply (exit_wakes_parent 7 (sp_state Running io_child) io_family); [reflexivity|done].
Defined.

Lemma wait4_reaps_witness : ∃ s, let k := io_kernel s in let root := satp_root (k_satp k) in
  wp (sys_wait4 (-1) 0x10000 0 0) k (λ r k',
    (∃ cpid z, dead_child k (-1) cpid z ∧ (∀ cpid' z', dead_child k (-1) cpid' z' → cpid ≤ cpid') ∧
       r = as_isize cpid ∧ k_procs k' = delete cpid (k_procs k) ∧
       (0x10000 = 0 → k_mm k' = k_mm k) ∧
       (0x10000 ≠ 0 → stored root 0x10000 (le_bytes 8 (p_exit_code z mod 256 * 256)) (k_mm k) (mm_mem (k_mm k')))) ∨
    ((∀ cpid z, ¬ dead_child k (-1) cpid z) ∧ k' = k ∧ r = -11)).
Proof.
  destruct io_space as (s & Hs & Hr). exists s.
  apply (wait4_reaps (-1) 0x10000 0 0 (io_kernel s)).
  - exact Hs.
  - intros _. apply (Hr AWrite); lia.
Defined.
