(* ===== verification/StdinSpec.v ===== *)
(** * The line editor of [read] on standard input

    [sys_read] edits the line in place in the user's buffer, one byte of the
    serial port at a time. The reference below edits a list. *)

From S2P Require Import Prelude Machine Alloc PageTable AddrSpace UserMem Pipe FdTable Fs Net NetSpec Kernel Access Proc SysFile SysSpec.

(** ** The reference *)

Definition is_erase (c : Z) : bool := (c =? 0x08) || (c =? 0x7f).
Definition is_newline (c : Z) : bool := (c =? 0x0d) || (c =? 0x0a).
(** What a typed character shows. *)
Definition echo_of (c : Z) : list Z :=
  if is_newline c then [0x0d; 0x0a] else if bool_decide (0x20 ≤ c < 0x7f ∨ c = 0x09) then [c] else [].

(** From the characters typed so far, the line that is delivered once it is
    complete or has [count] characters, what the terminal shows meanwhile and
    the input left over; nothing while the line is incomplete. *)
Fixpoint edit_line (count : nat) (line input : list Z) : option (list Z * list Z * list Z) :=
  if decide (count ≤ length line)%nat then Some (line, [], input)
  else
    match input with
    | [] => None
    | c :: rest =>
        let continue line echo :=
          match edit_line count line rest with
          | Some (l, e, r) => Some (l, echo ++ e, r)
          | None => None
          end in
        if is_erase c then
          match line with
          | [] => continue [] []
          | _ => continue (removelast line) [0x08; 0x20; 0x08]
          end
        else if is_newline c then Some (line ++ [0x0a], echo_of c, rest)
        else continue (line ++ [c]) (echo_of c)
    end.

Section Stdin.
Context {NS : Type} `{NetStack NS}.
Implicit Types k : kernel NS.

Abbreviation kmem k := (mm_mem (k_mm k)).
Abbreviation kroot k := (satp_root (k_satp k)).

(** The state during the loop: only memory, output and input have changed. *)
Definition typed (m : mem) (out inp : list Z) k : kernel NS :=
  sk_in inp (sk_out out (sk_mm (set_mem m (k_mm k)) k)).

Lemma typed_typed m out inp m' out' inp' k : typed m' out' inp' (typed m out inp k) = typed m' out' inp' k.
Proof. reflexivity. Qed.
Lemma typed_id k : typed (kmem k) (k_out k) (k_in k) k = k.
Proof. by destruct k as [[]]. Qed.

(** The user's memory holds [line] at [buf] and is otherwise as in [k], up to
    the [count] bytes of the buffer. *)
Record editing (buf count : Z) (line : list Z) k (m : mem) : Prop := {
  ed_inv : as_inv (kroot k) (set_mem m (k_mm k));
  ed_view : ∀ w, view m (kroot k) w = view (kmem k) (kroot k) w;
  ed_line : ubytes m (kroot k) buf (length line) = line;
  ed_rest : ∀ b, 0 ≤ b < 2 ^ 38 → is_Some (user_entry (kmem k) (kroot k) (b / 4096)) → b < buf ∨ buf + count ≤ b →
    ubyte m (kroot k) b = ubyte (kmem k) (kroot k) b
}.

Lemma ubytes_app m root va n n' : ubytes m root va (n + n') = ubytes m root va n ++ ubytes m root (va + Z.of_nat n) n'.
Proof. unfold ubytes. rewrite Nat2Z.inj_add, seqZ_app, fmap_app by lia. done. Qed.

Lemma editing_erase buf count line k m : editing buf count line k m → editing buf count (removelast line) k m.
Proof.
  intros [Hi Hv Hl Hr]. split; try done. induction line as [|c l _] using rev_ind; [done|].
  rewrite removelast_last. rewrite length_app, ubytes_app in Hl. by apply app_inj_1 in Hl as [? _]; [|unfold ubytes; rewrite length_fmap, length_seqZ; lia].
Qed.

Lemma st8_run va c k : as_inv (kroot k) (k_mm k) → 0 ≤ c < 256 → user_ok (kmem k) (kroot k) AWrite va →
  ∃ m', st8 va c k = Ret (tt, sk_mm (set_mem m' (k_mm k)) k) ∧ stored (kroot k) va [c] (k_mm k) m'.
Proof.
  intros Hi Hc Hok. destruct (st_bytes_run [c] va k Hi) as (m' & E & Hs); [by constructor| |].
  { intros a Ha. cbn in Ha. by replace a with va by lia. }
  exists m'. split; [|done]. revert E. cbn [st_bytes]. unfold bind, ret. destruct (st8 va c k) as [[[] k']| | |]; [|done..].
  by intros [= ->].
Qed.

(** One character more. *)
Lemma editing_type buf count line k m out inp c : editing buf count line k m → 0 ≤ c < 256 → 0 ≤ buf →
  Z.of_nat (length line) < count → user_range (kmem k) (kroot k) AWrite buf count →
  ∃ m', st8 (buf +w Z.of_nat (length line)) c (typed m out inp k) = Ret (tt, typed m' out inp k) ∧
    editing buf count (line ++ [c]) k m'.
Proof.
  intros [Hi Hv Hl Hr] Hc Hb Hn Hu. destruct (Hu (buf + Z.of_nat (length line))) as (Ha & e & He & Hp); [lia|].
  rewrite wrap64_small by (unfold in_usize; lia).
  assert (∀ w, user_entry m (kroot k) w = user_entry (kmem k) (kroot k) w) as Hue by (intros w; unfold user_entry; by rewrite Hv).
  destruct (st8_run (buf + Z.of_nat (length line)) c (typed m out inp k)) as (m' & E & [Hi' Hv' Hb' _]);
    [exact Hi|done|split; [done|]; exists e; split; [exact (eq_trans (Hue _) He)|done]|].
  exists m'. split; [exact E|]. change (kmem (typed m out inp k)) with m in *. change (kroot (typed m out inp k)) with (kroot k) in *.
  assert (∀ b, 0 ≤ b < 2 ^ 38 → is_Some (user_entry (kmem k) (kroot k) (b / 4096)) →
    ubyte m' (kroot k) b = if decide (b = buf + Z.of_nat (length line)) then c else ubyte m (kroot k) b) as Hbyte.
  { intros b Hb0 Hs. rewrite Hb' by (done || by rewrite Hue). case_decide as Hle.
    - destruct (decide (b = buf + Z.of_nat (length line))) as [->|Hne]; [by rewrite Z.sub_diag|].
      rewrite lookup_ge_None_2; [done|cbn; lia].
    - by rewrite decide_False by lia. }
  split; [exact Hi'|intros w; by rewrite Hv', Hv| |].
  - rewrite length_app, ubytes_app. f_equal.
    + rewrite <-Hl at 2. unfold ubytes. apply list_fmap_ext. intros i y Hy. apply lookup_seqZ in Hy as [-> Hlt].
      destruct (Hu (buf + Z.of_nat i)) as (? & e' & He' & _); [lia|]. rewrite Hbyte by eauto. by rewrite decide_False by lia.
    + unfold ubytes. cbn [length]. rewrite seqZ_cons, seqZ_nil by lia. cbn [fmap list_fmap].
      rewrite Hbyte by eauto. by rewrite decide_True.
  - intros b Hb0 Hs Hout. rewrite Hbyte by done. rewrite decide_False by lia. by apply Hr.
Qed.

Lemma length_removelast (l : list Z) : l ≠ [] → Z.of_nat (length (removelast l)) = Z.of_nat (length l) - 1.
Proof. induction l as [|c l _] using rev_ind; [done|]. intros _. rewrite removelast_last, length_app. cbn. lia. Qed.

Lemma print_typed m out inp k s : print s (typed m out inp k) = Ret (tt, typed m (out ++ s) inp k).
Proof. by rewrite print_run. Qed.

Lemma echo_run m out inp k c :
  (if is_newline c then print [0x0d; 0x0a]
   else if (0x20 <=? c) && (c <? 0x7f) then print [c]
   else if c =? 0x09 then print [0x09] else ret tt) (typed m out inp k) = Ret (tt, typed m (out ++ echo_of c) inp k).
Proof.
  unfold echo_of. destruct (is_newline c); [apply print_typed|].
  destruct (Z.leb_spec 0x20 c), (Z.ltb_spec c 0x7f); cbn [andb];
    try (rewrite bool_decide_eq_true_2 by lia; apply print_typed); destruct (Z.eqb_spec c 0x09) as [->|]; try apply print_typed;
    rewrite bool_decide_eq_false_2 by lia; by rewrite app_nil_r.
Qed.

(** One turn of the loop: an erased character, and a typed one. *)
Lemma stdin_erase buf count k c input (line : list Z) m out : is_erase c = true → Z.of_nat (length line) < count →
  stdin_turn buf count (Z.of_nat (length line)) (typed m out (c :: input) k) =
  Ret (inl (Z.of_nat (length (removelast line))),
    typed m (out ++ match line with [] => [] | _ => [0x08; 0x20; 0x08] end) input k).
Proof.
  intros Hc Hn. unfold stdin_turn. destruct (Z.leb_spec count (Z.of_nat (length line))); [lia|].
  unfold bind at 1. change (getchar (typed m out (c :: input) k)) with (Ret (Some c, typed m out input k)). cbv beta iota zeta.
  fold (is_erase c). rewrite Hc. destruct (Z.ltb_spec 0 (Z.of_nat (length line))) as [Hpos|Hz].
  - assert (line ≠ []) as Hne by by intros ->. rewrite length_removelast by done. unfold bind. rewrite print_typed.
    by destruct line.
  - destruct line; [by rewrite app_nil_r|cbn in Hz; lia].
Qed.

Lemma stdin_type buf count k c input (line : list Z) m out : is_erase c = false → Z.of_nat (length line) < count →
  0 ≤ buf → 0 ≤ c < 256 → user_range (kmem k) (kroot k) AWrite buf count → editing buf count line k m →
  let line' := line ++ [if is_newline c then 0x0a else c] in let n' := Z.of_nat (length line') in
  ∃ m', editing buf count line' k m' ∧
    stdin_turn buf count (Z.of_nat (length line)) (typed m out (c :: input) k) =
    Ret (if is_newline c then inr n' else inl n', typed m' (out ++ echo_of c) input k).
Proof.
  intros Hc Hn Hb Hr Hu Hed line' n'. assert (0 ≤ (if is_newline c then 0x0a else c) < 256) as Hc' by by destruct (is_newline c).
  destruct (editing_type buf count line k m (out ++ echo_of c) input _ Hed Hc' Hb Hn Hu) as (m' & E & Hed').
  exists m'. split; [done|]. unfold stdin_turn. destruct (Z.leb_spec count (Z.of_nat (length line))); [lia|].
  unfold bind at 1. change (getchar (typed m out (c :: input) k)) with (Ret (Some c, typed m out input k)). cbv beta iota zeta.
  fold (is_erase c). fold (is_newline c). rewrite Hc. unfold bind at 1. rewrite echo_run. unfold bind at 1. rewrite E.
  assert (Z.of_nat (length line) + 1 = n') as -> by (unfold n', line'; rewrite length_app; cbn; lia).
  destruct (is_newline c) eqn:Hnl; [done|].
  assert (c =? 0x0a = false) as -> by (unfold is_newline in Hnl; apply orb_false_iff in Hnl; tauto). done.
Qed.

(** Once the input is used up the loop spins. *)
Lemma stdin_spin buf count k n m out : n < count → ∀ N,
  nturns N (stdin_turn buf count) n (typed m out [] k) = Ret (inl n, typed m out [] k).
Proof.
  intros Hn N. induction N as [|N IH]; [done|]. cbn [nturns]. unfold bind, stdin_turn.
  destruct (Z.leb_spec count n); [lia|]. exact IH.
Qed.

Lemma stdin_turns buf count k : 0 ≤ buf → user_range (kmem k) (kroot k) AWrite buf count →
  ∀ input N line m out, Forall (λ c, 0 ≤ c < 256) input → editing buf count line k m → (length input < N)%nat →
  match edit_line (Z.to_nat count) line input with
  | Some (l, e, r) => ∃ m',
      nturns N (stdin_turn buf count) (Z.of_nat (length line)) (typed m out input k) =
        Ret (inr (Z.of_nat (length l)), typed m' (out ++ e) r k) ∧ editing buf count l k m'
  | None => ∃ n k', nturns N (stdin_turn buf count) (Z.of_nat (length line)) (typed m out input k) = Ret (inl n, k')
  end.
Proof.
  intros Hb Hu input. induction input as [|c input IH]; intros N line m out Hin Hed HN; cbn [edit_line];
    (destruct (decide (Z.to_nat count ≤ length line)%nat) as [Hfull|Hroom];
     [exists m; rewrite app_nil_r; split; [|done]; destruct N as [|N]; [lia|]; cbn [nturns]; unfold bind, stdin_turn;
      by rewrite (proj2 (Z.leb_le count (Z.of_nat (length line)))) by lia|]).
  { eexists _, _. apply stdin_spin. lia. }
  apply Forall_cons in Hin as [Hc Hin]. destruct N as [|N]; [lia|]. cbn [length] in HN. cbn [nturns].
  destruct (is_erase c) eqn:Her.
  - rewrite (bind_run _ _ _ _ _ (stdin_erase buf count k c input line m out Her ltac:(lia))).
    set (echo := match line with [] => [] | _ => [0x08; 0x20; 0x08] end).
    specialize (IH N (removelast line) m (out ++ echo) Hin (editing_erase _ _ _ _ _ Hed) ltac:(lia)).
    destruct line as [|c0 line]; cbn [removelast] in *;
      destruct (edit_line _ _ _) as [[[l e] r]|]; rewrite <-?app_assoc in IH; exact IH.
  - destruct (stdin_type buf count k c input line m out Her ltac:(lia) Hb Hc Hu Hed) as (m' & Hed' & E).
    rewrite (bind_run _ _ _ _ _ E). destruct (is_newline c) eqn:Hnl; [by exists m'|].
    specialize (IH N (line ++ [c]) m' (out ++ echo_of c) Hin Hed' ltac:(lia)).
    destruct (edit_line _ _ _) as [[[l e] r]|]; rewrite <-?app_assoc in IH; exact IH.
Qed.

(** C13: the line editor on standard input does what a line editor on lists
    does. [read] from the console returns exactly when the reference delivers a
    line, with its length; the user's buffer then starts with that line,
    however often characters were erased and retyped, the terminal has shown
    the same echo, the same input is left, and no user byte outside the buffer
    has changed. It waits for ever exactly when the line never completes. *)
Theorem stdin_line_editor fd buf count f k :
  fd_get (k_fdt k) (as_usize fd) = Some f → of_inode f = 0 → of_pipe_id f = None →
  0 ≤ buf → 0 ≤ count → as_inv (kroot k) (k_mm k) → user_range (kmem k) (kroot k) AWrite buf count →
  Forall (λ c, 0 ≤ c < 256) (k_in k) → Z.of_nat (length (k_in k)) < 2 ^ 64 →
  match edit_line (Z.to_nat count) [] (k_in k) with
  | Some (line, echo, rest) => ∃ m',
      sys_read fd buf count k = Ret (as_isize (Z.of_nat (length line)), typed m' (k_out k ++ echo) rest k) ∧
      editing buf count line k m'
  | None => sys_read fd buf count k = Hang
  end.
Proof.
  intros Hfd Hino Hpipe Hb Hcnt Hi Hu Hin Hlen.
  assert (editing buf count [] k (kmem k)) as Hed by (split; [by destruct (k_mm k)|done..]).
  assert (sys_read fd buf count k = (let! n := mloop (2 ^ 64)%positive (stdin_turn buf count) 0 in ret (as_isize n)) k) as ->.
  { unfold sys_read, get_fd, gets. unfold bind at 1. rewrite Hfd, Hino, Hpipe. rewrite bool_decide_eq_true_2 by done. done. }
  pose proof (stdin_turns buf count k Hb Hu (k_in k) (Pos.to_nat (2 ^ 64)) [] (kmem k) (k_out k) Hin Hed ltac:(lia)) as Hl.
  rewrite typed_id, <-turns_nturns in Hl. change (Z.of_nat (length [])) with 0 in Hl. unfold mloop.
  destruct (edit_line _ _ _) as [[[line echo] rest]|].
  - destruct Hl as (m' & E & Hed'). exists m'. split; [|done]. unfold bind. by rewrite E.
  - destruct Hl as (n & k' & E). unfold bind. by rewrite E.
Qed.
End Stdin.

Lemma stdin_line_editor_witness : ∃ s, let k := sk_in [104; 0x7f; 105; 0x0d; 1] (io_kernel s) in ∃ m',
  sys_read 0 0x10000 16 k = Ret (2, typed m' (k_out k ++ [104; 8; 32; 8; 105; 13; 10]) [1] k) ∧
  editing 0x10000 16 [105; 10] k m'.
Proof.
  destruct io_space as (s & Hs & Hr). exists s. intros k.
  apply (stdin_line_editor 0 0x10000 16 std_file k).
  - reflexivity.
  - reflexivity.
  - reflexivity.
  - lia.
  - lia.
  - exact Hs.
  - apply Hr; lia.
  - refine (bool_decide_unpack _ _). vm_compute. exact I.
  - reflexivity.
Defined.
