(* ===== verification/MemSpec.v ===== *)
(** * [brk] and [mmap]

    Both calls back a range of user pages with fresh frames. The loop they share
    is characterised once; the two calls then follow. *)

From S2P Require Import Prelude Machine Alloc PageTable AddrSpace UserMem Pipe FdTable Fs Loader Net NetSpec Kernel Access Proc SysFile SysProc SysSpec.

#[local] Opaque ld_bytes st_bytes translate map alloc_page.

(** ** Backing pages *)

(** From [s0] to [s] the unmapped pages of [v0 <= w < v] have been given zeroed
    frames with flags [fl]; nothing else has changed. *)
Record backed (root : Z) (s0 s : mm) (v0 v : Z) (fl : PTEFlags) : Prop := {
  bk_ext : as_ext root s0 s;
  bk_cost : cur s ≤ cur s0 + 3 * 4096 * (v - v0);
  bk_new : ∀ w, v0 ≤ w < v → view (mm_mem s0) root w = None → page_is root s w fl (λ _, 0);
  bk_other : ∀ w, vpn_ok w → ¬ (v0 ≤ w < v) → view (mm_mem s) root w = view (mm_mem s0) root w
}.

Lemma backed_refl root s v fl : as_inv root s → backed root s s v v fl.
Proof. intros Hs. split; [by apply as_ext_refl|lia|intros; lia|done]. Qed.

Section Back.
Context (pt : PageTable) (fl : PTEFlags) (Hfl : user_flags fl).
Let root := root_ppn pt.

Lemma back_page_spec v s : as_inv root s → vpn_ok v → kernel_view v = None →
  cur s + 3 * 4096 ≤ page_end (mm_pages s) →
  wp (back_page pt (v * 4096) fl) s (λ _ s',
    if decide (view (mm_mem s) root v = None)
    then fresh_page root s s' v fl ∧ page_is root s' v fl (λ _, 0)
    else s' = s).
Proof.
  intros Hs Hv Hk Hfit. unfold back_page. apply wp_bind.
  eapply wp_of_run; [apply translate_run, Hs|]. rewrite Z.div_mul by lia. fold root.
  destruct (view (mm_mem s) root v) as [e|] eqn:He; [by apply wp_ret; rewrite decide_False|].
  destruct (wp_run _ _ _ (alloc_map_page pt (v * 4096) fl v s eq_refl Hv Hfl Hs Hk He Hfit))
    as (o & s' & E & _ & Hf & Hp & _).
  revert E. unfold wp, alloc_map, try_opt, bind. destruct (alloc_page s) as [[[pa|] s1]| | |]; try done.
  - destruct (map pt (v * 4096) pa fl s1) as [[[] s2]| | |]; try done. intros [= _ <-]. cbv beta iota. by rewrite decide_True.
  - intros [= _ <-]. unfold ret. by rewrite decide_True.
Qed.

Lemma backed_step s0 s s' v0 v : as_inv root s0 → backed root s0 s v0 v fl → v0 ≤ v → 0 ≤ v0 → vpn_ok v →
  (if decide (view (mm_mem s) root v = None)
   then fresh_page root s s' v fl ∧ page_is root s' v fl (λ _, 0) else s' = s) →
  backed root s0 s' v0 (v + 1) fl.
Proof.
  intros Hs0 Hb Hle H0 Hv Hstep. pose proof Hb as [He Hc Hn Ho]. case_decide as Hnone.
  - destruct Hstep as [Hf Hp]. pose proof (fp_cur _ _ _ _ _ Hf) as Hcur.
    pose proof (fp_ext _ _ _ _ _ Hf) as Hext. split.
    + by eapply as_ext_trans.
    + lia.
    + intros w Hw Hw0. destruct (decide (w = v)) as [->|Hne]; [done|].
      apply (page_is_ext root s); [apply He|done|unfold vpn_ok in *; lia|]. apply Hn; [lia|done].
    + intros w Hw Hout. rewrite (fp_view _ _ _ _ _ Hf), decide_False by (done || lia). apply Ho; [done|lia].
  - subst s'. split; [done|lia| |].
    + intros w Hw Hw0. destruct (decide (w = v)) as [->|Hne]; [|apply Hn; [lia|done]].
      exfalso. apply Hnone. rewrite Ho; [done|done|lia].
    + intros w Hw Hout. apply Ho; [done|lia].
Qed.

(** The loop over the pages of [base + lo <= a < base + hi]. *)
Lemma back_pages_spec (g : Z → Z) base lo hi s : as_inv root s →
  0 ≤ base + lo → lo ≤ hi → base + hi ≤ 2 ^ 38 → base mod 4096 = 0 → lo mod 4096 = 0 → hi mod 4096 = 0 →
  (∀ a, lo ≤ a < hi → g a = base + a) →
  let v0 := (base + lo) / 4096 in let v1 := (base + hi) / 4096 in
  (∀ w, v0 ≤ w < v1 → kernel_view w = None) →
  cur s + 3 * 4096 * (v1 - v0) ≤ page_end (mm_pages s) →
  wp (mfor (range_step lo hi 0x1000) (λ a, back_page pt (g a) fl)) s (λ _ s', backed root s s' v0 v1 fl).
Proof.
  intros Hs Hlo Hle Hhi Hb Hml Hmh Hg v0 v1 Hk Hfit.
  apply (wp_mfor_range (λ a s', backed root s s' v0 ((base + a) / 4096) fl)); [lia|lia|dlia|by apply backed_refl|].
  intros a s1 Ha Ham Hbk. assert (a mod 4096 = 0) as Ha0 by dlia.
  pose proof Hbk as [He Hc _ _]. rewrite Hg by lia.
  replace (base + a) with ((base + a) / 4096 * 4096) at 1 by dlia.
  assert (v0 ≤ (base + a) / 4096 < v1) as Hrange by (unfold v0, v1; dlia).
  assert (vpn_ok ((base + a) / 4096)) as Hv by (unfold vpn_ok; dlia).
  eapply wp_mono.
  { apply back_page_spec; [apply He|done|by apply Hk|]. rewrite (ext_end _ _ _ He). lia. }
  intros [] s2 Hstep. cbv beta. replace ((base + (a + 4096)) / 4096) with ((base + a) / 4096 + 1) by dlia.
  eapply backed_step; try done; [lia|unfold v0; dlia].
Qed.
End Back.

(** ** What the user sees of it *)

(** Mapped user pages keep their contents. *)
Lemma backed_keeps root s0 s v0 v fl a : as_inv root s0 → backed root s0 s v0 v fl → 0 ≤ a < 2 ^ 38 →
  is_Some (user_entry (mm_mem s0) root (a / 4096)) → ubyte (mm_mem s) root a = ubyte (mm_mem s0) root a.
Proof.
  intros Hs Hb Ha [e He]. pose proof (user_vpn a Ha) as Hv. unfold ubyte. rewrite He.
  rewrite (as_ext_user _ _ _ _ _ (bk_ext _ _ _ _ _ _ Hb) Hv He).
  apply (as_ext_page root s0 s (a / 4096)); [done|apply Hb|done|done|dlia].
Qed.

Lemma page_up_spec a : 0 ≤ a < 2 ^ 63 → page_up a = (a + 4095) / 4096 * 4096.
Proof.
  intros Ha. unfold page_up. rewrite wrap64_small by (unfold in_usize; lia).
  change 0xfff with (2 ^ 12 - 1) at 2. rewrite land_not64 by (unfold in_usize; lia). change (2 ^ 12) with 4096. dlia.
Qed.

Section MemSpec.
Context {NS : Type} `{NetStack NS}.
Implicit Types k : kernel NS.
Abbreviation kmem k := (mm_mem (k_mm k)).
Abbreviation kroot k := (satp_root (k_satp k)).

(** C21: [brk]. Growing or shrinking the heap to [addr] returns [addr] and makes
    it the new break; every page between the old and the new break that was
    not mapped is now zeroed, readable and writable memory of the process, and
    the pages that were mapped keep their frames and contents. *)
Theorem brk_backs_pages addr p k : cur_proc k = Some p →
  let root := root_ppn (p_page_table p) in let s := k_mm k in as_inv root s →
  0 < p_brk p < 2 ^ 38 → 0 < addr ≤ 2 ^ 38 - 4096 →
  let v0 := (p_brk p + 4095) / 4096 in let v1 := Z.max v0 ((addr + 4095) / 4096) in
  (∀ w, v0 ≤ w < v1 → kernel_view w = None) → cur s + 3 * 4096 * (v1 - v0) ≤ page_end (mm_pages s) →
  wp (sys_brk addr) k (λ r k', r = addr ∧ k_procs k' = <[k_current k := sp_brk addr p]> (k_procs k) ∧
    as_inv root (k_mm k') ∧
    (∀ a, v0 * 4096 ≤ a < v1 * 4096 → view (kmem k) root (a / 4096) = None →
       user_ok (kmem k') root AWrite a ∧ ubyte (kmem k') root a = 0) ∧
    (∀ w, vpn_ok w → ¬ (v0 ≤ w < v1) → view (kmem k') root w = view (kmem k) root w) ∧
    (∀ a, 0 ≤ a < 2 ^ 38 → is_Some (user_entry (kmem k) root (a / 4096)) →
       ubyte (kmem k') root a = ubyte (kmem k) root a)).
Proof.
  intros Hp root s Hs Hbrk Haddr v0 v1 Hk Hfit.
  assert (v1 * 4096 ≤ 2 ^ 38 ∧ 0 ≤ v0) as [Hv1 Hv0] by (unfold v1, v0; dlia).
  assert (∀ s', backed root s s' v0 v1 stack_flags →
    as_inv root s' ∧
    (∀ a, v0 * 4096 ≤ a < v1 * 4096 → view (mm_mem s) root (a / 4096) = None →
       user_ok (mm_mem s') root AWrite a ∧ ubyte (mm_mem s') root a = 0) ∧
    (∀ w, vpn_ok w → ¬ (v0 ≤ w < v1) → view (mm_mem s') root w = view (mm_mem s) root w) ∧
    (∀ a, 0 ≤ a < 2 ^ 38 → is_Some (user_entry (mm_mem s) root (a / 4096)) →
       ubyte (mm_mem s') root a = ubyte (mm_mem s) root a)) as Hfinal.
  { intros s' Hb. split_and!; [apply Hb| |apply Hb|by intros; eapply backed_keeps].
    intros a Ha Hnone. assert (page_is root s' (a / 4096) stack_flags (λ _, 0)) as Hpg by (apply Hb; [dlia|done]).
    split; [eapply page_is_ok; [exact Hpg|done|lia|set_solver]|exact (page_is_ubyte _ _ _ _ _ a Hpg eq_refl)]. }
  unfold sys_brk, with_current_proc. apply wp_bind, wp_bind, wp_gets. cbn [id]. rewrite Hp.
  rewrite (proj2 (Z.eqb_neq (p_brk p) 0)) by lia. rewrite (proj2 (Z.eqb_neq addr 0)) by lia.
  apply wp_bind, wp_bind. rewrite !page_up_spec by lia. change (p_page_table (sp_brk (p_brk p) p)) with (p_page_table p).
  destruct (Z.ltb_spec (p_brk p) addr) as [Hlt|Hge].
  - apply wp_on_mm. eapply wp_mono.
    { apply (back_pages_spec (p_page_table p) stack_flags stack_flags_user (λ a, a) 0 (v0 * 4096) ((addr + 4095) / 4096 * 4096));
        fold root s; rewrite ?Z.add_0_l, ?Z.div_mul by lia; try done; try (unfold v0 in *; dlia).
      intros w Hw. apply Hk. lia. }
    fold root s. rewrite !Z.add_0_l, !Z.div_mul by lia. intros [] s' Hb.
    apply wp_ret, wp_bind, wp_modify, wp_ret, wp_ret. cbn [default fst snd].
    split; [by rewrite isize_small by lia|]. split; [done|]. apply Hfinal.
    assert ((addr + 4095) / 4096 = v1) as <- by (unfold v1, v0; dlia). done.
  - apply wp_ret, wp_ret, wp_bind, wp_modify, wp_ret, wp_ret. cbn [default fst snd].
    split; [by rewrite isize_small by lia|]. split; [done|]. apply Hfinal.
    assert (v1 = v0) as -> by (unfold v1, v0; dlia). by apply backed_refl.
Qed.

(** *** [mmap] *)

Lemma mmap_flags_bits prot : mmap_flags prot =
  let fl := if Z.testbit prot 0 then PTE_U |f PTE_R else PTE_U in
  let fl := if Z.testbit prot 1 then fl |f PTE_W else fl in
  if Z.testbit prot 2 then fl |f PTE_X else fl.
Proof.
  unfold mmap_flags. pose proof (land_bit prot 0 ltac:(lia)) as H0. pose proof (land_bit prot 1 ltac:(lia)) as H1.
  pose proof (land_bit prot 2 ltac:(lia)) as H2. change (2 ^ 0) with 1 in H0. change (2 ^ 1) with 2 in H1.
  change (2 ^ 2) with 4 in H2. rewrite H0, H1, H2, !negb_involutive. done.
Qed.

Lemma mmap_user_flags prot : user_flags (mmap_flags prot).
Proof. rewrite mmap_flags_bits. by destruct (Z.testbit prot 0), (Z.testbit prot 1), (Z.testbit prot 2). Qed.

Lemma mmap_flags_rw prot : Z.testbit prot 0 = true → Z.testbit prot 1 = true →
  mmap_flags prot ∈ [PTE_U |f PTE_R |f PTE_W; PTE_U |f PTE_R |f PTE_W |f PTE_X].
Proof. rewrite mmap_flags_bits. intros -> ->. destruct (Z.testbit prot 2); set_solver. Qed.

Lemma mmap_flags_ro prot e : Z.testbit prot 1 = false →
  pte_flags e = mmap_flags prot |f PTE_V |f PTE_A |f PTE_D → perm_ok AWrite e = false.
Proof.
  rewrite mmap_flags_bits. intros -> He. unfold perm_ok. rewrite He.
  by destruct (Z.testbit prot 0), (Z.testbit prot 2).
Qed.

(** Where the next mapping goes. *)
Definition mmap_next k : Z := if k_mmap_base k =? 0 then 0x50000000 else k_mmap_base k.

(** The call up to the zeroing of the new range. *)
Lemma sys_mmap_prefix addr len prot flags fd off p k : cur_proc k = Some p →
  let root := root_ppn (p_page_table p) in let s := k_mm k in as_inv root s →
  let base := mmap_next k in let n := (len + 4095) / 4096 in
  0 ≤ base → base mod 4096 = 0 → 0 ≤ len < 2 ^ 38 → base + n * 4096 ≤ 2 ^ 38 →
  Z.testbit flags 4 = false → Z.testbit flags 5 = true →
  (∀ w, base / 4096 ≤ w < base / 4096 + n → kernel_view w = None) →
  cur s + 3 * 4096 * n ≤ page_end (mm_pages s) →
  ∃ s1, backed root s s1 (base / 4096) (base / 4096 + n) (mmap_flags prot) ∧
    sys_mmap addr len prot flags fd off k =
      (do! st_bytes base (replicate (Z.to_nat (n * 4096)) 0) in ret (as_isize base))
        (sk_mm s1 (sk_mmap_base (base + n * 4096) k)).
Proof.
  intros Hp root s Hs base n Hb Hbm Hlen Hend Hfix Hanon Hk Hfit. assert (0 ≤ n) as Hn by (unfold n; dlia).
  destruct (wp_run _ _ _ (back_pages_spec (p_page_table p) (mmap_flags prot) (mmap_user_flags prot)
    (λ a, wrap64 (base + a)) base 0 (n * 4096) s Hs ltac:(lia) ltac:(unfold n; dlia) Hend Hbm eq_refl ltac:(dlia)
    ltac:(intros; cbv beta; rewrite wrap64_small; [done|unfold in_usize; lia])
    ltac:(intros w Hw; apply Hk; dlia) ltac:(fold s; dlia))) as ([] & s1 & E & Hbk).
  exists s1. split.
  { replace (base / 4096 + n) with ((base + n * 4096) / 4096) by dlia. by rewrite Z.add_0_r in Hbk. }
  pose proof (land_bit flags 4 ltac:(lia)) as H4. pose proof (land_bit flags 5 ltac:(lia)) as H5.
  change (2 ^ 4) with 0x10 in H4. change (2 ^ 5) with 0x20 in H5. rewrite Hfix in H4. rewrite Hanon in H5.
  unfold sys_mmap, gets, modify. unfold bind at 1. fold (mmap_next k) base. unfold bind at 1.
  rewrite H4. cbn [negb]. rewrite page_up_spec by lia. fold n. unfold bind at 1.
  rewrite (wrap64_small (base + n * 4096)) by (unfold in_usize; lia). rewrite H5. cbn [negb andb].
  set (k0 := sk_mmap_base (base + n * 4096) (sk_mmap_base base k)).
  assert (with_current_proc (λ proc, do! on_mm (mfor (range_step 0 (n * 4096) 0x1000)
      (λ page, back_page (p_page_table proc) (base +w page) (mmap_flags prot))) in ret (tt, proc)) k0 =
    Ret (Some tt, set_proc (k_current k0) p (sk_mm s1 k0))) as Hrun.
  { eapply with_current_proc_run; [exact Hp|]. unfold bind, on_mm, zoom. change (k_mm k0) with s. by rewrite E. }
  rewrite (bind_run _ _ _ _ _ Hrun).
  assert (set_proc (k_current k0) p (sk_mm s1 k0) = sk_mm s1 (sk_mmap_base (base + n * 4096) k)) as ->; [|done].
  unfold set_proc, k0. cbn [k_current k_procs sk_mm sk_mmap_base]. unfold cur_proc in Hp.
  rewrite insert_id by done. by destruct k.
Qed.

(** C20: an anonymous mapping. [mmap] without MAP_FIXED returns the next free
    address and moves it past the mapping; the whole range, rounded up to
    pages, is zeroed memory that the process can write, and no other page of
    the address space changes its mapping or its contents. *)
Theorem mmap_anonymous addr len prot flags fd off p k : cur_proc k = Some p →
  let root := root_ppn (p_page_table p) in let s := k_mm k in
  as_inv root s → kroot k = root →
  let base := mmap_next k in let n := (len + 4095) / 4096 in
  0 ≤ base → base mod 4096 = 0 → 0 ≤ len < 2 ^ 38 → base + n * 4096 ≤ 2 ^ 38 →
  Z.testbit flags 4 = false → Z.testbit flags 5 = true → Z.testbit prot 0 = true → Z.testbit prot 1 = true →
  (∀ w, base / 4096 ≤ w < base / 4096 + n → kernel_view w = None ∧ view (kmem k) root w = None) →
  cur s + 3 * 4096 * n ≤ page_end (mm_pages s) →
  wp (sys_mmap addr len prot flags fd off) k (λ r k', r = base ∧ k_mmap_base k' = base + n * 4096 ∧
    k_procs k' = k_procs k ∧ as_inv root (k_mm k') ∧
    (∀ a, base ≤ a < base + n * 4096 → user_ok (kmem k') root AWrite a ∧ ubyte (kmem k') root a = 0) ∧
    (∀ w, vpn_ok w → ¬ (base / 4096 ≤ w < base / 4096 + n) → view (kmem k') root w = view (kmem k) root w) ∧
    (∀ a, 0 ≤ a < 2 ^ 38 → is_Some (user_entry (kmem k) root (a / 4096)) →
       ubyte (kmem k') root a = ubyte (kmem k) root a)).
Proof.
  intros Hp root s Hs Hroot base n Hb Hbm Hlen Hend Hfix Hanon Hr Hw Hk Hfit.
  destruct (sys_mmap_prefix addr len prot flags fd off p k Hp Hs Hb Hbm Hlen Hend Hfix Hanon
    (λ w Hw, proj1 (Hk w Hw)) Hfit) as (s1 & Hbk & E). fold root s base n in Hbk, E.
  assert (0 ≤ n) as Hn by (unfold n; dlia).
  assert (∀ a, base ≤ a < base + n * 4096 → page_is root s1 (a / 4096) (mmap_flags prot) (λ _, 0)) as Hpg.
  { intros a Ha. apply Hbk; [dlia|]. apply Hk. dlia. }
  unfold wp. rewrite E. set (k1 := sk_mm s1 (sk_mmap_base (base + n * 4096) k)).
  assert (kroot k1 = root) as Hr1 by exact Hroot. change (k_mm k1) with s1.
  apply wp_bind, wp_st_bytes; rewrite ?Hr1, ?length_replicate.
  - apply Hbk.
  - apply Forall_replicate. lia.
  - intros a Ha. rewrite Z2Nat.id in Ha by lia.
    eapply page_is_ok; [by apply Hpg|done|lia|by apply mmap_flags_rw].
  - intros m' Hst. apply wp_ret. split; [by rewrite isize_small by lia|]. split; [done|]. split; [done|].
    change (k_mm (sk_mm (set_mem m' (k_mm k1)) k1)) with (set_mem m' s1). cbn [mm_mem set_mem].
    change (k_mm k1) with s1 in Hst. split; [apply Hst|].
    assert (∀ a, 0 ≤ a < 2 ^ 38 → user_entry m' root (a / 4096) = user_entry (mm_mem s1) root (a / 4096)) as Hue.
    { intros a _. unfold user_entry. by rewrite (st_view _ _ _ _ _ Hst). }
    split; [|split].
    + intros a Ha. assert (user_ok (mm_mem s1) root AWrite a) as (Ha' & e & He & Hpe)
        by (eapply page_is_ok; [by apply Hpg|done|lia|by apply mmap_flags_rw]).
      split; [split; [done|]; exists e; by rewrite Hue|].
      rewrite (st_byte _ _ _ _ _ Hst) by eauto. rewrite decide_True by lia.
      rewrite lookup_replicate_2 by lia. done.
    + intros w Hwk Hout. rewrite (st_view _ _ _ _ _ Hst). by apply Hbk.
    + intros a Ha [e He]. pose proof (as_ext_user _ _ _ _ _ (bk_ext _ _ _ _ _ _ Hbk) (user_vpn a Ha) He) as He1.
      rewrite (st_byte _ _ _ _ _ Hst) by eauto.
      assert (¬ (base ≤ a < base + n * 4096)) as Hout.
      { intros Hin. apply user_entry_view in He. rewrite (proj2 (Hk (a / 4096) ltac:(dlia))) in He. done. }
      case_decide; [rewrite (lookup_ge_None_2 (replicate _ _)) by (rewrite length_replicate; lia)|];
        eapply backed_keeps; eauto.
Qed.

(** C38: a read-only anonymous mapping stops the machine. [sys_mmap] clears the
    new range through the user's addresses after mapping it with the requested
    permissions; without PROT_WRITE the first store faults in supervisor mode,
    and the trap handler answers such a fault with an endless loop. *)
Theorem mmap_readonly_hangs addr len prot flags fd off p k : cur_proc k = Some p →
  let root := root_ppn (p_page_table p) in let s := k_mm k in
  as_inv root s → kroot k = root →
  let base := mmap_next k in let n := (len + 4095) / 4096 in
  0 ≤ base → base mod 4096 = 0 → 0 < len < 2 ^ 38 → base + n * 4096 ≤ 2 ^ 38 →
  Z.testbit flags 4 = false → Z.testbit flags 5 = true → Z.testbit prot 1 = false →
  (∀ w, base / 4096 ≤ w < base / 4096 + n → kernel_view w = None ∧ view (kmem k) root w = None) →
  cur s + 3 * 4096 * n ≤ page_end (mm_pages s) →
  sys_mmap addr len prot flags fd off k = Hang.
Proof.
  intros Hp root s Hs Hroot base n Hb Hbm Hlen Hend Hfix Hanon Hw Hk Hfit.
  assert (1 ≤ n) as Hn by (unfold n; dlia).
  destruct (sys_mmap_prefix addr len prot flags fd off p k Hp Hs Hb Hbm ltac:(lia) Hend Hfix Hanon
    (λ w Hw, proj1 (Hk w Hw)) Hfit) as (s1 & Hbk & E). fold root s base n in Hbk, E. rewrite E.
  destruct (bk_new _ _ _ _ _ _ Hbk (base / 4096)) as (e & He & Hf & _); [dlia|apply Hk; dlia|].
  replace (Z.to_nat (n * 4096)) with (S (Z.to_nat (n * 4096 - 1))) by lia. cbn [replicate]. unfold bind.
  rewrite st_bytes_fault; [done|].
  change (kroot (sk_mm s1 (sk_mmap_base (base + n * 4096) k))) with (kroot k). rewrite Hroot.
  change (kmem (sk_mm s1 (sk_mmap_base (base + n * 4096) k))) with (mm_mem s1).
  unfold mmu. rewrite (user_entry_view _ _ _ _ He), (mmap_flags_ro prot e) by done. by destruct (canonical base).
Qed.
End MemSpec.

(** ** Examples *)

(** The space of [demo_kernel] and the pages above its only user page. *)
Lemma demo_room : ∃ s, as_inv (root_ppn table0) s ∧ cur s + 150 * 4096 ≤ page_end (mm_pages s) ∧
  ∀ w, 0x11 ≤ w < 0x13 ∨ 0x50000 ≤ w < 0x50002 →
    kernel_view w = None ∧ view (mm_mem s) (root_ppn table0) w = None.
Proof.
  destruct demo_space as (s & Hs & Hfit & _ & _ & Hnone). exists s. split; [done|]. split; [done|]. intros w Hw. split.
  - unfold kernel_view. by rewrite !decide_False by lia.
  - apply Hnone; [unfold vpn_ok; lia|lia].
Qed.

Lemma brk_backs_pages_witness : ∃ s,
  let p := sp_brk 0x11000 demo_process in let k := set_proc 1 p (demo_kernel s) in let root := root_ppn table0 in
  wp (sys_brk 0x12800) k (λ r k', r = 0x12800 ∧ k_procs k' = <[1 := sp_brk 0x12800 p]> (k_procs k) ∧
    as_inv root (k_mm k') ∧
    (∀ a, 0x11 * 4096 ≤ a < 0x13 * 4096 → view (mm_mem s) root (a / 4096) = None →
       user_ok (mm_mem (k_mm k')) root AWrite a ∧ ubyte (mm_mem (k_mm k')) root a = 0) ∧
    (∀ w, vpn_ok w → ¬ (0x11 ≤ w < 0x13) → view (mm_mem (k_mm k')) root w = view (mm_mem s) root w) ∧
    (∀ a, 0 ≤ a < 2 ^ 38 → is_Some (user_entry (mm_mem s) root (a / 4096)) →
       ubyte (mm_mem (k_mm k')) root a = ubyte (mm_mem s) root a)).
Proof.
  destruct demo_room as (s & Hs & Hfit & Hfree). exists s.
  apply (brk_backs_pages 0x12800 (sp_brk 0x11000 demo_process) (set_proc 1 (sp_brk 0x11000 demo_process) (demo_kernel s))).
  - reflexivity.
  - exact Hs.
  - done.
  - done.
  - intros w Hw. apply Hfree. left. exact Hw.
  - change (cur s + 3 * 4096 * 2 ≤ page_end (mm_pages s)). lia.
Defined.

Lemma mmap_anonymous_witness : ∃ s, let k := demo_kernel s in let root := root_ppn table0 in
  wp (sys_mmap 0 5000 3 0x22 (-1) 0) k (λ r k', r = 0x50000000 ∧ k_mmap_base k' = 0x50000000 + 2 * 4096 ∧
    k_procs k' = k_procs k ∧ as_inv root (k_mm k') ∧
    (∀ a, 0x50000000 ≤ a < 0x50000000 + 2 * 4096 →
       user_ok (mm_mem (k_mm k')) root AWrite a ∧ ubyte (mm_mem (k_mm k')) root a = 0) ∧
    (∀ w, vpn_ok w → ¬ (0x50000 ≤ w < 0x50000 + 2) → view (mm_mem (k_mm k')) root w = view (mm_mem s) root w) ∧
    (∀ a, 0 ≤ a < 2 ^ 38 → is_Some (user_entry (mm_mem s) root (a / 4096)) →
       ubyte (mm_mem (k_mm k')) root a = ubyte (mm_mem s) root a)).
Proof.
  destruct demo_room as (s & Hs & Hfit & Hfree). exists s.
  apply (mmap_anonymous 0 5000 3 0x22 (-1) 0 demo_process (demo_kernel s)); try done.
  - intros w Hw. apply Hfree. right. exact Hw.
  - change (cur s + 3 * 4096 * 2 ≤ page_end (mm_pages s)). lia.
Defined.

Lemma mmap_readonly_hangs_witness : ∃ s, sys_mmap 0 5000 1 0x22 (-1) 0 (demo_kernel s) = Hang.
Proof.
  destruct demo_room as (s & Hs & Hfit & Hfree). exists s.
  apply (mmap_readonly_hangs 0 5000 1 0x22 (-1) 0 demo_process (demo_kernel s)); try done.
  - intros w Hw. apply Hfree. right. exact Hw.
  - change (cur s + 3 * 4096 * 2 ≤ page_end (mm_pages s)). lia.
Defined.
