(* ===== verification/Dispatch.v ===== *)
(** * Socket system calls, [dispatch] and the trap handler

    The rest of [syscall.rs] and [rust_trap_handler] of [trap.rs]. *)

From stdpp Require Import pretty.
From S2P Require Import Prelude Machine Alloc PageTable AddrSpace UserMem Pipe FdTable Fs Loader Net NetSpec Kernel Proc Sched SysFile SysProc.

Open Scope string_scope.
Open Scope list_scope.
Open Scope Z_scope.

Section Dispatch.
Context {NS : Type} `{NetStack NS}.
Context (elf_new : list Z → option ElfFile).
Abbreviation K := (M (kernel NS)).

(** ** Descriptors from [FAKE_FD_NEXT] *)

Definition next_fake_fd : K Z :=
  let! fd := gets k_fake_next in
  do! modify (sk_fake_next (fd +w 1)) in
  ret fd.
Definition add_fake (fd : Z) (t : FakeFdType) : K unit := modify (λ k, sk_fake (<[fd := t]> (k_fake k)) k).

Definition sys_eventfd2 (_initval _flags : Z) : K Z :=
  let! fd := next_fake_fd in do! add_fake fd EventFd in ret (as_isize fd).
Definition sys_epoll_create1 (_flags : Z) : K Z :=
  let! fd := next_fake_fd in do! add_fake fd Epoll in ret (as_isize fd).

Definition sys_epoll_ctl (_epfd _op fd event : Z) : K Z :=
  let! inet := is_inet_socket (as_usize fd) in
  let! fake := is_fake_fd (as_usize fd) in
  do! (if (inet || fake) && negb (event =? 0) then
         let! d := ldw 8 (event +w 8) in
         on_net (set_epoll_data (as_usize fd) d)
       else ret tt) in
  ret 0.

(** The records [get_epoll_events] stores from [events] on. *)
Fixpoint store_events (events : Z) (l : list (Z * Z)) : K unit :=
  match l with
  | [] => ret tt
  | (revents, d) :: l' =>
      do! stw 4 events revents in
      do! stw 8 (events +w 8) d in
      store_events (events +w 16) l'
  end.

(** One turn of the busy-wait loop. *)
Definition epoll_turn (events maxevents timeout : Z) (deadline : option Z) (_ : unit) : K (unit + Z) :=
  let! l := on_net (get_epoll_events maxevents) in
  do! store_events events l in
  let n := Z.of_nat (length l) in
  if 0 <? n then ret (inr (as_isize n))
  else if timeout =? 0 then ret (inr 0)
  else
    match deadline with
    | Some dl =>
        let! now := on_net get_time_ms in
        ret (if dl <=? now then inr 0 else inl tt)
    | None => ret (inl tt)
    end.

Definition sys_epoll_pwait (_epfd events maxevents timeout _sigmask _sigsetsize : Z) : K Z :=
  let! start_ms := on_net get_time_ms in
  let deadline := if 0 <? timeout then Some (as_isize (as_usize (start_ms + timeout))) else None in
  mloop (2 ^ 64)%positive (epoll_turn events maxevents timeout deadline) tt.

(** ** Sockets *)

Definition nscd_new : NscdState := {|
  nscd_phase := PhHeader; nscd_header := replicate 36 0; nscd_data := []; nscd_offset := 0
|}.

Definition sys_socket (domain _ty _protocol : Z) : K Z :=
  let! fd := next_fake_fd in
  if domain =? 1 then do! add_fake fd (Nscd nscd_new) in ret (as_isize fd)
  else if domain =? 2 then do! add_fake fd InetSocket in ret (as_isize fd)
  else ret (-1).

Definition sys_socketpair (_domain _ty _protocol sv : Z) : K Z :=
  let! fd1 := next_fake_fd in
  let! fd2 := next_fake_fd in
  do! add_fake fd1 InetSocket in
  do! add_fake fd2 InetSocket in
  do! stw 4 sv (u32 fd1) in
  do! stw 4 (sv +w 4) (u32 fd2) in
  ret 0.

(** [if is_fake_fd(fd) { 0 } else { -1 }], the body of five calls. *)
Definition fake_only (fd : Z) : K Z :=
  let! fake := is_fake_fd (as_usize fd) in ret (if fake then 0 else -1).

Definition sys_bind (fd _addr _len : Z) : K Z := fake_only fd.
Definition sys_connect (fd _addr _len : Z) : K Z := fake_only fd.
Definition sys_setsockopt (fd _level _optname _optval _optlen : Z) : K Z := fake_only fd.
Definition sys_getsockopt (fd _level _optname _optval _optlen : Z) : K Z := fake_only fd.
Definition sys_shutdown (fd _how : Z) : K Z := fake_only fd.
Definition sys_getsockname (_fd _addr _addrlen : Z) : K Z := ret (-1).
Definition sys_getpeername (_fd _addr _addrlen : Z) : K Z := ret (-1).

Definition sys_listen (fd _backlog : Z) : K Z :=
  let! inet := is_inet_socket (as_usize fd) in
  if inet then do! on_net (bind_listen_fd (as_usize fd)) in ret 0
  else fake_only fd.

Definition sys_accept (fd addr addrlen : Z) : K Z :=
  let! inet := is_inet_socket (as_usize fd) in
  if inet then
    let! o := on_net (accept_connection (as_usize fd)) in
    match o with
    | Some handle =>
        let! new_fd := next_fake_fd in
        do! add_fake new_fd InetSocket in
        do! on_net (add_fd_handle new_fd handle) in
        do! (if negb (addr =? 0) then
               do! stw 2 addr 2 in
               do! stw 2 (addr +w 2) 0x5000 in
               do! st_bytes (addr +w 4) (replicate 4 0) in
               st_bytes (addr +w 8) (replicate 8 0)
             else ret tt) in
        do! (if negb (addrlen =? 0) then stw 4 addrlen 16 else ret tt) in
        ret (as_isize new_fd)
    | None => ret (-11)
    end
  else
    let! fake := is_fake_fd (as_usize fd) in
    if fake then
      let! new_fd := next_fake_fd in
      do! add_fake new_fd InetSocket in
      ret (as_isize new_fd)
    else ret (-1).

Definition sys_accept4 (fd addr addrlen _flags : Z) : K Z := sys_accept fd addr addrlen.

(** The reply the fake name-service daemon gives to every request. *)
Definition nscd_reply : list Z :=
  let name := bytes_of "root" ++ [0] in
  let passwd := bytes_of "x" ++ [0] in
  let gecos := bytes_of "root" ++ [0] in
  let dir := bytes_of "/root" ++ [0] in
  let shell := bytes_of "/bin/sh" ++ [0] in
  let len l := Z.of_nat (length l) in
  mjoin (le_bytes 4 <$> [2; 1; len name; len passwd; 0; 0; len gecos; len dir; len shell]) ++
  name ++ passwd ++ gecos ++ dir ++ shell.

Definition sys_sendto (fd buf len _flags _addr _addrlen : Z) : K Z :=
  let! fake := gets (λ k, k_fake k !! as_usize fd) in
  match fake with
  | Some (Nscd st) =>
      do! vec_new len in
      let! _ := ld_bytes buf (Z.to_nat len) in
      do! add_fake (as_usize fd) (Nscd {| nscd_phase := PhData; nscd_header := nscd_header st;
                                          nscd_data := nscd_reply; nscd_offset := 0 |}) in
      ret (as_isize len)
  | Some InetSocket =>
      let! slice := ld_bytes buf (Z.to_nat len) in
      on_net (send_to_fd (as_usize fd) slice)
  | _ => ret (-1)
  end.

Definition sys_recvfrom (fd buf len _flags _addr _addrlen : Z) : K Z := sys_read fd buf len.

Definition sys_recvmsg (fd msg _flags : Z) : K Z :=
  let! fake := gets (λ k, k_fake k !! as_usize fd) in
  match fake with
  | Some (Nscd st) =>
      let! iov_ptr := ldw 8 (msg +w 16) in
      let! iov_len := ldw 8 (msg +w 24) in
      if (0 <? iov_len) && negb (iov_ptr =? 0) then
        let! base := ldw 8 iov_ptr in
        let! len := ldw 8 (iov_ptr +w 8) in
        let n := Z.min (saturating_sub (Z.of_nat (length (nscd_data st))) (nscd_offset st)) len in
        do! (if (0 <? n) && negb (base =? 0) then
               do! st_bytes base (take (Z.to_nat n) (drop (Z.to_nat (nscd_offset st)) (nscd_data st))) in
               add_fake (as_usize fd) (Nscd (nscd_set (nscd_offset st + n) st))
             else ret tt) in
        ret (as_isize n)
      else ret (-1)
  | _ => ret (-1)
  end.

(** ** Calls that do nothing *)

Definition sys_munmap (_addr _len : Z) : K Z := ret 0.
Definition sys_mprotect (_addr _len _prot : Z) : K Z := ret 0.
Definition sys_madvise (_addr _len _advice : Z) : K Z := ret 0.
Definition sys_setgid (_gid : Z) : K Z := ret 0.
Definition sys_setuid (_uid : Z) : K Z := ret 0.
Definition sys_setgroups (_size _list : Z) : K Z := ret 0.
Definition sys_setpgid (_pid _pgid : Z) : K Z := ret 0.
Definition sys_getuid : K Z := ret 0.
Definition sys_geteuid : K Z := ret 0.
Definition sys_getgid : K Z := ret 0.
Definition sys_getegid : K Z := ret 0.
Definition sys_rt_sigaction (_sig _act _oldact _sigsetsize : Z) : K Z := ret 0.
Definition sys_rt_sigprocmask (_how _set _oldset _sigsetsize : Z) : K Z := ret 0.
Definition sys_sigaction (_sig _act _oldact : Z) : K Z := ret 0.
Definition sys_prctl (_option _arg2 _arg3 _arg4 _arg5 : Z) : K Z := ret 0.
Definition sys_set_tid_address (_tidptr : Z) : K Z := ret 1.
Definition sys_set_robust_list (_head _len : Z) : K Z := ret 0.
Definition sys_umask (_mask : Z) : K Z := ret 18.
Definition sys_fchownat (_dirfd _path _owner _group _flags : Z) : K Z := ret 0.
Definition sys_sched_setaffinity (_pid _len _mask : Z) : K Z := ret 0.
Definition sys_sched_getaffinity (_pid _len _mask : Z) : K Z := ret 0.

(** ** [dispatch] *)

Definition dispatch (num : Z) (args : list Z) : K Z :=
  let a i := args !!! i in
  let s i := as_isize (args !!! i) in
  match num with
  | 17 => sys_getcwd (a 0%nat) (a 1%nat)
  | 19 => sys_eventfd2 (u32 (a 0%nat)) (s 1%nat)
  | 20 => sys_epoll_create1 (s 0%nat)
  | 21 => sys_epoll_ctl (s 0%nat) (s 1%nat) (s 2%nat) (a 3%nat)
  | 22 => sys_epoll_pwait (s 0%nat) (a 1%nat) (a 2%nat) (s 3%nat) (a 4%nat) (a 5%nat)
  | 23 => sys_dup2 (s 0%nat) (s 1%nat)
  | 24 => sys_dup3 (s 0%nat) (s 1%nat) (s 2%nat)
  | 25 => sys_fcntl (s 0%nat) (s 1%nat) (a 2%nat)
  | 29 => sys_ioctl (s 0%nat) (s 1%nat) (a 2%nat)
  | 34 => sys_mkdirat (s 0%nat) (a 1%nat) (s 2%nat)
  | 48 => sys_faccessat (s 0%nat) (a 1%nat) (s 2%nat) (s 3%nat)
  | 54 => sys_fchownat (s 0%nat) (a 1%nat) (s 2%nat) (s 3%nat) (a 4%nat)
  | 56 => sys_openat (s 0%nat) (a 1%nat) (s 2%nat) (s 3%nat)
  | 57 => sys_close (s 0%nat)
  | 59 => sys_pipe2 (a 0%nat) (s 1%nat)
  | 61 => sys_getdents64 (s 0%nat) (a 1%nat) (a 2%nat)
  | 62 => sys_lseek (s 0%nat) (s 1%nat) (s 2%nat)
  | 71 => sys_sendfile (s 0%nat) (s 1%nat) (a 2%nat) (a 3%nat)
  | 63 => sys_read (s 0%nat) (a 1%nat) (a 2%nat)
  | 64 => sys_write (s 0%nat) (a 1%nat) (a 2%nat)
  | 66 => sys_writev (s 0%nat) (a 1%nat) (a 2%nat)
  | 67 => sys_pread64 (s 0%nat) (a 1%nat) (a 2%nat) (s 3%nat)
  | 68 => sys_pwrite64 (s 0%nat) (a 1%nat) (a 2%nat) (s 3%nat)
  | 73 => sys_ppoll (a 0%nat) (a 1%nat) (a 2%nat) (a 3%nat) (a 4%nat)
  | 78 => sys_readlinkat (s 0%nat) (a 1%nat) (a 2%nat) (a 3%nat)
  | 79 => sys_fstatat (s 0%nat) (a 1%nat) (a 2%nat) (s 3%nat)
  | 80 => sys_fstat (s 0%nat) (a 1%nat)
  | 93 => sys_exit (s 0%nat)
  | 94 => sys_exit (s 0%nat)
  | 96 => sys_set_tid_address (a 0%nat)
  | 99 => sys_set_robust_list (a 0%nat) (a 1%nat)
  | 113 => sys_clock_gettime (s 0%nat) (a 1%nat)
  | 122 => sys_sched_setaffinity (s 0%nat) (a 1%nat) (a 2%nat)
  | 123 => sys_sched_getaffinity (s 0%nat) (a 1%nat) (a 2%nat)
  | 131 => sys_sigaction (s 0%nat) (a 1%nat) (a 2%nat)
  | 134 => sys_rt_sigaction (s 0%nat) (a 1%nat) (a 2%nat) (a 3%nat)
  | 135 => sys_rt_sigprocmask (s 0%nat) (a 1%nat) (a 2%nat) (a 3%nat)
  | 178 => sys_gettid
  | 144 => sys_setgid (s 0%nat)
  | 146 => sys_setuid (s 0%nat)
  | 154 => sys_setpgid (s 0%nat) (s 1%nat)
  | 155 => sys_getpgrp
  | 157 => sys_setsid
  | 159 => sys_setgroups (s 0%nat) (a 1%nat)
  | 160 => sys_uname (a 0%nat)
  | 163 => sys_getrlimit (s 0%nat) (a 1%nat)
  | 166 => sys_umask (s 0%nat)
  | 167 => sys_prctl (s 0%nat) (a 1%nat) (a 2%nat) (a 3%nat) (a 4%nat)
  | 172 => sys_getpid
  | 173 => sys_getppid
  | 174 => sys_getuid
  | 175 => sys_geteuid
  | 176 => sys_getgid
  | 177 => sys_getegid
  | 198 => sys_socket (s 0%nat) (s 1%nat) (s 2%nat)
  | 199 => sys_socketpair (s 0%nat) (s 1%nat) (s 2%nat) (a 3%nat)
  | 200 => sys_bind (s 0%nat) (a 1%nat) (a 2%nat)
  | 201 => sys_listen (s 0%nat) (s 1%nat)
  | 202 => sys_accept (s 0%nat) (a 1%nat) (a 2%nat)
  | 242 => sys_accept4 (s 0%nat) (a 1%nat) (a 2%nat) (s 3%nat)
  | 203 => sys_connect (s 0%nat) (a 1%nat) (a 2%nat)
  | 204 => sys_getsockname (s 0%nat) (a 1%nat) (a 2%nat)
  | 205 => sys_getpeername (s 0%nat) (a 1%nat) (a 2%nat)
  | 206 => sys_sendto (s 0%nat) (a 1%nat) (a 2%nat) (s 3%nat) (a 4%nat) (a 5%nat)
  | 207 => sys_recvfrom (s 0%nat) (a 1%nat) (a 2%nat) (s 3%nat) (a 4%nat) (a 5%nat)
  | 208 => sys_setsockopt (s 0%nat) (s 1%nat) (s 2%nat) (a 3%nat) (a 4%nat)
  | 209 => sys_getsockopt (s 0%nat) (s 1%nat) (s 2%nat) (a 3%nat) (a 4%nat)
  | 210 => sys_shutdown (s 0%nat) (s 1%nat)
  | 212 => sys_recvmsg (s 0%nat) (a 1%nat) (s 2%nat)
  | 214 => sys_brk (a 0%nat)
  | 215 => sys_munmap (a 0%nat) (a 1%nat)
  | 220 => sys_clone (a 0%nat) (a 1%nat) (a 2%nat) (a 3%nat) (a 4%nat)
  | 221 => sys_execve elf_new (a 0%nat) (a 1%nat) (a 2%nat)
  | 222 => sys_mmap (a 0%nat) (a 1%nat) (s 2%nat) (s 3%nat) (s 4%nat) (s 5%nat)
  | 226 => sys_mprotect (a 0%nat) (a 1%nat) (s 2%nat)
  | 233 => sys_madvise (a 0%nat) (a 1%nat) (s 2%nat)
  | 260 => sys_wait4 (s 0%nat) (a 1%nat) (s 2%nat) (a 3%nat)
  | 261 => sys_prlimit64 (s 0%nat) (s 1%nat) (a 2%nat) (a 3%nat)
  | 278 => sys_getrandom (a 0%nat) (a 1%nat) (s 2%nat)
  | 291 => sys_statx (s 0%nat) (a 1%nat) (s 2%nat) (u32 (a 3%nat)) (a 4%nat)
  | _ => do! warn (bytes_of "Unhandled syscall " ++ bytes_of (pretty (Z.to_N num))) in ret (-1)
  end.

(** ** The trap handler *)

(** [rust_trap_handler] with the [scause] register: the frame it leaves. *)
Definition rust_trap_handler (scause : Z) (tf : TrapFrameRaw) : K TrapFrameRaw :=
  let cause := Z.land scause (not64 (Z.shiftl 1 63)) in
  do! modify (λ k, sk_ctf (set_sstatus (sstatus tf) (set_sepc (sepc tf)
                             (set_reg 2 (orig_sp tf) (set_regs (x tf) (k_ctf k))))) k) in
  if (cause =? 8) || (cause =? 9) || (cause =? 10) then
    let num := x tf !!! 17%nat in
    let args := [x tf !!! 10%nat; x tf !!! 11%nat; x tf !!! 12%nat; x tf !!! 13%nat; x tf !!! 14%nat; x tf !!! 15%nat] in
    do! (if num =? 57 then modify (sk_last_tp (x tf !!! 4%nat)) else ret tt) in
    let is_execve := num =? 221 in
    let is_wait4 := num =? 260 in
    let tf := if is_execve then tf else set_raw_sepc (sepc tf +w 4) tf in
    let! r := dispatch num args in
    if is_wait4 && (r =? -11) then
      let tf := set_raw_sepc (sepc tf -w 4) tf in
      let! k := gets id in
      do! match cur_proc k with
          | Some proc => modify (set_proc (k_current k) (sp_state Waiting proc))
          | None => ret tt
          end in
      ret (set_x 10 (as_usize r) tf)
    else if is_execve && (r =? 0) then
      let! ctf := gets k_ctf in
      let tf := set_raw_sepc (tf_sepc ctf) tf in
      let tf := set_orig_sp (tf_regs ctf !!! 2%nat) tf in
      let tf := set_x 10 (tf_regs ctf !!! 10%nat) tf in
      ret (set_x 10 (as_usize r) tf)
    else
      let tf := if is_execve && (r <? 0) then set_raw_sepc (sepc tf +w 4) tf else tf in
      ret (set_x 10 (as_usize r) tf)
  else hang.

(** A trap from user mode: entry, handler, scheduler and the registers that
    [sret] leaves. *)
Definition trap (scause : Z) (c : cpu) : K cpu :=
  let! k := gets id in
  let '(m, sp, _) := trap_entry c (mm_mem (k_mm k)) in
  do! modify (λ k, sk_mm (set_mem m (k_mm k)) k) in
  let! tf := rust_trap_handler scause (rd_raw m sp) in
  do! modify (λ k, sk_mm (set_mem (wr_raw (mm_mem (k_mm k)) sp tf) (k_mm k)) k) in
  let! sp' := do_schedule sp in
  gets (λ k, trap_exit (mm_mem (k_mm k)) sp').
End Dispatch.
