(* ===== verification/EpollSpec.v ===== *)
(** * [epoll_pwait] returns

    The call polls the network in a busy loop. While the clock advances it
    ends: with the sockets that are ready, or when the timeout has passed. *)

From S2P Require Import Prelude Machine Alloc PageTable AddrSpace UserMem Net NetSpec Kernel Access Proc SysSpec Dispatch.

(** ** One poll *)

Section Events.
Context {NS : Type} `{NetLaws NS}.
Implicit Types n : Net NS.

Lemma epoll_scan_length st ed maxevents l : ∀ count n evs n', epoll_scan st ed maxevents count l n = Ret (evs, n') →
  count ≤ maxevents → Z.of_nat (length evs) ≤ maxevents - count.
Proof.
  induction l as [|[fd h] l IH]; intros count n evs n' E Hc; cbn [epoll_scan] in E; [injection E as <- _; cbn; lia|].
  destruct (Z.leb_spec maxevents count); [injection E as <- _; cbn; lia|].
  unfold bind at 1 in E. unfold get_socket, bind, gets, ret in E. destruct (ns_has _ _); [|done].
  destruct (negb _); [|by eapply IH]. destruct (epoll_scan _ _ _ _ _ _) as [[evs1 n1]| | |] eqn:E1; [|done..].
  injection E as <- _. cbn [length]. apply IH in E1; lia.
Qed.

(** The events, at most as many as asked for; the clock has been read. *)
Lemma epoll_events_run n maxevents : net_ok n → 0 ≤ maxevents → ∃ evs n1,
  get_epoll_events maxevents n = Ret (evs, n1) ∧ net_ok n1 ∧ n_clock n1 = n_clock n ∧
  (n_reads n ≤ n_reads n1)%nat ∧ Z.of_nat (length evs) ≤ maxevents.
Proof.
  intros Hok Hm. destruct (poll_run n) as (n1 & Ep & Hst & Hh & _ & _ & Hok1). specialize (Hok1 Hok).
  assert (n_clock n1 = n_clock n ∧ (n_reads n ≤ n_reads n1)%nat) as [Hc Hr].
  { revert Ep. unfold poll_network, gets, bind, get_time_ms, bind, rdtime, ret, modify.
    destruct (n_device n); intros [= <-]; cbn; split; (done || lia). }
  destruct (epoll_scan_run (n_stack n1) (n_epoll n1) maxevents (bt_iter (n_handles n1)) 0 n1 eq_refl) as [evs Es].
  { intros fd h Hin%elem_of_bt_iter. by apply (no_live n1 Hok1 fd). }
  exists evs, n1. split; [|split_and!; try done; apply epoll_scan_length in Es; lia].
  unfold get_epoll_events. rewrite (bind_run _ _ _ _ _ Ep). unfold bind, gets, id. exact Es.
Qed.
End Events.

Section Epoll.
Context {NS : Type} `{NetLaws NS}.
Implicit Types k : kernel NS.

Abbreviation kmem k := (mm_mem (k_mm k)).
Abbreviation kroot k := (satp_root (k_satp k)).

(** The events fit in the user's buffer. *)
Lemma store_events_run l : ∀ events k, as_inv (kroot k) (k_mm k) → 0 ≤ events →
  user_range (kmem k) (kroot k) AWrite events (16 * Z.of_nat (length l)) →
  ∃ m', store_events events l k = Ret (tt, sk_mm (set_mem m' (k_mm k)) k) ∧
    as_inv (kroot k) (set_mem m' (k_mm k)) ∧ ∀ w, view m' (kroot k) w = view (kmem k) (kroot k) w.
Proof.
  induction l as [|[r d] l IH]; intros events k Hi He Hr; cbn [store_events].
  { exists (kmem k). rewrite sk_mm_id. split; [done|]. split; [|done]. by destruct (k_mm k). }
  cbn [length] in Hr. assert (events + 16 ≤ 2 ^ 38) as Hb by (destruct (Hr (events + 15)) as [? _]; lia).
  destruct (stw_run 4 events r k Hi) as (m1 & E1 & Hs1); [intros a Ha; apply Hr; lia|].
  rewrite (bind_run _ _ _ _ _ E1). set (k1 := sk_mm (set_mem m1 (k_mm k)) k).
  rewrite wrap64_small by (unfold in_usize; lia).
  destruct (stw_run 8 (events + 8) d k1) as (m2 & E2 & Hs2); [apply Hs1| |].
  { change (kmem k1) with m1. change (kroot k1) with (kroot k).
    eapply stored_range; [exact Hs1|]. intros a Ha. apply Hr. lia. }
  rewrite (bind_run _ _ _ _ _ E2). set (k2 := sk_mm (set_mem m2 (k_mm k1)) k1).
  rewrite wrap64_small by (unfold in_usize; lia).
  destruct (IH (events + 16) k2) as (m3 & E3 & Hi3 & Hv3); [apply Hs2|lia| |].
  { change (kmem k2) with m2. change (kroot k2) with (kroot k).
    apply (stored_range _ _ _ _ _ _ _ _ Hs2), (stored_range _ _ _ _ _ _ _ _ Hs1). intros a Ha. apply Hr. lia. }
  exists m3. split; [exact E3|]. split; [exact Hi3|]. intros w. rewrite Hv3. change (kmem k2) with m2.
  change (kroot k2) with (kroot k1). rewrite (st_view _ _ _ _ _ Hs2). exact (st_view _ _ _ _ _ Hs1 w).
Qed.

(** The state of the busy loop. *)
Record polling (clock : nat → Z) (events maxevents : Z) k : Prop := {
  pg_net : net_ok (k_net k);
  pg_inv : as_inv (kroot k) (k_mm k);
  pg_buf : user_range (kmem k) (kroot k) AWrite events (16 * maxevents);
  pg_clock : n_clock (k_net k) = clock
}.

(** Ticks left until the deadline, 10000 to the millisecond. *)
Definition ticks_left (clock : nat → Z) (dl : Z) k : Z := Z.max 0 (dl * 10000 - clock (n_reads (k_net k))).

(** The clock advances between two readings. *)
Definition ticking (clock : nat → Z) : Prop := 0 ≤ clock O ∧ ∀ i, clock i < clock (S i).

Lemma ticking_mono clock i j : ticking clock → (i ≤ j)%nat → clock i ≤ clock j.
Proof. intros [_ Ht] Hij. induction Hij as [|j Hij IH]; [lia|]. specialize (Ht j). lia. Qed.

(** What the call may return: the number of ready sockets, or 0 when the
    deadline has passed. *)
Definition epoll_result (clock : nat → Z) (maxevents timeout dl b : Z) k : Prop :=
  0 ≤ b ≤ maxevents ∧ (b = 0 → timeout = 0 ∨ dl ≤ clock (pred (n_reads (k_net k))) / 10000).

Lemma epoll_turn_spec clock events maxevents timeout dl k : ticking clock → 0 ≤ timeout → 0 ≤ maxevents < 2 ^ 32 →
  0 ≤ events → polling clock events maxevents k →
  wp (epoll_turn events maxevents timeout (if 0 <? timeout then Some dl else None) tt) k (λ r k',
    polling clock events maxevents k' ∧ k_procs k' = k_procs k ∧ k_current k' = k_current k ∧
    match r with
    | inl _ => 0 ≤ ticks_left clock dl k' < ticks_left clock dl k
    | inr b => epoll_result clock maxevents timeout dl b k'
    end).
Proof.
  intros Ht Hto Hm He [Hn Hi Hbuf Hck]. unfold epoll_turn.
  destruct (epoll_events_run (k_net k) maxevents Hn) as (evs & n1 & E & Hn1 & Hc1 & Hr1 & Hlen); [lia|].
  apply wp_bind, wp_on_net. eapply wp_of_run; [exact E|]. set (k1 := sk_net n1 k).
  destruct (store_events_run evs events k1 Hi He) as (m' & Es & Hi' & Hv'); [intros a Ha; apply Hbuf; lia|].
  apply wp_bind. eapply wp_of_run; [exact Es|]. set (k2 := sk_mm _ k1).
  assert (polling clock events maxevents k2) as Hp2.
  { split; [done|exact Hi'| |exact (eq_trans Hc1 Hck)]. apply (user_range_view (kmem k)); [exact Hv'|exact Hbuf]. }
  destruct (Z.ltb_spec 0 (Z.of_nat (length evs))) as [Hpos|Hzero].
  { apply wp_ret. do 3 (split; [done|]). unfold as_isize. rewrite (proj2 (Z.ltb_lt _ _)) by lia.
    split; [lia|]. lia. }
  destruct (Z.eqb_spec timeout 0) as [->|Hne]; [apply wp_ret; do 3 (split; [done|]); split; [lia|by left]|].
  rewrite (proj2 (Z.ltb_lt 0 timeout)) by lia. unfold get_time_ms.
  apply wp_bind, wp_on_net, wp_bind. eapply wp_of_run; [reflexivity|]. apply wp_ret, wp_ret.
  change (n_clock (k_net k2)) with (n_clock n1). rewrite Hc1, Hck. change (k_net k2) with n1.
  set (k3 := sk_net _ k2). assert (polling clock events maxevents k3) as Hp3 by (destruct Hp2 as [[] ? ? ?]; split; [by split|done..]).
  do 3 (split; [done|]). destruct (Z.leb_spec dl (clock (n_reads n1) / 10000)) as [Hpast|Hwait].
  - split; [lia|]. right. exact Hpast.
  - unfold ticks_left. change (n_reads (k_net k3)) with (S (n_reads n1)).
    pose proof (ticking_mono clock (n_reads (k_net k)) (n_reads n1) Ht Hr1).
    pose proof (proj2 Ht (n_reads n1)). assert (clock (n_reads n1) < dl * 10000) by dlia. lia.
Qed.

End Epoll.

