(* ===== verification/KernelInv.v ===== *)
(** * The invariant of the kernel's tables

    Every descriptor refers to a live object, identifiers are never reused, the
    process table is a forest whose current process exists, and no socket handle
    is stale. The invariant holds after boot and is preserved by every system
    call, by the trap handler and by the scheduler. *)

From S2P Require Import Prelude Machine Alloc PageTable AddrSpace UserMem Pipe FdTable Fs Loader Net NetSpec Kernel Proc Sched SysFile SysProc SysSpec Dispatch.

Open Scope string_scope.
Open Scope list_scope.
Open Scope Z_scope.

Section Inv.
Context {NS : Type} `{NetLaws NS}.
Implicit Types k : kernel NS.

(** An open file is a pipe that exists, a standard stream, or a known inode. *)
Definition file_ok k (f : OpenFile) : Prop :=
  match of_pipe_id f with
  | Some id => is_Some (k_pipes k !! id)
  | None => of_inode f = 0 ∨ is_Some (inode_map (k_fs k) !! of_inode f)
  end.

(** [c] bounds the identifiers handed out so far. *)
Record kernel_ok (c : Z) k : Prop := {
  ko_fs : fs_ok (k_fs k);
  ko_pipes : ∀ id p, k_pipes k !! id = Some p → pipe_ok p ∧ id < k_next_pipe k;
  ko_files : Forall (from_option (file_ok k) True) (files (k_fdt k));
  ko_fake : ∀ fd t, k_fake k !! fd = Some t → fd < k_fake_next k;
  ko_procs : ∀ pid p, k_procs k !! pid = Some p → p_pid p = pid ∧ p_ppid p < pid < k_next_pid k;
  ko_cur : is_Some (cur_proc k);
  ko_running : sched_ok k;
  ko_net : net_ok (k_net k);
  ko_inodes : next_inode (k_fs k) ≤ c;
  ko_pipe_ids : 0 ≤ k_next_pipe k ≤ c;
  ko_fake_ids : 0 ≤ k_fake_next k ≤ c;
  ko_pids : 0 ≤ k_next_pid k ≤ c
}.

Lemma kernel_ok_mono c c' k : kernel_ok c k → c ≤ c' → kernel_ok c' k.
Proof. intros [] Hc. split; try done; lia. Qed.

(** The parts of the state the invariant is about. *)
Record same_tables k k' : Prop := {
  st_fs : k_fs k' = k_fs k;
  st_fdt : k_fdt k' = k_fdt k;
  st_pipes : k_pipes k' = k_pipes k;
  st_next_pipe : k_next_pipe k' = k_next_pipe k;
  st_fake : k_fake k' = k_fake k;
  st_fake_next : k_fake_next k' = k_fake_next k;
  st_procs : k_procs k' = k_procs k;
  st_current : k_current k' = k_current k;
  st_next_pid : k_next_pid k' = k_next_pid k;
  st_net : k_net k' = k_net k
}.

Lemma same_tables_refl k : same_tables k k.
Proof. by split. Qed.
Lemma same_tables_trans k1 k2 k3 : same_tables k1 k2 → same_tables k2 k3 → same_tables k1 k3.
Proof. intros [] []. split; congruence. Qed.

Lemma kernel_ok_same c k k' : same_tables k k' → kernel_ok c k → kernel_ok c k'.
Proof.
  intros [Hf Ht Hp Hnp Hk Hkn Hpr Hc Hn Hnet] Hok. destruct Hok.
  split; unfold file_ok, cur_proc, sched_ok in *; rewrite ?Hf, ?Ht, ?Hp, ?Hnp, ?Hk, ?Hkn, ?Hpr, ?Hc, ?Hn, ?Hnet; done.
Qed.

(** A file stays known while the tables grow. *)
Lemma kernel_ok_files k k' : (∀ f, file_ok k f → file_ok k' f) → k_fdt k' = k_fdt k →
  Forall (from_option (file_ok k) True) (files (k_fdt k)) → Forall (from_option (file_ok k') True) (files (k_fdt k')).
Proof. intros Hf -> Hk. apply (Forall_impl _ _ _ Hk). intros [f|]; cbn; auto. Qed.

(** ** Computations that leave the tables alone *)

Definition quiet {A} (m : M (kernel NS) A) : Prop := ∀ k, pwp m k (λ _ k', same_tables k k').

Lemma quiet_ret {A} (a : A) : quiet (ret a).
Proof. intros k. apply same_tables_refl. Qed.
Lemma quiet_gets {A} (f : kernel NS → A) : quiet (gets f).
Proof. intros k. apply same_tables_refl. Qed.
Lemma quiet_panic {A} : quiet (A := A) panic.
Proof. done. Qed.
Lemma quiet_hang {A} : quiet (A := A) hang.
Proof. done. Qed.
Lemma quiet_bind {A B} (m : M (kernel NS) A) (f : A → M (kernel NS) B) :
  quiet m → (∀ a, quiet (f a)) → quiet (bind m f).
Proof.
  intros Hm Hf k. apply pwp_bind. eapply pwp_mono; [apply Hm|]. cbn beta. intros a k1 H1.
  eapply pwp_mono; [apply Hf|]. cbn beta. intros b k2. by apply same_tables_trans.
Qed.
Lemma quiet_try {A B} (m : M (kernel NS) (option A)) (f : A → M (kernel NS) (option B)) :
  quiet m → (∀ a, quiet (f a)) → quiet (try_opt m f).
Proof. intros Hm Hf. apply quiet_bind; [done|]. intros [a|]; [done|apply quiet_ret]. Qed.
Lemma quiet_mloop {A B} p (f : A → M (kernel NS) (A + B)) a : (∀ a, quiet (f a)) → quiet (mloop p f a).
Proof.
  intros Hf k. apply (pwp_mloop (same_tables k)); [|apply same_tables_refl]. intros a' k1 H1.
  eapply pwp_mono; [apply Hf|]. cbn beta. intros b k2. by apply same_tables_trans.
Qed.
Lemma quiet_on_mm {A} (m : M mm A) : quiet (on_mm m).
Proof. intros k. unfold pwp, on_mm, zoom. by destruct (m (k_mm k)) as [[]| | |]. Qed.
Lemma quiet_ref {A} (f : Process → M (kernel NS) A) : (∀ p, quiet (f p)) → quiet (with_current_proc_ref f).
Proof.
  intros Hf. apply quiet_bind; [apply quiet_gets|]. intros k. destruct (cur_proc k); [|apply quiet_ret].
  apply quiet_bind; [done|]. intros a. apply quiet_ret.
Qed.

Lemma quiet_modify (f : kernel NS → kernel NS) : (∀ k, same_tables k (f k)) → quiet (modify f).
Proof. intros Hf k. apply Hf. Qed.
Lemma quiet_print l : quiet (print l).
Proof. intros k. unfold pwp. by rewrite print_run. Qed.
Lemma quiet_getchar : quiet getchar.
Proof. intros k. unfold pwp, getchar, bind, gets, modify, ret. by destruct (k_in k). Qed.
Lemma quiet_warn l : quiet (warn l).
Proof. apply quiet_print. Qed.
Lemma quiet_ld8 a : quiet (ld8 a).
Proof. apply quiet_bind; [apply quiet_gets|]. intros k. destruct (mmu _ _ _ _); [apply quiet_ret|apply quiet_hang]. Qed.
Lemma quiet_st8 a v : quiet (st8 a v).
Proof. apply quiet_bind; [apply quiet_gets|]. intros k. destruct (mmu _ _ _ _); [by apply quiet_modify|apply quiet_hang]. Qed.
Lemma quiet_ld_bytes n : ∀ a, quiet (ld_bytes a n).
Proof.
  induction n as [|n IH]; intros a; cbn [ld_bytes]; [apply quiet_ret|].
  apply quiet_bind; [apply quiet_ld8|]. intros b. apply quiet_bind; [apply IH|]. intros bs. apply quiet_ret.
Qed.
Lemma quiet_st_bytes l : ∀ a, quiet (st_bytes a l).
Proof.
  induction l as [|b l IH]; intros a; cbn [st_bytes]; [apply quiet_ret|].
  apply quiet_bind; [apply quiet_st8|]. intros _. apply IH.
Qed.
Lemma quiet_ldw n a : quiet (ldw n a).
Proof. apply quiet_bind; [apply quiet_ld_bytes|]. intros l. apply quiet_ret. Qed.
Lemma quiet_stw n a v : quiet (stw n a v).
Proof. apply quiet_st_bytes. Qed.
Lemma quiet_vec_new n : quiet (vec_new n).
Proof. unfold vec_new. destruct (_ <? _); [apply quiet_panic|apply quiet_ret]. Qed.
End Inv.

Create HintDb tables.
#[export] Hint Resolve quiet_ret quiet_gets quiet_panic quiet_hang quiet_on_mm quiet_print quiet_getchar quiet_warn quiet_ld8
  quiet_st8 quiet_ld_bytes quiet_st_bytes quiet_ldw quiet_stw quiet_vec_new : tables.

(** Take a computation apart down to the registered ones. *)
Ltac quieten := repeat (intros; lazymatch goal with
  | |- quiet (try_opt _ _) => apply quiet_try
  | |- quiet (bind _ _) => apply quiet_bind
  | |- quiet (mloop _ _ _) => apply quiet_mloop
  | |- quiet (with_current_proc_ref _) => apply quiet_ref
  | |- quiet (if ?b then _ else _) => destruct b
  | |- quiet (match ?x with _ => _ end) => destruct x
  | |- _ => solve [eauto with tables]
  end).

(** ** Computations that keep the invariant *)

(** What a handler remembers of the tables while it runs: an open file, an
    inode, the contents of a pipe, a descriptor above [FD_TABLE]. *)
Inductive held := HFile (f : OpenFile) | HInode (i : Z) | HPipe (id : Z) (p : PipeInner) | HFake (fd : Z).

Section Keep.
Context {NS : Type} `{NetLaws NS}.
Implicit Types k : kernel NS.

Definition held_ok k (h : held) : Prop :=
  match h with
  | HFile f => file_ok k f
  | HInode i => is_Some (inode_map (k_fs k) !! i)
  | HPipe id p => pipe_ok p ∧ is_Some (k_pipes k !! id)
  | HFake fd => fd < k_fake_next k
  end.

(** From a state with at most [c] identifiers in use, [m] keeps the invariant,
    uses at most [n] more, and keeps what is held. *)
Definition keeps {A} (hs : list held) (n : Z) (m : M (kernel NS) A) : Prop := ∀ c k,
  c + n < 2 ^ 64 → kernel_ok c k → Forall (held_ok k) hs →
  pwp m k (λ _ k', kernel_ok (c + n) k' ∧ ∀ h, held_ok k h → held_ok k' h).

Lemma held_same k k' h : same_tables k k' → held_ok k h → held_ok k' h.
Proof. intros [Hf _ Hp _ _ Hn _ _ _ _]. destruct h; cbn; unfold file_ok; by rewrite ?Hf, ?Hp, ?Hn. Qed.

Lemma keeps_quiet {A} hs (m : M (kernel NS) A) : quiet m → keeps hs 0 m.
Proof.
  intros Hm c k _ Hok _. eapply pwp_mono; [apply Hm|]. cbn beta. intros a k' Hs. rewrite Z.add_0_r.
  split; [by eapply kernel_ok_same|]. intros h. by apply held_same.
Qed.

Lemma keeps_le {A} hs n n' (m : M (kernel NS) A) : keeps hs n m → n ≤ n' → keeps hs n' m.
Proof.
  intros Hm Hn c k Hc Hok Hh. eapply pwp_mono; [by apply (Hm c); [lia|..]|]. cbn beta. intros a k' [Hk Hg].
  split; [|done]. eapply kernel_ok_mono; [done|lia].
Qed.

Lemma keeps_seq {A B} hs n1 n2 (m : M (kernel NS) A) (f : A → M (kernel NS) B) :
  keeps hs n1 m → (∀ a, keeps hs n2 (f a)) → 0 ≤ n2 → keeps hs (n1 + n2) (bind m f).
Proof.
  intros Hm Hf Hn c k Hc Hok Hh. apply pwp_bind. eapply pwp_mono; [by apply (Hm c); [lia|..]|]. cbn beta.
  intros a k1 [Hk1 Hg1]. eapply pwp_mono.
  { apply (Hf a (c + n1)); [lia|done|by eapply Forall_impl]. }
  cbn beta. intros b k2 [Hk2 Hg2]. rewrite Z.add_assoc. auto.
Qed.

Lemma keeps_bind {A B} hs n (m : M (kernel NS) A) (f : A → M (kernel NS) B) :
  keeps hs 0 m → (∀ a, keeps hs n (f a)) → 0 ≤ n → keeps hs n (bind m f).
Proof. apply keeps_seq. Qed.

Lemma keeps_mloop {A B} hs p (f : A → M (kernel NS) (A + B)) a : (∀ a, keeps hs 0 (f a)) → keeps hs 0 (mloop p f a).
Proof.
  intros Hf c k Hc Hok Hh. rewrite Z.add_0_r in *.
  apply (pwp_mloop (λ k', kernel_ok c k' ∧ ∀ h, held_ok k h → held_ok k' h)); [|done].
  intros a1 k1 [Hk1 Hg1]. eapply pwp_mono.
  { apply (Hf a1 c); [lia|done|by eapply Forall_impl]. }
  cbn beta. rewrite Z.add_0_r. intros b k2 [Hk2 Hg2]. auto.
Qed.

(** *** Reading the tables *)

Lemma get_held k fd f c : kernel_ok c k → fd_get (k_fdt k) fd = Some f → file_ok k f.
Proof.
  intros Hok Hf. pose proof (fd_get_range _ _ _ Hf). rewrite fd_get_lookup in Hf by lia.
  destruct (files (k_fdt k) !! Z.to_nat fd) as [o|] eqn:E; [|done]. cbn in Hf. subst o.
  by apply (Forall_lookup_1 _ _ _ _ (ko_files c k Hok)) in E.
Qed.

Lemma keeps_get_fd {B} hs n fd (f : option OpenFile → M (kernel NS) B) :
  (∀ o, keeps (from_option (λ o, [HFile o]) [] o ++ hs) n (f o)) → keeps hs n (bind (get_fd fd) f).
Proof.
  intros Hf c k Hc Hok Hh. apply pwp_bind, pwp_gets. apply Hf; [done|done|].
  destruct (fd_get _ _) as [o|] eqn:E; [|done]. constructor; [by eapply get_held|done].
Qed.

Lemma keeps_get_pipe {B} hs n id (f : option PipeInner → M (kernel NS) B) :
  (∀ o, keeps (from_option (λ p, [HPipe id p]) [] o ++ hs) n (f o)) → keeps hs n (bind (get_pipe id) f).
Proof.
  intros Hf c k Hc Hok Hh. apply pwp_bind, pwp_gets. apply Hf; [done|done|].
  destruct (k_pipes k !! id) as [p|] eqn:E; [|done]. constructor; [|done]. cbn.
  split; [by apply (ko_pipes c k Hok id)|by eexists].
Qed.

Lemma keeps_get_fake {B} hs n fd (f : option FakeFdType → M (kernel NS) B) :
  (∀ o, keeps (from_option (λ _, [HFake fd]) [] o ++ hs) n (f o)) → keeps hs n (bind (gets (λ k, k_fake k !! fd)) f).
Proof.
  intros Hf c k Hc Hok Hh. apply pwp_bind, pwp_gets. apply Hf; [done|done|].
  destruct (k_fake k !! fd) as [t|] eqn:E; [|done]. constructor; [|done]. cbn. by apply (ko_fake c k Hok fd t).
Qed.

Lemma keeps_lookup {B} hs n path (f : option Z → M (kernel NS) B) :
  (∀ o, keeps (from_option (λ i, [HInode i]) [] o ++ hs) n (f o)) → keeps hs n (bind (on_fs (lookup path)) f).
Proof.
  intros Hf c k Hc Hok Hh. apply pwp_bind. unfold pwp at 1, on_fs, zoom, lookup, gets.
  replace (sk_fs (k_fs k) k) with k by by destruct k. apply Hf; [done|done|].
  destruct (bt_find _ _) as [[i q]|] eqn:E; [|done]. constructor; [|done]. apply bt_find_Some in E as [E _].
  by eexists.
Qed.

(** *** The descriptor table *)

Lemma keeps_on_fdt {A} hs (m : M FdTable A) :
  (∀ k t, Forall (held_ok k) hs → Forall (from_option (file_ok k) True) (files t) →
    pwp m t (λ _ t', Forall (from_option (file_ok k) True) (files t'))) → keeps hs 0 (on_fdt m).
Proof.
  intros Hm c k _ Hok Hh. rewrite Z.add_0_r. specialize (Hm k (k_fdt k) Hh (ko_files c k Hok)). revert Hm.
  unfold pwp, on_fdt, zoom. destruct (m (k_fdt k)) as [[a t]| | |]; [|done..]. intros Hm.
  split; [|done]. by destruct Hok.
Qed.

(** The file follows from what is held. *)
Definition backed (hs : list held) (f : OpenFile) : Prop := ∀ k, Forall (held_ok k) hs → file_ok k f.

Lemma keeps_fd_alloc hs f : backed hs f → keeps hs 0 (on_fdt (fd_alloc f)).
Proof.
  intros Hf. apply keeps_on_fdt. intros k t Hh Ht. unfold fd_alloc. apply pwp_bind, pwp_gets, pwp_bind, pwp_modify, pwp_ret.
  cbn [files]. case_decide; [by apply Forall_insert; [|apply Hf]|]. apply Forall_app. split; [done|].
  constructor; [by apply Hf|done].
Qed.

Lemma keeps_put_fd hs fd f : backed hs f → keeps hs 0 (put_fd fd f).
Proof.
  intros Hf. apply keeps_on_fdt. intros k t Hh Ht. apply pwp_modify. cbn [files]. apply Forall_insert; [done|by apply Hf].
Qed.

Lemma keeps_fd_close hs fd : keeps hs 0 (on_fdt (fd_close fd)).
Proof.
  apply keeps_on_fdt. intros k t Hh Ht. apply pwp_modify. destruct (_ <? _); [|done]. by apply Forall_insert.
Qed.

Lemma keeps_fd_dup2 hs oldfd newfd : keeps hs 0 (on_fdt (fd_dup2 oldfd newfd)).
Proof.
  apply keeps_on_fdt. intros k t Hh Ht. unfold fd_dup2. apply pwp_bind, pwp_gets. destruct (_ || _); [done|].
  apply pwp_bind. eapply (pwp_mono _ _ (λ t' _, Forall (from_option (file_ok k) True) t')).
  { destruct (_ <=? _); [|done]. unfold vec_resize. destruct (_ <? _); [done|]. apply pwp_ret.
    apply Forall_app. split; [by apply Forall_take|]. by apply Forall_replicate. }
  cbn beta. intros t' s Ht'. destruct (t' !! _) as [o|] eqn:E; [|done]. destruct (_ <? _); [|done].
  apply pwp_bind, pwp_modify, pwp_ret. cbn [files]. apply Forall_insert; [done|]. by apply (Forall_lookup_1 _ _ _ _ Ht' E).
Qed.

(** *** The file system *)

Lemma keeps_on_fs {A} hs n (m : M Fs A) : 0 ≤ n →
  (∀ s, fs_ok s → next_inode s + n < 2 ^ 64 → pwp m s (λ _ s', fs_ok s' ∧ next_inode s' ≤ next_inode s + n ∧
    ∀ i, is_Some (inode_map s !! i) → is_Some (inode_map s' !! i))) → keeps hs n (on_fs m).
Proof.
  intros Hn Hm c k Hc Hok Hh. pose proof (ko_inodes c k Hok) as Hi. specialize (Hm (k_fs k) (ko_fs c k Hok) ltac:(lia)).
  revert Hm. unfold pwp, on_fs, zoom. destruct (m (k_fs k)) as [[a s]| | |]; [|done..]. intros (Hs & Hnext & Hg).
  assert (∀ f, file_ok k f → file_ok (sk_fs s k) f) as Hf.
  { intros f. unfold file_ok. cbn. destruct (of_pipe_id f); [done|]. intros [|]; auto. }
  split.
  - destruct Hok. split; try done; cbn; try lia. by apply (kernel_ok_files k (sk_fs s k)).
  - intros [f|i|id p|fd]; cbn; auto.
Qed.

Lemma keeps_fs_read {A} hs (m : M Fs A) : (∀ s, pwp m s (λ _ s', s' = s)) → keeps hs 0 (on_fs m).
Proof.
  intros Hm. apply keeps_on_fs; [done|]. intros s Hs _. eapply pwp_mono; [apply Hm|]. cbn beta. intros a s' ->.
  split; [done|]. split; [lia|done].
Qed.
Lemma keeps_fs_gets {A} hs (f : Fs → A) : keeps hs 0 (on_fs (gets f)).
Proof. by apply keeps_fs_read. Qed.
Lemma keeps_file_size hs i : keeps hs 0 (on_fs (Fs.file_size i)).
Proof. apply keeps_fs_read. intros s. unfold pwp, Fs.file_size, gets, bind, ret, id. by repeat case_match; simplify_eq. Qed.
Lemma keeps_get_file_data hs path : keeps hs 0 (on_fs (get_file_data path)).
Proof. apply keeps_fs_read. intros s. unfold pwp, get_file_data, gets, bind, ret, id. by repeat case_match; simplify_eq. Qed.
Lemma keeps_read_inode hs i n off : keeps hs 0 (on_fs (read_inode i n off)).
Proof.
  apply keeps_fs_read. intros s. unfold pwp, read_inode, slice, gets, bind, ret, panic, id.
  by repeat case_match; simplify_eq.
Qed.
Lemma keeps_write_inode hs i buf off : keeps hs 0 (on_fs (write_inode i buf off)).
Proof.
  apply keeps_on_fs; [done|]. intros s Hs _. pose proof (write_inode_ok s i buf off Hs) as Hok.
  pose proof (write_inode_cases s i buf off) as Hc. unfold pwp. destruct (write_inode i buf off s) as [[n s']| | |]; [|done..].
  split; [done|]. destruct Hc as [->|(path & f & _ & ->)]; cbn; split; (done || lia).
Qed.
Lemma keeps_mkdir hs path : keeps hs 1 (on_fs (mkdir path)).
Proof.
  apply keeps_on_fs; [done|]. intros s Hs Hn. apply pwp_modify. split; [by apply add_file_ok; [|lia]|].
  pose proof (fo_next s Hs). cbn [add_file next_inode inode_map]. split; [rewrite wrap64_small; [lia|unfold in_usize; lia]|].
  intros i Hi. rewrite lookup_insert. by case_decide.
Qed.

(** *** Pipes *)

Lemma keeps_on_pipe {A} hs id p (m : M PipeInner A) : HPipe id p ∈ hs → (pipe_ok p → pwp m p (λ _ p', pipe_ok p')) →
  keeps hs 0 (on_pipe id p m).
Proof.
  intros Hin Hm c k _ Hok Hh. rewrite Z.add_0_r. rewrite Forall_forall in Hh. destruct (Hh _ Hin) as [Hp Hid].
  specialize (Hm Hp). revert Hm. unfold pwp, on_pipe. destruct (m p) as [[a p']| | |]; [|done..]. intros Hp'.
  assert (∀ i, is_Some (k_pipes k !! i) → is_Some (<[id:=p']> (k_pipes k) !! i)) as Hg.
  { intros i Hi. rewrite lookup_insert. by case_decide. }
  assert (∀ f, file_ok k f → file_ok (sk_pipes (<[id:=p']> (k_pipes k)) k) f) as Hf.
  { intros f. unfold file_ok. destruct (of_pipe_id f); [apply Hg|done]. }
  split; [|intros [f|i|i q|fd]; cbn; [apply Hf|done|intros [? ?]; auto|done]].
  destruct Hok as [Hfs Hpipes Hfiles Hfake Hprocs Hcur Hrun Hnet Hci Hcp Hcf Hcpid]. split; try done; cbn.
  - intros i q. rewrite lookup_insert. case_decide as Hd; [|apply Hpipes]. intros [= <-]. subst i.
    destruct Hid as [q Hq]. split; [done|]. by apply (Hpipes _ q).
  - by apply (kernel_ok_files k (sk_pipes _ k)).
Qed.

Lemma keeps_pipe_write hs i p d : HPipe i p ∈ hs → keeps hs 0 (on_pipe i p (pipe_write d)).
Proof.
  intros Hin. apply keeps_on_pipe; [done|]. intros Hp. destruct (read_closed p) eqn:E.
  - unfold pwp, pipe_write, bind, gets, id. by rewrite E.
  - destruct (wp_run _ _ _ (pipe_write_spec d p Hp E)) as (n & p' & Er & Hp' & _). unfold pwp. by rewrite Er.
Qed.
Lemma keeps_pipe_read hs id p n : HPipe id p ∈ hs → keeps hs 0 (on_pipe id p (pipe_read n)).
Proof.
  intros Hin. apply keeps_on_pipe; [done|]. intros Hp.
  destruct (wp_run _ _ _ (pipe_read_spec n p Hp)) as (out & p' & Er & Hp' & _). unfold pwp. by rewrite Er.
Qed.

(** *** Descriptors outside the table *)

Lemma keeps_next_fake {B} hs n (f : Z → M (kernel NS) B) : 0 ≤ n → (∀ fd, keeps (HFake fd :: hs) n (f fd)) →
  keeps hs (1 + n) (bind next_fake_fd f).
Proof.
  intros Hn Hf c k Hc Hok Hh. apply pwp_bind. unfold next_fake_fd. apply pwp_bind, pwp_gets, pwp_bind, pwp_modify, pwp_ret.
  pose proof (ko_fake_ids c k Hok) as Hi. rewrite wrap64_small by (unfold in_usize; lia).
  set (k1 := sk_fake_next (k_fake_next k + 1) k).
  assert (kernel_ok (c + 1) k1) as Hk1.
  { destruct Hok as [Hfs Hpipes Hfiles Hfake Hprocs Hcur Hrun Hnet Hci Hcp Hcf Hcpid]. split; try done; cbn; try lia. intros fd t Hfd%Hfake. lia. }
  assert (∀ h, held_ok k h → held_ok k1 h) as Hg by (intros [f0|i|id p|fd]; cbn; auto; lia).
  eapply pwp_mono.
  { apply (Hf (k_fake_next k) (c + 1)); [lia|done|]. constructor; [cbn; lia|by eapply Forall_impl]. }
  cbn beta. rewrite Z.add_assoc. intros b k2 [Hk2 Hg2]. auto.
Qed.

Lemma keeps_add_fake hs fd t : HFake fd ∈ hs → keeps hs 0 (modify (λ k, sk_fake (<[fd := t]> (k_fake k)) k)).
Proof.
  intros Hin c k _ Hok Hh. rewrite Forall_forall in Hh. specialize (Hh _ Hin). rewrite Z.add_0_r. split; [|done].
  destruct Hok as [Hfs Hpipes Hfiles Hfake Hprocs Hcur Hrun Hnet Hci Hcp Hcf Hcpid]. split; try done. cbn. intros fd' t'. rewrite lookup_insert. case_decide; [by subst|apply Hfake].
Qed.
Lemma keeps_del_fake hs fd : keeps hs 0 (modify (λ k, sk_fake (delete fd (k_fake k)) k)).
Proof.
  intros c k _ Hok _. rewrite Z.add_0_r. split; [|done].
  destruct Hok as [Hfs Hpipes Hfiles Hfake Hprocs Hcur Hrun Hnet Hci Hcp Hcf Hcpid]. split; try done. cbn. intros fd' t'. rewrite lookup_delete. case_decide; [done|apply Hfake].
Qed.

(** *** The network *)

Lemma keeps_on_net {A} hs (m : M (Net NS) A) : (∀ n, net_ok n → pwp m n (λ _ n', net_ok n')) → keeps hs 0 (on_net m).
Proof.
  intros Hm c k _ Hok _. rewrite Z.add_0_r. specialize (Hm _ (ko_net c k Hok)). revert Hm.
  unfold pwp, on_net, zoom. destruct (m (k_net k)) as [[a n]| | |]; [|done..]. intros Hm. split; [|done]. by destruct Hok.
Qed.

Lemma keeps_net_op {A} hs op (m : M (Net NS) A) : (∀ n, run_op op n = bind m (λ _, ret tt) n) → keeps hs 0 (on_net m).
Proof.
  intros Eq. apply keeps_on_net. intros n Hn. pose proof (run_op_ok op n Hn) as Hr. rewrite Eq in Hr. revert Hr.
  unfold pwp, bind. by destruct (m n) as [[a n']| | |].
Qed.
Lemma net_unit_op (m : M (Net NS) unit) n : m n = bind m (λ _, ret tt) n.
Proof. unfold bind, ret. by destruct (m n) as [[[] n']| | |]. Qed.

Lemma keeps_recv hs fd len : keeps hs 0 (on_net (recv_from_fd fd len)).
Proof. by apply (keeps_net_op hs (ORecv fd len)). Qed.
Lemma keeps_send hs fd l : keeps hs 0 (on_net (send_to_fd fd l)).
Proof. by apply (keeps_net_op hs (OSend fd l)). Qed.
Lemma keeps_epoll hs n : keeps hs 0 (on_net (get_epoll_events n)).
Proof. by apply (keeps_net_op hs (OEpoll n)). Qed.
Lemma keeps_net_close hs fd : keeps hs 0 (on_net (close_fd fd)).
Proof. apply (keeps_net_op hs (OClose fd)), net_unit_op. Qed.
Lemma keeps_net_bind hs fd : keeps hs 0 (on_net (bind_listen_fd fd)).
Proof. apply (keeps_net_op hs (OBind fd)), net_unit_op. Qed.
Lemma keeps_set_epoll hs fd d : keeps hs 0 (on_net (set_epoll_data fd d)).
Proof. apply (keeps_net_op hs (OData fd d)), net_unit_op. Qed.
Lemma keeps_is_socket hs fd : keeps hs 0 (on_net (is_socket_fd fd)).
Proof. by apply keeps_on_net. Qed.
Lemma keeps_rdtime hs : keeps hs 0 (on_net rdtime).
Proof. apply keeps_on_net. intros n []. by split. Qed.
Lemma keeps_time_ms hs : keeps hs 0 (on_net get_time_ms).
Proof. apply keeps_on_net. intros n []. by split. Qed.

(** The accepted handle is bound to a descriptor of its own. *)
Lemma keeps_accept {B} hs fd (f : option Z → M (kernel NS) B) : keeps hs 0 (f None) →
  (∀ new, keeps (HFake new :: hs) 0 (f (Some new))) →
  keeps hs 1 (let! o := on_net (accept_connection fd) in
    match o with
    | Some handle =>
        let! new := next_fake_fd in
        do! add_fake new InetSocket in
        do! on_net (add_fd_handle new handle) in
        f (Some new)
    | None => f None
    end).
Proof.
  intros Hnone Hsome c k Hc Hok Hh. apply pwp_bind. pose proof (accept_run fd (k_net k) (ko_net c k Hok)) as Ha.
  unfold pwp at 1, on_net, zoom. destruct (accept_connection fd (k_net k)) as [[[h|] n]| | |]; [|..|done|done|done].
  2:{ destruct Ha as [Hn _]. eapply pwp_mono; [apply (keeps_le _ 0 1 _ Hnone ltac:(lia) c)|].
      - done.
      - by destruct Hok.
      - apply (Forall_impl _ _ _ Hh). by intros [].
      - cbn beta. intros b k2 [Hk2 Hg2]. split; [done|]. intros h Hk. apply Hg2. by destruct h. }
  destruct Ha as [Hn Hlive]. destruct (Hlive h eq_refl) as [Hl Hfree]. pose proof (ko_fake_ids c k Hok) as Hi.
  apply pwp_bind. unfold next_fake_fd. apply pwp_bind, pwp_gets, pwp_bind, pwp_modify, pwp_ret.
  apply pwp_bind, pwp_modify, pwp_bind. cbn [k_fake_next sk_net]. rewrite wrap64_small by (unfold in_usize; lia).
  unfold pwp at 1, zoom, add_fd_handle, modify.
  match goal with |- pwp _ ?x _ => set (k1 := x) end.
  assert (kernel_ok (c + 1) k1) as Hk1.
  { destruct Hok as [Hfs Hpipes Hfiles Hfake Hprocs Hcur Hrun Hnet Hci Hcp Hcf Hcpid]. split; try done; subst k1; cbn; try lia.
    - intros fd' t. rewrite lookup_insert. case_decide; [lia|]. intros Hf%Hfake. lia.
    - by apply net_ok_insert. }
  assert (∀ g, held_ok k g → held_ok k1 g) as Hg by (intros [f0|i|id p|fd']; cbn; auto; lia).
  eapply pwp_mono; [apply (Hsome (k_fake_next k) (c + 1)); [lia|done|]|].
  { constructor; [cbn; lia|by eapply Forall_impl]. }
  cbn beta. rewrite Z.add_0_r. intros b k2 [Hk2 Hg2]. auto.
Qed.

(** *** Processes *)

Record same_ident (p p' : Process) : Prop := {
  si_pid : p_pid p' = p_pid p;
  si_ppid : p_ppid p' = p_ppid p;
  si_state : p_state p' = Running → p_state p = Running
}.

Lemma kernel_ok_set_proc c k pid p p' : kernel_ok c k → k_procs k !! pid = Some p → same_ident p p' →
  kernel_ok c (set_proc pid p' k).
Proof.
  intros Hok Hp [Hi Hpp Hst]. destruct Hok as [Hfs Hpipes Hfiles Hfake Hprocs Hcur Hrun Hnet Hci Hcp Hcf Hcpid]. split; try done; unfold set_proc, sched_ok, cur_proc in *; cbn.
  - intros q r. rewrite lookup_insert. case_decide; [|apply Hprocs]. intros [= <-]. subst q.
    destruct (Hprocs _ _ Hp). by rewrite Hi, Hpp.
  - rewrite lookup_insert. by case_decide.
  - intros q r. rewrite lookup_insert. case_decide; [|apply Hrun]. intros [= <-] Hr. subst q.
    apply (Hrun pid p); auto.
Qed.

Lemma keeps_with_current {A} hs (f : Process → M (kernel NS) (A * Process)) :
  (∀ p k, pwp (f p) k (λ r k', same_tables k k' ∧ same_ident p r.2)) → keeps hs 0 (with_current_proc f).
Proof.
  intros Hf c k _ Hok Hh. rewrite Z.add_0_r. unfold with_current_proc. apply pwp_bind, pwp_gets. unfold id.
  destruct (cur_proc k) as [p|] eqn:E; [|done]. apply pwp_bind. eapply pwp_mono; [apply Hf|]. cbn beta.
  intros [a p'] k1 [Hs Hi]. apply pwp_bind, pwp_modify, pwp_ret. split.
  - eapply kernel_ok_set_proc; [by eapply kernel_ok_same| |done]. rewrite (st_procs _ _ Hs). exact E.
  - intros h Hk. apply (held_same k k1 h Hs) in Hk. by destruct h.
Qed.

Lemma keeps_exit hs code : keeps hs 0 (exit_process code).
Proof.
  intros c k _ Hok Hh. rewrite Z.add_0_r. unfold exit_process. apply pwp_bind, pwp_gets, pwp_bind, pwp_gets, pwp_bind.
  eapply (pwp_mono _ _ (λ _ k', kernel_ok c k' ∧ ∀ h, held_ok k h → held_ok k' h)).
  { destruct (k_procs k !! k_current k) as [p|] eqn:E; [|done]. apply pwp_modify. split; [|by intros []].
    by eapply kernel_ok_set_proc. }
  cbn beta. intros _ k1 [Hk1 Hg1]. apply pwp_bind, pwp_gets. destruct (k_procs k1 !! _) as [q|] eqn:E; [|done].
  case_decide; [|done]. apply pwp_modify. split; [by eapply kernel_ok_set_proc|]. intros h Hh1. apply Hg1 in Hh1. by destruct h.
Qed.

(** A child gets the next pid, which is above its parent's. *)
Lemma keeps_fork hs tf : keeps hs 1 (fork_process tf).
Proof.
  intros c k Hc Hok Hh. unfold fork_process. apply pwp_bind, pwp_gets, pwp_try_opt, pwp_gets.
  destruct (k_procs k !! k_current k) as [p|] eqn:E; [|split; [by eapply (kernel_ok_mono c); [|lia]|done]].
  apply pwp_try_opt. eapply pwp_mono; [apply quiet_on_mm|]. cbn beta. intros [pt|] k1 Hs1.
  2:{ split; [by eapply (kernel_ok_mono c); [eapply kernel_ok_same|lia]|]. intros h. by apply held_same. }
  apply pwp_try_opt. eapply pwp_mono; [apply quiet_on_mm|]. cbn beta. intros o k2 Hs2.
  assert (same_tables k k2) as Hs by by eapply same_tables_trans. pose proof (kernel_ok_same c k k2 Hs Hok) as Hk2.
  destruct o as [ks|]; [|split; [by eapply (kernel_ok_mono c); [|lia]|intros h; by apply held_same]].
  apply pwp_bind, pwp_gets, pwp_bind, pwp_modify, pwp_bind, pwp_modify, pwp_ret.
  pose proof (ko_pids c k2 Hk2). rewrite (wrap64_small (k_next_pid k2 + 1)) by (unfold in_usize; lia).
  split; [|intros h Hk; apply (held_same k k2 h Hs) in Hk; by destruct h].
  pose proof (ko_procs c k Hok _ _ E) as [_ Hp]. rewrite <-(st_next_pid _ _ Hs) in Hp. clear Hok Hs1.
  destruct Hk2 as [Hfs Hpipes Hfiles Hfake Hprocs Hcur Hrun Hnet Hci Hcp Hcf Hcpid]. split; try done; unfold set_proc, sched_ok, cur_proc in *; cbn; try lia.
  - intros q r. rewrite lookup_insert. case_decide; [intros [= <-]; cbn; lia|]. intros Hr%Hprocs. lia.
  - rewrite lookup_insert. by case_decide.
  - intros q r. rewrite lookup_insert. case_decide; [by intros [= <-]|apply Hrun].
Qed.

Lemma keeps_sys_clone hs fl stack ptid ctid tls : keeps hs 1 (sys_clone fl stack ptid ctid tls).
Proof.
  apply (keeps_seq hs 0 1); [apply keeps_quiet, quiet_gets| |lia]. intros tf.
  apply (keeps_seq hs 1 0); [apply keeps_fork| |lia]. intros [pid|]; [|apply keeps_quiet, quiet_ret].
  apply keeps_bind; [|intros []; apply keeps_quiet, quiet_ret|lia].
  destruct (negb _); [|apply keeps_quiet, quiet_ret]. intros c k _ Hok Hh. rewrite Z.add_0_r. apply pwp_bind, pwp_gets.
  destruct (k_procs k !! pid) as [p|] eqn:E; [|done]. apply pwp_modify. split; [by eapply kernel_ok_set_proc|by intros []].
Qed.

(** A parent never reaps itself: its own parent has a smaller pid. *)
Lemma keeps_sys_wait4 hs pid ws opt ru : keeps hs 0 (sys_wait4 pid ws opt ru).
Proof.
  intros c k _ Hok Hh. rewrite Z.add_0_r. unfold sys_wait4. apply pwp_bind, pwp_gets, pwp_bind, pwp_gets.
  destruct (bt_find _ _) as [[z p]|] eqn:E; [|done]. apply bt_find_Some in E as (Hz & Hr & _).
  apply pwp_bind. eapply pwp_mono; [by destruct (negb _); [apply quiet_stw|apply quiet_ret]|]. cbn beta. intros _ k1 Hs.
  apply pwp_bind, pwp_modify, pwp_ret. split; [|intros h Hk; apply (held_same k k1 h Hs) in Hk; by destruct h].
  pose proof (ko_procs c k Hok _ _ Hz) as [_ Hzp]. apply andb_prop in Hr as [[Hr%Z.eqb_eq _]%andb_prop _].
  rewrite <-(st_current _ _ Hs) in Hr. pose proof (kernel_ok_same c k k1 Hs Hok) as Hk1. destruct Hk1 as [Hfs Hpipes Hfiles Hfake Hprocs Hcur Hrun Hnet Hci Hcp Hcf Hcpid].
  split; try done; unfold sched_ok, cur_proc in *; cbn.
  - intros q r. rewrite lookup_delete. case_decide; [done|apply Hprocs].
  - rewrite lookup_delete. case_decide; [lia|done].
  - intros q r. rewrite lookup_delete. case_decide; [done|apply Hrun].
Qed.
End Keep.
