(* ===== verification/SysInv.v ===== *)
(** * Every system call and every trap keeps the kernel's invariant

    The handlers of [syscall.rs] taken apart with the rules of the invariant,
    [dispatch] over all of them, and the trap handler with the scheduler. *)

From S2P Require Import Prelude Machine Alloc PageTable AddrSpace UserMem Pipe FdTable Fs Loader Net NetSpec Kernel Proc Sched SysFile Devices Boot SysProc SysSpec Dispatch KernelInv.

Open Scope string_scope.
Open Scope list_scope.
Open Scope Z_scope.

Section Quiet.
Context {NS : Type} `{NetLaws NS}.

Lemma quiet_cstr a : quiet (NS := NS) (cstr a).
Proof. unfold cstr. quieten. Qed.
Lemma quiet_is_fake fd : quiet (NS := NS) (is_fake_fd fd).
Proof. apply quiet_gets. Qed.
Lemma quiet_is_inet fd : quiet (NS := NS) (is_inet_socket fd).
Proof. apply quiet_gets. Qed.
Lemma quiet_stdin_turn buf count n : quiet (NS := NS) (stdin_turn buf count n).
Proof. unfold stdin_turn. cbv zeta. quieten. Qed.
Lemma quiet_fill_stat buf size : quiet (NS := NS) (fill_stat buf size).
Proof. unfold fill_stat. quieten. Qed.
Lemma quiet_fill_chr buf : quiet (NS := NS) (fill_stat_chr buf).
Proof. unfold fill_stat_chr. quieten. Qed.
Lemma quiet_read_u64 a : quiet (NS := NS) (read_user_u64 a).
Proof. unfold read_user_u64. quieten. Qed.
Lemma quiet_read_byte a : quiet (NS := NS) (read_user_byte a).
Proof. unfold read_user_byte. quieten. Qed.
Lemma quiet_store_events l : ∀ a, quiet (NS := NS) (store_events a l).
Proof. induction l as [|[r d] l IH]; intros a; cbn [store_events]; quieten. Qed.
End Quiet.
#[export] Hint Resolve quiet_cstr quiet_is_fake quiet_is_inet quiet_stdin_turn quiet_fill_stat quiet_fill_chr
  quiet_read_u64 quiet_read_byte quiet_store_events : tables.

Section Quiet2.
Context {NS : Type} `{NetLaws NS}.

Lemma quiet_read_str fuel : ∀ a off acc, quiet (NS := NS) (read_user_str_from fuel a off acc).
Proof. induction fuel as [|fuel IH]; intros a off acc; cbn [read_user_str_from]; quieten. Qed.
Lemma quiet_read_user_str a : quiet (NS := NS) (read_user_str a).
Proof. apply quiet_read_str. Qed.
Lemma quiet_read_strs fuel : ∀ a i, quiet (NS := NS) (read_user_strs fuel a i).
Proof.
  pose proof quiet_read_user_str. induction fuel as [|fuel IH]; intros a i; cbn [read_user_strs]; quieten.
Qed.
Lemma quiet_ppoll fuel : ∀ fds i ready, quiet (NS := NS) (ppoll_loop fuel fds i ready).
Proof. induction fuel as [|fuel IH]; intros fds i ready; cbn [ppoll_loop]; quieten. Qed.
Lemma quiet_set_satp s : quiet (modify (sk_satp (NS := NS) s)).
Proof. by apply quiet_modify. Qed.
Lemma quiet_set_mmap s : quiet (modify (sk_mmap_base (NS := NS) s)).
Proof. by apply quiet_modify. Qed.
Lemma quiet_set_tp s : quiet (modify (sk_last_tp (NS := NS) s)).
Proof. by apply quiet_modify. Qed.
Lemma quiet_set_ctf (f : kernel NS → TrapFrame) : quiet (modify (λ k, sk_ctf (f k) k)).
Proof. by apply quiet_modify. Qed.

(** Files that what is held vouches for. *)
Lemma backed_offset hs f off : HFile f ∈ hs → backed (NS := NS) hs (of_set_offset off f).
Proof. intros Hin k Hh. rewrite Forall_forall in Hh. exact (Hh _ Hin). Qed.
Lemma backed_inode hs i off r w : HInode i ∈ hs → backed (NS := NS) hs
  {| of_inode := i; of_offset := off; of_readable := r; of_writable := w; of_pipe_id := None |}.
Proof. intros Hin k Hh. rewrite Forall_forall in Hh. right. exact (Hh _ Hin). Qed.
Lemma backed_pipe hs id p off r w : HPipe id p ∈ hs → backed (NS := NS) hs
  {| of_inode := 0; of_offset := off; of_readable := r; of_writable := w; of_pipe_id := Some id |}.
Proof. intros Hin k Hh. rewrite Forall_forall in Hh. exact (proj2 (Hh _ Hin)). Qed.
End Quiet2.
#[export] Hint Resolve quiet_read_user_str quiet_read_strs quiet_ppoll quiet_set_satp quiet_set_mmap quiet_set_tp
  quiet_set_ctf : tables.
#[export] Hint Resolve keeps_quiet keeps_fd_alloc keeps_put_fd keeps_fd_close keeps_fd_dup2 keeps_fs_gets
  keeps_file_size keeps_get_file_data keeps_read_inode keeps_write_inode keeps_mkdir keeps_pipe_write
  keeps_pipe_read keeps_add_fake keeps_del_fake keeps_recv keeps_send keeps_epoll keeps_net_close keeps_net_bind
  keeps_set_epoll keeps_is_socket keeps_rdtime keeps_time_ms keeps_exit keeps_sys_clone keeps_sys_wait4
  backed_offset backed_inode backed_pipe list_elem_of_here list_elem_of_further : tables.

(** Take a handler apart, remembering what it looks up. *)
Ltac keep := repeat (intros; cbn [from_option app]; lazymatch goal with
  | |- keeps _ _ (bind (get_fd _) _) => apply keeps_get_fd
  | |- keeps _ _ (bind (get_pipe _) _) => apply keeps_get_pipe
  | |- keeps _ _ (bind (gets (λ k, k_fake k !! _)) _) => apply keeps_get_fake
  | |- keeps _ _ (bind (on_fs (lookup _)) _) => apply keeps_lookup
  | |- keeps ?hs 1 (bind next_fake_fd _) => apply (keeps_next_fake hs 0); [lia|]
  | |- keeps ?hs 2 (bind next_fake_fd _) => apply (keeps_next_fake hs 1); [lia|]
  | |- keeps _ _ (bind _ _) => apply keeps_bind; [| |lia]
  | |- keeps _ _ (mloop _ _ _) => apply keeps_mloop
  | |- keeps _ _ (if ?b then _ else _) => destruct b
  | |- keeps _ _ (match ?x with _ => _ end) => destruct x
  | |- keeps _ 0 _ => solve [eauto with tables]
  | |- keeps _ _ _ => solve [eauto with tables] || (eapply (keeps_le _ 0); [|lia])
  end).

Section Calls.
Context {NS : Type} `{NetLaws NS}.
Context (elf_new : list Z → option ElfFile).

Lemma keeps_sys_write hs fd buf count : keeps (NS := NS) hs 0 (sys_write fd buf count).
Proof. unfold sys_write. keep. Qed.
Lemma keeps_sys_read hs fd buf count : keeps (NS := NS) hs 0 (sys_read fd buf count).
Proof. unfold sys_read. keep. Qed.
End Calls.
#[export] Hint Resolve keeps_sys_write keeps_sys_read : tables.

Section Calls2.
Context {NS : Type} `{NetLaws NS}.
Context (elf_new : list Z → option ElfFile).

Lemma keeps_writev_loop hs fuel : ∀ fd iov i total, keeps (NS := NS) hs 0 (writev_loop fuel fd iov i total).
Proof. induction fuel as [|fuel IH]; intros fd iov i total; cbn [writev_loop]; cbv zeta; keep. Qed.
Lemma keeps_sys_writev hs fd iov cnt : keeps (NS := NS) hs 0 (sys_writev fd iov cnt).
Proof. apply keeps_writev_loop. Qed.
Lemma keeps_sys_sendfile hs a b c d : keeps (NS := NS) hs 0 (sys_sendfile a b c d).
Proof. unfold sys_sendfile. cbv zeta. keep. Qed.
Lemma keeps_sys_openat hs a b c d : keeps (NS := NS) hs 0 (sys_openat a b c d).
Proof. unfold sys_openat. cbv zeta. keep. Qed.
Lemma keeps_sys_close hs fd : keeps (NS := NS) hs 0 (sys_close fd).
Proof. unfold sys_close. keep. Qed.
Lemma keeps_sys_lseek hs fd off wh : keeps (NS := NS) hs 0 (sys_lseek fd off wh).
Proof. unfold sys_lseek. keep. Qed.
Lemma keeps_sys_fstat hs fd buf : keeps (NS := NS) hs 0 (sys_fstat fd buf).
Proof. unfold sys_fstat. keep. Qed.
Lemma keeps_sys_fstatat hs a b c d : keeps (NS := NS) hs 0 (sys_fstatat a b c d).
Proof. unfold sys_fstatat. keep. Qed.
Lemma keeps_sys_statx hs a b c d e : keeps (NS := NS) hs 0 (sys_statx a b c d e).
Proof. unfold sys_statx. keep. Qed.
Lemma keeps_sys_dup2 hs a b : keeps (NS := NS) hs 0 (sys_dup2 a b).
Proof. unfold sys_dup2. keep. Qed.
Lemma keeps_sys_getdents64 hs fd buf count : keeps (NS := NS) hs 0 (sys_getdents64 fd buf count).
Proof. unfold sys_getdents64. cbv zeta. keep. Qed.
Lemma keeps_sys_pread64 hs fd buf count off : keeps (NS := NS) hs 0 (sys_pread64 fd buf count off).
Proof. unfold sys_pread64. keep. Qed.
Lemma keeps_sys_pwrite64 hs fd buf count off : keeps (NS := NS) hs 0 (sys_pwrite64 fd buf count off).
Proof. unfold sys_pwrite64. keep. Qed.
Lemma keeps_sys_faccessat hs a b c d : keeps (NS := NS) hs 0 (sys_faccessat a b c d).
Proof. unfold sys_faccessat. keep. Qed.
Lemma keeps_sys_mkdirat hs a b c : keeps (NS := NS) hs 1 (sys_mkdirat a b c).
Proof.
  unfold sys_mkdirat. apply keeps_bind; [keep| |lia]. intros path. apply keeps_lookup. intros o.
  destruct (bool_decide _); [keep|]. apply (keeps_seq _ 1 0); [apply keeps_mkdir| |lia]. keep.
Qed.
Lemma keeps_sys_readlinkat hs a b c d : keeps (NS := NS) hs 0 (sys_readlinkat a b c d).
Proof. unfold sys_readlinkat. cbv zeta. keep. Qed.
Lemma keeps_sys_getcwd hs a b : keeps (NS := NS) hs 0 (sys_getcwd a b).
Proof. unfold sys_getcwd. cbv zeta. keep. Qed.
Lemma keeps_sys_fcntl hs a b c : keeps (NS := NS) hs 0 (sys_fcntl a b c).
Proof. unfold sys_fcntl. keep. Qed.
Lemma keeps_sys_ioctl hs a b c : keeps (NS := NS) hs 0 (sys_ioctl a b c).
Proof. unfold sys_ioctl. keep. Qed.
Lemma keeps_sys_ppoll hs a b c d e : keeps (NS := NS) hs 0 (sys_ppoll a b c d e).
Proof. unfold sys_ppoll. keep. Qed.
End Calls2.

Section Calls3.
Context {NS : Type} `{NetLaws NS}.
Context (elf_new : list Z → option ElfFile).
Implicit Types k : kernel NS.

(** A new pipe, under the next identifier. *)
Lemma keeps_new_pipe {B} hs (f : Z → M (kernel NS) B) : (∀ id, keeps (HPipe id PipeInner_new :: hs) 0 (f id)) →
  keeps hs 1 (let! id := gets k_next_pipe in
    do! modify (sk_next_pipe (id +w 1)) in
    do! modify (λ k, sk_pipes (<[id := PipeInner_new]> (k_pipes k)) k) in
    f id).
Proof.
  intros Hf c k Hc Hok Hh. apply pwp_bind, pwp_gets, pwp_bind, pwp_modify, pwp_bind, pwp_modify.
  pose proof (ko_pipe_ids c k Hok) as Hi. rewrite wrap64_small by (unfold in_usize; lia).
  match goal with |- pwp _ ?x _ => set (k1 := x) end.
  assert (∀ i, is_Some (k_pipes k !! i) → is_Some (k_pipes k1 !! i)) as Hg.
  { intros i Hs. cbn. rewrite lookup_insert. by case_decide. }
  assert (∀ g, file_ok k g → file_ok k1 g) as Hfile.
  { intros g. unfold file_ok. destruct (of_pipe_id g); [apply Hg|done]. }
  assert (∀ h, held_ok k h → held_ok k1 h) as Hheld.
  { intros [g|i|i q|fd]; cbn [held_ok]; [apply Hfile|done|intros [? ?]; auto|done]. }
  assert (kernel_ok (c + 1) k1) as Hk1.
  { destruct Hok as [Hfs Hpipes Hfiles Hfake Hprocs Hcur Hrun Hnet Hci Hcp Hcf Hcpid]. split; try done; try (cbn; lia).
    - intros i q. cbn. rewrite lookup_insert. case_decide.
      + intros [= <-]. split; [apply pipe_ok_new|lia].
      + intros Hq%Hpipes. split; [apply Hq|lia].
    - by apply (kernel_ok_files k). }
  eapply pwp_mono; [apply (Hf (k_next_pipe k) (c + 1)); [lia|done|]|].
  { constructor; [|by eapply Forall_impl]. split; [apply pipe_ok_new|]. cbn. rewrite lookup_insert, decide_True by done. by eexists. }
  cbn beta. rewrite Z.add_0_r. intros b k2 [Hk2 Hg2]. auto.
Qed.

Lemma keeps_sys_pipe2 hs a b : keeps (NS := NS) hs 1 (sys_pipe2 a b).
Proof.
  apply (keeps_new_pipe hs (λ id,
    let! rfd := on_fdt (fd_alloc {| of_inode := 0; of_offset := 0; of_readable := true;
                                    of_writable := false; of_pipe_id := Some id |}) in
    let! wfd := on_fdt (fd_alloc {| of_inode := 0; of_offset := 0; of_readable := false;
                                    of_writable := true; of_pipe_id := Some id |}) in
    do! stw 4 a (u32 rfd) in
    do! stw 4 (a +w 4) (u32 wfd) in
    ret 0)). keep.
Qed.

Lemma keeps_sys_brk hs a : keeps (NS := NS) hs 0 (sys_brk a).
Proof.
  unfold sys_brk. apply keeps_bind; [|keep|lia]. apply keeps_with_current. intros p k. cbv zeta.
  destruct (a =? 0); [apply pwp_ret; split; [apply same_tables_refl|by destruct (_ =? _)]|]. apply pwp_bind.
  eapply pwp_mono; [by destruct (_ <? a); [apply quiet_on_mm|apply quiet_ret]|].
  cbn beta. intros _ k1 Hs. by apply pwp_ret.
Qed.

Lemma keeps_sys_mmap hs a b c d e f : keeps (NS := NS) hs 0 (sys_mmap a b c d e f).
Proof.
  unfold sys_mmap. cbv zeta. do 3 (apply keeps_bind; [keep| |lia]; intros).
  apply keeps_bind; [|keep|lia]. apply keeps_with_current. intros p k. apply pwp_bind.
  eapply pwp_mono; [apply quiet_on_mm|]. cbn beta. intros _ k1 Hs. by apply pwp_ret.
Qed.

Lemma exec_process_ident p d argv envp s : pwp (exec_process elf_new p d argv envp) s (λ r _, same_ident p r.2).
Proof.
  unfold exec_process. apply pwp_bind. eapply pwp_mono; [apply pwp_True|]. by intros [[pt [[elf e] sp]]|] s1 _.
Qed.

Lemma keeps_sys_execve hs a b c : keeps (NS := NS) hs 0 (sys_execve elf_new a b c).
Proof.
  unfold sys_execve. apply keeps_bind; [keep| |lia]. intros [path|]; [|keep].
  do 3 (apply keeps_bind; [keep| |lia]; intros). match goal with |- keeps _ _ (match ?x with _ => _ end) => destruct x end; [|keep].
  cbv zeta. apply keeps_bind; [|keep|lia]. apply keeps_with_current. intros p k.
  pose proof (quiet_on_mm (exec_process elf_new p l a0 (if has_path a1 then a1 else a1 ++ ["PATH=/bin"])) k) as Hq.
  pose proof (exec_process_ident p l a0 (if has_path a1 then a1 else a1 ++ ["PATH=/bin"]) (k_mm k)) as Hi. revert Hq Hi.
  unfold pwp, on_mm, zoom. by destruct (exec_process _ _ _ _ _ (k_mm k)) as [[]| | |].
Qed.

Lemma keeps_sys_uname hs a : keeps (NS := NS) hs 0 (sys_uname a).
Proof. unfold sys_uname. keep. Qed.
Lemma keeps_sys_clock hs a b : keeps (NS := NS) hs 0 (sys_clock_gettime a b).
Proof. unfold sys_clock_gettime. cbv zeta. keep. Qed.
Lemma keeps_sys_getrlimit hs a b : keeps (NS := NS) hs 0 (sys_getrlimit a b).
Proof. unfold sys_getrlimit. cbv zeta. keep. Qed.
Lemma keeps_sys_prlimit hs a b c d : keeps (NS := NS) hs 0 (sys_prlimit64 a b c d).
Proof. unfold sys_prlimit64. cbv zeta. keep. Qed.
Lemma keeps_sys_getrandom hs a b c : keeps (NS := NS) hs 0 (sys_getrandom a b c).
Proof. unfold sys_getrandom. keep. Qed.
Lemma keeps_sys_eventfd2 hs a b : keeps (NS := NS) hs 1 (sys_eventfd2 a b).
Proof. unfold sys_eventfd2, add_fake. keep. Qed.
Lemma keeps_sys_epoll_create1 hs a : keeps (NS := NS) hs 1 (sys_epoll_create1 a).
Proof. unfold sys_epoll_create1, add_fake. keep. Qed.
Lemma keeps_sys_epoll_ctl hs a b c d : keeps (NS := NS) hs 0 (sys_epoll_ctl a b c d).
Proof. unfold sys_epoll_ctl. keep. Qed.
Lemma keeps_sys_epoll_pwait hs a b c d e f : keeps (NS := NS) hs 0 (sys_epoll_pwait a b c d e f).
Proof. unfold sys_epoll_pwait, epoll_turn. cbv zeta. keep. Qed.
Lemma keeps_sys_socket hs a b c : keeps (NS := NS) hs 1 (sys_socket a b c).
Proof. unfold sys_socket, add_fake. keep. Qed.
Lemma keeps_sys_socketpair hs a b c d : keeps (NS := NS) hs 2 (sys_socketpair a b c d).
Proof. unfold sys_socketpair, add_fake. keep. Qed.
Lemma keeps_fake_only hs fd : keeps (NS := NS) hs 0 (fake_only fd).
Proof. unfold fake_only. keep. Qed.
Lemma keeps_sys_sendto hs a b c d e f : keeps (NS := NS) hs 0 (sys_sendto a b c d e f).
Proof. unfold sys_sendto, add_fake. keep. Qed.
Lemma keeps_sys_recvmsg hs a b c : keeps (NS := NS) hs 0 (sys_recvmsg a b c).
Proof. unfold sys_recvmsg, add_fake. cbv zeta. keep. Qed.
End Calls3.
#[export] Hint Resolve keeps_fake_only : tables.

Section Calls4.
Context {NS : Type} `{NetLaws NS}.

Lemma keeps_sys_listen hs a b : keeps (NS := NS) hs 0 (sys_listen a b).
Proof. unfold sys_listen. keep. Qed.
Lemma keeps_sys_accept hs fd addr addrlen : keeps (NS := NS) hs 1 (sys_accept fd addr addrlen).
Proof.
  unfold sys_accept. apply keeps_bind; [keep| |lia]. intros [|]; [|unfold add_fake; keep].
  apply (keeps_accept hs (as_usize fd) (λ o,
    match o with
    | Some new_fd =>
        do! (if negb (addr =? 0) then
               do! stw 2 addr 2 in
               do! stw 2 (addr +w 2) 0x5000 in
               do! st_bytes (addr +w 4) (replicate 4 0) in
               st_bytes (addr +w 8) (replicate 8 0)
             else ret tt) in
        do! (if negb (addrlen =? 0) then stw 4 addrlen 16 else ret tt) in
        ret (as_isize new_fd)
    | None => ret (-11)
    end)); keep.
Qed.
End Calls4.

(** ** [dispatch] *)

#[export] Hint Resolve keeps_sys_writev keeps_sys_sendfile keeps_sys_openat keeps_sys_close keeps_sys_lseek
  keeps_sys_fstat keeps_sys_fstatat keeps_sys_statx keeps_sys_dup2 keeps_sys_getdents64 keeps_sys_pread64
  keeps_sys_pwrite64 keeps_sys_faccessat keeps_sys_mkdirat keeps_sys_readlinkat keeps_sys_getcwd keeps_sys_fcntl
  keeps_sys_ioctl keeps_sys_ppoll keeps_sys_pipe2 keeps_sys_brk keeps_sys_mmap keeps_sys_execve keeps_sys_uname
  keeps_sys_clock keeps_sys_getrlimit keeps_sys_prlimit keeps_sys_getrandom keeps_sys_eventfd2
  keeps_sys_epoll_create1 keeps_sys_epoll_ctl keeps_sys_epoll_pwait keeps_sys_socket keeps_sys_socketpair
  keeps_sys_sendto keeps_sys_recvmsg keeps_sys_listen keeps_sys_accept : tables.

Section Dispatch.
Context {NS : Type} `{NetLaws NS}.
Context (elf_new : list Z → option ElfFile).
Implicit Types k : kernel NS.

(** The calls that only return a value, and the aliases. *)
Lemma keeps_pure {A} (a : A) : keeps (NS := NS) [] 0 (ret a).
Proof. apply keeps_quiet, quiet_ret. Qed.
Lemma keeps_look {A} (f : kernel NS → A) : keeps [] 0 (gets f).
Proof. apply keeps_quiet, quiet_gets. Qed.

Lemma keeps_dispatch num args : keeps (NS := NS) [] 2 (dispatch elf_new num args).
Proof.
  assert (∀ l, keeps (NS := NS) [] 2 (do! warn l in ret (-1))) as Hwarn by (intros l; keep).
  unfold dispatch. cbv zeta. destruct num as [|q|q]; [apply Hwarn| |apply Hwarn].
  repeat (first [apply Hwarn | destruct q as [q|q|]]).
  all: first
    [ solve [apply (keeps_le _ 0); [first [apply keeps_pure | apply keeps_look | apply keeps_fake_only
        | apply keeps_sys_dup2 | apply keeps_sys_read | apply keeps_bind; [apply keeps_exit|keep|lia]]|lia]]
    | apply (keeps_le _ 0); [solve [eauto 2 with tables]|lia]
    | apply (keeps_le _ 1); [solve [eauto 2 with tables | apply keeps_sys_accept]|lia]
    | solve [eauto 2 with tables] ].
Qed.

(** ** The trap handler and the scheduler *)

Lemma keeps_trap_handler scause tf : keeps (NS := NS) [] 2 (rust_trap_handler elf_new scause tf).
Proof.
  unfold rust_trap_handler. cbv zeta. apply keeps_bind; [keep| |lia]. intros _. destruct (_ || _); [|keep].
  apply keeps_bind; [keep| |lia]. intros _. apply (keeps_seq _ 2 0); [apply keeps_dispatch| |lia]. intros r.
  destruct (_ && _); [|keep]. intros c k _ Hok Hh. rewrite Z.add_0_r. apply pwp_bind, pwp_gets, pwp_bind. unfold id.
  destruct (cur_proc k) as [p|] eqn:E; [|done]. apply pwp_modify, pwp_ret. split; [by eapply kernel_ok_set_proc|by intros []].
Qed.

(** The table after saving the interrupted process. *)
Lemma saved_procs sp k pid q : saved sp k !! pid = Some q →
  ∃ p, k_procs k !! pid = Some p ∧ p_pid q = p_pid p ∧ p_ppid q = p_ppid p.
Proof.
  unfold saved. destruct (k_procs k !! k_current k) as [p|] eqn:E; [|eauto]. rewrite lookup_insert. case_decide; [|eauto].
  intros [= <-]. subst pid. exists p. split; [done|]. unfold save_frame. by case_decide.
Qed.
Lemma saved_is_Some sp k pid : is_Some (k_procs k !! pid) → is_Some (saved sp k !! pid).
Proof.
  intros Hs. unfold saved. destruct (k_procs k !! k_current k) eqn:E; [|done]. rewrite lookup_insert. by case_decide.
Qed.

Lemma kernel_ok_procs c k t cur k' : kernel_ok c k → same_tables (sk_procs t (sk_current cur k)) k' →
  (∀ pid q, t !! pid = Some q → ∃ p, k_procs k !! pid = Some p ∧ p_pid q = p_pid p ∧ p_ppid q = p_ppid p) →
  is_Some (t !! cur) → sched_ok k' → kernel_ok c k'.
Proof.
  intros Hok Hs Ht Hc Hrun. pose proof Hs as [_ _ _ _ _ _ Epr Ecur _ _]. cbn in Epr, Ecur.
  unfold sched_ok in Hrun. rewrite Epr, Ecur in Hrun. apply (kernel_ok_same c _ _ Hs).
  destruct Hok as [Hfs Hpipes Hfiles Hfake Hprocs Hcur _ Hnet Hci Hcp Hcf Hcpid].
  split; try done. intros pid q Hq. destruct (Ht _ _ Hq) as (p & Hp & E1 & E2). rewrite E1, E2. by apply Hprocs.
Qed.

Lemma do_schedule_keeps c sp k : kernel_ok c k → pwp (do_schedule sp) k (λ _ k', kernel_ok c k').
Proof.
  intros Hok. unfold pwp. destruct (do_schedule sp k) as [[sp' k']| | |] eqn:E; [|done..].
  pose proof (do_schedule_sched_ok sp k sp' k' (ko_running c k Hok) E) as Hrun.
  rewrite do_schedule_run in E. cbv zeta in E. pose proof (saved_procs sp k) as Hsv.
  pose proof (saved_is_Some sp k _ (ko_cur c k Hok)) as [pc Hpc].
  destruct (pick _ _) as [next|] eqn:Hp.
  - destruct (next =? k_current k).
    { injection E as <- <-. eapply (kernel_ok_procs c k (saved sp k) (k_current k)); [done|by split|done|by eexists|done]. }
    destruct (saved sp k !! next) as [p|] eqn:Hn; [|done]. injection E as <- <-.
    eapply (kernel_ok_procs c k (<[next := sp_state Running p]> (saved sp k)) next); [done|by split| | |done].
    + intros pid q. rewrite lookup_insert. case_decide; [|apply Hsv]. intros [= <-]. subst pid. exact (Hsv _ _ Hn).
    + rewrite lookup_insert, decide_True by done. by eexists.
  - rewrite Hpc in E. case_decide; [by destruct (k_kpt k)|]. injection E as <- <-.
    eapply (kernel_ok_procs c k (<[k_current k := sp_state Running pc]> (saved sp k)) (k_current k)); [done|by split| | |done].
    + intros pid q. rewrite lookup_insert. case_decide; [|apply Hsv]. intros [= <-]. subst pid. exact (Hsv _ _ Hpc).
    + rewrite lookup_insert, decide_True by done. by eexists.
Qed.

Lemma kernel_ok_mem c k m : kernel_ok c k → kernel_ok c (sk_mm (set_mem m (k_mm k)) k).
Proof. by apply kernel_ok_same. Qed.

Lemma trap_keeps c scause u k : c + 2 < 2 ^ 64 → kernel_ok c k →
  pwp (trap elf_new scause u) k (λ _ k', kernel_ok (c + 2) k').
Proof.
  intros Hc Hok. unfold trap. apply pwp_bind, pwp_gets. unfold id. rewrite trap_entry_frame.
  apply pwp_bind, pwp_modify, pwp_bind. eapply pwp_mono.
  { by apply (keeps_trap_handler _ _ c); [done|apply kernel_ok_mem|]. }
  cbn beta. intros tf k1 [Hk1 _]. apply pwp_bind, pwp_modify, pwp_bind.
  eapply pwp_mono; [by apply do_schedule_keeps, kernel_ok_mem|]. cbn beta. intros sp k2 Hk2. by apply pwp_gets.
Qed.

(** ** Runs of the machine *)

(** Between traps, user code may change the memory in any way; a trap with any
    cause and any registers runs the kernel. *)
Inductive machine_step k k' : Prop :=
  | ms_user m : k' = sk_mm (set_mem m (k_mm k)) k → machine_step k k'
  | ms_trap scause u u' : trap elf_new scause u k = Ret (u', k') → machine_step k k'.
End Dispatch.

(** ** From power-on *)

(** The initial values of the statics. *)
Record static_tables {NS} (k : kernel NS) : Prop := {
  sb_fs : k_fs k = fs_empty;
  sb_fdt : k_fdt k = FdTable_new;
  sb_pipes : k_pipes k = ∅;
  sb_next_pipe : k_next_pipe k = 1;
  sb_fake : k_fake k = ∅;
  sb_fake_next : k_fake_next k = 100;
  sb_procs : k_procs k = ∅;
  sb_handles : n_handles (k_net k) = ∅
}.

Section Reachable.
Context {NS DV RB : Type} `{NetLaws NS} `{!VirtIONet DV RB} `{!NetBoot NS DV}.
Context (elf_new : list Z → option ElfFile).
Implicit Types k : kernel NS.

Lemma machine_step_ok c k k' : c + 2 < 2 ^ 64 → kernel_ok c k → machine_step elf_new k k' → kernel_ok (c + 2) k'.
Proof.
  intros Hc Hok [m ->|scause u u' E].
  - by apply (kernel_ok_mono c); [apply kernel_ok_mem|lia].
  - by apply (pwp_run _ _ _ _ _ (trap_keeps elf_new c scause u k Hc Hok) E).
Qed.

Lemma machine_steps_ok n : ∀ c k k', c + 2 * Z.of_nat n < 2 ^ 64 → kernel_ok c k →
  nsteps (machine_step elf_new) n k k' → kernel_ok (c + 2 * Z.of_nat n) k'.
Proof.
  induction n as [|n IH]; intros c k k' Hc Hok Hs; inversion Hs as [|? ? k1 ? Hk1 Hs']; subst.
  { by apply (kernel_ok_mono c); [|lia]. }
  replace (c + 2 * Z.of_nat (S n)) with (c + 2 + 2 * Z.of_nat n) by lia.
  eapply IH; [lia| |done]. by apply (machine_step_ok c k); [lia|..].
Qed.

(** The tables [rust_main] leaves. *)
Lemma boot_kernel_ok nginx_bin test_bin busybox nss_so elf k k' p : static_tables k →
  started elf busybox ["sh"] k' p → p_pid p = 1 → p_ppid p = 0 → k_procs k' = <[1 := p]> (k_procs k) →
  k_fs k' = boot_fs nginx_bin test_bin busybox nss_so → (∀ kpt, same_io (sk_kpt kpt k) (sk_kpt kpt k')) → kernel_ok 100 k'.
Proof.
  intros [_ Hfd Hpi Hnp Hfk Hfn Hpr Hhd] Hst Hpid Hppid Hprocs Hfs Hio.
  destruct (wp_run _ _ _ (fs_init_created nginx_bin test_bin busybox nss_so)) as ([] & s & E & Hs & Hn).
  rewrite fs_init_run in E. injection E as <-. rewrite <-Hfs in Hs, Hn.
  destruct (Hio None) as [_ Efd Epi Enp Efk Efn Ehd]. cbn in Efd, Epi, Enp, Efk, Efn, Ehd. rewrite Hpr in Hprocs.
  split; unfold cur_proc, sched_ok; rewrite ?Efd, ?Epi, ?Enp, ?Efk, ?Efn, ?Hprocs, ?Hfd, ?Hpi, ?Hnp, ?Hfk, ?Hfn, ?Hn,
    ?(sd_current _ _ _ _ _ Hst), ?(sd_next _ _ _ _ _ Hst); try (done || lia).
  - repeat constructor; by left.
  - intros pid q. rewrite lookup_insert, lookup_empty. case_decide; [|done]. intros [= <-]. lia.
  - intros pid q. rewrite lookup_insert, lookup_empty. by case_decide.
  - split; rewrite Ehd, Hhd; intros *; by rewrite lookup_empty.
Qed.

End Reachable.

Definition power_on : kernel toy_stack := {|
  k_mm := table0_mm; k_kpt := None; k_fs := fs_empty; k_fdt := FdTable_new; k_pipes := ∅; k_next_pipe := 1;
  k_fake := ∅; k_fake_next := 100; k_procs := ∅; k_current := 0; k_next_pid := 1; k_ctf := TrapFrame_new;
  k_satp := 0; k_mmap_base := 0; k_last_tp := 0; k_net := toy_state; k_out := []; k_in := []
|}.

