(* ===== verification/TrapSpec.v ===== *)
(** * What a trap does to the process

    [rust_trap_handler], [dispatch] and [do_schedule] put together: the
    registers with which a process continues after a system call. *)

From S2P Require Import Prelude Machine Alloc PageTable AddrSpace UserMem Pipe FdTable Fs Dirs Loader Net NetSpec Kernel Access Proc Sched SysFile SysProc SysSpec Dispatch.

Open Scope string_scope.
Open Scope list_scope.
Open Scope Z_scope.

#[local] Opaque ld_bytes st_bytes translate map alloc_page.

(** ** Strings of the user *)

Abbreviation kmem k := (mm_mem (k_mm k)).
Abbreviation kroot k := (satp_root (k_satp k)).

Section Strings.
Context {NS : Type} `{NetStack NS}.
Implicit Types k : kernel NS.

(** The current process runs on its own page table, which maps RAM at its
    physical addresses, and its frames are in RAM. *)
Record running k (p : Process) : Prop := {
  ru_cur : cur_proc k = Some p;
  ru_root : kroot k = root_ppn (p_page_table p);
  ru_inv : as_inv (kroot k) (k_mm k);
  ru_kernel : ∀ v, 0x80000 ≤ v < 0x88000 → view (kmem k) (kroot k) v = kernel_view v;
  ru_frames : ∀ v e, vpn_ok v → user_entry (kmem k) (kroot k) v = Some e → 0x80000 ≤ pte_ppn e < 0x88000
}.

Lemma running_mmu k p acc a : running k p → 0x80000000 ≤ a < 0x88000000 → mmu (kmem k) (kroot k) acc a = Some a.
Proof.
  intros Hr Ha. eapply (mmu_identity _ _ _ _ (a / 4096)); [lia|done| |].
  - rewrite (ru_kernel _ _ Hr) by dlia. unfold kernel_view. rewrite decide_True by dlia. done.
  - set_solver.
Qed.

Lemma ld_bytes_phys n k p a : running k p → 0x80000000 ≤ a → a + Z.of_nat n ≤ 0x88000000 →
  ld_bytes a n k = Ret (rd8 (kmem k) <$> seqZ a (Z.of_nat n), k).
Proof.
  intros Hr Hlo Hhi. apply ld_bytes_ident; [lia..|]. intros y Hy. apply (running_mmu k p); [done|lia].
Qed.

(** A system call trusts its pointers. The supervisor's view of a process's
    table includes all of RAM, so [getcwd] on an address of kernel memory, or of
    another process's page, overwrites it. *)
Lemma user_pointer_unchecked k p a : running k p → 0x80000000 ≤ a → a + 5 ≤ 0x88000000 →
  (∀ y, a ≤ y < a + 5 → ¬ is_table (kmem k) (kroot k) (y / 4096)) →
  ∃ m', sys_getcwd a 5 k = Ret (a, sk_mm (set_mem m' (k_mm k)) k) ∧
    (λ y, rd8 m' y) <$> seqZ a 5 = bytes_of "/tmp" ++ [0] ∧ ∀ x, x < a ∨ a + 5 ≤ x → rd8 m' x = rd8 (kmem k) x.
Proof.
  intros Hr Hlo Hhi Hnt. destruct (as_pt _ _ (ru_inv _ _ Hr)) as [Hwf _].
  destruct (st_bytes_ident (bytes_of "/tmp" ++ [0]) (cur (k_mm k)) a k) as (m' & E & Hrd); [lia|cbn; lia| |exact Hwf| |].
  { by refine (bool_decide_unpack _ _); vm_compute. }
  { intros y Hy. change (length _) with 5%nat in Hy. split; [|apply Hnt; lia].
    apply (running_mmu k p); [done|lia]. }
  exists m'. split; [|split].
  - unfold sys_getcwd. cbv zeta. change (5 <? Z.of_nat (length (bytes_of "/tmp" ++ [0]))) with false. cbv iota.
    rewrite (bind_run _ _ _ _ _ E). unfold ret, as_isize. by rewrite (proj2 (Z.ltb_lt _ _)) by lia.
  - apply list_eq. intros i. rewrite list_lookup_fmap. destruct (decide (i < 5)%nat) as [Hi|Hi].
    + rewrite lookup_seqZ_lt by lia. cbn [fmap option_fmap option_map]. rewrite Hrd, decide_True by lia.
      replace (Z.to_nat (a + Z.of_nat i - a)) with i by lia. by do 5 (destruct i as [|i]; [done|]); lia.
    + rewrite lookup_seqZ_ge by lia. symmetry. apply lookup_ge_None_2. cbn. lia.
  - intros x Hx. rewrite Hrd. case_decide; [|done]. rewrite lookup_ge_None_2; [done|]. cbn. lia.
Qed.

(** The translation of a user address, and the bytes behind it. *)
Lemma running_translate k p a : running k p → 0 ≤ a < 2 ^ 38 → is_Some (user_entry (kmem k) (kroot k) (a / 4096)) →
  ∃ pa, translate (p_page_table p) a (k_mm k) = Ret (Some pa, k_mm k) ∧ pa mod 4096 = a mod 4096 ∧
    0x80000000 ≤ pa < 0x88000000 ∧
    ∀ i, 0 ≤ i → a mod 4096 + i < 4096 → rd8 (kmem k) (pa + i) = ubyte (kmem k) (kroot k) (a + i).
Proof.
  intros Hr Ha [e He]. pose proof (user_vpn a Ha) as Hv. pose proof (ru_frames _ _ Hr _ _ Hv He) as Hp.
  exists (pte_ppn e * 4096 + a mod 4096). split_and!; [|dlia|dlia|dlia|].
  - apply (translate_mapped _ _ e); [rewrite <-(ru_root _ _ Hr); apply (ru_inv _ _ Hr)| |done|lia].
    rewrite <-(ru_root _ _ Hr). by apply user_entry_view.
  - intros i Hi Hlt. unfold ubyte. replace ((a + i) / 4096) with (a / 4096) by dlia. rewrite He. f_equal. dlia.
Qed.

Lemma user_ok_entry k acc a : user_ok (kmem k) (kroot k) acc a →
  0 ≤ a < 2 ^ 38 ∧ is_Some (user_entry (kmem k) (kroot k) (a / 4096)).
Proof. intros (Ha & e & He & _). eauto. Qed.

Lemma read_user_byte_run k p a : running k p → user_ok (kmem k) (kroot k) ARead a →
  read_user_byte a k = Ret (Some (ubyte (kmem k) (kroot k) a), k).
Proof.
  intros Hr [Ha He]%user_ok_entry. destruct (running_translate k p a Hr Ha He) as (pa & E & _ & Hp & Hb).
  unfold read_user_byte, with_current_proc_ref, gets, id. unfold bind at 1, bind at 1, bind at 1.
  rewrite (ru_cur _ _ Hr). unfold bind at 1, bind at 1, on_mm, zoom. rewrite E.
  assert (sk_mm (k_mm k) k = k) as -> by by destruct k.
  unfold bind, ld8, bind, gets, id. rewrite (running_mmu k p) by done. unfold ret. cbn.
  specialize (Hb 0 ltac:(lia) ltac:(dlia)). rewrite !Z.add_0_r in Hb. by rewrite Hb.
Qed.

(** An aligned-enough word. *)
Record word_at (m : mem) (root a w : Z) : Prop := {
  wa_page : a mod 4096 ≤ 4088;
  wa_word : in_usize w;
  wa_ok : user_range m root ARead a 8;
  wa_bytes : ubytes m root a 8 = le_bytes 8 w
}.

Lemma read_user_u64_run k p a w : running k p → word_at (kmem k) (kroot k) a w → read_user_u64 a k = Ret (Some w, k).
Proof.
  intros Hr [Hpg Hw Hok Hbs]. destruct (user_ok_entry k ARead a) as [Ha He]; [apply Hok; lia|].
  destruct (running_translate k p a Hr Ha He) as (pa & E & Hm & Hp & Hb).
  unfold read_user_u64, with_current_proc_ref, gets, id. unfold bind at 1, bind at 1, bind at 1.
  rewrite (ru_cur _ _ Hr). unfold bind at 1, bind at 1, on_mm, zoom. rewrite E.
  assert (sk_mm (k_mm k) k = k) as -> by by destruct k.
  unfold ldw, bind. rewrite (ld_bytes_phys 8 k p) by (done || dlia).
  assert (rd8 (kmem k) <$> seqZ pa (Z.of_nat 8) = le_bytes 8 w) as ->.
  { rewrite <-Hbs. unfold ubytes. apply list_eq. intros i. rewrite !list_lookup_fmap.
    destruct (decide (i < 8)%nat) as [Hi|Hi].
    - rewrite !lookup_seqZ_lt by lia. cbn. f_equal. apply Hb; lia.
    - by rewrite !lookup_seqZ_ge by lia. }
  unfold ret. cbn [mjoin]. rewrite le_val_le_bytes. unfold in_usize in Hw. by rewrite Z.mod_small by lia.
Qed.

(** A NUL-terminated ASCII string of at most 4096 bytes. *)
Record string_at (m : mem) (root a : Z) (s : string) : Prop := {
  sa_ascii : Forall (λ b, 0 < b < 128) (bytes_of s);
  sa_len : (String.length s ≤ 4096)%nat;
  sa_ok : user_range m root ARead a (Z.of_nat (String.length s) + 1);
  sa_bytes : ubytes m root a (S (String.length s)) = bytes_of s ++ [0]
}.

Lemma read_user_str_loop k p a l : running k p → Forall (λ b, 0 < b < 128) l →
  ∀ fuel off acc, 0 ≤ off → (length l < fuel)%nat →
  user_range (kmem k) (kroot k) ARead (a + off) (Z.of_nat (length l) + 1) →
  ubytes (kmem k) (kroot k) (a + off) (S (length l)) = l ++ [0] →
  read_user_str_from fuel a off acc k = Ret (Some (string_of (acc ++ l)), k).
Proof.
  intros Hr Hl. induction Hl as [|b l Hb Hl IH]; intros fuel off acc Hoff Hf Hok Hbs; (destruct fuel as [|fuel]; [cbn in Hf; lia|]).
  all: assert (user_ok (kmem k) (kroot k) ARead (a + off)) as H0 by (apply Hok; cbn [length]; lia).
  all: cbn [read_user_str_from]; unfold try_opt, bind; rewrite wrap64_small by (destruct H0; unfold in_usize; lia).
  all: rewrite (read_user_byte_run k p) by done.
  all: unfold ubytes in Hbs; cbn [length] in Hbs; rewrite Nat2Z.inj_succ, seqZ_cons in Hbs by lia; cbn [fmap list_fmap app] in Hbs.
  all: pose proof (f_equal (hd 0) Hbs) as Hb0; pose proof (f_equal tail Hbs) as Hrest; cbn [hd tail] in Hb0, Hrest; rewrite Hb0.
  - by rewrite app_nil_r.
  - rewrite (proj2 (Z.eqb_neq b 0)) by lia. unfold push_char. rewrite (proj2 (Z.ltb_lt b 0x80)) by lia.
    rewrite IH; [by rewrite <-app_assoc|lia|cbn in Hf; lia| |].
    + intros y Hy. apply Hok. cbn [length]. lia.
    + unfold ubytes. rewrite <-Hrest. do 2 f_equal; lia.
Qed.

Lemma read_user_str_run k p a s : running k p → string_at (kmem k) (kroot k) a s → read_user_str a k = Ret (Some s, k).
Proof.
  intros Hr [Ha Hl Hok Hbs]. unfold read_user_str. rewrite (read_user_str_loop k p a (bytes_of s)); try done.
  - cbn [app]. by rewrite string_of_bytes_of.
  - rewrite length_bytes_of. lia.
  - by rewrite Z.add_0_r, length_bytes_of.
  - by rewrite Z.add_0_r, length_bytes_of.
Qed.

(** A vector of strings that a null pointer ends. *)
Fixpoint strings_at (m : mem) (root a : Z) (l : list string) : Prop :=
  match l with
  | [] => word_at m root a 0
  | s :: l' => ∃ ptr, word_at m root a ptr ∧ ptr ≠ 0 ∧ string_at m root ptr s ∧ strings_at m root (a + 8) l'
  end.

Lemma read_user_strs_run k p a : running k p → ∀ l fuel i, 0 ≤ a → 0 ≤ i → i + Z.of_nat (length l) < 2 ^ 32 → (length l < fuel)%nat →
  strings_at (kmem k) (kroot k) (a + i * 8) l → read_user_strs fuel a i k = Ret (l, k).
Proof.
  intros Hr. induction l as [|s l IH]; intros fuel i Ha Hi Hi' Hf Hs; (destruct fuel as [|fuel]; [cbn in Hf; lia|]);
    cbn [read_user_strs strings_at length] in *.
  all: assert (∀ w, word_at (kmem k) (kroot k) (a + i * 8) w → a +w i *w 8 = a + i * 8) as Haddr
    by (intros w Hw; destruct (wa_ok _ _ _ _ Hw (a + i * 8) ltac:(lia)) as [? _];
        rewrite (wrap64_small (i * 8)) by (unfold in_usize; lia); apply wrap64_small; unfold in_usize; lia).
  - unfold bind. rewrite (Haddr 0), (read_user_u64_run k p _ 0) by done. done.
  - destruct Hs as (ptr & Hw & Hne & Hstr & Hrest). unfold bind. rewrite (Haddr ptr), (read_user_u64_run k p _ ptr) by done.
    rewrite (proj2 (Z.eqb_neq ptr 0)) by done. rewrite (read_user_str_run k p _ s) by done.
    cbn [length] in *. rewrite IH; [done|done|lia|lia|lia|by replace (a + (i + 1) * 8) with (a + i * 8 + 8) by lia].
Qed.
End Strings.

(** ** [execve] *)

Section Execve.
Context {NS : Type} `{NetStack NS}.
Context (elf_new : list Z → option ElfFile).
Implicit Types k : kernel NS.

(** The environment [sys_execve] passes on. *)
Definition exec_env (envp : list string) : list string := if has_path envp then envp else envp ++ ["PATH=/bin"].

(** The process after a successful [exec_process]. *)
Definition exec_image (pt : PageTable) (elf : ElfFile) (p : Process) : Process :=
  sp_trap_frame (set_reg 2 STACK_TOP (set_sstatus user_sstatus (set_sepc (entry_point elf) (p_trap_frame p))))
    (sp_brk (initial_brk (segs_end (program_iter elf) 0)) (sp_page_table pt p)).

(** The arguments of [execve] in user memory, and the file it names. *)
Record exec_args k (a0 a1 a2 : Z) (path : string) (argv envp : list string) (d : list Z) : Prop := {
  ea_path : string_at (kmem k) (kroot k) a0 path;
  ea_argv : strings_at (kmem k) (kroot k) a1 argv;
  ea_envp : strings_at (kmem k) (kroot k) a2 envp;
  ea_a1 : 0 ≤ a1;
  ea_a2 : 0 ≤ a2;
  ea_file : fs_files (k_fs k) !! path = Some (MkFile (Static d))
}.

Lemma sys_execve_run k p a0 a1 a2 path argv envp d elf : running k p → exec_args k a0 a1 a2 path argv envp d →
  program_ok elf_new d elf argv (exec_env envp) → room_ok d elf (k_mm k) →
  ∃ pt s', sys_execve elf_new a0 a1 a2 k = Ret (0,
      sk_satp (satp_of pt) (sk_ctf (set_reg 10 (Z.of_nat (length argv)) (set_reg 2 STACK_TOP (set_sepc (entry_point elf) (k_ctf k))))
        (set_proc (k_current k) (exec_image pt elf p) (sk_mm s' k)))) ∧
    image_loaded (root_ppn pt) s' elf d argv (exec_env envp).
Proof.
  intros Hr [Hpa Har Hen H1 H2 Hf] Hpo Hro. pose proof (po_args _ _ _ _ _ Hpo) as Hargs.
  assert (length argv + length envp ≤ 12)%nat as Hlen.
  { unfold exec_env in Hargs. destruct (has_path envp); rewrite ?length_app in Hargs; lia. }
  destruct (wp_run _ _ _ (exec_process_spec elf_new p d elf argv (exec_env envp) (k_mm k) Hpo Hro))
    as (r & s' & E & pt & -> & _ & Hil). exists pt, s'. split; [|done].
  unfold sys_execve. rewrite (bind_run _ _ _ _ _ (read_user_str_run k p a0 path Hr Hpa)).
  rewrite (bind_run _ _ _ _ _ (read_user_strs_run k p a1 Hr argv 129 0 H1 ltac:(lia) ltac:(lia) ltac:(lia) ltac:(by rewrite Z.mul_0_l, Z.add_0_r))).
  rewrite (bind_run _ _ _ _ _ (read_user_strs_run k p a2 Hr envp 129 0 H2 ltac:(lia) ltac:(lia) ltac:(lia) ltac:(by rewrite Z.mul_0_l, Z.add_0_r))).
  assert (on_fs (get_file_data path) k = Ret (Some d, k)) as Efs.
  { unfold on_fs, zoom, get_file_data, gets. rewrite Hf. cbn [data]. by rewrite sk_fs_id. }
  rewrite (bind_run _ _ _ _ _ Efs). fold (exec_env envp).
  assert (with_current_proc (λ proc, on_mm (exec_process elf_new proc d argv (exec_env envp))) k =
    Ret (Some (Some STACK_TOP), set_proc (k_current k) (exec_image pt elf p) (sk_mm s' k))) as Erun.
  { eapply with_current_proc_run; [apply Hr|]. unfold on_mm, zoom. by rewrite E. }
  rewrite (bind_run _ _ _ _ _ Erun). cbn [mjoin option_join].
  unfold gets, bind, modify, ret, cur_proc, set_proc. cbn [k_procs k_current sk_procs sk_ctf sk_mm k_ctf].
  rewrite !lookup_insert, !decide_True by done. done.
Qed.

(** C2: [execve] starts the program. When a process traps with the number of
    [execve], a path that names an executable file of the file system, and
    argument and environment vectors in its memory, and the loader has room,
    the handler returns a frame whose program counter is the entry point and
    whose stack pointer is the new stack, with every other register but [a0]
    unchanged; [satp] holds the new page table, in which the program, its stack
    and its arguments are loaded, with [PATH] added to the environment if it
    was missing; the other processes, the files and the descriptors stay as
    they are. *)
Theorem execve_starts_program tf p path argv envp d elf k : running k p → length (x tf) = 32%nat →
  x tf !!! 17%nat = 221 → exec_args k (x tf !!! 10%nat) (x tf !!! 11%nat) (x tf !!! 12%nat) path argv envp d →
  program_ok elf_new d elf argv (exec_env envp) → room_ok d elf (k_mm k) →
  wp (rust_trap_handler elf_new 8 tf) k (λ tf' k', ∃ pt,
    tf' = {| x := <[10%nat := 0]> (x tf); orig_sp := STACK_TOP; sepc := entry_point elf; sstatus := sstatus tf |} ∧
    k_satp k' = satp_of pt ∧ image_loaded (root_ppn pt) (k_mm k') elf d argv (exec_env envp) ∧
    k_procs k' = <[k_current k := exec_image pt elf p]> (k_procs k) ∧
    k_fs k' = k_fs k ∧ k_fdt k' = k_fdt k ∧ k_pipes k' = k_pipes k).
Proof.
  intros Hr Hlen Hnum Ha Hpo Hro. unfold rust_trap_handler.
  change (Z.land 8 (not64 (Z.shiftl 1 63))) with 8. apply wp_bind, wp_modify. cbn [Z.eqb Pos.eqb orb]. rewrite Hnum.
  cbn [Z.eqb Pos.eqb andb]. apply wp_bind, wp_ret.
  set (k1 := sk_ctf _ k).
  destruct (sys_execve_run k1 p (x tf !!! 10%nat) (x tf !!! 11%nat) (x tf !!! 12%nat) path argv envp d elf)
    as (pt & s' & E & Hil).
  { by destruct Hr. } { by destruct Ha. } { done. } { done. }
  apply wp_bind. eapply wp_of_run; [exact E|]. cbn [Z.eqb andb]. apply wp_bind, wp_gets, wp_ret. exists pt.
  split; [|done]. unfold set_raw_sepc, set_orig_sp, set_x. cbn [x orig_sp sepc sstatus k_ctf sk_satp sk_ctf tf_sepc set_reg set_regs set_sepc tf_regs k1 set_sstatus].
  f_equal; [by rewrite list_insert_insert_eq|].
  rewrite list_lookup_total_insert_ne by done. rewrite list_lookup_total_insert_eq; [done|].
  rewrite length_insert. lia.
Qed.
End Execve.

(** *** A process about to call [execve] *)

Definition exec_data : list Z := bytes_of "/sh" ++ replicate 5 0 ++ le_bytes 8 0x10001 ++ le_bytes 8 0.
Definition exec_proc (pt : PageTable) : Process := sp_page_table pt demo_process.
Definition exec_kernel (pt : PageTable) (s : mm) : kernel toy_stack :=
  sk_satp (satp_of pt) (set_proc 1 (exec_proc pt)
    (sk_fs (MkFs {["/sh" := MkFile (Static demo_image)]} 2 {[1 := "/sh"]}) (demo_kernel s))).
Definition exec_frame : TrapFrameRaw := {|
  x := <[17%nat := 221]> (<[12%nat := 0x10010]> (<[11%nat := 0x10008]> (<[10%nat := 0x10000]> (replicate 32 0))));
  orig_sp := 0x3ffffff000; sepc := 0x20000; sstatus := 0x2020
|}.

Lemma ubytes_sub m root a off n N : (off + n ≤ N)%nat →
  ubytes m root (a + Z.of_nat off) n = take n (drop off (ubytes m root a N)).
Proof.
  intros Hn. apply list_eq. intros i. unfold ubytes. rewrite lookup_take, lookup_drop, !list_lookup_fmap.
  case_decide as Hi.
  - rewrite !lookup_seqZ_lt by lia. cbn. f_equal. f_equal. lia.
  - by rewrite lookup_seqZ_ge by lia.
Qed.

(** An address space with the kernel regions and a zeroed user page at 0x10000. *)
Lemma user_space : ∃ pt s, as_inv (root_ppn pt) s ∧ satp_root (satp_of pt) = root_ppn pt ∧
  cur s ≤ 0x80400000 + 138 * 4096 ∧ page_end (mm_pages s) = 0x88000000 ∧ mm_heap s = mm_heap demo_mm ∧
  page_is (root_ppn pt) s 0x10 stack_flags (λ _, 0) ∧
  (∀ v, 0x80000 ≤ v < 0x88000 → view (mm_mem s) (root_ppn pt) v = kernel_view v) ∧
  (∀ v e, vpn_ok v → user_entry (mm_mem s) (root_ppn pt) v = Some e → 0x80000 ≤ pte_ppn e < 0x88000).
Proof.
  destruct (wp_run _ _ _ (fresh_space_spec demo_mm ltac:(by repeat split) ltac:(done)))
    as (o & s1 & _ & pt & -> & Hroot & Hinv & Hc & He & Hh & _ & _ & Hv).
  pose proof (as_inv_kernel _ _ Hinv Hv) as Hs1. change (cur demo_mm) with 0x80400000 in Hc, Hroot.
  change (page_end (mm_pages demo_mm)) with 0x88000000 in He.
  destruct (wp_run _ _ _ (alloc_map_page pt 0x10000 stack_flags 0x10 s1 eq_refl ltac:(done) stack_flags_user
    Hs1 eq_refl ltac:(by rewrite Hv) ltac:(lia))) as (o & s & _ & _ & Hf & Hp & Hu & Hppn).
  exists pt, s. pose proof (fp_cur _ _ _ _ _ Hf) as Hcur. split_and!; [apply Hf| | | | |done| |].
  - apply satp_of_spec. rewrite Hroot. by vm_compute.
  - lia.
  - by rewrite (ext_end _ _ _ (fp_ext _ _ _ _ _ Hf)).
  - by rewrite (ext_heap _ _ _ (fp_ext _ _ _ _ _ Hf)), Hh.
  - intros v Hvr. rewrite (fp_view _ _ _ _ _ Hf), decide_False by (unfold vpn_ok; lia). apply Hv. unfold vpn_ok. lia.
  - intros v e Hvk Hue. destruct (decide (v = 0x10)) as [->|Hne].
    + rewrite Hu in Hue. injection Hue as <-. lia.
    + exfalso. pose proof Hue as Hve%user_entry_view. rewrite (fp_view _ _ _ _ _ Hf), decide_False, Hv in Hve by done.
      unfold user_entry in Hue. rewrite (fp_view _ _ _ _ _ Hf), decide_False, Hv, Hve in Hue by done.
      by rewrite (kernel_view_no_user v e Hvk Hve) in Hue.
Qed.

Lemma exec_space : ∃ pt s, running (exec_kernel pt s) (exec_proc pt) ∧ room_ok demo_image demo_elf s ∧
  exec_args (exec_kernel pt s) 0x10000 0x10008 0x10010 "/sh" ["sh"] [] demo_image.
Proof.
  destruct user_space as (pt & s & Hs & Hroot & Hc & He & Hh & Hp & Hk & Hfr).
  assert (∀ acc va n, 0x10000 ≤ va → va + n ≤ 0x11000 → user_range (mm_mem s) (root_ppn pt) acc va n) as Hr.
  { intros acc va n Hlo Hhi a Ha. eapply page_is_ok; [exact Hp|dlia|lia|set_solver]. }
  destruct (st_bytes_run exec_data 0x10000 (exec_kernel pt s)) as (m' & _ & Hst).
  { change (k_satp (exec_kernel pt s)) with (satp_of pt). by rewrite Hroot. }
  { repeat constructor; done. }
  { change (k_satp (exec_kernel pt s)) with (satp_of pt). rewrite Hroot. apply Hr; [lia|]. by vm_compute. }
  change (k_satp (exec_kernel pt s)) with (satp_of pt) in Hst. change (k_mm (exec_kernel pt s)) with s in Hst.
  rewrite Hroot in Hst. pose proof (stored_bytes _ _ _ _ _ Hst Hs (Hr AWrite 0x10000 24 ltac:(lia) ltac:(lia))) as Hb.
  change (length exec_data) with 24%nat in Hb.
  assert (∀ off n, (off + n ≤ 24)%nat → ubytes m' (root_ppn pt) (0x10000 + Z.of_nat off) n = take n (drop off exec_data)) as Hsub.
  { intros off n Hn. by rewrite (ubytes_sub _ _ _ _ _ 24), Hb. }
  assert (∀ acc va n, 0x10000 ≤ va → va + n ≤ 0x11000 → user_range m' (root_ppn pt) acc va n) as Hr'.
  { intros acc va n Hlo Hhi. eapply stored_range; [exact Hst|by apply Hr]. }
  exists pt, (set_mem m' s). split; [|split].
  - assert (∀ w, user_entry m' (root_ppn pt) w = user_entry (mm_mem s) (root_ppn pt) w) as Hue
      by (intros w; unfold user_entry; by rewrite (st_view _ _ _ _ _ Hst)).
    split; change (k_satp (exec_kernel pt (set_mem m' s))) with (satp_of pt); rewrite ?Hroot.
    + done.
    + done.
    + apply Hst.
    + intros v Hv. rewrite <-Hk by done. apply (st_view _ _ _ _ _ Hst).
    + intros v e Hv Hu. change (kmem (exec_kernel pt (set_mem m' s))) with m' in Hu. rewrite Hue in Hu. by apply (Hfr v).
  - pose proof (st_inv _ _ _ _ _ Hst) as [[_ Hpg] _ _].
    split; change (mm_heap (set_mem m' s)) with (mm_heap s); change (mm_pages (set_mem m' s)) with (mm_pages s);
      change (cur (set_mem m' s)) with (cur s); rewrite ?Hh, ?He; try done.
    + change (total_pages (program_iter demo_elf)) with 2. lia.
    + change (total_pages (program_iter demo_elf)) with 2. change (heap_current (mm_heap demo_mm)) with 0x86000000. lia.
  - assert (∀ off w, (off + 8 ≤ 24)%nat → in_usize w → (0x10000 + Z.of_nat off) mod 4096 ≤ 4088 →
      take 8 (drop off exec_data) = le_bytes 8 w → word_at m' (root_ppn pt) (0x10000 + Z.of_nat off) w) as Hword.
    { intros off w Hoff Hw Hpg Hbs. split; [done|done|apply Hr'; lia|]. by rewrite Hsub. }
    assert (∀ off str, (off + S (String.length str) ≤ 24)%nat → Forall (λ b, 0 < b < 128) (bytes_of str) →
      take (S (String.length str)) (drop off exec_data) = bytes_of str ++ [0] →
      string_at m' (root_ppn pt) (0x10000 + Z.of_nat off) str) as Hstr.
    { intros off str Hoff Ha Hbs. split; [done|lia|apply Hr'; lia|]. by rewrite Hsub. }
    split; change (k_satp (exec_kernel pt (set_mem m' s))) with (satp_of pt); rewrite ?Hroot;
      change (kmem (exec_kernel pt (set_mem m' s))) with m'; try done.
    + apply (Hstr 0%nat); [cbn; lia|by refine (bool_decide_unpack _ _); vm_compute|done].
    + exists 0x10001. split; [apply (Hword 8%nat); [lia|done|by vm_compute|done]|]. split; [done|]. split.
      * apply (Hstr 1%nat); [cbn; lia|by refine (bool_decide_unpack _ _); vm_compute|done].
      * apply (Hword 16%nat); [lia|done|by vm_compute|done].
    + apply (Hword 16%nat); [lia|done|by vm_compute|done].
Qed.

Lemma execve_starts_program_witness : ∃ pt0 s, let k := exec_kernel pt0 s in
  wp (rust_trap_handler demo_elf_new 8 exec_frame) k (λ tf' k', ∃ pt,
    tf' = {| x := <[10%nat := 0]> (x exec_frame); orig_sp := STACK_TOP; sepc := 0x10000; sstatus := 0x2020 |} ∧
    k_satp k' = satp_of pt ∧ image_loaded (root_ppn pt) (k_mm k') demo_elf demo_image ["sh"] ["PATH=/bin"] ∧
    k_procs k' = <[1 := exec_image pt demo_elf (exec_proc pt0)]> (k_procs k) ∧
    k_fs k' = k_fs k ∧ k_fdt k' = k_fdt k ∧ k_pipes k' = k_pipes k).
Proof.
  destruct exec_space as (pt0 & s & Hr & Hro & Ha). exists pt0, s.
  apply (execve_starts_program demo_elf_new exec_frame (exec_proc pt0) "/sh" ["sh"] [] demo_image demo_elf (exec_kernel pt0 s)).
  - exact Hr.
  - reflexivity.
  - reflexivity.
  - exact Ha.
  - apply demo_program_ok.
  - exact Hro.
Defined.

(** ** Returning from a system call *)

Section Return.
Context {NS : Type} `{NetStack NS}.
Context (elf_new : list Z → option ElfFile).
Implicit Types k : kernel NS.

(** The kernel when [dispatch] is called for the frame [tf]. *)
Definition entered (tf : TrapFrameRaw) k : kernel NS :=
  let k1 := sk_ctf (set_sstatus (sstatus tf) (set_sepc (sepc tf) (set_reg 2 (orig_sp tf) (set_regs (x tf) (k_ctf k))))) k in
  if x tf !!! 17%nat =? 57 then sk_last_tp (x tf !!! 4%nat) k1 else k1.

Definition syscall_args (l : list Z) : list Z :=
  [l !!! 10%nat; l !!! 11%nat; l !!! 12%nat; l !!! 13%nat; l !!! 14%nat; l !!! 15%nat].

(** The registers with which the caller of a system call goes on. *)
Definition user_return (c : cpu) (r : Z) : cpu := {|
  c_x := <[10%nat := as_usize r]> (c_x c); c_sscratch := c_sscratch c; c_sepc := c_sepc c +w 4; c_sstatus := c_sstatus c
|}.

(** The same registers in the process table. *)
Definition saved_return (c : cpu) (r : Z) (q : Process) : Prop :=
  tf_regs (p_trap_frame q) = c_x (user_return c r) ∧ tf_sepc (p_trap_frame q) = c_sepc (user_return c r) ∧
  tf_sstatus (p_trap_frame q) = c_sstatus (user_return c r).

Lemma handler_returns tf k r k2 : x tf !!! 17%nat ≠ 221 → x tf !!! 17%nat ≠ 260 →
  dispatch elf_new (x tf !!! 17%nat) (syscall_args (x tf)) (entered tf k) = Ret (r, k2) →
  rust_trap_handler elf_new 8 tf k = Ret (set_x 10 (as_usize r) (set_raw_sepc (sepc tf +w 4) tf), k2).
Proof.
  intros H1 H2 E. unfold rust_trap_handler. change (Z.land 8 (not64 (Z.shiftl 1 63))) with 8.
  unfold bind at 1, modify at 1. cbn [Z.eqb Pos.eqb orb]. unfold entered, syscall_args in E.
  rewrite (proj2 (Z.eqb_neq _ 221)), (proj2 (Z.eqb_neq _ 260)) by done. cbn [andb].
  destruct (x tf !!! 17%nat =? 57); unfold bind, modify, ret; by rewrite E.
Qed.

(** The frame [trap_entry] stores, after the handler. *)
Definition return_frame (c : cpu) (r : Z) : TrapFrameRaw :=
  set_x 10 (as_usize r) (set_raw_sepc (c_sepc c +w 4) (entry_frame c)).

Lemma return_frame_ok c r : cpu_ok c → raw_ok (return_frame c r).
Proof.
  intros Hc. destruct (entry_frame_ok c Hc) as (Hl & Hx & Ho & Hp & Hs). split_and!; cbn [return_frame set_x set_raw_sepc x orig_sp sepc sstatus].
  - by rewrite length_insert.
  - apply Forall_insert; [done|]. apply wrap64_range.
  - done.
  - apply wrap64_range.
  - done.
Qed.

Lemma return_regs c r : cpu_ok c →
  <[2%nat := c_x c !!! 2%nat]> (x (return_frame c r)) = <[10%nat := as_usize r]> (c_x c).
Proof.
  intros [Hl _ _ _ _]. cbn [return_frame set_x set_raw_sepc x entry_frame].
  rewrite list_insert_insert_ne, list_insert_insert_eq by done. f_equal.
  apply list_insert_id. apply list_lookup_lookup_total_lt. lia.
Qed.

Lemma return_exit c r m sp : cpu_ok c → sp + 288 = c_sscratch c →
  trap_exit (wr_raw m sp (return_frame c r)) sp = user_return c r.
Proof.
  intros Hc Hsp. rewrite trap_exit_raw, rd_raw_wr by by apply return_frame_ok. cbv zeta. unfold user_return.
  change (orig_sp (return_frame c r)) with (c_x c !!! 2%nat). rewrite <-(return_regs c r Hc). f_equal; [|done].
  f_equal. apply list_insert_id. cbn [return_frame set_x set_raw_sepc x entry_frame].
  rewrite !list_lookup_insert_ne by done. apply Hc.
Qed.

End Return.

Definition getpid_cpu : cpu := {|
  c_x := <[17%nat := 172]> (c_x duo_cpu); c_sscratch := 0x80402000; c_sepc := 0x10000; c_sstatus := 0x2020
|}.
Definition getpid_kernel : kernel toy_stack := entered (entry_frame getpid_cpu) (trapped getpid_cpu duo).


(** ** Waiting for a child *)

Section Wait.
Context {NS : Type} `{NetStack NS}.
Context (elf_new : list Z → option ElfFile).
Implicit Types k : kernel NS.

Lemma sys_wait4_none pid wstatus options rusage k : (∀ cpid z, ¬ dead_child k pid cpid z) →
  Z.testbit options 0 = false → sys_wait4 pid wstatus options rusage k = Ret (-11, k).
Proof.
  intros Hno Hopt. unfold sys_wait4, gets. unfold bind at 1. unfold bind at 1.
  destruct (bt_find _ _) as [[cpid z]|] eqn:E.
  - apply bt_find_Some in E as (Hl & Hz & _). by apply (reapable_spec k pid cpid z Hl), Hno in Hz.
  - unfold ret. assert (Z.land options 1 = 0) as ->; [|done].
    change 1 with (Z.ones 1). rewrite Z.land_ones by lia. change (2 ^ 1) with 2.
    pose proof (Z.bit0_mod options) as Hb. rewrite Hopt in Hb. by rewrite <-Hb.
Qed.

(** C37: a blocked [wait4] forgets which child it waits for. When no dead child
    matches and WNOHANG is not set, the handler marks the process as waiting
    and moves the program counter back, so that the call is made again; but it
    also puts -11 in [a0], the register of the pid argument: the repeated call
    accepts every dead child, whatever pid was asked for. *)
Theorem wait4_retry_any_child tf p k : length (x tf) = 32%nat → in_usize (sepc tf) →
  x tf !!! 17%nat = 260 → Z.testbit (as_isize (x tf !!! 12%nat)) 0 = false →
  cur_proc k = Some p → (∀ cpid z, ¬ dead_child k (as_isize (x tf !!! 10%nat)) cpid z) →
  ∃ tf' k', rust_trap_handler elf_new 8 tf k = Ret (tf', k') ∧
    tf' = set_x 10 (2 ^ 64 - 11) tf ∧ cur_proc k' = Some (sp_state Waiting p) ∧
    (∀ k2 cpid z, k_procs k2 !! cpid = Some z → p_ppid z = k_current k2 → p_state z = Zombie →
       dead_child k2 (as_isize (x tf' !!! 10%nat)) cpid z).
Proof.
  intros Hlen Hpc Hnum Hopt Hp Hno. exists (set_x 10 (2 ^ 64 - 11) tf).
  set (k1 := sk_ctf (set_sstatus (sstatus tf) (set_sepc (sepc tf) (set_reg 2 (orig_sp tf) (set_regs (x tf) (k_ctf k))))) k).
  exists (set_proc (k_current k) (sp_state Waiting p) k1). split_and!; [|done| |].
  - unfold rust_trap_handler. change (Z.land 8 (not64 (Z.shiftl 1 63))) with 8.
    unfold bind at 1, modify at 1. cbn [Z.eqb Pos.eqb orb]. rewrite Hnum. cbn [Z.eqb Pos.eqb andb].
    unfold bind at 1, ret at 1. fold k1.
    assert (dispatch elf_new 260 (syscall_args (x tf)) k1 = Ret (-11, k1)) as E
      by exact (sys_wait4_none _ (x tf !!! 11%nat) _ (x tf !!! 13%nat) k1 Hno Hopt).
    unfold syscall_args in E. rewrite (bind_run _ _ _ _ _ E).
    cbn [Z.eqb Pos.eqb]. unfold bind at 1, gets, id. change (cur_proc k1) with (cur_proc k). rewrite Hp.
    unfold bind, modify, ret. do 2 f_equal. unfold set_x, set_raw_sepc. cbn [x orig_sp sepc sstatus].
    f_equal. unfold wrap64, in_usize in *. rewrite Zminus_mod_idemp_l. rewrite Z.mod_small by lia. lia.
  - unfold cur_proc, set_proc. cbn. by rewrite lookup_insert, decide_True.
  - intros k2 cpid z Hz Hpp Hst. unfold dead_child. split_and!; try done.
    unfold set_x. cbn [x]. rewrite list_lookup_total_insert_eq by lia. intros Hpos. by vm_compute in Hpos.
Qed.
End Wait.

Definition wait_frame : TrapFrameRaw := {|
  x := <[17%nat := 260]> (<[10%nat := 2]> (replicate 32 0)); orig_sp := 0x3ffffff000; sepc := 0x20000; sstatus := 0x2020
|}.

Lemma wait4_retry_any_child_witness : ∃ tf' k', rust_trap_handler demo_elf_new 8 wait_frame duo = Ret (tf', k') ∧
  tf' = set_x 10 (2 ^ 64 - 11) wait_frame ∧ cur_proc k' = Some (sp_state Waiting demo_process) ∧
  (∀ (k2 : kernel toy_stack) cpid z, k_procs k2 !! cpid = Some z → p_ppid z = k_current k2 → p_state z = Zombie →
     dead_child k2 (as_isize (x tf' !!! 10%nat)) cpid z).
Proof.
  apply (wait4_retry_any_child demo_elf_new wait_frame demo_process duo).
  - reflexivity.
  - done.
  - reflexivity.
  - reflexivity.
  - reflexivity.
  - intros cpid z (Hz & _ & Hst & Hpid). specialize (Hpid ltac:(done)). subst cpid. vm_compute in Hz.
    injection Hz as <-. discriminate Hst.
Defined.
